(* ===== verification/_CoqProject ===== *)
-Q . S2P
Prelude.v
GoStrings.v
GoTime.v
GoCodec.v
GoNet.v
GoConv.v
GoFlag.v
GoMemory.v
Platform.v
Instances.v
Api.v
DeepCopy.v
Effects.v
Kube.v
Metrics.v
A2S.v
Sidecar.v
Cron.v
Windows.v
Builders.v
Config.v
Backup.v
Vpa.v
Guards.v
Controller.v
Webhook.v
Manager.v
ManagerTheory.v
Footprint.v
Samples.v
DeepCopyTheory.v
Safety.v
Rbac.v
Termination.v
Ordering.v
Pruning.v
Status.v
Objects.v
ConfigTheory.v
MetricsTheory.v
SidecarTheory.v
SidecarMain.v
WindowTheory.v
Admission.v
Divergences.v
Cluster.v
Memory.v
Targets.v
Convergence.v
Deletion.v
System.v
Events.v
Names.v
