(* ===== verification/Prelude.v ===== *)
(** * The Enshrouded operator, verified

    This library models the Kubernetes operator for Enshrouded game servers: the
    controller that keeps a StatefulSet, a volume and their companions for every
    [EnshroudedServer], the admission webhooks that guard the resource, the
    metrics sidecar that queries the game over UDP and reports players back, the
    operator's Prometheus collector, and the two binaries that run them.

    ** The program and how its parts interact

    A user creates an [EnshroudedServer] ([api/v1alpha1]).  The mutating and
    validating webhooks ([internal/webhook/v1alpha1]) complete and check it.  The
    reconciler ([internal/controller]) reads it and writes the objects it owns; it
    reads Secrets for passwords, the clock for maintenance windows, and the field
    [status.activePlayers], which the sidecar ([cmd/metrics-sidecar]) patches after
    every A2S query, to decide whether an update may restart the pod.  It reports
    phase and replicas in the status and through [internal/metrics].  The manager
    binary ([cmd/main.go]) reads its flags, registers index, watches and webhooks,
    and starts; a change of a watched object becomes a request to reconcile.

    ** How code becomes definitions

    Both processes talk to an environment they do not control.  A program is a tree
    of calls ([Effects.prog]): a value, a call with a continuation, a Go panic, or
    the end of the fuel of an unbounded loop.  [runs] are its finite interactions
    with an environment, [wp] the program logic, [calls_only] its special case for
    guarantees on every call.  Go functions keep their names; [(T, error)] is
    [result T], [error] alone is [option error], [if err := f(); err != nil] is the
    notation [;;?], pointers are options, maps [gmap], unstructured objects JSON
    trees, integers [Z] with the wrap-around of their width where it can happen.
    Code outside the repository (quantities, finalizers, owner references, status
    conditions, unstructured accessors, [sort.Slice], gauge vectors, time zones,
    Unicode tables) is a parameter: an operational class in [Platform.v],
    [GoTime.v] or [GoStrings.v], with its documented behaviour as the laws of a
    second class.  [Instances.v] has a model of every class that satisfies the laws
    and computes (classes used in one place have theirs beside the theorems).  Of
    the standard library, strings and UTF-8, [strconv], [time.ParseDuration],
    [net.ParseIP], [flag], [encoding/json] strings, hex and SHA-256 are written out.
    Pure values stand for Go structs; where sharing matters, in the generated deep
    copies, the structs lie in a heap of typed cells and pointers are locations.

    ** Files

    Foundations: [Prelude] (this file), [GoStrings], [GoTime], [GoCodec], [GoNet],
    [GoConv], [GoFlag] (command line and environment), [GoMemory] (heap, pointers,
    slices, maps, and what a deep copy is), [Platform], [Instances], [Effects].

    Data: [Api] (enshroudedserver_types.go), [DeepCopy] (the same types in memory and
    zz_generated.deepcopy.go), [Kube] (the objects and the calls of the client, the
    effect of the controller).

    Operations:
    - [Metrics]: [SetServerMetrics], [DeleteServerMetrics] (collector.go).
    - [A2S]: request and response packets; [Sidecar]: configuration, UDP exchange,
      scrape, status patch, loop (main.go of the sidecar).
    - [Cron], [Windows]: [inWindow] and its tokenizers, [isInMaintenanceWindow].
    - [Builders]: [buildStatefulSet], Service, NetworkPolicy, budget, RBAC objects,
      sidecar containers; [Config]: the generated configuration Secret.
    - [Backup]: snapshots, pruning, the snapshot before an update; [Vpa]: vertical
      scaling; [Guards]: disruption budget and sidecar RBAC.
    - [Controller]: [Reconcile], [handleDeletion], StatefulSet, Service, policy and
      status reconcilers, Secret index and mapping.
    - [Webhook]: [Default], [ValidateCreate], [ValidateUpdate], [ValidateDelete].
    - [Manager]: flags, server options, [SetupWithManager] and the start-up sequence
      of cmd/main.go; [SidecarMain]: [main], [buildK8sClient] and the HTTP routes of
      the sidecar, with the theorems about them.

    Theorems:
    - [Footprint]: the abstract specification of the reconciler, [may_call], every
      call it can make with the object written, and the proof that the code stays
      within it against any API server that answers for the object asked for.
      [Safety] and [Rbac] draw the consequences: deferral, volumes, ownership,
      sidecar fields, budgets, memory, Secret watches, permissions.
    - [Cluster], [Memory], [Targets], [Convergence]: an API server as a store, what
      each reconciler establishes in it, and that one [Reconcile] settles the
      cluster and the next one changes nothing.
    - [Termination]: no panic and no endless poll; [Ordering]: what has to happen
      before irreversible steps; [Pruning], [Status]: retention, best-effort
      snapshots, status and requeueing.
    - [Objects], [ConfigTheory]: the built objects fit together, the pod restarts
      when passwords change; [MetricsTheory]: one phase series per server.
    - [SidecarTheory]: the A2S grammar, the exchange, gauges, panics and patches.
    - [WindowTheory], [Admission]: meaning of windows and of Secret events;
      defaulting, validation and storage.
    - [Deletion]: in the same store, deletion completes; [System]: operator, sidecar
      and users interleaved on one server object, with stale reads, conflicts, lost
      answers and restarts: who changes which field, and what stays well-formed.
    - [ManagerTheory]: meaning of a command line, order of start-up, servers closed by
      default; [Events]: changes of owned objects wake the controller; [Names]:
      derived names and labels stay within the limits of Kubernetes.
    - [DeepCopyTheory]: every generated copy is deep, and the base of the sidecar's
      patch survives the assignments to the server.
    - [Samples]: concrete servers and clusters for the witnesses; [Divergences]:
      behaviours that differ from what the source's comments say.

    ** Bounds

    [pollSnapshot] takes fuel, one unit per evaluation of its condition.  The source
    polls every 10 seconds for at most 3 minutes, so 19 units are enough on a clock
    that advances with [Sleep]; [Termination.v] proves it for any larger fuel.
    [receive] takes fuel per packet; [query_returns] shows that more fuel than
    packets before the deadline is enough.  [ParseDuration] recurses on fuel equal to
    the length of its input, of which each step consumes a part, and so does
    [GoFlag.Parse] on the number of arguments ([parse_loop_fuel]).  [scrapeLoop n] and
    [mainLoop n] are [n] ticks of the sidecar's endless loop.

    ** What is not modelled

    Logging; contexts and cancellation; leader election and the work queue of
    controller-runtime, of which only the requests an event makes are described; the
    text of [/metrics] and the redirects of the HTTP mux; the JSON of a merge patch,
    which is the set of fields that differ.  A controller program is sequential; the
    interleaving of [System] is call by call on one server object, the sidecar's
    HTTP goroutine can end the process between ticks.  Convergence is proved for
    servers without scheduled snapshots, pre-update snapshots and vertical scaling.

    ** Plan

    Next: convergence with vertical scaling and with a snapshot controller; the work
    queue (requeueing, one worker per key) between [Events] and [Convergence]; a
    byte-level model of the generated JSON's reader. *)
From stdpp Require Export base gmap strings list fin_maps pretty.
From Stdlib Require Export ZArith Lia.

(** ** Go integers at their width *)

Declare Scope go_scope.
Delimit Scope go_scope with go.

(** Two's complement wrap-around of a signed [w]-bit integer. *)
Definition wrap (w : Z) (z : Z) : Z :=
  (z + 2 ^ (w - 1)) `mod` 2 ^ w - 2 ^ (w - 1).
Definition wrap32 : Z → Z := wrap 32.
Definition wrap64 : Z → Z := wrap 64.

Definition int32_ok (z : Z) : Prop := (-2147483648 ≤ z ≤ 2147483647)%Z.
Definition int64_ok (z : Z) : Prop :=
  (-9223372036854775808 ≤ z ≤ 9223372036854775807)%Z.

(** Goals about the range of an integer. *)
Ltac width := unfold int32_ok, int64_ok in *; lia.

Lemma wrap64_id z : int64_ok z → wrap64 z = z.
Proof.
  unfold int64_ok, wrap64, wrap. intros H.
  change (2 ^ (64 - 1))%Z with 9223372036854775808%Z.
  change (2 ^ 64)%Z with 18446744073709551616%Z.
  rewrite Z.mod_small; lia.
Qed.

Lemma wrap32_id z : int32_ok z → wrap32 z = z.
Proof.
  unfold int32_ok, wrap32, wrap. intros H.
  change (2 ^ (32 - 1))%Z with 2147483648%Z.
  change (2 ^ 32)%Z with 4294967296%Z.
  rewrite Z.mod_small; lia.
Qed.

Lemma wrap32_ok z : int32_ok (wrap32 z).
Proof.
  unfold int32_ok, wrap32, wrap.
  change (2 ^ (32 - 1))%Z with 2147483648%Z.
  change (2 ^ 32)%Z with 4294967296%Z.
  pose proof (Z.mod_pos_bound (z + 2147483648) 4294967296). lia.
Qed.

Lemma wrap64_ok z : int64_ok (wrap64 z).
Proof.
  unfold int64_ok, wrap64, wrap.
  change (2 ^ (64 - 1))%Z with 9223372036854775808%Z.
  change (2 ^ 64)%Z with 18446744073709551616%Z.
  pose proof (Z.mod_pos_bound (z + 9223372036854775808) 18446744073709551616). lia.
Qed.

(** ** Propositional and list helpers *)

Lemma and_iff_split (P Q P' Q' : Prop) : (P ↔ P') → (Q ↔ Q') → (P ∧ Q ↔ P' ∧ Q').
Proof. tauto. Qed.

Lemma or_iff_split (P Q P' Q' : Prop) : (P ↔ P') → (Q ↔ Q') → (P ∨ Q ↔ P' ∨ Q').
Proof. tauto. Qed.

Lemma app_nil_iff {A} (l1 l2 : list A) : l1 ++ l2 = [] ↔ l1 = [] ∧ l2 = [].
Proof. destruct l1; naive_solver. Qed.

Lemma if_nil {A} (b : bool) (x : A) : (if b then [x] else []) = [] ↔ b = false.
Proof. by destruct b. Qed.

(** Negated tests among the hypotheses, as equations on the test itself. *)
Ltac tidy :=
  repeat match goal with
  | H : negb _ = false |- _ => apply negb_false_iff in H
  | H : negb _ = true |- _ => apply negb_true_iff in H
  end.
