(* ===== verification/GoStrings.v ===== *)
(** * Go strings

    Go strings are byte sequences ([string], one [ascii] per byte).  This file
    models the language features the operator relies on: UTF-8 decoding by
    [for i, c := range s], conversion of a rune to a string, slicing, decimal
    formatting ([%d], [strconv.Itoa]), and quoting ([%q]). *)
From S2P Require Import Prelude.
From Stdlib Require Import Ascii.
Local Open Scope Z_scope.

(** ** Bytes *)

Definition bval (c : ascii) : Z := Z.of_N (N_of_ascii c).
Definition chr (z : Z) : ascii := ascii_of_N (Z.to_N z).

Lemma bval_chr z : 0 ≤ z < 256 → bval (chr z) = z.
Proof. intros H. unfold bval, chr. rewrite N_ascii_embedding; lia. Qed.

Lemma chr_bval c : chr (bval c) = c.
Proof. unfold bval, chr. rewrite N2Z.id. apply ascii_N_embedding. Qed.

Lemma bval_range c : 0 ≤ bval c < 256.
Proof. unfold bval. pose proof (N_ascii_bounded c). lia. Qed.

Lemma bval_inj c d : bval c = bval d → c = d.
Proof. intros H. rewrite <- (chr_bval c), <- (chr_bval d). by f_equal. Qed.

(** ** Concatenation, length and slices *)

Lemma str_app_nil_r s : s +:+ "" = s.
Proof. induction s as [|c s IH]; [done|]. unfold String.app in *. cbn. by f_equal. Qed.

Lemma str_app_assoc s1 s2 s3 : s1 +:+ (s2 +:+ s3) = (s1 +:+ s2) +:+ s3.
Proof.
  induction s1 as [|c s1 IH]; [done|]. unfold String.app in *. cbn. by f_equal.
Qed.

Lemma str_app_cons c s1 s2 : String c s1 +:+ s2 = String c (s1 +:+ s2).
Proof. done. Qed.

Lemma str_length_app s1 s2 :
  String.length (s1 +:+ s2) = (String.length s1 + String.length s2)%nat.
Proof. induction s1 as [|c s1 IH]; [done|]. rewrite str_app_cons. cbn. by f_equal. Qed.

(** [s[:n]] and [s[n:]] for [n <= len(s)]. *)
Fixpoint str_take (n : nat) (s : string) : string :=
  match n, s with
  | S n, String c s => String c (str_take n s)
  | _, _ => ""
  end.
Fixpoint str_drop (n : nat) (s : string) : string :=
  match n, s with
  | S n, String _ s => str_drop n s
  | _, _ => s
  end.

Lemma str_take_app s1 s2 : str_take (String.length s1) (s1 +:+ s2) = s1.
Proof. induction s1 as [|c s1 IH]; [by destruct s2|]. rewrite str_app_cons. cbn. by f_equal. Qed.

Lemma str_drop_app s1 s2 : str_drop (String.length s1) (s1 +:+ s2) = s2.
Proof. by induction s1 as [|c s1 IH]. Qed.

(** All bytes of a string, as a list. *)
Fixpoint bytes (s : string) : list ascii :=
  match s with "" => [] | String c s => c :: bytes s end.

Fixpoint of_bytes (l : list ascii) : string :=
  match l with [] => "" | c :: l => String c (of_bytes l) end.

Lemma bytes_app s1 s2 : bytes (s1 +:+ s2) = bytes s1 ++ bytes s2.
Proof. induction s1 as [|c s1 IH]; [done|]. rewrite str_app_cons. cbn. by f_equal. Qed.

Lemma of_bytes_bytes s : of_bytes (bytes s) = s.
Proof. induction s; cbn; congruence. Qed.

Lemma bytes_of_bytes l : bytes (of_bytes l) = l.
Proof. induction l; cbn; congruence. Qed.

Lemma str_app_inj_l s s1 s2 : s +:+ s1 = s +:+ s2 → s1 = s2.
Proof. induction s as [|c s IH]; [done|]. rewrite !str_app_cons. intros [= H]. auto. Qed.

Lemma str_app_inj_r s1 s2 s : s1 +:+ s = s2 +:+ s → s1 = s2.
Proof.
  intros H%(f_equal bytes). rewrite !bytes_app in H. apply app_inv_tail in H.
  by rewrite <- (of_bytes_bytes s1), H, of_bytes_bytes.
Qed.

(** ** UTF-8: one step of [range], and [string(rune)] *)

Definition rune_error : Z := 0xFFFD.

Definition in_range (lo hi : Z) (z : Z) : bool := (lo <=? z) && (z <=? hi).

Lemma in_range_true lo hi z : in_range lo hi z = true ↔ lo ≤ z ≤ hi.
Proof. unfold in_range. rewrite andb_true_iff, !Z.leb_le. lia. Qed.

Lemma in_range_false lo hi z : in_range lo hi z = false ↔ ¬ (lo ≤ z ≤ hi).
Proof. rewrite <- in_range_true. by destruct (in_range lo hi z). Qed.

(** [utf8.DecodeRuneInString]: the first rune and its width in bytes; an
    invalid encoding is [(RuneError, 1)]. *)
Definition decode_rune (s : string) : Z * nat :=
  match s with
  | "" => (rune_error, 0%nat)
  | String c0 s1 =>
    let b0 := bval c0 in
    if b0 <? 0x80 then (b0, 1%nat)
    else if in_range 0xC2 0xDF b0 then
      match s1 with
      | String c1 _ =>
        if in_range 0x80 0xBF (bval c1)
        then ((b0 - 0xC0) * 64 + (bval c1 - 0x80), 2%nat) else (rune_error, 1%nat)
      | _ => (rune_error, 1%nat)
      end
    else if in_range 0xE0 0xEF b0 then
      match s1 with
      | String c1 (String c2 _) =>
        if in_range (if b0 =? 0xE0 then 0xA0 else 0x80) (if b0 =? 0xED then 0x9F else 0xBF) (bval c1)
           && in_range 0x80 0xBF (bval c2)
        then ((b0 - 0xE0) * 4096 + (bval c1 - 0x80) * 64 + (bval c2 - 0x80), 3%nat)
        else (rune_error, 1%nat)
      | _ => (rune_error, 1%nat)
      end
    else if in_range 0xF0 0xF4 b0 then
      match s1 with
      | String c1 (String c2 (String c3 _)) =>
        if in_range (if b0 =? 0xF0 then 0x90 else 0x80) (if b0 =? 0xF4 then 0x8F else 0xBF) (bval c1)
           && in_range 0x80 0xBF (bval c2) && in_range 0x80 0xBF (bval c3)
        then ((b0 - 0xF0) * 262144 + (bval c1 - 0x80) * 4096
              + (bval c2 - 0x80) * 64 + (bval c3 - 0x80), 4%nat)
        else (rune_error, 1%nat)
      | _ => (rune_error, 1%nat)
      end
    else (rune_error, 1%nat)
  end.

Definition valid_rune (r : Z) : bool := in_range 0 0xD7FF r || in_range 0xE000 0x10FFFF r.

(** [string(r)]: an invalid rune becomes U+FFFD. *)
Definition encode_valid (r : Z) : string :=
  if r <=? 0x7F then String (chr r) ""
  else if r <=? 0x7FF then String (chr (0xC0 + r / 64)) (String (chr (0x80 + r mod 64)) "")
  else if r <=? 0xFFFF then
    String (chr (0xE0 + r / 4096)) (String (chr (0x80 + (r / 64) mod 64))
      (String (chr (0x80 + r mod 64)) ""))
  else
    String (chr (0xF0 + r / 262144)) (String (chr (0x80 + (r / 4096) mod 64))
      (String (chr (0x80 + (r / 64) mod 64)) (String (chr (0x80 + r mod 64)) ""))).
Definition encode_rune (r : Z) : string :=
  encode_valid (if valid_rune r then r else rune_error).

(** [for i, c := range s]: byte offsets and runes. [skip] counts the bytes of
    the current rune that are still to be passed over. *)
Fixpoint range_go (skip i : nat) (s : string) : list (nat * Z) :=
  match s with
  | "" => []
  | String _ s' =>
    match skip with
    | S skip => range_go skip (S i) s'
    | O => let '(r, w) := decode_rune s in (i, r) :: range_go (pred w) (S i) s'
    end
  end.
Definition string_range (s : string) : list (nat * Z) := range_go 0 0 s.
Definition runes (s : string) : list Z := (string_range s).*2.

(** A string as the concatenation of the encodings of a list of runes. *)
Fixpoint encode_runes (rs : list Z) : string :=
  match rs with [] => "" | r :: rs => encode_rune r +:+ encode_runes rs end.

Lemma encode_valid_cases r :
  (r ≤ 0x7F ∧ encode_valid r = String (chr r) "") ∨
  (0x80 ≤ r ≤ 0x7FF ∧
   encode_valid r = String (chr (0xC0 + r / 64)) (String (chr (0x80 + r mod 64)) "")) ∨
  (0x800 ≤ r ≤ 0xFFFF ∧
   encode_valid r = String (chr (0xE0 + r / 4096)) (String (chr (0x80 + (r / 64) mod 64))
      (String (chr (0x80 + r mod 64)) ""))) ∨
  (0x10000 ≤ r ∧
   encode_valid r = String (chr (0xF0 + r / 262144)) (String (chr (0x80 + (r / 4096) mod 64))
      (String (chr (0x80 + (r / 64) mod 64)) (String (chr (0x80 + r mod 64)) "")))).
Proof.
  unfold encode_valid.
  destruct (Z.leb_spec r 0x7F); [by left|].
  destruct (Z.leb_spec r 0x7FF); [right; left; split; [lia|done]|].
  destruct (Z.leb_spec r 0xFFFF); [right; right; left; split; [lia|done]|].
  right; right; right; split; [lia|done].
Qed.

Lemma valid_rune_iff r :
  valid_rune r = true ↔ 0 ≤ r ≤ 0xD7FF ∨ 0xE000 ≤ r ≤ 0x10FFFF.
Proof. unfold valid_rune. rewrite orb_true_iff, !in_range_true. lia. Qed.

Ltac decide_bools :=
  repeat match goal with
  | |- context [?a <? ?b] => destruct (Z.ltb_spec a b); try lia
  | |- context [?a =? ?b] => destruct (Z.eqb_spec a b); try lia
  | |- context [in_range ?a ?b ?c] =>
      let E := fresh "E" in destruct (in_range a b c) eqn:E;
      [apply in_range_true in E | apply in_range_false in E]; try lia
  end.

(** Decoding the encoding of a valid rune gives it back, with its width. *)
Lemma decode_encode_valid r s :
  valid_rune r = true →
  decode_rune (encode_valid r +:+ s) = (r, String.length (encode_valid r)).
Proof.
  rewrite valid_rune_iff. intros Hr.
  destruct (encode_valid_cases r) as [[H ->]|[[H ->]|[[H ->]|[H ->]]]];
    rewrite !str_app_cons; cbn -[Z.add Z.mul Z.sub Z.div Z.modulo bval chr in_range];
    rewrite !bval_chr by (Z.to_euclidean_division_equations; lia).
  - decide_bools. done.
  - decide_bools; try (Z.to_euclidean_division_equations; lia).
    f_equal. Z.to_euclidean_division_equations; lia.
  - decide_bools; try (Z.to_euclidean_division_equations; lia); cbn;
      f_equal; Z.to_euclidean_division_equations; lia.
  - decide_bools; try (Z.to_euclidean_division_equations; lia); cbn;
      f_equal; Z.to_euclidean_division_equations; lia.
Qed.

Lemma encode_valid_cons r : ∃ c p, encode_valid r = String c p.
Proof. destruct (encode_valid_cases r) as [[_ ->]|[[_ ->]|[[_ ->]|[_ ->]]]]; eauto. Qed.

Lemma range_go_skip p i s :
  range_go (String.length p) i (p +:+ s) = range_go 0 (i + String.length p) s.
Proof.
  revert i. induction p as [|c p IH]; intros i; cbn [String.length].
  { by rewrite Nat.add_0_r. }
  rewrite str_app_cons. cbn [range_go]. rewrite IH. f_equal. lia.
Qed.

Lemma range_go_encode r i s :
  valid_rune r = true →
  range_go 0 i (encode_valid r +:+ s)
  = (i, r) :: range_go 0 (i + String.length (encode_valid r)) s.
Proof.
  intros Hr. pose proof (decode_encode_valid r s Hr) as Hd.
  destruct (encode_valid_cons r) as (c & p & E). rewrite E in Hd |- *.
  rewrite str_app_cons in Hd |- *. cbn [range_go]. rewrite Hd. cbn [String.length pred].
  rewrite range_go_skip. do 2 f_equal. lia.
Qed.

Lemma range_go_snd_irrel i j s : (range_go 0 i s).*2 = (range_go 0 j s).*2.
Proof.
  enough (∀ k, (range_go k i s).*2 = (range_go k j s).*2) by done.
  revert i j. induction s as [|c s IH]; intros i j k; [done|].
  cbn [range_go]. destruct k; [|apply IH].
  destruct (decode_rune _). cbn. f_equal. apply IH.
Qed.

Lemma runes_cons_encode r s :
  valid_rune r = true → runes (encode_rune r +:+ s) = r :: runes s.
Proof.
  intros Hr. unfold runes, string_range, encode_rune. rewrite Hr, range_go_encode by done.
  cbn. f_equal. apply range_go_snd_irrel.
Qed.

(** Round trip of [range] over the concatenation of encoded runes. *)
Lemma runes_encode_runes rs :
  Forall (λ r, valid_rune r = true) rs → runes (encode_runes rs) = rs.
Proof.
  induction 1 as [|r rs Hr _ IH]; [done|]. cbn [encode_runes].
  by rewrite runes_cons_encode, IH.
Qed.

Lemma encode_runes_app rs1 rs2 :
  encode_runes (rs1 ++ rs2) = encode_runes rs1 +:+ encode_runes rs2.
Proof.
  induction rs1 as [|r rs1 IH]; [done|]. cbn. by rewrite IH, str_app_assoc.
Qed.

(** Every rune [range] produces is a valid rune (RuneError included). *)
Lemma decode_rune_valid s : valid_rune (decode_rune s).1 = true.
Proof.
  destruct s as [|c0 s1]; [done|].
  cbn -[Z.add Z.mul Z.sub bval in_range valid_rune].
  pose proof (bval_range c0).
  repeat (decide_bools; try done; match goal with
  | |- context [match ?s with "" => _ | String _ _ => _ end] => destruct s as [|? ?]; try done
  | _ => idtac
  end);
  cbn -[Z.add Z.mul Z.sub bval in_range valid_rune]; try done;
  apply valid_rune_iff; lia.
Qed.

Lemma runes_valid s : Forall (λ r, valid_rune r = true) (runes s).
Proof.
  unfold runes, string_range. generalize 0%nat at 1. generalize 0%nat.
  induction s as [|c s IH]; intros i k; [constructor|].
  cbn [range_go]. destruct k; [|apply IH].
  pose proof (decode_rune_valid (String c s)) as Hv.
  destruct (decode_rune (String c s)) as [r w]. cbn. constructor; [done|apply IH].
Qed.

(** The string is valid UTF-8 exactly when re-encoding its runes gives it back. *)
Definition valid_utf8 (s : string) : bool := bool_decide (encode_runes (runes s) = s).

Lemma valid_utf8_iff s : valid_utf8 s = true ↔ encode_runes (runes s) = s.
Proof. unfold valid_utf8. apply bool_decide_eq_true. Qed.

Lemma valid_utf8_encode_runes rs :
  Forall (λ r, valid_rune r = true) rs → valid_utf8 (encode_runes rs) = true.
Proof. intros H. unfold valid_utf8. apply bool_decide_eq_true_2. by rewrite runes_encode_runes. Qed.

(** ASCII strings: one rune per byte. *)
Definition is_ascii (s : string) : bool := forallb (λ c, bval c <? 128) (bytes s).

Lemma encode_rune_ascii c : bval c < 128 → encode_rune (bval c) = String c "".
Proof.
  intros H. pose proof (bval_range c). unfold encode_rune.
  assert (valid_rune (bval c) = true) as -> by (apply valid_rune_iff; lia).
  unfold encode_valid. destruct (Z.leb_spec (bval c) 0x7F); [|lia]. by rewrite chr_bval.
Qed.

Lemma encode_runes_ascii s : is_ascii s = true → encode_runes (bval <$> bytes s) = s.
Proof.
  unfold is_ascii. induction s as [|c s IH]; [done|]. cbn [bytes forallb fmap list_fmap encode_runes].
  rewrite andb_true_iff, Z.ltb_lt. intros [H Hs].
  rewrite encode_rune_ascii, IH by done. done.
Qed.

Lemma runes_ascii s : is_ascii s = true → runes s = bval <$> bytes s.
Proof.
  intros H. rewrite <- (encode_runes_ascii s) at 1 by done.
  apply runes_encode_runes. unfold is_ascii in H. rewrite forallb_forall in H.
  apply Forall_fmap, Forall_forall. intros c Hc%list_elem_of_In%H. cbn.
  apply Z.ltb_lt in Hc. pose proof (bval_range c). apply valid_rune_iff. lia.
Qed.

Lemma is_ascii_app s1 s2 : is_ascii (s1 +:+ s2) = is_ascii s1 && is_ascii s2.
Proof. unfold is_ascii. by rewrite bytes_app, forallb_app. Qed.

Lemma valid_utf8_ascii s : is_ascii s = true → valid_utf8 s = true.
Proof.
  intros H. unfold valid_utf8. apply bool_decide_eq_true_2.
  by rewrite runes_ascii, encode_runes_ascii.
Qed.

(** The offsets of an ASCII prefix. *)
Lemma range_go_ascii_app p i s :
  is_ascii p = true →
  range_go 0 i (p +:+ s)
  = imap (λ k c, ((i + k)%nat, bval c)) (bytes p) ++ range_go 0 (i + String.length p) s.
Proof.
  unfold is_ascii. revert i. induction p as [|c p IH]; intros i; cbn [bytes forallb].
  { intros _. cbn. by rewrite Nat.add_0_r. }
  rewrite andb_true_iff, Z.ltb_lt. intros [Hc Hp].
  pose proof (range_go_encode (bval c) i (p +:+ s)) as Hr.
  pose proof (bval_range c).
  assert (valid_rune (bval c) = true) as Hv by (apply valid_rune_iff; lia).
  assert (encode_valid (bval c) = String c "") as E.
  { rewrite <- (encode_rune_ascii c) by done. unfold encode_rune. by rewrite Hv. }
  rewrite E in Hr. rewrite str_app_cons in Hr |- *. unfold String.app in Hr at 1. cbn [String.append] in Hr.
  rewrite Hr by done. cbn [String.length]. rewrite IH by done.
  cbn [imap]. rewrite Nat.add_0_r. cbn [app]. f_equal. f_equal.
  - apply imap_ext. intros k d _. cbn. f_equal. lia.
  - f_equal. lia.
Qed.

(** ** Decimal formatting: [fmt.Sprintf("%d", z)] and [strconv.Itoa(z)] *)

Definition itoa (z : Z) : string := pretty z.

Definition is_digit (c : ascii) : bool := in_range 48 57 (bval c).
Definition all_digits (s : string) : bool := forallb is_digit (bytes s).

Definition dec_step (n : Z) (c : ascii) : Z := n * 10 + (bval c - 48).
Definition dec_value (s : string) : Z := foldl dec_step 0 (bytes s).

Lemma pretty_N_char_bval (x : N) : (x < 10)%N → bval (pretty_N_char x) = 48 + Z.of_N x.
Proof.
  intros H.
  assert (Forall (λ y, bval (pretty_N_char y) = 48 + Z.of_N y) (N.of_nat <$> seq 0 10)) as HF
    by (repeat constructor).
  rewrite Forall_forall in HF. apply HF, list_elem_of_fmap. exists (N.to_nat x).
  rewrite elem_of_seq. split; lia.
Qed.

Lemma pretty_N_go_spec (x : N) s :
  foldl dec_step 0 (bytes (pretty_N_go x s)) = foldl dec_step (Z.of_N x) (bytes s) ∧
  all_digits (pretty_N_go x s) = all_digits s.
Proof.
  revert s. induction (N.lt_wf_0 x) as [x _ IH]. intros s.
  destruct (decide (x = 0)%N) as [->|Hx]; [by rewrite pretty_N_go_0|].
  rewrite pretty_N_go_step by lia.
  assert (x `div` 10 < x)%N as Hlt by (apply N.div_lt; lia).
  destruct (IH _ Hlt (String (pretty_N_char (x `mod` 10)) s)) as [IH1 IH2].
  assert (x `mod` 10 < 10)%N by (apply N.mod_lt; lia).
  rewrite IH1, IH2. cbn [bytes foldl]. split.
  - f_equal. unfold dec_step. rewrite pretty_N_char_bval by done.
    rewrite N2Z.inj_div, N2Z.inj_mod. Z.to_euclidean_division_equations; lia.
  - unfold all_digits. cbn [bytes forallb]. unfold is_digit.
    rewrite pretty_N_char_bval by done.
    match goal with |- context [in_range ?a ?b ?c] =>
      assert (in_range a b c = true) as ->; [|done] end.
    apply in_range_true. revert H. generalize (x `mod` 10)%N. lia.
Qed.

Lemma itoa_pos z : 0 ≤ z → itoa z = pretty (Z.to_N z).
Proof. intros H. destruct z; [done|done|lia]. Qed.

Lemma itoa_spec z : 0 ≤ z → dec_value (itoa z) = z ∧ all_digits (itoa z) = true.
Proof.
  intros H. rewrite itoa_pos by done. unfold pretty, pretty_N.
  destruct (decide _) as [E|E].
  - assert (z = 0) as -> by lia. done.
  - destruct (pretty_N_go_spec (Z.to_N z) "") as [H1 H2].
    unfold dec_value. rewrite H1, H2. cbn. split; [lia|done].
Qed.

Lemma itoa_inj z1 z2 : itoa z1 = itoa z2 → z1 = z2.
Proof. unfold itoa. apply (inj pretty). Qed.

Lemma itoa_nonempty z : itoa z ≠ "".
Proof.
  intros H. destruct (Z.lt_ge_cases z 0) as [Hz|Hz].
  - destruct z; [lia|lia|]. discriminate H.
  - destruct (itoa_spec z Hz) as [H1 _]. rewrite H in H1. cbn in H1. subst z. discriminate H.
Qed.

Lemma all_digits_ascii s : all_digits s = true → is_ascii s = true.
Proof.
  unfold all_digits, is_ascii. rewrite !forallb_forall. intros H c Hc%H.
  unfold is_digit in Hc. apply in_range_true in Hc. apply Z.ltb_lt. lia.
Qed.

(** ** Substring search and quoting *)

(** [len(s) >= len(sub) && s[:len(sub)] == sub] *)
Fixpoint has_prefix (sub s : string) : bool :=
  match sub, s with
  | "", _ => true
  | String a sub, String b s => Ascii.eqb a b && has_prefix sub s
  | String _ _, "" => false
  end.

Lemma has_prefix_iff sub s : has_prefix sub s = true ↔ ∃ r, s = sub +:+ r.
Proof.
  revert s. induction sub as [|a sub IH]; intros s; cbn [has_prefix].
  { split; [by exists s|done]. }
  destruct s as [|b s]; [split; [done|by intros [r [=]]]|].
  rewrite andb_true_iff, Ascii.eqb_eq, IH. split.
  - intros [-> [r ->]]. by exists r.
  - intros [r Hr]. rewrite str_app_cons in Hr. injection Hr as -> ->. eauto.
Qed.

Definition hex_digit (z : Z) : ascii := if z <? 10 then chr (48 + z) else chr (97 + z - 10).

(** The unicode tables behind [strconv.IsPrint] for runes above U+00FF. *)
Class UnicodeTables := print_table : Z → bool.

Section Quote.
Context {UT : UnicodeTables}.

Definition is_print (r : Z) : bool :=
  if r <=? 0xFF then in_range 0x20 0x7E r || (in_range 0xA1 0xFF r && negb (r =? 0xAD))
  else print_table r.

Fixpoint hex_pad (n : nat) (z : Z) (acc : string) : string :=
  match n with
  | O => acc
  | S n => hex_pad n (z / 16) (String (hex_digit (z mod 16)) acc)
  end.

Definition escaped_rune (r : Z) : string :=
  if (r =? 34) || (r =? 92) then "\" +:+ encode_rune r
  else if is_print r then encode_rune r
  else if r =? 7 then "\a" else if r =? 8 then "\b" else if r =? 12 then "\f"
  else if r =? 10 then "\n" else if r =? 13 then "\r" else if r =? 9 then "\t"
  else if r =? 11 then "\v"
  else if (r <? 32) || (r =? 0x7F) then "\x" +:+ hex_pad 2 r ""
  else if r <? 0x10000 then "\u" +:+ hex_pad 4 r "" else "\U" +:+ hex_pad 8 r "".

Fixpoint quote_go (skip : nat) (s : string) : string :=
  match s with
  | "" => ""
  | String c s' =>
    match skip with
    | S skip => quote_go skip s'
    | O =>
      let '(r, w) := decode_rune s in
      (if (r =? rune_error) && Nat.eqb w 1 then "\x" +:+ hex_pad 2 (bval c) ""
       else escaped_rune r) +:+ quote_go (pred w) s'
    end
  end.

(** [fmt.Sprintf("%q", s)]. *)
Definition quote (s : string) : string :=
  String (chr 34) (quote_go 0 s +:+ String (chr 34) "").
End Quote.

(** [range] over a valid prefix followed by anything. *)
Lemma runes_encode_app rs s :
  Forall (λ r, valid_rune r = true) rs → runes (encode_runes rs +:+ s) = rs ++ runes s.
Proof.
  induction 1 as [|r rs Hr _ IH]; [done|]. cbn [encode_runes].
  by rewrite <- str_app_assoc, runes_cons_encode, IH.
Qed.

Lemma runes_app_valid s1 s2 :
  valid_utf8 s1 = true → runes (s1 +:+ s2) = runes s1 ++ runes s2.
Proof.
  intros H%bool_decide_eq_true_1. rewrite <- H at 1.
  apply runes_encode_app, runes_valid.
Qed.

(** [strings.Join]-like gluing, used to write down inputs. *)
Fixpoint join (sep : string) (l : list string) : string :=
  match l with
  | [] => ""
  | [x] => x
  | x :: l => x +:+ sep +:+ join sep l
  end.
