(* ===== verification/GoTime.v ===== *)
(** * Go time

    The parts of Go's [time] package the operator uses.  A [Time] is an instant
    in nanoseconds since the Unix epoch; a [Location] gives the offset from UTC
    in seconds at an instant.  The time-zone database that [time.LoadLocation]
    reads is data of the host, so it is a parameter ([TzDatabase]). *)
From S2P Require Import Prelude.
Local Open Scope Z_scope.

Abbreviation Time := Z (only parsing).
Abbreviation Duration := Z (only parsing).
Definition second : Duration := 1000000000.
Definition minute : Duration := 60 * second.

(** [t.Unix()], [t.Before(u)], [t.Add(d)]. *)
Definition unix (t : Time) : Z := t / second.
Definition before (t u : Time) : bool := t <? u.
Definition add (t : Time) (d : Duration) : Time := t + d.

Definition Location := Z → Z.
Definition UTC : Location := λ _, 0.

(** [time.LoadLocation(name)]: [None] is the error case. *)
Class TzDatabase := LoadLocation : string → option Location.

(** Seconds since the epoch on the wall clock of [loc]. *)
Definition local_seconds (loc : Location) (t : Time) : Z := unix t + loc (unix t).
(** [t.In(loc).Hour()] and [t.In(loc).Weekday()] (Sunday is 0; 1970-01-01 was a Thursday). *)
Definition hour_in (loc : Location) (t : Time) : Z := (local_seconds loc t mod 86400) / 3600.
Definition weekday_in (loc : Location) (t : Time) : Z := (local_seconds loc t / 86400 + 4) mod 7.

Lemma hour_in_range loc t : 0 ≤ hour_in loc t < 24.
Proof.
  unfold hour_in. pose proof (Z.mod_pos_bound (local_seconds loc t) 86400).
  Z.to_euclidean_division_equations; lia.
Qed.

Lemma weekday_in_range loc t : 0 ≤ weekday_in loc t < 7.
Proof. unfold weekday_in. apply Z.mod_pos_bound. lia. Qed.
