(* ===== verification/GoCodec.v ===== *)
(** * Encodings of the Go standard library

    [encoding/hex], [crypto/sha256] and the fragment of [encoding/json] that
    marshals the generated server configuration.  Definitions are executable;
    the properties proved are the ones change detection rests on. *)
From S2P Require Import Prelude GoStrings.
From Stdlib Require Import Ascii.
Local Open Scope Z_scope.

(** ** [hex.EncodeToString] *)

Fixpoint hex_encode (s : string) : string :=
  match s with
  | "" => ""
  | String c s =>
    String (hex_digit (bval c / 16)) (String (hex_digit (bval c mod 16)) (hex_encode s))
  end.

Lemma hex_digit_inj a b :
  0 ≤ a < 16 → 0 ≤ b < 16 → hex_digit a = hex_digit b → a = b.
Proof.
  intros Ha Hb. unfold hex_digit.
  destruct (Z.ltb_spec a 10), (Z.ltb_spec b 10); intros Hx%(f_equal bval);
    rewrite !bval_chr in Hx by lia; lia.
Qed.

Lemma hex_encode_inj s1 s2 : hex_encode s1 = hex_encode s2 → s1 = s2.
Proof.
  revert s2. induction s1 as [|c s1 IH]; intros [|d s2]; cbn [hex_encode]; try done.
  intros [= H1 H2 H3%IH]. subst. f_equal. apply bval_inj.
  pose proof (bval_range c). pose proof (bval_range d).
  apply hex_digit_inj in H1; [|Z.to_euclidean_division_equations; lia..].
  apply hex_digit_inj in H2; [|Z.to_euclidean_division_equations; lia..].
  Z.to_euclidean_division_equations; lia.
Qed.

Lemma hex_encode_length s : String.length (hex_encode s) = (2 * String.length s)%nat.
Proof. induction s; cbn; lia. Qed.

(** ** [sha256.Sum256] *)

Module Sha256.
Definition mask32 (z : Z) : Z := Z.land z 0xFFFFFFFF.
Definition add32 (a b : Z) : Z := mask32 (a + b).
Definition rotr (x n : Z) : Z := Z.lor (Z.shiftr x n) (mask32 (Z.shiftl x (32 - n))).

(** The constants, as FIPS 180-4 defines them: the first 32 bits of the
    fractional parts of the cube roots (and square roots) of the first primes. *)
Definition primes : list Z := [
  2; 3; 5; 7; 11; 13; 17; 19; 23; 29; 31; 37; 41; 43; 47; 53; 59; 61; 67; 71; 73; 79; 83; 89; 97; 101;
  103; 107; 109; 113; 127; 131; 137; 139; 149; 151; 157; 163; 167; 173; 179; 181; 191; 193; 197; 199;
  211; 223; 227; 229; 233; 239; 241; 251; 257; 263; 269; 271; 277; 281; 283; 293; 307; 311].

(** The largest [r + d] with [d] below [2 ^ n] whose cube is at most [z]. *)
Fixpoint cube_root (n : nat) (r z : Z) : Z :=
  match n with
  | O => r
  | S n =>
    let r' := r + 2 ^ Z.of_nat n in
    cube_root n (if r' * r' * r' <=? z then r' else r) z
  end.
Definition K : list Z := Eval vm_compute in
  (λ p, mask32 (cube_root 40 0 (p * 2 ^ 96))) <$> primes.

Record state := State { h0 : Z; h1 : Z; h2 : Z; h3 : Z; h4 : Z; h5 : Z; h6 : Z; h7 : Z }.
Definition root_word (p : Z) : Z := mask32 (Z.sqrt (p * 2 ^ 64)).
Definition init : state := Eval vm_compute in
  State (root_word 2) (root_word 3) (root_word 5) (root_word 7)
    (root_word 11) (root_word 13) (root_word 17) (root_word 19).

(** Message bytes with the padding and the bit length. *)
Definition pad (msg : list Z) : list Z :=
  let len := Z.of_nat (length msg) in
  let zeros := Z.to_nat ((55 - len) mod 64) in
  let bits := 8 * len in
  msg ++ [0x80] ++ replicate zeros 0
  ++ ((λ i, Z.land (Z.shiftr bits (8 * i)) 255) <$> [7; 6; 5; 4; 3; 2; 1; 0]).

(** Big-endian words of a byte list. *)
Fixpoint words (l : list Z) : list Z :=
  match l with
  | a :: b :: c :: d :: l => ((a * 256 + b) * 256 + c) * 256 + d :: words l
  | _ => []
  end.

(** The message schedule, most recent word first. *)
Definition schedule_step (w : list Z) : list Z :=
  let at_ i := nth i w 0 in
  let s0 := let x := at_ 14%nat in Z.lxor (rotr x 7) (Z.lxor (rotr x 18) (Z.shiftr x 3)) in
  let s1 := let x := at_ 1%nat in Z.lxor (rotr x 17) (Z.lxor (rotr x 19) (Z.shiftr x 10)) in
  mask32 (at_ 15%nat + s0 + at_ 6%nat + s1) :: w.
Fixpoint schedule (n : nat) (w : list Z) : list Z :=
  match n with O => rev w | S n => schedule n (schedule_step w) end.

Definition round (s : state) (kw : Z * Z) : state :=
  let '(State a b c d e f g h) := s in
  let S1 := Z.lxor (rotr e 6) (Z.lxor (rotr e 11) (rotr e 25)) in
  let ch := Z.lxor (Z.land e f) (Z.land (Z.lxor e 0xFFFFFFFF) g) in
  let t1 := h + S1 + ch + fst kw + snd kw in
  let S0 := Z.lxor (rotr a 2) (Z.lxor (rotr a 13) (rotr a 22)) in
  let maj := Z.lxor (Z.land a b) (Z.lxor (Z.land a c) (Z.land b c)) in
  State (mask32 (t1 + S0 + maj)) a b c (add32 d (mask32 t1)) e f g.

Definition block (s : state) (ws : list Z) : state :=
  let r := foldl round s (zip K (schedule 48 (rev ws))) in
  State (add32 (h0 s) (h0 r)) (add32 (h1 s) (h1 r)) (add32 (h2 s) (h2 r)) (add32 (h3 s) (h3 r))
        (add32 (h4 s) (h4 r)) (add32 (h5 s) (h5 r)) (add32 (h6 s) (h6 r)) (add32 (h7 s) (h7 r)).

(** Blocks of 16 words; [fuel] bounds their number. *)
Fixpoint blocks (fuel : nat) (s : state) (ws : list Z) : state :=
  match fuel, ws with
  | S fuel, _ :: _ => blocks fuel (block s (take 16 ws)) (drop 16 ws)
  | _, _ => s
  end.

Definition word_bytes (w : Z) : list Z :=
  [Z.land (Z.shiftr w 24) 255; Z.land (Z.shiftr w 16) 255; Z.land (Z.shiftr w 8) 255; Z.land w 255].

Definition Sum256 (data : string) : string :=
  let ws := words (pad (bval <$> bytes data)) in
  let s := blocks (length ws) init ws in
  of_bytes (chr <$> concat (word_bytes <$> [h0 s; h1 s; h2 s; h3 s; h4 s; h5 s; h6 s; h7 s])).
End Sha256.

(** [h := sha256.Sum256(data); hex.EncodeToString(h[:])]. *)
Definition sha256_hex (data : string) : string := hex_encode (Sha256.Sum256 data).

(** Test vectors of FIPS 180-4. *)
Example sha256_empty :
  sha256_hex "" = "e3b0c44298fc1c149afbf4c8996fb92427ae41e4649b934ca495991b7852b855".
Proof. vm_compute. reflexivity. Qed.
Example sha256_abc :
  sha256_hex "abc" = "ba7816bf8f01cfea414140de5dae2223b00361a396177a9cb410ff61f20015ad".
Proof. vm_compute. reflexivity. Qed.
Example sha256_two_blocks :
  sha256_hex "abcdbcdecdefdefgefghfghighijhijkijkljklmklmnlmnomnopnopq"
  = "248d6a61d20638b8e5c026930c3e6039a33ce45964ff2167f6ecedd419db06c1".
Proof. vm_compute. reflexivity. Qed.

Lemma sha256_hex_length s : String.length (sha256_hex s) = 64%nat.
Proof. unfold sha256_hex. by rewrite hex_encode_length. Qed.

Lemma sha256_hex_nonempty s : sha256_hex s ≠ "".
Proof. intros H%(f_equal String.length). rewrite sha256_hex_length in H. discriminate H. Qed.

(** ** [json.Marshal] of strings *)

Definition dq : string := String "034" "".
Definition backslash : ascii := "092".

(** The ASCII characters [encoding/json] copies when HTML escaping is on. *)
Definition html_safe (b : Z) : bool :=
  in_range 0x20 0x7F b
  && negb ((b =? 34) || (b =? 92) || (b =? 38) || (b =? 60) || (b =? 62)).

Definition escape_ascii (b : Z) : string :=
  if html_safe b then String (chr b) ""
  else if (b =? 92) || (b =? 34) then String backslash (String (chr b) "")
  else if b =? 8 then String backslash "b" else if b =? 12 then String backslash "f"
  else if b =? 10 then String backslash "n" else if b =? 13 then String backslash "r"
  else if b =? 9 then String backslash "t"
  else String backslash ("u00" +:+ String (hex_digit (b / 16)) (String (hex_digit (b mod 16)) "")).

(** The loop of [appendString]: [skip] passes over the bytes of a rune already
    copied. *)
Fixpoint json_escape_go (skip : nat) (s : string) : string :=
  match s with
  | "" => ""
  | String c s' =>
    match skip with
    | S skip => json_escape_go skip s'
    | O =>
      if bval c <? 0x80 then escape_ascii (bval c) +:+ json_escape_go 0 s'
      else
        let '(r, w) := decode_rune s in
        (if (r =? rune_error) && Nat.eqb w 1 then String backslash "ufffd"
         else if (r =? 0x2028) || (r =? 0x2029)
         then String backslash ("u202" +:+ String (hex_digit (Z.land r 15)) "")
         else str_take w s) +:+ json_escape_go (pred w) s'
    end
  end.
Definition json_string (s : string) : string := dq +:+ json_escape_go 0 s +:+ dq.

(** What one valid rune becomes. *)
Definition escape_rune (r : Z) : string :=
  if r <? 0x80 then escape_ascii r
  else if (r =? 0x2028) || (r =? 0x2029)
  then String backslash ("u202" +:+ String (hex_digit (Z.land r 15)) "")
  else encode_rune r.

Lemma json_escape_skip p s :
  json_escape_go (String.length p) (p +:+ s) = json_escape_go 0 s.
Proof. by induction p as [|c p IH]. Qed.

Lemma json_escape_encode r s :
  valid_rune r = true →
  json_escape_go 0 (encode_rune r +:+ s) = escape_rune r +:+ json_escape_go 0 s.
Proof.
  intros Hr. pose proof (decode_encode_valid r s Hr) as Hd.
  unfold escape_rune, encode_rune. rewrite Hr.
  pose proof Hr as Hr'. rewrite valid_rune_iff in Hr'.
  destruct (Z.ltb_spec r 0x80).
  { unfold encode_valid. destruct (Z.leb_spec r 0x7F); [|lia].
    rewrite str_app_cons. cbn [json_escape_go]. rewrite bval_chr by lia.
    destruct (Z.ltb_spec r 0x80); [|lia]. done. }
  destruct (encode_valid_cons r) as (c & p & E). rewrite E in Hd |- *.
  rewrite str_app_cons in Hd |- *. cbn [json_escape_go]. rewrite Hd. cbn [String.length pred].
  assert ((bval c <? 0x80) = false) as ->.
  { apply Z.ltb_ge. destruct (encode_valid_cases r) as [[? E']|[[? E']|[[? E']|[? E']]]];
      rewrite E in E'; injection E' as -> _; rewrite ?bval_chr;
      try (Z.to_euclidean_division_equations; lia). }
  assert ((r =? rune_error) && Nat.eqb (S (String.length p)) 1 = false) as ->.
  { destruct (Z.eqb_spec r rune_error) as [->|]; [|done]. vm_compute in E. by injection E as <- <-. }
  rewrite json_escape_skip. f_equal. f_equal.
  change (String c (p +:+ s)) with (String c p +:+ s).
  change (S (String.length p)) with (String.length (String c p)). by rewrite str_take_app.
Qed.

Fixpoint escape_runes (rs : list Z) : string :=
  match rs with [] => "" | r :: rs => escape_rune r +:+ escape_runes rs end.

Lemma json_escape_encode_runes rs :
  Forall (λ r, valid_rune r = true) rs → json_escape_go 0 (encode_runes rs) = escape_runes rs.
Proof.
  induction 1 as [|r rs Hr _ IH]; [done|]. cbn [encode_runes escape_runes].
  by rewrite json_escape_encode, IH.
Qed.

(** *** Reading a JSON string back *)

Definition hex_val (c : ascii) : Z := if bval c <? 58 then bval c - 48 else bval c - 87.

(** One (possibly escaped) character of a JSON string. *)
Definition unescape1 (s : string) : option (Z * string) :=
  match s with
  | "" => None
  | String c s' =>
    if Ascii.eqb c backslash then
      match s' with
      | String e s'' =>
        if Ascii.eqb e "u" then
          match s'' with
          | String a (String b (String c (String d t))) =>
            Some (((hex_val a * 16 + hex_val b) * 16 + hex_val c) * 16 + hex_val d, t)
          | _ => None
          end
        else if Ascii.eqb e "b" then Some (8, s'') else if Ascii.eqb e "f" then Some (12, s'')
        else if Ascii.eqb e "n" then Some (10, s'') else if Ascii.eqb e "r" then Some (13, s'')
        else if Ascii.eqb e "t" then Some (9, s'') else Some (bval e, s'')
      | "" => None
      end
    else let '(r, w) := decode_rune s in Some (r, str_drop w s)
  end.

(** The body of a JSON string up to its closing quote; [fuel] bounds the number
    of characters. *)
Fixpoint read_body (fuel : nat) (s : string) : option (list Z * string) :=
  match fuel with
  | O => None
  | S fuel =>
    match s with
    | "" => None
    | String c s' =>
      if Ascii.eqb c "034" then Some ([], s')
      else
        match unescape1 s with
        | Some (r, t) => match read_body fuel t with Some (rs, t') => Some (r :: rs, t') | None => None end
        | None => None
        end
    end
  end.
Definition json_read_string (s : string) : option (string * string) :=
  match s with
  | String c s' =>
    if Ascii.eqb c "034" then
      match read_body (S (String.length s')) s' with
      | Some (rs, t) => Some (encode_runes rs, t)
      | None => None
      end
    else None
  | "" => None
  end.

Lemma unescape1_ascii :
  Forall (λ r, ∀ t, unescape1 (escape_ascii r +:+ t) = Some (r, t)) (seqZ 0 128).
Proof.
  let l := eval vm_compute in (seqZ 0 128) in change (seqZ 0 128) with l.
  repeat (apply Forall_cons; split; [intros t; reflexivity|]). constructor.
Qed.

Lemma escape_ascii_head :
  Forall (λ r, match escape_ascii r with String c _ => negb (Ascii.eqb c "034") | "" => false end = true)
    (seqZ 0 128).
Proof.
  let l := eval vm_compute in (seqZ 0 128) in change (seqZ 0 128) with l.
  repeat (apply Forall_cons; split; [reflexivity|]). constructor.
Qed.

Lemma escape_rune_spec r t :
  valid_rune r = true →
  unescape1 (escape_rune r +:+ t) = Some (r, t)
  ∧ ∃ c p, escape_rune r = String c p ∧ Ascii.eqb c "034" = false.
Proof.
  intros Hr. pose proof Hr as Hr'. rewrite valid_rune_iff in Hr'. unfold escape_rune.
  destruct (Z.ltb_spec r 0x80).
  { assert (r ∈ seqZ 0 128) as Hin by (apply elem_of_seqZ; lia). split.
    - pose proof unescape1_ascii as HF. rewrite Forall_forall in HF. by apply HF.
    - pose proof escape_ascii_head as HF. rewrite Forall_forall in HF. specialize (HF r Hin).
      cbn in HF. destruct (escape_ascii r) as [|c p]; [done|]. exists c, p.
      split; [done|]. by apply negb_true_iff. }
  destruct (Z.eqb_spec r 0x2028) as [->|]; [split; [done|by do 2 eexists]|].
  destruct (Z.eqb_spec r 0x2029) as [->|]; [split; [done|by do 2 eexists]|].
  cbn [orb]. unfold encode_rune. rewrite Hr.
  pose proof (decode_encode_valid r t Hr) as Hd.
  destruct (encode_valid_cons r) as (c & p & E). rewrite E in Hd |- *.
  assert (128 ≤ bval c) as Hc.
  { destruct (encode_valid_cases r) as [[? E']|[[? E']|[[? E']|[? E']]]];
      rewrite E in E'; injection E' as -> _; rewrite ?bval_chr;
      try (Z.to_euclidean_division_equations; lia). }
  assert (Ascii.eqb c backslash = false) as Hb.
  { apply Ascii.eqb_neq. intros ->. vm_compute in Hc. congruence. }
  split.
  - rewrite str_app_cons in Hd |- *. cbn [unescape1]. rewrite Hb, Hd.
    change (String c (p +:+ t)) with (String c p +:+ t). by rewrite str_drop_app.
  - exists c, p. split; [done|]. apply Ascii.eqb_neq. intros ->. vm_compute in Hc. congruence.
Qed.

Lemma read_body_escape rs t fuel :
  Forall (λ r, valid_rune r = true) rs → (length rs < fuel)%nat →
  read_body fuel (escape_runes rs +:+ dq +:+ t) = Some (rs, t).
Proof.
  intros H. revert fuel. induction H as [|r rs Hr _ IH]; intros [|fuel] Hf;
    cbn [length] in Hf; try lia; [done|].
  cbn [escape_runes]. rewrite <- str_app_assoc.
  destruct (escape_rune_spec r (escape_runes rs +:+ dq +:+ t) Hr) as [Hu (c & p & E & Hc)].
  rewrite E in Hu |- *. rewrite str_app_cons in Hu |- *. cbn [read_body].
  by rewrite Hc, Hu, IH by lia.
Qed.

Lemma escape_runes_length rs :
  Forall (λ r, valid_rune r = true) rs → (length rs ≤ String.length (escape_runes rs))%nat.
Proof.
  induction 1 as [|r rs Hr _ IH]; [done|]. cbn [escape_runes length]. rewrite str_length_app.
  destruct (escape_rune_spec r "" Hr) as [_ (c & p & -> & _)]. cbn. lia.
Qed.

(** Reading back a marshalled string gives the string and what follows it. *)
Lemma json_string_roundtrip s t :
  valid_utf8 s = true → json_read_string (json_string s +:+ t) = Some (s, t).
Proof.
  rewrite valid_utf8_iff. intros Hs. unfold json_string.
  rewrite <- Hs at 1. rewrite json_escape_encode_runes by apply runes_valid.
  rewrite <- !str_app_assoc. change (dq +:+ ?x) with (String "034" x). cbn [json_read_string].
  rewrite Ascii.eqb_refl, read_body_escape.
  - by rewrite Hs.
  - apply runes_valid.
  - rewrite !str_length_app. pose proof (escape_runes_length _ (runes_valid s)). cbn. lia.
Qed.

(** Marshalled strings form a prefix code. *)
Lemma json_string_prefix s1 s2 t1 t2 :
  valid_utf8 s1 = true → valid_utf8 s2 = true →
  json_string s1 +:+ t1 = json_string s2 +:+ t2 → s1 = s2 ∧ t1 = t2.
Proof.
  intros H1 H2 H%(f_equal json_read_string).
  rewrite !json_string_roundtrip in H by done. by simplify_eq.
Qed.
