(* ===== verification/GoNet.v ===== *)
(** * [net.ParseIP]

    Whether Go's [net.ParseIP] accepts a string: dotted IPv4 without leading
    zeros, or IPv6 (with [::], with an embedded IPv4 tail, without a zone).
    Only the answer matters to the webhook, not the address. *)
From S2P Require Import Prelude GoStrings.
From Stdlib Require Import Ascii.
Local Open Scope Z_scope.

Definition is_hex (c : ascii) : bool :=
  in_range 48 57 (bval c) || in_range 97 102 (bval c) || in_range 65 70 (bval c).

(** [parseIPv4Fields]: [prevdot] is true at the start of a field (so also at
    offset 0), [dig] is the number of digits of the current octet. *)
Fixpoint ipv4_fields (s : list ascii) (prevdot : bool) (val pos : Z) (dig : nat) : bool :=
  match s with
  | [] => 3 <=? pos
  | c :: s' =>
    if is_digit c then
      if Nat.eqb dig 1 && (val =? 0) then false
      else
        let val := val * 10 + (bval c - 48) in
        if 255 <? val then false else ipv4_fields s' false val pos (S dig)
    else if Ascii.eqb c "." then
      if prevdot || bool_decide (s' = []) then false
      else if pos =? 3 then false
      else ipv4_fields s' true 0 (pos + 1) 0
    else false
  end.
Definition parse_ipv4 (s : list ascii) : bool := ipv4_fields s true 0 0 0.

(** Number of leading hexadecimal digits. *)
Fixpoint hex_run (s : list ascii) : nat :=
  match s with
  | c :: s => if is_hex c then S (hex_run s) else 0
  | [] => 0
  end.

(** After the loop: everything consumed, and [::] used exactly when needed. *)
Definition ipv6_done (i : Z) (ellipsis : bool) (s : list ascii) : bool :=
  bool_decide (s = []) && (if i <? 16 then ellipsis else negb ellipsis).

(** The loop [for i < 16]; [fuel] is the number of groups that still fit. *)
Fixpoint ipv6_groups (fuel : nat) (i : Z) (ellipsis : bool) (s : list ascii) : bool :=
  match fuel with
  | O => ipv6_done i ellipsis s
  | S fuel =>
    let n := hex_run s in
    if Nat.eqb n 0 || Nat.ltb 4 n then false
    else
      match drop n s with
      | [] => ipv6_done (i + 2) ellipsis []
      | c :: rest =>
        if Ascii.eqb c "." then
          if negb ellipsis && negb (i =? 12) then false
          else if 16 <? i + 4 then false
          else parse_ipv4 s && ipv6_done (i + 4) ellipsis []
        else if negb (Ascii.eqb c ":") then false
        else
          match rest with
          | [] => false
          | d :: rest' =>
            if Ascii.eqb d ":" then
              if ellipsis then false
              else if bool_decide (rest' = []) then ipv6_done (i + 2) true []
              else ipv6_groups fuel (i + 2) true rest'
            else ipv6_groups fuel (i + 2) ellipsis rest
          end
      end
  end.
Definition parse_ipv6 (s : list ascii) : bool :=
  if existsb (Ascii.eqb "%") s then false
  else
    match s with
    | c :: d :: rest =>
      if Ascii.eqb c ":" && Ascii.eqb d ":" then
        if bool_decide (rest = []) then true else ipv6_groups 8 0 true rest
      else ipv6_groups 8 0 false s
    | _ => ipv6_groups 8 0 false s
    end.

(** [netip.ParseAddr] decides on the first of [.], [:] and [%]. *)
Fixpoint parse_addr (all s : list ascii) : bool :=
  match s with
  | [] => false
  | c :: s =>
    if Ascii.eqb c "." then parse_ipv4 all
    else if Ascii.eqb c ":" then parse_ipv6 all
    else if Ascii.eqb c "%" then false
    else parse_addr all s
  end.
(** [net.ParseIP(s) != nil] *)
Definition ParseIP (s : string) : bool := parse_addr (bytes s) (bytes s).

Example parse_ip_accepts :
  Forall (λ s, ParseIP s = true)
    ["0.0.0.0"; "192.168.1.100"; "255.255.255.255"; "::"; "::1"; "2001:db8::1"; "::ffff:10.0.0.1";
     "1:2:3:4:5:6:7:8"; "1:2:3:4:5:6:7::"; "fe80::1:2"; "1:2:3:4:5:6:1.2.3.4"].
Proof. repeat constructor. Qed.
Example parse_ip_rejects :
  Forall (λ s, ParseIP s = false)
    [""; "not-an-ip"; "1.2.3"; "1.2.3.4.5"; "01.2.3.4"; "256.1.1.1"; "1..2.3"; ".1.2.3"; "1.2.3.";
     "1::2::3"; "12345::"; "fe80::1%eth0"; "1:2:3:4:5:6:7:8:9"; ":1"; "1:"; "1:2:3:4:5:6:7:8::"; "::1.2.3"].
Proof. repeat constructor. Qed.
