(* ===== verification/GoConv.v ===== *)
(** * Go number and duration parsing

    [strconv.Atoi] and [time.ParseDuration], the two parsers the metrics sidecar
    reads its environment with.  Both return Go's zero value next to an error,
    [Atoi] the clamped value when the number is out of range, as the package
    documentation says.  The fraction of a duration goes through [float64]
    arithmetic, written with the binary64 operations of [SpecFloat]. *)
From S2P Require Import Prelude GoStrings GoTime.
From Stdlib Require Import Ascii Floats.SpecFloat.
Local Open Scope Z_scope.

Definition maxUint64 : Z := 18446744073709551615.
Definition maxInt64 : Z := 9223372036854775807.
Definition pow63 : Z := 9223372036854775808.

(** ** [strconv.Atoi] *)

Inductive num_error := ErrSyntax | ErrRange.

(** The digit loop of [ParseUint(s, 10, 64)]: a value that no longer fits ends
    it with the largest one, before the remaining characters are looked at. *)
Fixpoint parse_uint (n : Z) (s : string) : Z * option num_error :=
  match s with
  | "" => (n, None)
  | String c s =>
    if negb (is_digit c) then (0, Some ErrSyntax)
    else if maxUint64 / 10 + 1 <=? n then (maxUint64, Some ErrRange)
    else
      let n' := dec_step n c in
      if maxUint64 <? n' then (maxUint64, Some ErrRange) else parse_uint n' s
  end.
Definition ParseUint (s : string) : Z * option num_error :=
  if decide (s = "") then (0, Some ErrSyntax) else parse_uint 0 s.

(** Sign and rest of a number. *)
Definition split_sign (s : string) : bool * string :=
  match s with
  | String c s' => if bval c =? 45 then (true, s') else if bval c =? 43 then (false, s') else (false, s)
  | "" => (false, "")
  end.

Definition Atoi (s : string) : Z * option num_error :=
  let '(neg, digits) := split_sign s in
  match ParseUint digits with
  | (_, Some ErrSyntax) => (0, Some ErrSyntax)
  | (un, e) =>
    if negb neg && (pow63 <=? un) then (maxInt64, Some ErrRange)
    else if neg && (pow63 <? un) then (- pow63, Some ErrRange)
    else (if neg then - un else un, e)
  end.

(** ** [time.ParseDuration] *)

(** [leadingInt]: the number before the first non-digit, and the rest. *)
Fixpoint leadingInt (x : Z) (s : string) : option (Z * string) :=
  match s with
  | "" => Some (x, "")
  | String c s' =>
    if negb (is_digit c) then Some (x, s)
    else if pow63 / 10 <? x then None
    else
      let x' := dec_step x c in
      if pow63 <? x' then None else leadingInt x' s'
  end.

(** Binary64. *)
Definition prec64 : Z := 53.
Definition emax64 : Z := 1024.
Definition float_of_Z (z : Z) : spec_float := binary_normalize prec64 emax64 z 0 false.
Definition float_mul := SFmul prec64 emax64.
Definition float_div := SFdiv prec64 emax64.
(** [uint64(f)] of a non-negative float: truncation. *)
Definition uint64_of_float (f : spec_float) : Z :=
  match f with
  | S754_finite false m e => Z.shiftl (Zpos m) e mod (maxUint64 + 1)
  | _ => 0
  end.

(** [leadingFraction]: digits that no longer fit are skipped. *)
Fixpoint leadingFraction (x : Z) (scale : spec_float) (overflow : bool) (s : string)
    : Z * spec_float * string :=
  match s with
  | "" => (x, scale, "")
  | String c s' =>
    if negb (is_digit c) then (x, scale, s)
    else if overflow then leadingFraction x scale true s'
    else if maxInt64 / 10 <? x then leadingFraction x scale true s'
    else
      let y := dec_step x c in
      if pow63 <? y then leadingFraction x scale true s'
      else leadingFraction y (float_mul scale (float_of_Z 10)) false s'
  end.

(** The unit: everything up to the next digit or dot. *)
Fixpoint span_unit (s : string) : string * string :=
  match s with
  | "" => ("", "")
  | String c s' =>
    if (bval c =? 46) || is_digit c then ("", s)
    else let '(u, r) := span_unit s' in (String c u, r)
  end.

Definition unit_nanos (u : string) : option Z :=
  if decide (u = "ns") then Some 1
  else if decide (u = "us") then Some 1000
  else if decide (u = encode_rune 0xB5 +:+ "s") then Some 1000
  else if decide (u = encode_rune 0x3BC +:+ "s") then Some 1000
  else if decide (u = "ms") then Some 1000000
  else if decide (u = "s") then Some second
  else if decide (u = "m") then Some minute
  else if decide (u = "h") then Some (60 * minute)
  else None.

(** The optional dot and fraction; the last component says whether any digit of
    the fraction was there. *)
Definition duration_fraction (s : string) : Z * spec_float * string * bool :=
  match s with
  | String c s' =>
    if bval c =? 46 then
      let '(f, scale, s2) := leadingFraction 0 (float_of_Z 1) false s' in
      (f, scale, s2, negb (Nat.eqb (String.length s') (String.length s2)))
    else (0, float_of_Z 1, s, false)
  | "" => (0, float_of_Z 1, s, false)
  end.

(** One round of the loop: the value of the leading number with its unit, and
    the rest of the text. *)
Definition duration_item (s : string) : option (Z * string) :=
  match s with
  | "" => None
  | String c _ =>
    if negb ((bval c =? 46) || is_digit c) then None
    else
      '(v, s1) ← leadingInt 0 s;
      let pre := negb (Nat.eqb (String.length s) (String.length s1)) in
      let '(f, scale, s2, post) := duration_fraction s1 in
      if negb pre && negb post then None
      else
        let '(u, rest) := span_unit s2 in
        if decide (u = "") then None
        else
          unit ← unit_nanos u;
          if pow63 / unit <? v then None
          else
            let v := v * unit in
            if 0 <? f then
              let v := v + uint64_of_float (float_mul (float_of_Z f) (float_div (float_of_Z unit) scale)) in
              if pow63 <? v then None else Some (v, rest)
            else Some (v, rest)
  end.

(** [fuel] bounds the rounds; every round consumes at least one character. *)
Fixpoint duration_loop (fuel : nat) (d : Z) (s : string) : option Z :=
  match s with
  | "" => Some d
  | _ =>
    match fuel with
    | O => None
    | S fuel =>
      '(v, rest) ← duration_item s;
      if pow63 <? d + v then None else duration_loop fuel (d + v) rest
    end
  end.

(** [None] is the error case. *)
Definition ParseDuration (s : string) : option Duration :=
  let '(neg, s) := split_sign s in
  if decide (s = "0") then Some 0
  else if decide (s = "") then None
  else
    d ← duration_loop (String.length s) 0 s;
    if neg then Some (- d) else if maxInt64 <? d then None else Some d.

Example ParseDuration_1h15m : ParseDuration "1h15m30.918s" = Some 4530918000000.
Proof. vm_compute. reflexivity. Qed.
Example ParseDuration_frac : ParseDuration "-1.5h" = Some (-5400000000000).
Proof. vm_compute. reflexivity. Qed.
Example ParseDuration_err : ParseDuration "3000000h" = None ∧ ParseDuration "15" = None.
Proof. split; vm_compute; reflexivity. Qed.
Example Atoi_cases :
  Atoi "-42" = (-42, None) ∧ Atoi "9223372036854775808" = (maxInt64, Some ErrRange)
  ∧ Atoi "12a" = (0, Some ErrSyntax) ∧ Atoi "" = (0, Some ErrSyntax).
Proof. split_and!; vm_compute; reflexivity. Qed.

(** ** The fuel of [ParseDuration] is enough *)

Lemma leadingInt_length x s v r : leadingInt x s = Some (v, r) → (String.length r ≤ String.length s)%nat.
Proof.
  revert x. induction s as [|c s IH]; intros x; cbn; [by intros [= _ <-]|].
  repeat case_match; intros H'; simplify_eq; cbn; [lia|]. apply IH in H'. lia.
Qed.

Lemma leadingFraction_length x sc o s : (String.length (leadingFraction x sc o s).2 ≤ String.length s)%nat.
Proof.
  revert x sc o. induction s as [|c s IH]; intros x sc o; [done|]. cbn [leadingFraction].
  repeat case_match; cbn [snd String.length]; try lia; (etransitivity; [apply IH|lia]).
Qed.

Lemma span_unit_app s : (span_unit s).1 +:+ (span_unit s).2 = s.
Proof.
  induction s as [|c s IH]; [done|]. cbn [span_unit]. case_match; [done|].
  destruct (span_unit s) as [u r]. cbn [fst snd] in *. rewrite str_app_cons. by rewrite IH.
Qed.

Lemma duration_item_length s v r : duration_item s = Some (v, r) → (String.length r < String.length s)%nat.
Proof.
  unfold duration_item. destruct s as [|c s]; [done|]. case_match; [done|].
  intros ([v1 s1] & Hl%leadingInt_length & Hrest)%bind_Some.
  assert (String.length (duration_fraction s1).1.2 ≤ String.length s1)%nat as H2.
  { unfold duration_fraction. destruct s1 as [|c1 s1]; [done|]. destruct (bval c1 =? 46); [|done].
    pose proof (leadingFraction_length 0 (float_of_Z 1) false s1) as Hf.
    destruct (leadingFraction _ _ _ _) as [[f sc] s2]. cbn in *. lia. }
  destruct (duration_fraction s1) as [[[f sc] s2] post].
  cbn in H2. case_match; [done|]. pose proof (span_unit_app s2) as Hs.
  destruct (span_unit s2) as [u rest]. cbn [fst snd] in Hs. apply (f_equal String.length) in Hs.
  rewrite str_length_app in Hs. case_decide as Hu; [done|].
  apply bind_Some in Hrest as (un & _ & Hrest).
  assert (r = rest) as -> by (repeat case_match; by simplify_eq).
  destruct u; [done|]. cbn in Hs, Hl |- *. lia.
Qed.

Lemma duration_loop_fuel n m d s :
  (String.length s ≤ n)%nat → (String.length s ≤ m)%nat → duration_loop n d s = duration_loop m d s.
Proof.
  revert m d s. induction n as [|n IH]; intros m d s Hn Hm; destruct s as [|c s].
  - by destruct m.
  - cbn in Hn. lia.
  - by destruct m.
  - destruct m as [|m]; [cbn in Hm; lia|]. cbn [duration_loop].
    destruct (duration_item (String c s)) as [[v r]|] eqn:E; [|done]. cbn.
    case_match; [done|]. apply duration_item_length in E. apply IH; lia.
Qed.

(** ** Ranges *)

Lemma dec_step_nonneg n c : 0 ≤ n → is_digit c = true → 0 ≤ dec_step n c.
Proof. intros Hn Hc%in_range_true. unfold dec_step. lia. Qed.

Lemma parse_uint_nonneg n s : 0 ≤ n → 0 ≤ (parse_uint n s).1.
Proof.
  revert n. induction s as [|c s IH]; intros n Hn; cbn [parse_uint]; [done|].
  repeat case_match; cbn [fst]; try (unfold maxUint64; lia). tidy. by apply IH, dec_step_nonneg.
Qed.

Lemma Atoi_range s : - pow63 ≤ (Atoi s).1 ≤ maxInt64.
Proof.
  unfold Atoi. destruct (split_sign s) as [neg digits]. unfold ParseUint.
  pose proof (parse_uint_nonneg 0 digits ltac:(lia)) as H. unfold pow63, maxInt64.
  destruct (decide (digits = "")); [cbn; lia|].
  destruct (parse_uint 0 digits) as [un [[]|]]; cbn [fst] in H; [cbn; lia|..];
    (destruct neg; cbn [negb andb]; [destruct (Z.ltb_spec 9223372036854775808 un)|destruct (Z.leb_spec 9223372036854775808 un)];
     cbn [fst]; lia).
Qed.

Lemma leadingInt_nonneg x s v r : 0 ≤ x → leadingInt x s = Some (v, r) → 0 ≤ v.
Proof.
  revert x. induction s as [|c s IH]; intros x Hx; cbn; [by intros [= <- _]|].
  repeat case_match; intros H'; simplify_eq; [done|]. tidy. eapply IH; [|done]. by apply dec_step_nonneg.
Qed.

Lemma uint64_of_float_nonneg f : 0 ≤ uint64_of_float f.
Proof.
  unfold uint64_of_float. repeat case_match; try lia. apply Z.mod_pos_bound. unfold maxUint64. lia.
Qed.

Lemma unit_nanos_pos u n : unit_nanos u = Some n → 0 < n.
Proof. unfold unit_nanos, minute, second. repeat case_decide; intros; simplify_eq; lia. Qed.

Lemma duration_item_nonneg s v r : duration_item s = Some (v, r) → 0 ≤ v.
Proof.
  unfold duration_item. destruct s as [|c s]; [done|]. case_match; [done|].
  intros ([v1 s1] & Hv%leadingInt_nonneg & Hrest)%bind_Some; [|lia].
  destruct (duration_fraction s1) as [[[f sc] s2] post]. case_match; [done|].
  destruct (span_unit s2) as [u rest]. case_decide; [done|].
  apply bind_Some in Hrest as (un & Hu%unit_nanos_pos & Hrest). case_match; [done|].
  pose proof (uint64_of_float_nonneg (float_mul (float_of_Z f) (float_div (float_of_Z un) sc))).
  repeat case_match; simplify_eq; nia.
Qed.

Lemma duration_loop_range fuel d s r :
  0 ≤ d ≤ pow63 → duration_loop fuel d s = Some r → 0 ≤ r ≤ pow63.
Proof.
  revert d s. induction fuel as [|fuel IH]; intros d [|c s] Hd; cbn [duration_loop]; try (by intros [= <-]).
  intros ([v rest] & Hv%duration_item_nonneg & Hrest)%bind_Some.
  destruct (Z.ltb_spec pow63 (d + v)); [done|]. eapply IH; [|done]. lia.
Qed.

Lemma ParseDuration_range s d : ParseDuration s = Some d → - pow63 ≤ d ≤ maxInt64.
Proof.
  unfold ParseDuration. destruct (split_sign s) as [neg s']. unfold pow63, maxInt64.
  case_decide; [intros [= <-]; lia|]. case_decide; [done|].
  intros (r & Hr%duration_loop_range & Hrest)%bind_Some; unfold pow63 in *; [|lia].
  destruct neg; [simplify_eq; lia|]. destruct (Z.ltb_spec 9223372036854775807 r); [done|]. simplify_eq. lia.
Qed.

(** ** Round trips with [itoa] *)

Lemma dec_foldl_mono l n : 0 ≤ n → Forall (λ c, is_digit c = true) l → n ≤ foldl dec_step n l.
Proof.
  revert n. induction l as [|c l IH]; intros n Hn Hl; cbn; [lia|].
  apply Forall_cons in Hl as [Hc Hl]. apply in_range_true in Hc. unfold dec_step at 2.
  transitivity (n * 10 + (bval c - 48)); [lia|]. apply IH; [lia|done].
Qed.

Lemma all_digits_cons c s : all_digits (String c s) = is_digit c && all_digits s.
Proof. done. Qed.

Lemma all_digits_Forall s : all_digits s = true → Forall (λ c, is_digit c = true) (bytes s).
Proof. unfold all_digits. rewrite forallb_forall, Forall_forall. intros H c Hc. apply H. by apply list_elem_of_In. Qed.

Lemma parse_uint_digits s n :
  0 ≤ n → all_digits s = true → foldl dec_step n (bytes s) ≤ maxInt64 →
  parse_uint n s = (foldl dec_step n (bytes s), None).
Proof.
  revert n. induction s as [|c s IH]; intros n Hn; [done|].
  rewrite all_digits_cons. intros [Hc Hs]%andb_true_iff Hle. cbn [parse_uint bytes foldl] in *.
  pose proof Hc as Hr. apply in_range_true in Hr.
  assert (dec_step n c = n * 10 + (bval c - 48)) as E by done.
  pose proof (dec_foldl_mono (bytes s) (dec_step n c) ltac:(lia) (all_digits_Forall s Hs)) as Hm.
  rewrite Hc. cbn [negb]. unfold maxInt64 in Hle. unfold maxUint64.
  change (18446744073709551615 / 10 + 1) with 1844674407370955162.
  destruct (Z.leb_spec 1844674407370955162 n); [lia|].
  destruct (Z.ltb_spec 18446744073709551615 (dec_step n c)); [lia|].
  apply IH; [lia|done|]. unfold maxInt64. lia.
Qed.

Lemma digits_head z : 0 ≤ z → ∃ c s, itoa z = String c s ∧ is_digit c = true.
Proof.
  intros Hz. destruct (itoa_spec z Hz) as [_ H]. pose proof (itoa_nonempty z) as Hne.
  destruct (itoa z) as [|c s]; [done|]. exists c, s. split; [done|].
  rewrite all_digits_cons in H. by apply andb_true_iff in H as [? _].
Qed.

Lemma split_sign_itoa z t : 0 ≤ z → split_sign (itoa z +:+ t) = (false, itoa z +:+ t).
Proof.
  intros (c & s & E & Hc)%digits_head. rewrite E. rewrite str_app_cons. cbn [split_sign].
  apply in_range_true in Hc.
  destruct (Z.eqb_spec (bval c) 45); [lia|]. destruct (Z.eqb_spec (bval c) 43); [lia|]. done.
Qed.

Lemma Atoi_itoa z : 0 ≤ z ≤ maxInt64 → Atoi (itoa z) = (z, None).
Proof.
  intros Hz. destruct (itoa_spec z) as [Hv Hd]; [lia|]. unfold Atoi.
  rewrite <- (str_app_nil_r (itoa z)), split_sign_itoa, str_app_nil_r by lia.
  unfold ParseUint. rewrite decide_False by apply itoa_nonempty.
  rewrite parse_uint_digits; [|lia|done|unfold dec_value in Hv; lia].
  fold (dec_value (itoa z)). rewrite Hv. unfold pow63, maxInt64 in *.
  destruct (Z.leb_spec 9223372036854775808 z); [lia|]. done.
Qed.

Lemma leadingInt_digits s n t :
  0 ≤ n → all_digits s = true → foldl dec_step n (bytes s) ≤ maxInt64 →
  leadingInt n (s +:+ t) = leadingInt (foldl dec_step n (bytes s)) t.
Proof.
  revert n. induction s as [|c s IH]; intros n Hn; [done|].
  rewrite all_digits_cons. intros [Hc Hs]%andb_true_iff Hle.
  rewrite str_app_cons. cbn [leadingInt bytes foldl] in *.
  pose proof Hc as Hr. apply in_range_true in Hr.
  assert (dec_step n c = n * 10 + (bval c - 48)) as E by done.
  pose proof (dec_foldl_mono (bytes s) (dec_step n c) ltac:(lia) (all_digits_Forall s Hs)) as Hm.
  rewrite Hc. cbn [negb]. unfold maxInt64 in *. unfold pow63.
  change (9223372036854775808 / 10) with 922337203685477580.
  destruct (Z.ltb_spec 922337203685477580 n); [lia|].
  destruct (Z.ltb_spec 9223372036854775808 (dec_step n c)); [lia|].
  by rewrite IH by (unfold maxInt64; lia || done).
Qed.

(** A whole number of seconds reads back as itself. *)
Lemma ParseDuration_seconds n :
  0 ≤ n ≤ 9223372036 → ParseDuration (itoa n +:+ "s") = Some (n * second).
Proof.
  intros Hn. unfold ParseDuration. rewrite split_sign_itoa by lia.
  destruct (digits_head n) as (c & s & E & Hc); [lia|].
  destruct (itoa_spec n) as [Hv Hd]; [lia|]. rewrite E in *. rewrite str_app_cons.
  rewrite decide_False by (intros [= _ H]; destruct s; discriminate H).
  rewrite decide_False by done.
  cbn [String.length duration_loop].
  assert (duration_item (String c (s +:+ "s")) = Some (n * second, "")) as ->.
  { unfold duration_item. rewrite Hc, orb_true_r. cbn [negb].
    change (String c (s +:+ "s")) with (String c s +:+ "s").
    unfold dec_value in Hv. rewrite leadingInt_digits by (rewrite ?Hv; unfold maxInt64; lia || done).
    rewrite Hv. assert (leadingInt n "s" = Some (n, "s")) as -> by reflexivity.
    unfold mbind, option_bind. rewrite str_length_app.
    assert (duration_fraction "s" = (0, float_of_Z 1, "s", false)) as -> by reflexivity.
    destruct (Nat.eqb_spec (String.length (String c s) + String.length "s") (String.length "s")) as [H|H];
      [cbn in H; lia|].
    change (span_unit "s") with ("s", ""). cbn [negb andb].
    rewrite decide_False by done.
    assert (unit_nanos "s" = Some second) as -> by reflexivity. change (pow63 / second) with 9223372036.
    destruct (Z.ltb_spec 9223372036 n); [lia|]. done. }
  unfold mbind, option_bind. unfold second, pow63, maxInt64.
  destruct (Z.ltb_spec 9223372036854775808 (0 + n * 1000000000)) as [H|H]; [lia|].
  destruct (String.length (s +:+ "s")); cbn [duration_loop];
    (destruct (Z.ltb_spec 9223372036854775807 (0 + n * 1000000000)) as [H'|H']; [lia|f_equal; lia]).
Qed.
