(* ===== verification/GoFlag.v ===== *)
(** * Go's command line and environment

    [os.Getenv] and the part of package [flag] that [flag.Parse] runs: definition
    of flags, the syntax of arguments, and the error handling [ExitOnError] of the
    process's own flag set.  A flag set is parametric in the type [S] of the
    variables the flags are bound to. *)
From S2P Require Import Prelude GoStrings.
From Stdlib Require Import Ascii.
Local Open Scope Z_scope.

(** An unset variable reads as the empty string. *)
Definition environ := gmap string string.
Definition Getenv (e : environ) (key : string) : string := default "" (e !! key).

(** [strconv.ParseBool]. *)
Definition ParseBool (s : string) : option bool :=
  if decide (s ∈ ["1"; "t"; "T"; "TRUE"; "true"; "True"]) then Some true
  else if decide (s ∈ ["0"; "f"; "F"; "FALSE"; "false"; "False"]) then Some false
  else None.

(** ** Flag sets *)

(** A flag: whether it is a boolean flag, and [Value.Set], which can reject the
    text. *)
Record flag_value (S : Type) := MkFlagValue { IsBoolFlag : bool; Set_ : string → S → option S }.
Arguments MkFlagValue {_} _ _.
Arguments IsBoolFlag {_} _.
Arguments Set_ {_} _ _ _.

Abbreviation FlagSet S := (gmap string (flag_value S)).

(** [StringVar] and [BoolVar] for a variable with the given setter. *)
Definition string_flag {S} (set : string → S → S) : flag_value S :=
  MkFlagValue false (λ v s, Some (set v s)).
Definition bool_flag {S} (set : bool → S → S) : flag_value S :=
  MkFlagValue true (λ v s, (λ b, set b s) <$> ParseBool v).

(** [f.Var(value, name, usage)]: it panics when the name starts with a dash,
    contains an equals sign, or is taken. *)
Fixpoint contains_equals (s : string) : bool :=
  match s with "" => false | String c s => (bval c =? 61) || contains_equals s end.
Definition valid_flag_name (name : string) : bool :=
  negb (has_prefix "-" name) && negb (contains_equals name).
Definition define {S} (name : string) (v : flag_value S) (fs : FlagSet S) : option (FlagSet S) :=
  if valid_flag_name name && bool_decide (fs !! name = None) then Some (<[name := v]> fs) else None.
Fixpoint define_all {S} (l : list (string * flag_value S)) (fs : FlagSet S) : option (FlagSet S) :=
  match l with
  | [] => Some fs
  | (name, v) :: l => fs ← define name v fs; define_all l fs
  end.

(** ** [parseOne] *)

Inductive flag_error :=
  | BadSyntax (arg : string)
  | NotDefined (name : string)
  | ErrHelp
  | NeedsArgument (name : string)
  | InvalidValue (name value : string).

(** Another flag was set; the flags are over; or parsing fails. *)
Inductive parsed (S : Type) :=
  | Seen (s : S) (args : list string)
  | Done (args : list string)
  | Failed (e : flag_error).
Arguments Seen {_} _ _.
Arguments Done {_} _.
Arguments Failed {_} _.

(** The text after the dashes of a flag; [None] when [s] is no flag.  One or two
    dashes mean the same. *)
Definition flag_body (s : string) : option string :=
  match s with
  | String c1 (String c2 r) =>
    if bval c1 =? 45 then Some (if bval c2 =? 45 then r else String c2 r) else None
  | _ => None
  end.

(** Name and value around the first equals sign. *)
Fixpoint split_equals (s : string) : string * option string :=
  match s with
  | "" => ("", None)
  | String c s => if bval c =? 61 then ("", Some s) else let '(n, v) := split_equals s in (String c n, v)
  end.

Section Parse.
Context {S : Type} (formal : FlagSet S).

Definition set_flag (name : string) (f : flag_value S) (value : string) (s : S) (args : list string) : parsed S :=
  match Set_ f value s with
  | Some s => Seen s args
  | None => Failed (InvalidValue name value)
  end.

Definition parseOne (args : list string) (s : S) : parsed S :=
  match args with
  | [] => Done []
  | arg :: rest =>
    match flag_body arg with
    | None => Done args
    | Some body =>
      if decide (arg = "--") then Done rest
      else if bool_decide (body = "") || has_prefix "-" body || has_prefix "=" body
      then Failed (BadSyntax arg)
      else
        let '(name, value) := split_equals body in
        match formal !! name with
        | None =>
          if bool_decide (name = "help") || bool_decide (name = "h") then Failed ErrHelp else Failed (NotDefined name)
        | Some f =>
          match value with
          | Some v => set_flag name f v s rest
          | None =>
            if IsBoolFlag f then set_flag name f "true" s rest
            else
              match rest with
              | v :: rest => set_flag name f v s rest
              | [] => Failed (NeedsArgument name)
              end
          end
        end
    end
  end.

(** [f.Parse(args)]: the variables and the arguments left over.  Every round
    takes an argument, so [length args] rounds and the final one are enough. *)
Fixpoint parse_loop (fuel : nat) (args : list string) (s : S) : flag_error + S * list string :=
  match parseOne args s with
  | Seen s args =>
    match fuel with
    | O => inr (s, args)
    | Datatypes.S fuel => parse_loop fuel args s
    end
  | Done args => inr (s, args)
  | Failed e => inl e
  end.
Definition Parse (args : list string) (s : S) : flag_error + S * list string :=
  parse_loop (length args) args s.

Lemma set_flag_length name f v s s' args args' : set_flag name f v s args = Seen s' args' → args' = args.
Proof. unfold set_flag. case_match; naive_solver. Qed.

Lemma parseOne_consumes args s s' args' : parseOne args s = Seen s' args' → (length args' < length args)%nat.
Proof.
  unfold parseOne. repeat case_match; intros Hs; simplify_eq; apply set_flag_length in Hs as ->; cbn; lia.
Qed.

Lemma parse_loop_fuel n m args s :
  (length args ≤ n)%nat → (length args ≤ m)%nat → parse_loop n args s = parse_loop m args s.
Proof.
  revert m args s. induction n as [|n IH]; intros m args s Hn Hm.
  { destruct args; [|cbn in Hn; lia]. by destruct m. }
  destruct m as [|m]; [destruct args; [done|cbn in Hm; lia]|]. cbn [parse_loop].
  destruct (parseOne args s) as [s' args'| |] eqn:E; [|done..].
  apply parseOne_consumes in E. apply IH; lia.
Qed.

(** One round of [Parse]. *)
Lemma Parse_seen args s s' args' : parseOne args s = Seen s' args' → Parse args s = Parse args' s'.
Proof.
  intros E. pose proof (parseOne_consumes _ _ _ _ E). unfold Parse.
  destruct args as [|a args]; [done|]. cbn [length parse_loop]. rewrite E.
  apply parse_loop_fuel; cbn in *; lia.
Qed.
Lemma Parse_done args s args' : parseOne args s = Done args' → Parse args s = inr (s, args').
Proof. unfold Parse. intros E. destruct (length args); cbn; by rewrite E. Qed.
End Parse.

(** ** Lemmas on definitions and bodies *)


(** ** Definitions succeed on fresh valid names *)

Lemma define_all_ok {S} (l : list (string * flag_value S)) (fs : FlagSet S) :
  NoDup l.*1 → (∀ n, n ∈ l.*1 → valid_flag_name n = true ∧ fs !! n = None) →
  define_all l fs = Some (list_to_map l ∪ fs).
Proof.
  revert fs. induction l as [|[n v] l IH]; intros fs Hnd Hall.
  { cbn. by rewrite (left_id_L ∅ (∪)). }
  cbn in Hnd, Hall |- *. apply NoDup_cons in Hnd as [Hn Hnd].
  destruct (Hall n) as [Hv Hf]; [left|].
  unfold define. rewrite Hv, bool_decide_eq_true_2 by done. cbn. rewrite IH; [|done|].
  - f_equal. rewrite <- insert_union_l, <- insert_union_r; [done|by apply not_elem_of_list_to_map_1].
  - intros m Hm. destruct (Hall m) as [Hm1 Hm2]; [by right|]. split; [done|].
    rewrite lookup_insert_ne; [done|congruence].
Qed.

(** ** The meaning of a command line *)

(** The ways to write a flag: [-name=value], [-name value], and [-name] alone for
    a boolean one; each with one or two dashes. *)
Inductive flag_form := FormEquals (v : string) | FormNext (v : string) | FormBare.
Record assignment := Assign { as_two : bool; as_name : string; as_form : flag_form }.

Definition form_value (f : flag_form) : string :=
  match f with FormEquals v | FormNext v => v | FormBare => "true" end.
Definition dashes (two : bool) : string := if two then "--" else "-".
Definition print_assignment (a : assignment) : list string :=
  let flag := dashes (as_two a) +:+ as_name a in
  match as_form a with
  | FormEquals v => [flag +:+ "=" +:+ v]
  | FormNext v => [flag; v]
  | FormBare => [flag]
  end.

(** The form goes with the kind of flag. *)
Definition form_ok {S} (f : flag_value S) (form : flag_form) : bool :=
  match form with FormEquals _ => true | FormNext _ => negb (IsBoolFlag f) | FormBare => IsBoolFlag f end.

Lemma flag_body_dashes two c r :
  (bval c =? 45) = false → flag_body (dashes two +:+ String c r) = Some (String c r).
Proof.
  intros H. destruct two; [done|]. change (dashes false +:+ String c r) with (String "-" (String c r)).
  unfold flag_body. by rewrite H.
Qed.

Lemma split_equals_name name r :
  contains_equals name = false → split_equals (name +:+ String (chr 61) r) = (name, Some r).
Proof.
  induction name as [|c name IH]; [done|]. rewrite str_app_cons. cbn [contains_equals split_equals].
  intros [-> H]%orb_false_iff. by rewrite IH.
Qed.
Lemma split_equals_none name : contains_equals name = false → split_equals name = (name, None).
Proof. induction name as [|c name IH]; [done|]. cbn. intros [-> H]%orb_false_iff. by rewrite IH. Qed.

(** A name that can stand on a command line. *)
Lemma valid_name_head name : valid_flag_name name = true → name ≠ "" →
  ∃ c r, name = String c r ∧ (bval c =? 45) = false ∧ (bval c =? 61) = false.
Proof.
  intros [H1 H2]%andb_true_iff Hne. destruct name as [|c r]; [done|]. tidy.
  cbn [contains_equals] in H2. apply orb_false_iff in H2 as [H2 _].
  exists c, r. split_and!; [done| |done]. apply Z.eqb_neq. intros E.
  assert (c = "-"%char) as -> by (by apply bval_inj). cbn in H1. by destruct r.
Qed.

Lemma has_prefix_char a c s : bval a ≠ bval c → has_prefix (String a "") (String c s) = false.
Proof. intros H. cbn. destruct (Ascii.eqb_spec a c); [congruence|done]. Qed.

Section Meaning.
Context {S : Type} (formal : FlagSet S).

(** A body that starts like a name is looked up. *)
Lemma parseOne_body two c r rest (s : S) :
  (bval c =? 45) = false → (bval c =? 61) = false →
  parseOne formal ((dashes two +:+ String c r) :: rest) s =
    let '(name, value) := split_equals (String c r) in
    match formal !! name with
    | None =>
      if bool_decide (name = "help") || bool_decide (name = "h") then Failed ErrHelp else Failed (NotDefined name)
    | Some f =>
      match value with
      | Some v => set_flag name f v s rest
      | None =>
        if IsBoolFlag f then set_flag name f "true" s rest
        else match rest with v :: rest => set_flag name f v s rest | [] => Failed (NeedsArgument name) end
      end
    end.
Proof.
  intros Hc1 Hc2. unfold parseOne. rewrite flag_body_dashes by done.
  apply Z.eqb_neq in Hc1, Hc2.
  rewrite decide_False.
  2:{ intros E. destruct two; [discriminate E|]. injection E as -> _. by apply Hc1. }
  rewrite bool_decide_eq_false_2 by done.
  rewrite !has_prefix_char by (change (bval "-") with 45; change (bval "=") with 61; congruence). done.
Qed.

(** A well-formed assignment sets its flag to its value. *)
Lemma parseOne_assignment a f rest (s : S) :
  valid_flag_name (as_name a) = true → as_name a ≠ "" →
  formal !! as_name a = Some f → form_ok f (as_form a) = true →
  parseOne formal (print_assignment a ++ rest) s = set_flag (as_name a) f (form_value (as_form a)) s rest.
Proof.
  intros Hv Hne Hf Hform. destruct (valid_name_head _ Hv Hne) as (c & r & E & Hc1 & Hc2).
  apply andb_true_iff in Hv as [_ Hv]. tidy. destruct a as [two name form]. cbn in *.
  destruct form as [v|v|]; cbn [print_assignment as_form as_two as_name form_value form_ok app] in *; tidy.
  - rewrite <- str_app_assoc, E, str_app_cons, parseOne_body, <- str_app_cons, <- E by done.
    change ("=" +:+ v) with (String (chr 61) v). rewrite split_equals_name by done. by rewrite Hf.
  - rewrite E, parseOne_body, <- E by done. rewrite split_equals_none, Hf by done. by rewrite Hform.
  - rewrite E, parseOne_body, <- E by done. rewrite split_equals_none, Hf by done. by rewrite Hform.
Qed.

(** Assignments take effect in order, and the rest of the line is parsed with
    what they set. *)
Definition assigned (a : assignment) (s : S) : option S :=
  f ← formal !! as_name a;
  if valid_flag_name (as_name a) && negb (bool_decide (as_name a = "")) && form_ok f (as_form a)
  then Set_ f (form_value (as_form a)) s else None.
Fixpoint assigned_all (l : list assignment) (s : S) : option S :=
  match l with [] => Some s | a :: l => s ← assigned a s; assigned_all l s end.

Lemma Parse_assignments l rest s s' :
  assigned_all l s = Some s' → Parse formal (concat (print_assignment <$> l) ++ rest) s = Parse formal rest s'.
Proof.
  revert s. induction l as [|a l IH]; intros s; [by intros [= ->]|].
  rewrite fmap_cons. cbn [assigned_all concat]. intros (s1 & (f & Hf & Ha)%bind_Some & Hl)%bind_Some.
  case_match eqn:E; [|done]. apply andb_true_iff in E as [[Hv Hne]%andb_true_iff Hform]. tidy.
  apply bool_decide_eq_false in Hne. rewrite <- app_assoc.
  rewrite (Parse_seen _ _ _ s1 (concat (print_assignment <$> l) ++ rest)); [by apply IH|].
  erewrite parseOne_assignment by done. unfold set_flag. by rewrite Ha.
Qed.
End Meaning.
