(* ===== verification/GoMemory.v ===== *)
(** * Go's memory

    Pointers, slices and maps of a Go program as locations of a heap of typed
    cells, for code whose correctness is about sharing.  A program is a state
    monad over the heap; [None] is memory that does not have the type the program
    expects, which Go's type system rules out.  [deep] states what a deep copy is:
    it leaves the memory there was alone, and its result means the same in every
    memory that agrees on the cells the copy allocated. *)
From S2P Require Import Prelude.

Definition loc := positive.
Abbreviation heap cell := (gmap loc cell).

Definition M (cell A : Type) : Type := heap cell → option (A * heap cell).
#[global] Instance M_ret {cell} : MRet (M cell) := λ A a h, Some (a, h).
#[global] Instance M_bind {cell} : MBind (M cell) := λ A B f m h, '(a, h) ← m h; f a h.

(** The zero value of a type. *)
Class Zero (T : Type) := zero_value : T.
#[global] Instance zero_string : Zero string := "".
#[global] Instance zero_bool : Zero bool := false.

(** Types that have cells of their own. *)
Class Stored (cell T : Type) := {
  to_cell : T → cell;
  of_cell : cell → option T;
  of_to_cell t : of_cell (to_cell t) = Some t
}.

(** [array[off : off+len]]. *)
Record slice := MkSlice { sl_array : loc; sl_off : nat; sl_len : nat }.
Definition elements {T} (s : slice) (arr : list T) : list T := take (sl_len s) (drop (sl_off s) arr).

Section Ops.
Context {cell : Type}.

Definition load {T} `{!Stored cell T} (l : loc) : M cell T := λ h, (λ t, (t, h)) <$> (h !! l ≫= of_cell).
Definition new {T} `{!Stored cell T} (t : T) : M cell loc := λ h,
  let l := fresh (dom h) in Some (l, <[l := to_cell t]> h).
Definition store {T} `{!Stored cell T} (l : loc) (t : T) : M cell unit := λ h,
  match h !! l with Some _ => Some ((), <[l := to_cell t]> h) | None => None end.

(** Unless the pointer is nil: a new zero value, then a copy of what it points to. *)
Definition copy_ptr {T} `{!Stored cell T, !Zero T} (c : T → M cell T) (p : option loc) : M cell (option loc) :=
  match p with
  | None => mret None
  | Some p =>
    l ← new (zero_value : T);
    x ← load p;
    y ← c x;
    _ ← store l y;
    mret (Some l)
  end.

(** A new array of [len] zero values, then a copy of every element in turn. *)
Fixpoint copy_elements {T} `{!Stored cell (list T)} (c : T → M cell T) (l : loc) (i : nat) (xs : list T) : M cell unit :=
  match xs with
  | [] => mret ()
  | x :: xs =>
    y ← c x;
    arr ← load l;
    _ ← store l (<[i := y]> arr);
    copy_elements c l (S i) xs
  end.
Definition copy_slice {T} `{!Stored cell (list T), !Zero T} (c : T → M cell T) (s : option slice) : M cell (option slice) :=
  match s with
  | None => mret None
  | Some s =>
    arr ← load (sl_array s);
    let xs := elements s arr in
    l ← new (replicate (length xs) (zero_value : T));
    _ ← copy_elements c l 0 xs;
    mret (Some (MkSlice l 0 (length xs)))
  end.

(** A new map, then a copy of every entry in turn. *)
Fixpoint copy_entries {T} `{!Stored cell (gmap string T)} (c : T → M cell T) (l : loc) (kvs : list (string * T)) : M cell unit :=
  match kvs with
  | [] => mret ()
  | (k, x) :: kvs =>
    y ← c x;
    m ← load l;
    _ ← store l (<[k := y]> m);
    copy_entries c l kvs
  end.
Definition copy_map {T} `{!Stored cell (gmap string T)} (c : T → M cell T) (p : option loc) : M cell (option loc) :=
  match p with
  | None => mret None
  | Some p =>
    m ← load p;
    l ← new (∅ : gmap string T);
    _ ← copy_entries c l (map_to_list m);
    mret (Some l)
  end.

Lemma M_bind_eq {A B} (m : M cell A) (f : A → M cell B) h a h' : m h = Some (a, h') → (m ≫= f) h = f a h'.
Proof. intros H. unfold mbind, M_bind. by rewrite H. Qed.
Lemma load_eq {T} `{!Stored cell T} l (t : T) (h : heap cell) :
  h !! l ≫= of_cell = Some t → load l h = Some (t, h).
Proof. intros H. unfold load. by rewrite H. Qed.
End Ops.

(** ** Meaning *)

(** Which value a runtime representation stands for in a heap. *)
Abbreviation meaning cell T V := (heap cell → T → V → Prop).

Section Meaning.
Context {cell : Type}.

Definition mono {T V} (R : meaning cell T V) : Prop := ∀ h h' t v, h ⊆ h' → R h t v → R h' t v.
Definition deep {T V} (R : meaning cell T V) (c : T → M cell T) : Prop := ∀ h t v, R h t v →
  ∃ t' h', c t h = Some (t', h') ∧ h ⊆ h' ∧ ∀ h'', h' ∖ h ⊆ h'' → R h'' t' v.

(** A value that holds no pointers. *)
Definition rep_eq {T} : meaning cell T T := λ _ t v, t = v.

Definition rep_ptr {T V} `{!Stored cell T} (R : meaning cell T V) : meaning cell (option loc) (option V) := λ h p v,
  match p, v with
  | None, None => True
  | Some l, Some v => ∃ t, h !! l ≫= of_cell = Some t ∧ R h t v
  | _, _ => False
  end.
(** A nil slice is an empty one, a nil map an empty one. *)
Definition rep_slice {T V} `{!Stored cell (list T)} (R : meaning cell T V) : meaning cell (option slice) (list V) := λ h s v,
  match s with
  | None => v = []
  | Some s => ∃ arr, h !! sl_array s ≫= of_cell = Some arr ∧ Forall2 (R h) (elements s arr) v
  end.
Definition rep_map {T V} `{!Stored cell (gmap string T)} (R : meaning cell T V) : meaning cell (option loc) (gmap string V) := λ h p v,
  match p with
  | None => v = ∅
  | Some l => ∃ m, h !! l ≫= of_cell = Some m ∧ map_Forall2 (λ _, R h) m v
  end.

Lemma lookup_mono {T} `{!Stored cell T} (h h' : heap cell) l (t : T) :
  h ⊆ h' → h !! l ≫= of_cell = Some t → h' !! l ≫= of_cell = Some t.
Proof. intros Hs (x & Hx & Ht)%bind_Some. rewrite (lookup_weaken _ _ _ _ Hx Hs). done. Qed.

(** [R] looks at no cells but those that satisfy [keep]. *)
Definition local (keep : cell → bool) {T V} (R : meaning cell T V) : Prop := ∀ h h' t v,
  (∀ l x, h !! l = Some x → keep x = true → h' !! l = Some x) → R h t v → R h' t v.

Lemma local_mono keep {T V} (R : meaning cell T V) : local keep R → mono R.
Proof. intros HR h h' t v Hs. apply HR. intros l x Hx _. by eapply lookup_weaken. Qed.

Lemma mono_eq {T} : mono (@rep_eq T).
Proof. by intros h h' t v _. Qed.
Lemma deep_eq {T} : deep (@rep_eq T) mret.
Proof. intros h t v Hv. exists t, h. done. Qed.

Section Combinators.
Context {T V : Type} (R : meaning cell T V) (HR : mono R).

Lemma mono_ptr `{!Stored cell T} : mono (rep_ptr R).
Proof.
  intros h h' [l|] [v|] Hs; cbn; try done. intros (t & Ht & Hr). exists t. split; [by eapply lookup_mono|by eapply HR].
Qed.
Lemma mono_slice `{!Stored cell (list T)} : mono (rep_slice R).
Proof.
  intros h h' [s|] v Hs; cbn; [|done]. intros (arr & Ha & Hr). exists arr. split; [by eapply lookup_mono|].
  eapply Forall2_impl; [exact Hr|]. intros x y. by apply HR.
Qed.
Lemma mono_map `{!Stored cell (gmap string T)} : mono (rep_map R).
Proof.
  intros h h' [s|] v Hs; cbn; [|done]. intros (m & Ha & Hr). exists m. split; [by eapply lookup_mono|].
  eapply map_Forall2_impl; [exact Hr|]. intros k x y. by apply HR.
Qed.

Context (keep : cell → bool) (HL : local keep R).
Lemma local_ptr `{!Stored cell T} : (∀ x (t : T), of_cell x = Some t → keep x = true) → local keep (rep_ptr R).
Proof.
  intros Hk h h' [l|] [v|] Hs; cbn; try done. intros (t & (x & Hx & Ht)%bind_Some & Hr). exists t.
  split; [rewrite (Hs l x Hx (Hk x t Ht)); done|by eapply HL].
Qed.
Lemma local_slice `{!Stored cell (list T)} :
  (∀ x (t : list T), of_cell x = Some t → keep x = true) → local keep (rep_slice R).
Proof.
  intros Hk h h' [s|] v Hs; cbn; [|done]. intros (arr & (x & Hx & Ht)%bind_Some & Hr). exists arr.
  split; [rewrite (Hs _ x Hx (Hk x arr Ht)); done|]. eapply Forall2_impl; [exact Hr|]. intros y w. by apply HL.
Qed.
Lemma local_map `{!Stored cell (gmap string T)} :
  (∀ x (t : gmap string T), of_cell x = Some t → keep x = true) → local keep (rep_map R).
Proof.
  intros Hk h h' [s|] v Hs; cbn; [|done]. intros (m & (x & Hx & Ht)%bind_Some & Hr). exists m.
  split; [rewrite (Hs _ x Hx (Hk x m Ht)); done|]. eapply map_Forall2_impl; [exact Hr|]. intros k y w. by apply HL.
Qed.
End Combinators.

Lemma local_eq keep {T} : local keep (@rep_eq T).
Proof. by intros h h' t v _. Qed.

(** ** Copies are deep *)

(** Cells allocated in between are among the cells allocated in all. *)
Lemma diff_grow (h h1 h2 h3 : heap cell) :
  h ⊆ h1 → (∀ i x, h2 !! i = Some x → h1 !! i = None → h3 !! i = Some x) → h2 ∖ h1 ⊆ h3 ∖ h.
Proof.
  intros Hs Hd. apply map_subseteq_spec. intros i x [H2 H1]%lookup_difference_Some.
  apply lookup_difference_Some. split; [by apply Hd|]. by eapply lookup_weaken_None.
Qed.
Lemma diff_mono (h h1 h2 h3 : heap cell) : h ⊆ h1 → h2 ⊆ h3 → h2 ∖ h1 ⊆ h3 ∖ h.
Proof. intros H1 H2. apply diff_grow; [done|]. intros i x Hx _. by eapply lookup_weaken. Qed.

Lemma fresh_None (h : heap cell) : h !! fresh (dom h) = None.
Proof. apply not_elem_of_dom, is_fresh. Qed.

Lemma diff_lookup (h h' : heap cell) l x h'' : h !! l = None → h' !! l = Some x → h' ∖ h ⊆ h'' → h'' !! l = Some x.
Proof. intros H1 H2 Hs. eapply lookup_weaken; [|exact Hs]. by apply lookup_difference_Some. Qed.

(** [h'] has the cells of [h], where only [l] may have changed. *)
Definition grows (l : loc) (h h' : heap cell) : Prop := delete l h ⊆ delete l h' ∧ is_Some (h' !! l).

Lemma grows_sub l h h' : h ⊆ h' → is_Some (h !! l) → grows l h h'.
Proof. intros Hs [x Hx]. split; [by apply delete_mono|]. exists x. by eapply lookup_weaken. Qed.
Lemma grows_store l h x : grows l h (<[l := x]> h).
Proof. split; [by rewrite delete_insert_eq|by rewrite lookup_insert_eq]. Qed.
Lemma grows_trans l h1 h2 h3 : grows l h1 h2 → grows l h2 h3 → grows l h1 h3.
Proof. intros [H1 _] [H2 H3]. split; [by etransitivity|done]. Qed.
Lemma grows_base l h0 h h' : h0 !! l = None → h0 ⊆ h → grows l h h' → h0 ⊆ h'.
Proof.
  intros Hl Hs [Hg _]. transitivity (delete l h); [|transitivity (delete l h'); [done|apply delete_subseteq]].
  rewrite <- (delete_id h0 l Hl). by apply delete_mono.
Qed.
Lemma grows_diff l h0 h h' : grows l h h' → delete l h ∖ h0 ⊆ delete l h' ∖ h0.
Proof. intros [Hg _]. by apply diff_mono. Qed.

Section Deep.
Context {T V : Type} (R : meaning cell T V) (HR : mono R) (c : T → M cell T) (Hc : deep R c).

Lemma deep_ptr `{!Stored cell T, !Zero T} : deep (rep_ptr R) (copy_ptr c).
Proof.
  intros h [p|] [v|]; cbn; try done; [|intros _; by exists None, h].
  intros (t & Hp & Ht). pose proof (fresh_None h) as Hl. set (l := fresh (dom h)) in *.
  set (h1 := <[l := to_cell (zero_value : T)]> h). assert (h ⊆ h1) as Hs1 by by apply insert_subseteq.
  destruct (Hc h1 t v) as (t' & h2 & Hct & Hs2 & Hr); [by eapply HR|].
  assert (h2 !! l = Some (to_cell (zero_value : T))) as Hl2.
  { eapply lookup_weaken; [|exact Hs2]. apply lookup_insert_eq. }
  exists (Some l), (<[l := to_cell t']> h2). split_and!.
  - erewrite M_bind_eq by reflexivity. fold l h1.
    erewrite M_bind_eq by (by apply load_eq; eapply lookup_mono). erewrite M_bind_eq by exact Hct.
    erewrite M_bind_eq by (unfold store; by rewrite Hl2). done.
  - eapply (grows_base l h h2); [done|by etransitivity|apply grows_store].
  - intros h'' Hs. exists t'. split.
    + rewrite (diff_lookup h _ l (to_cell t') h'' Hl) by (by rewrite ?lookup_insert_eq). apply of_to_cell.
    + apply Hr. etransitivity; [|exact Hs]. apply diff_grow; [done|]. intros i x Hx Hi.
      rewrite lookup_insert_ne; [done|]. intros <-. unfold h1 in Hi. by rewrite lookup_insert_eq in Hi.
Qed.

(** [y] means [v] thanks to cells allocated since [h0] other than [l]. *)
Definition good (h0 : heap cell) (l : loc) (h : heap cell) (y : T) (v : V) : Prop :=
  ∀ h'', delete l h ∖ h0 ⊆ h'' → R h'' y v.
Lemma good_grows h0 l h h' y v : grows l h h' → good h0 l h y v → good h0 l h' y v.
Proof. intros Hg Hy h'' Hs. apply Hy. etransitivity; [by eapply grows_diff|done]. Qed.

(** One element: copied, and then stored into the cell [l]. *)
Lemma copy_step (A : Type) `{!Stored cell A} h0 l h x v (a : A) :
  h0 ⊆ h → h0 !! l = None → h !! l ≫= of_cell = Some a → R h0 x v →
  ∃ y h1, c x h = Some (y, h1) ∧ h1 !! l ≫= of_cell = Some a
    ∧ ∀ a' : A, let h2 := <[l := to_cell a']> h1 in
      store l a' h1 = Some ((), h2) ∧ grows l h h2 ∧ good h0 l h2 y v ∧ h2 !! l ≫= of_cell = Some a'.
Proof.
  intros Hs Hl Ha Hx. destruct (Hc h x v) as (y & h1 & Hcx & Hs1 & Hr); [by eapply HR|].
  pose proof (lookup_mono _ _ _ _ Hs1 Ha) as Ha1. exists y, h1. split_and!; [done|done|]. intros a' h2.
  assert (is_Some (h !! l)) as Hl1 by (by apply bind_Some in Ha as (z & -> & _)).
  split_and!.
  - unfold store. by apply bind_Some in Ha1 as (z & -> & _).
  - eapply grows_trans; [by apply grows_sub|apply grows_store].
  - intros h'' Hs'. apply Hr. etransitivity; [|exact Hs']. apply diff_grow; [done|]. intros i z Hz Hi.
    assert (i ≠ l) by (intros ->; rewrite Hi in Hl1; by destruct Hl1).
    unfold h2. by rewrite lookup_delete_ne, lookup_insert_ne by congruence.
  - unfold h2. rewrite lookup_insert_eq. apply of_to_cell.
Qed.

Lemma copy_elements_deep `{!Stored cell (list T)} h0 l xs vs i h arr :
  h0 ⊆ h → h0 !! l = None → h !! l ≫= of_cell = Some arr → length arr = (i + length xs)%nat →
  Forall2 (R h0) xs vs →
  ∃ arr' h', copy_elements c l i xs h = Some ((), h') ∧ grows l h h' ∧ h' !! l ≫= of_cell = Some arr'
    ∧ length arr' = length arr ∧ take i arr' = take i arr ∧ Forall2 (good h0 l h') (drop i arr') vs.
Proof.
  intros Hs Hl Ha Hlen Hxs. revert i h arr Hs Ha Hlen. induction Hxs as [|x v xs vs Hx Hxs IH]; intros i h arr Hs Ha Hlen.
  { exists arr, h. split_and!; try done.
    - apply grows_sub; [done|]. by apply bind_Some in Ha as (z & -> & _).
    - rewrite drop_ge by (cbn in Hlen; lia). constructor. }
  destruct (copy_step (list T) h0 l h x v arr Hs Hl Ha Hx) as (y & h1 & Hcx & Ha1 & Hstep).
  destruct (Hstep (<[i := y]> arr)) as (Hst & Hg & Hy & Ha2).
  destruct (IH (S i) (<[l := to_cell (<[i := y]> arr)]> h1) (<[i := y]> arr)) as (arr' & h' & Hrun & Hg' & Ha' & Hlen' & Htake & Hall).
  { by eapply grows_base. } { done. } { rewrite length_insert. cbn in Hlen. lia. }
  rewrite length_insert in Hlen'. cbn in Hlen.
  assert (arr' !! i = Some y) as Hi.
  { rewrite <- (lookup_take_lt arr' (S i)), Htake, lookup_take_lt by lia. apply list_lookup_insert_eq. lia. }
  exists arr', h'. split_and!; [|by eapply grows_trans|done|done| |].
  - cbn [copy_elements]. erewrite M_bind_eq by exact Hcx. erewrite M_bind_eq by (by apply load_eq).
    erewrite M_bind_eq by exact Hst. done.
  - apply (f_equal (take i)) in Htake. rewrite !take_take, Nat.min_l in Htake by lia.
    by rewrite Htake, take_insert_ge by lia.
  - rewrite (drop_S _ _ _ Hi). constructor; [by eapply good_grows|done].
Qed.

Lemma deep_slice `{!Stored cell (list T), !Zero T} : deep (rep_slice R) (copy_slice c).
Proof.
  intros h [s|] v; cbn; [|intros ->; by exists None, h]. intros (arr & Ha & Hall).
  pose proof (fresh_None h) as Hl. set (l := fresh (dom h)) in *. set (xs := elements s arr) in *.
  set (h1 := <[l := to_cell (replicate (length xs) (zero_value : T))]> h).
  assert (h ⊆ h1) as Hs1 by by apply insert_subseteq.
  destruct (copy_elements_deep h l xs v 0 h1 (replicate (length xs) zero_value))
    as (arr' & h' & Hrun & Hg & Ha' & Hlen & _ & Hgood); [done|done| |by rewrite length_replicate|done|].
  { unfold h1. rewrite lookup_insert_eq. apply of_to_cell. }
  rewrite length_replicate in Hlen. cbn [drop] in Hgood. exists (Some (MkSlice l 0 (length xs))), h'. split_and!.
  - erewrite M_bind_eq by (by apply load_eq). fold xs. erewrite M_bind_eq by reflexivity. fold l h1.
    erewrite M_bind_eq by exact Hrun. done.
  - by eapply grows_base.
  - intros h'' Hs. exists arr'. apply bind_Some in Ha' as (z & Hz & Hz'). split.
    + cbn. by rewrite (diff_lookup h h' l z h'' Hl Hz Hs).
    + unfold elements. cbn. rewrite drop_0, take_ge by lia. eapply Forall2_impl; [exact Hgood|].
      intros y w Hy. apply Hy. etransitivity; [|exact Hs]. apply diff_mono; [done|apply delete_subseteq].
Qed.

Lemma copy_entries_deep `{!Stored cell (gmap string T)} h0 l kvs v h m mv :
  h0 ⊆ h → h0 !! l = None → NoDup kvs.*1 → h !! l ≫= of_cell = Some m →
  map_Forall2 (λ _, good h0 l h) m mv → map_Forall2 (λ _, R h0) (list_to_map kvs) v →
  ∃ m' h', copy_entries c l kvs h = Some ((), h') ∧ grows l h h' ∧ h' !! l ≫= of_cell = Some m'
    ∧ map_Forall2 (λ _, good h0 l h') m' (v ∪ mv).
Proof.
  intros Hs Hl. revert v h m mv Hs. induction kvs as [|[k x] kvs IH]; intros v h m mv Hs Hnd Hm Hgood Hv.
  { cbn in Hv. apply map_Forall2_empty_inv_l in Hv as ->. exists m, h. rewrite (left_id_L ∅ (∪)). split_and!; try done.
    apply grows_sub; [done|]. by apply bind_Some in Hm as (z & -> & _). }
  cbn in Hnd, Hv. apply NoDup_cons in Hnd as [Hk Hnd].
  apply map_Forall2_insert_inv_l in Hv as (w & v' & -> & Hv' & Hx & Hv); [|by apply not_elem_of_list_to_map_1].
  destruct (copy_step (gmap string T) h0 l h x w m Hs Hl Hm Hx) as (y & h1 & Hcx & Hm1 & Hstep).
  destruct (Hstep (<[k := y]> m)) as (Hst & Hg & Hy & Hm2).
  destruct (IH v' (<[l := to_cell (<[k := y]> m)]> h1) (<[k := y]> m) (<[k := w]> mv)) as (m' & h' & Hrun & Hg' & Hm' & Hall);
    [by eapply grows_base|done|done| |done|].
  { apply map_Forall2_insert_2; [done|]. eapply map_Forall2_impl; [exact Hgood|]. intros ????. by eapply good_grows. }
  exists m', h'. split_and!; [|by eapply grows_trans|done|].
  - cbn [copy_entries]. erewrite M_bind_eq by exact Hcx. erewrite M_bind_eq by (by apply load_eq).
    erewrite M_bind_eq by exact Hst. done.
  - by rewrite <- insert_union_l, (insert_union_r _ _ _ _ Hv').
Qed.

Lemma deep_map `{!Stored cell (gmap string T)} : deep (rep_map R) (copy_map c).
Proof.
  intros h [p|] v; cbn; [|intros ->; by exists None, h]. intros (m & Hm & Hall).
  pose proof (fresh_None h) as Hl. set (l := fresh (dom h)) in *.
  set (h1 := <[l := to_cell (∅ : gmap string T)]> h). assert (h ⊆ h1) as Hs1 by by apply insert_subseteq.
  destruct (copy_entries_deep h l (map_to_list m) v h1 ∅ ∅) as (m' & h' & Hrun & Hg & Hm' & Hgood);
    [done|done|apply NoDup_fst_map_to_list| |apply map_Forall2_empty|by rewrite list_to_map_to_list|].
  { unfold h1. rewrite lookup_insert_eq. apply of_to_cell. }
  rewrite (right_id_L ∅ (∪)) in Hgood. exists (Some l), h'. split_and!.
  - erewrite M_bind_eq by (by apply load_eq). erewrite M_bind_eq by reflexivity. fold l h1.
    erewrite M_bind_eq by exact Hrun. done.
  - by eapply grows_base.
  - intros h'' Hs. exists m'. apply bind_Some in Hm' as (z & Hz & Hz'). split.
    + by rewrite (diff_lookup h h' l z h'' Hl Hz Hs).
    + eapply map_Forall2_impl; [exact Hgood|].
      intros k y w Hy. apply Hy. etransitivity; [|exact Hs]. apply diff_mono; [done|apply delete_subseteq].
Qed.
End Deep.

(** ** Structs: one field after the other *)

(** From [h], a program started in [h0] ends with a result of which [Q] holds in
    every memory that has the cells allocated since [h0]. *)
Definition yields {A} (h0 h : heap cell) (m : M cell A) (Q : heap cell → A → Prop) : Prop :=
  ∃ a h', m h = Some (a, h') ∧ h ⊆ h' ∧ ∀ h'', h' ∖ h0 ⊆ h'' → Q h'' a.

Lemma deep_intro {T V} (R : meaning cell T V) c :
  (∀ h t v, R h t v → yields h h (c t) (λ h'' t', R h'' t' v)) → deep R c.
Proof. intros H h t v Hr. exact (H h t v Hr). Qed.

Lemma yields_ret {A} h0 h (a : A) Q : (∀ h'', Q h'' a) → yields h0 h (mret a) Q.
Proof. intros H. exists a, h. done. Qed.

Lemma yields_bind {T V A} (R : meaning cell T V) c t v (f : T → M cell A) Q h0 h :
  deep R c → mono R → R h0 t v → h0 ⊆ h →
  (∀ t' h1, h0 ⊆ h1 → yields h0 h1 (f t') (λ h'' a, R h'' t' v → Q h'' a)) →
  yields h0 h (c t ≫= f) Q.
Proof.
  intros Hd Hm Hr Hs Hf. destruct (Hd h t v) as (t' & h1 & Hc & Hs1 & Hr1); [by eapply Hm|].
  destruct (Hf t' h1) as (a & h' & Hfa & Hs2 & HQ); [by etransitivity|].
  exists a, h'. split_and!; [by rewrite (M_bind_eq _ _ _ _ _ Hc)|by etransitivity|].
  intros h'' Hs''. apply HQ; [done|]. apply Hr1. etransitivity; [|exact Hs'']. by apply diff_mono.
Qed.
End Meaning.

(** The facts about meanings, for structs to pick from. *)
Create HintDb memory.
#[export] Hint Resolve local_eq mono_eq mono_ptr mono_slice mono_map deep_eq deep_ptr deep_slice deep_map : memory.

(** Walk through the fields of a struct copy. *)
Ltac copy_fields :=
  repeat (eapply yields_bind; [solve [eauto with memory]|solve [eauto with memory]|eassumption|first [assumption|reflexivity]|intros ? ? ?]);
  apply yields_ret; intros h''; cbn.
