(* ===== verification/Platform.v ===== *)
(** * The platform the operator is written against

    Data types and functions of packages that are not part of the repository
    (k8s.io/api, k8s.io/apimachinery, controller-runtime, client_golang).  Data
    types carry the fields the operator reads or writes.  Functions are fields
    of operational classes, so every definition of the development is
    parametric in them; what the operator relies on is stated in the [...Laws]
    classes, and [Instances.v] gives models of all of them. *)
From S2P Require Import Prelude GoStrings GoTime.
Local Open Scope Z_scope.

(** ** Errors *)

(** What [apierrors.ReasonForError] reports; [fmt.Errorf] with [%w] preserves it. *)
Inductive StatusReason := ReasonNotFound | ReasonAlreadyExists | ReasonConflict | ReasonUnknown.
#[global] Instance StatusReason_eq_dec : EqDecision StatusReason.
Proof. solve_decision. Defined.

(** An [error] is what the code observes of it: the reason the [apierrors]
    predicates test, and the text of [Error()]. *)
Record error := MkError { err_reason : StatusReason; Error : string }.

Definition IsNotFound (e : error) : bool := bool_decide (err_reason e = ReasonNotFound).
Definition IsAlreadyExists (e : error) : bool := bool_decide (err_reason e = ReasonAlreadyExists).

(** [fmt.Errorf(prefix + "%w", err)] and [fmt.Errorf(text)]. *)
Definition wrapf (prefix : string) (e : error) : error :=
  MkError (err_reason e) (prefix +:+ Error e).
Definition errorf (text : string) : error := MkError ReasonUnknown text.

(** Go's [(value, error)] results: a value or a non-nil error. *)
Inductive result (A : Type) := Ok (a : A) | Err (e : error).
Arguments Ok {_} _.
Arguments Err {_} _.

(** [client.IgnoreNotFound]: the error a function returns, [None] for nil. *)
Definition IgnoreNotFound (e : error) : option error := if IsNotFound e then None else Some e.

(** ** [resource.Quantity] *)

Class QuantityOps := {
  Quantity : Type;
  Quantity_eq_dec :: EqDecision Quantity;
  q_zero : Quantity;
  q_IsZero : Quantity → bool;
  q_Sign : Quantity → Z;
  q_Cmp : Quantity → Quantity → Z;
  q_Equal : Quantity → Quantity → bool;
  q_String : Quantity → string;
  q_Parse : string → option Quantity
}.

(** Documented behaviour of quantities: [Cmp] orders them by value, the other
    tests agree with it, and ["10Gi"] is a positive quantity. *)
Class QuantityLaws `{!QuantityOps} : Prop := {
  q_cmp_refl q : q_Cmp q q = 0;
  q_cmp_antisym p q : q_Cmp p q < 0 ↔ 0 < q_Cmp q p;
  q_cmp_trans p q r : q_Cmp p q ≤ 0 → q_Cmp q r ≤ 0 → q_Cmp p r ≤ 0;
  q_equal_cmp p q : q_Equal p q = true ↔ q_Cmp p q = 0;
  q_iszero_cmp q : q_IsZero q = true ↔ q_Cmp q q_zero = 0;
  q_sign_cmp q : (q_Sign q < 0 ↔ q_Cmp q q_zero < 0) ∧ (0 < q_Sign q ↔ 0 < q_Cmp q q_zero);
  q_parse_10Gi : ∃ q, q_Parse "10Gi" = Some q ∧ 0 < q_Sign q
}.

(** ** Object metadata, conditions *)

Definition LabelMap := gmap string string.

Record OwnerReference := MkOwnerReference {
  or_Name : string; or_UID : string; or_Controller : bool
}.

Record ObjectMeta := MkObjectMeta {
  om_Name : string;
  om_Namespace : string;
  om_UID : string;
  om_ResourceVersion : string;
  om_Generation : Z;
  om_CreationTimestamp : Time;
  om_DeletionTimestamp : option Time;
  om_Labels : LabelMap;
  om_Annotations : LabelMap;
  om_OwnerReferences : list OwnerReference;
  om_Finalizers : list string
}.

(** [time.Time{}], the zero value of Go's [Time]. *)
Definition zero_time : Time := -62135596800 * second.

(** [metav1.ObjectMeta{Name: n, Namespace: ns, Labels: l}]. *)
Definition new_meta (n ns : string) (l : LabelMap) : ObjectMeta :=
  MkObjectMeta n ns "" "" 0 zero_time None l ∅ [] [].

(** [IsZero] of a [*metav1.Time]. *)
Definition time_ptr_IsZero (t : option Time) : bool :=
  match t with None => true | Some t => t =? zero_time end.

Record Condition := MkCondition {
  cond_Type : string;
  cond_Status : string;
  cond_ObservedGeneration : Z;
  cond_LastTransitionTime : Time;
  cond_Reason : string;
  cond_Message : string
}.

Definition find_condition (t : string) (l : list Condition) : option Condition :=
  List.find (λ c, bool_decide (cond_Type c = t)) l.

(** [controllerutil] and [apimachinery/pkg/api/meta]. *)
Class MetaOps := {
  ContainsFinalizer : ObjectMeta → string → bool;
  AddFinalizer : ObjectMeta → string → ObjectMeta;
  RemoveFinalizer : ObjectMeta → string → ObjectMeta;
  (** [ctrl.SetControllerReference(owner, obj, scheme)] on the metadata of [obj]. *)
  SetControllerReference : ObjectMeta → ObjectMeta → result ObjectMeta;
  (** [meta.SetStatusCondition] stamps transitions with the time it reads. *)
  SetStatusCondition : Time → list Condition → Condition → list Condition;
  RemoveStatusCondition : list Condition → string → list Condition
}.

(** Two metadata values that differ at most in finalizers and owners. *)
Definition same_identity (m m' : ObjectMeta) : Prop :=
  om_Name m' = om_Name m ∧ om_Namespace m' = om_Namespace m ∧ om_UID m' = om_UID m
  ∧ om_ResourceVersion m' = om_ResourceVersion m
  ∧ om_Generation m' = om_Generation m ∧ om_DeletionTimestamp m' = om_DeletionTimestamp m
  ∧ om_Labels m' = om_Labels m ∧ om_Annotations m' = om_Annotations m.

Class MetaLaws `{!MetaOps} : Prop := {
  contains_finalizer_iff m f : ContainsFinalizer m f = true ↔ f ∈ om_Finalizers m;
  add_finalizer_iff m f g : g ∈ om_Finalizers (AddFinalizer m f) ↔ g = f ∨ g ∈ om_Finalizers m;
  remove_finalizer_iff m f g : g ∈ om_Finalizers (RemoveFinalizer m f) ↔ g ≠ f ∧ g ∈ om_Finalizers m;
  add_finalizer_identity m f : same_identity m (AddFinalizer m f);
  remove_finalizer_identity m f : same_identity m (RemoveFinalizer m f);
  set_controller_reference_identity o m m' :
    SetControllerReference o m = Ok m' → same_identity m m' ∧ om_Finalizers m' = om_Finalizers m;
  set_controller_reference_owner o m m' :
    SetControllerReference o m = Ok m' →
    ∃ r, r ∈ om_OwnerReferences m' ∧ or_Name r = om_Name o ∧ or_UID r = om_UID o ∧ or_Controller r = true;
  (** An object in the owner's namespace without owners can always be owned. *)
  set_controller_reference_fresh o n l :
    ∃ m', SetControllerReference o (new_meta n (om_Namespace o) l) = Ok m';
  set_condition_same now l c :
    ∃ c', find_condition (cond_Type c) (SetStatusCondition now l c) = Some c'
      ∧ cond_Status c' = cond_Status c ∧ cond_Reason c' = cond_Reason c
      ∧ cond_Message c' = cond_Message c ∧ cond_ObservedGeneration c' = cond_ObservedGeneration c;
  set_condition_other now l c t :
    t ≠ cond_Type c → find_condition t (SetStatusCondition now l c) = find_condition t l;
  (** Setting a condition to what it already is keeps its transition time. *)
  set_condition_id now l c c' :
    find_condition (cond_Type c) l = Some c' → cond_Status c' = cond_Status c → cond_Reason c' = cond_Reason c →
    cond_Message c' = cond_Message c → cond_ObservedGeneration c' = cond_ObservedGeneration c →
    SetStatusCondition now l c = l;
  (** Conditions are keyed by their type: one is replaced or added, or dropped. *)
  set_condition_types now l c :
    cond_Type <$> SetStatusCondition now l c
    = if decide (cond_Type c ∈ cond_Type <$> l) then cond_Type <$> l else (cond_Type <$> l) ++ [cond_Type c];
  remove_condition_types l t : cond_Type <$> RemoveStatusCondition l t = filter (λ x, x ≠ t) (cond_Type <$> l);
  remove_condition_id l t : find_condition t l = None → RemoveStatusCondition l t = l;
  remove_condition_same l t : find_condition t (RemoveStatusCondition l t) = None;
  remove_condition_other l t t' :
    t' ≠ t → find_condition t' (RemoveStatusCondition l t) = find_condition t' l
}.

(** ** Unstructured objects *)

(** JSON-like values of [unstructured.Unstructured]; a Go map is an association
    list. *)
Inductive jval :=
  | JNull | JBool (b : bool) | JInt (z : Z) | JStr (s : string)
  | JList (l : list jval) | JMap (m : list (string * jval)).

(** The [Object] field of an [unstructured.Unstructured]. *)
Definition Unstructured := list (string * jval).

(** The value stored under a key. *)
Fixpoint jget (k : string) (m : Unstructured) : option jval :=
  match m with
  | [] => None
  | (k', v) :: m => if decide (k = k') then Some v else jget k m
  end.

Record GroupVersionKind := MkGVK { gvk_Group : string; gvk_Version : string; gvk_Kind : string }.

Class UnstructuredOps := {
  u_SetGroupVersionKind : GroupVersionKind → Unstructured → Unstructured;
  u_SetNamespace : string → Unstructured → Unstructured;
  u_SetName : string → Unstructured → Unstructured;
  u_SetLabels : LabelMap → Unstructured → Unstructured;
  u_GetName : Unstructured → string;
  u_GetNamespace : Unstructured → string;
  u_GetLabels : Unstructured → LabelMap;
  u_GetCreationTimestamp : Unstructured → Time;
  u_SetNestedField : Unstructured → jval → list string → result Unstructured;
  (** [unstructured.NestedX(obj, fields...)]: value, found, error. *)
  u_NestedString : Unstructured → list string → string * bool * option error;
  u_NestedBool : Unstructured → list string → bool * bool * option error;
  u_NestedSlice : Unstructured → list string → list jval * bool * option error;
  u_SetControllerReference : ObjectMeta → Unstructured → result Unstructured
}.

Class UnstructuredLaws `{!UnstructuredOps} : Prop := {
  u_name_set n u : u_GetName (u_SetName n u) = n;
  u_name_set_gvk g u : u_GetName (u_SetGroupVersionKind g u) = u_GetName u;
  u_name_set_ns ns u : u_GetName (u_SetNamespace ns u) = u_GetName u;
  u_name_set_labels l u : u_GetName (u_SetLabels l u) = u_GetName u;
  u_ns_set ns u : u_GetNamespace (u_SetNamespace ns u) = ns;
  u_ns_set_gvk g u : u_GetNamespace (u_SetGroupVersionKind g u) = u_GetNamespace u;
  u_ns_set_name n u : u_GetNamespace (u_SetName n u) = u_GetNamespace u;
  u_ns_set_labels l u : u_GetNamespace (u_SetLabels l u) = u_GetNamespace u;
  u_labels_set l u : u_GetLabels (u_SetLabels l u) = l;
  (** Writing below ["spec"] leaves the metadata alone. *)
  u_set_spec_meta u v p u' :
    u_SetNestedField u v ("spec" :: p) = Ok u' →
    u_GetName u' = u_GetName u ∧ u_GetNamespace u' = u_GetNamespace u ∧ u_GetLabels u' = u_GetLabels u;
  u_set_owner_meta o u u' :
    u_SetControllerReference o u = Ok u' →
    u_GetName u' = u_GetName u ∧ u_GetNamespace u' = u_GetNamespace u ∧ u_GetLabels u' = u_GetLabels u;
  u_nested_set u s p u' :
    u_SetNestedField u (JStr s) p = Ok u' → u_NestedString u' p = (s, true, None);
  (** Name and namespace are the fields below ["metadata"]. *)
  u_name_metadata u : u_GetName u = (u_NestedString u ["metadata"; "name"]).1.1;
  u_ns_metadata u : u_GetNamespace u = (u_NestedString u ["metadata"; "namespace"]).1.1;
  u_nested_string1 u k s : jget k u = Some (JStr s) → u_NestedString u [k] = (s, true, None);
  u_nested_string2 u k m k' s :
    jget k u = Some (JMap m) → jget k' m = Some (JStr s) → u_NestedString u [k; k'] = (s, true, None)
}.

(** ** [sort.Slice] *)

(** [sort.Slice(x, less)]: some ordering of the elements; it is not stable, so
    which one is not determined. *)
Class SortOps := sort_slice : ∀ {A : Type}, (A → A → bool) → list A → list A.
Class SortLaws `{!SortOps} : Prop := {
  sort_slice_perm {A} (less : A → A → bool) l : Permutation (sort_slice less l) l;
  sort_slice_sorted {A} (less : A → A → bool) (key : A → Z) l :
    (∀ a b, less a b = true ↔ key a < key b) →
    ∀ i j a b, sort_slice less l !! i = Some a → sort_slice less l !! j = Some b →
    (i < j)%nat → key a ≤ key b
}.

(** ** Prometheus gauges *)

(** A [prometheus.GaugeVec]: [WithLabelValues(l...).Set(v)], which panics where
    [GetMetricWithLabelValues] returns an error ([None] here), and
    [DeleteLabelValues(l...)]; [gauge_get] is what a scrape exposes.  The values
    the program stores are integers, exactly representable as [float64]. *)
Class GaugeVecOps := {
  GaugeVec : Type;
  gauge_empty : GaugeVec;
  gauge_set : list string → Z → GaugeVec → option GaugeVec;
  gauge_delete : list string → GaugeVec → GaugeVec;
  gauge_get : list string → GaugeVec → option Z
}.
(** Label values have to be valid UTF-8; every series has its own value. *)
Class GaugeVecLaws `{!GaugeVecOps} : Prop := {
  gauge_set_valid l v g : is_Some (gauge_set l v g) ↔ Forall (λ s, valid_utf8 s = true) l;
  gauge_get_empty l : gauge_get l gauge_empty = None;
  gauge_get_set l l' v g g' :
    gauge_set l' v g = Some g' → gauge_get l g' = if decide (l = l') then Some v else gauge_get l g;
  gauge_get_delete l l' g :
    gauge_get l (gauge_delete l' g) = if decide (l = l') then None else gauge_get l g
}.
