(* ===== verification/Instances.v ===== *)
(** * Models of the platform

    Executable instances of every operational class of [Platform.v] and
    [GoTime.v], with proofs of their laws: the assumptions of the development
    can all hold at once, and examples can be computed. *)
From S2P Require Import Prelude GoStrings GoTime Platform.
From Stdlib Require Import Ascii Sorting.Sorted.
Local Open Scope Z_scope.

Module Model.

(** ** Quantities: integers in thousandths *)

Definition strip_suffix (suf s : string) : option string :=
  let n := (String.length s - String.length suf)%nat in
  if decide (str_drop n s = suf) then Some (str_take n s) else None.

Definition parse_digits (s : string) : option Z :=
  if all_digits s && negb (bool_decide (s = "")) then Some (dec_value s) else None.

Definition parse_quantity (s : string) : option Z :=
  match strip_suffix "Gi" s with
  | Some d => (λ n, n * 1073741824000) <$> parse_digits d
  | None =>
    match strip_suffix "Mi" s with
    | Some d => (λ n, n * 1048576000) <$> parse_digits d
    | None =>
      match strip_suffix "m" s with
      | Some d => parse_digits d
      | None => (λ n, n * 1000) <$> parse_digits s
      end
    end
  end.

#[export] Instance quantity_ops : QuantityOps := {|
  Quantity := Z;
  q_zero := 0;
  q_IsZero q := q =? 0;
  q_Sign q := Z.sgn q;
  q_Cmp p q := Z.sgn (p - q);
  q_Equal p q := p =? q;
  q_String q := itoa q +:+ "m";
  q_Parse := parse_quantity
|}.

#[export] Instance quantity_laws : QuantityLaws.
Proof.
  split; cbn; intros.
  - by rewrite Z.sub_diag.
  - lia.
  - lia.
  - rewrite Z.eqb_eq. lia.
  - rewrite Z.eqb_eq. lia.
  - lia.
  - eexists. split; [reflexivity|reflexivity].
Qed.

(** ** Metadata *)

Definition set_finalizers (l : list string) (m : ObjectMeta) : ObjectMeta :=
  MkObjectMeta (om_Name m) (om_Namespace m) (om_UID m) (om_ResourceVersion m) (om_Generation m)
    (om_CreationTimestamp m) (om_DeletionTimestamp m) (om_Labels m) (om_Annotations m)
    (om_OwnerReferences m) l.
Definition set_owners (l : list OwnerReference) (m : ObjectMeta) : ObjectMeta :=
  MkObjectMeta (om_Name m) (om_Namespace m) (om_UID m) (om_ResourceVersion m) (om_Generation m)
    (om_CreationTimestamp m) (om_DeletionTimestamp m) (om_Labels m) (om_Annotations m)
    l (om_Finalizers m).

(** A controller with another UID makes the call fail. *)
Definition set_controller (o m : ObjectMeta) : result ObjectMeta :=
  if existsb (λ r, or_Controller r && negb (bool_decide (or_UID r = om_UID o))) (om_OwnerReferences m)
  then Err (errorf "already owned by another controller")
  else Ok (set_owners (om_OwnerReferences m ++ [MkOwnerReference (om_Name o) (om_UID o) true]) m).

Definition stamp (t : Time) (c : Condition) : Condition :=
  MkCondition (cond_Type c) (cond_Status c) (cond_ObservedGeneration c) t (cond_Reason c) (cond_Message c).

Fixpoint set_condition (t : Time) (l : list Condition) (c : Condition) : list Condition :=
  match l with
  | [] => [stamp t c]
  | d :: l =>
    if decide (cond_Type d = cond_Type c)
    then stamp (if decide (cond_Status d = cond_Status c) then cond_LastTransitionTime d else t) c :: l
    else d :: set_condition t l c
  end.

#[export] Instance meta_ops : MetaOps := {|
  ContainsFinalizer m f := bool_decide (f ∈ om_Finalizers m);
  AddFinalizer m f := if decide (f ∈ om_Finalizers m) then m else set_finalizers (om_Finalizers m ++ [f]) m;
  RemoveFinalizer m f := set_finalizers (filter (λ g, g ≠ f) (om_Finalizers m)) m;
  SetControllerReference := set_controller;
  SetStatusCondition := set_condition;
  RemoveStatusCondition l t := List.filter (λ c, negb (bool_decide (cond_Type c = t))) l
|}.

Lemma set_condition_find t l c :
  ∃ t', find_condition (cond_Type c) (set_condition t l c) = Some (stamp t' c).
Proof.
  induction l as [|d l IH]; cbn; unfold find_condition; cbn.
  - rewrite bool_decide_eq_true_2 by done. eauto.
  - case_decide as E; cbn.
    + rewrite bool_decide_eq_true_2 by done. eauto.
    + rewrite bool_decide_eq_false_2 by done. apply IH.
Qed.

Lemma set_condition_find_ne t l c ty :
  ty ≠ cond_Type c → find_condition ty (set_condition t l c) = find_condition ty l.
Proof.
  intros Hne. induction l as [|d l IH]; cbn; unfold find_condition; cbn.
  - by rewrite bool_decide_eq_false_2.
  - case_decide as E; cbn.
    + rewrite !bool_decide_eq_false_2 by congruence. done.
    + case_bool_decide; [done|]. apply IH.
Qed.

Lemma set_condition_keep t l c c' :
  find_condition (cond_Type c) l = Some c' → cond_Status c' = cond_Status c → cond_Reason c' = cond_Reason c →
  cond_Message c' = cond_Message c → cond_ObservedGeneration c' = cond_ObservedGeneration c →
  set_condition t l c = l.
Proof.
  intros Hf Hs Hr Hm Hg. induction l as [|d l IH]; [done|]. unfold find_condition in Hf. cbn in Hf |- *.
  destruct (bool_decide_reflect (cond_Type d = cond_Type c)) as [E|E].
  - injection Hf as ->. rewrite !decide_True by done. f_equal. unfold stamp. rewrite <- E, <- Hs, <- Hr, <- Hm, <- Hg.
    by destruct c'.
  - rewrite decide_False by done. f_equal. by apply IH.
Qed.

Lemma set_condition_type_list t l c :
  cond_Type <$> set_condition t l c
  = if decide (cond_Type c ∈ cond_Type <$> l) then cond_Type <$> l else (cond_Type <$> l) ++ [cond_Type c].
Proof.
  induction l as [|d l IH]; cbn [set_condition fmap list_fmap]; [done|].
  destruct (decide (cond_Type d = cond_Type c)) as [E|E].
  - rewrite (decide_True (P := cond_Type c ∈ cond_Type d :: (cond_Type <$> l))) by set_solver.
    change (cond_Type c :: (cond_Type <$> l) = cond_Type d :: (cond_Type <$> l)). by rewrite E.
  - cbn [fmap list_fmap]. rewrite IH. repeat case_decide; set_solver.
Qed.

#[export] Instance meta_laws : MetaLaws.
Proof.
  split; cbn.
  - intros m f. apply bool_decide_eq_true.
  - intros m f g. case_decide; cbn; set_solver.
  - intros m f g. rewrite list_elem_of_filter. done.
  - intros m f. case_decide; by repeat split.
  - intros m f. by repeat split.
  - intros o m m'. unfold set_controller. destruct (existsb _ _); [done|]. intros [= <-].
    by repeat split.
  - intros o m m'. unfold set_controller. destruct (existsb _ _); [done|]. intros [= <-]. cbn.
    exists (MkOwnerReference (om_Name o) (om_UID o) true). split; [set_solver|done].
  - intros o n l. eexists. reflexivity.
  - intros t l c. destruct (set_condition_find t l c) as [t' Ht]. exists (stamp t' c).
    split_and!; [exact Ht|done..].
  - intros. by apply set_condition_find_ne.
  - intros. by eapply set_condition_keep.
  - intros. apply set_condition_type_list.
  - intros l t. induction l as [|d l IH]; [done|]. cbn.
    case_bool_decide; cbn; [rewrite decide_False by auto; done|]. rewrite decide_True by done. cbn. by f_equal.
  - intros l t. unfold find_condition. induction l as [|d l IH]; [done|]. cbn.
    case_bool_decide; cbn; [done|]. intros Hf. f_equal. by apply IH.
  - intros l t. induction l as [|d l IH]; [done|]. cbn. case_bool_decide; cbn; [done|].
    unfold find_condition. cbn. by rewrite bool_decide_eq_false_2.
  - intros l t t' Hne. induction l as [|d l IH]; [done|]. cbn. unfold find_condition in *. cbn.
    case_bool_decide; cbn.
    + subst. rewrite bool_decide_eq_false_2 by done. done.
    + case_bool_decide; [done|]. apply IH.
Qed.

(** ** Unstructured objects *)

Fixpoint jset (k : string) (v : jval) (m : Unstructured) : Unstructured :=
  match m with
  | [] => [(k, v)]
  | (k', v') :: m => if decide (k = k') then (k, v) :: m else (k', v') :: jset k v m
  end.

Lemma jget_jset k v m : jget k (jset k v m) = Some v.
Proof. induction m as [|[k' v'] m IH]; cbn; repeat (case_decide; cbn); congruence. Qed.
Lemma jget_jset_ne k k' v m : k ≠ k' → jget k (jset k' v m) = jget k m.
Proof.
  intros. induction m as [|[k'' v''] m IH]; cbn; repeat (case_decide; cbn; try congruence).
Qed.

Fixpoint nested (m : Unstructured) (p : list string) : option jval :=
  match p with
  | [] => Some (JMap m)
  | [k] => jget k m
  | k :: p => match jget k m with Some (JMap m') => nested m' p | _ => None end
  end.
Fixpoint set_nested (m : Unstructured) (v : jval) (p : list string) : result Unstructured :=
  match p with
  | [] => Err (errorf "no fields")
  | [k] => Ok (jset k v m)
  | k :: p =>
    let sub := match jget k m with
      | Some (JMap m') => set_nested m' v p
      | None => set_nested [] v p
      | Some _ => Err (errorf "value cannot be set because it is not a map")
      end in
    match sub with Ok m' => Ok (jset k (JMap m') m) | Err e => Err e end
  end.

(** Metadata lives below ["metadata"]; labels as an association list. *)
Definition submap (k : string) (m : Unstructured) : Unstructured :=
  match jget k m with Some (JMap m') => m' | _ => [] end.
Definition set_meta (k : string) (v : jval) (m : Unstructured) : Unstructured :=
  jset "metadata" (JMap (jset k v (submap "metadata" m))) m.
Definition jstr (o : option jval) : string := match o with Some (JStr s) => s | _ => "" end.
Definition jint (o : option jval) : Z := match o with Some (JInt z) => z | _ => 0 end.
Definition get_meta (k : string) (m : Unstructured) : option jval := jget k (submap "metadata" m).

Definition labels_to_j (l : LabelMap) : jval := JMap (prod_map id JStr <$> map_to_list l).
Definition labels_of_j (o : option jval) : LabelMap :=
  match o with Some (JMap l) => list_to_map (prod_map id (λ v, jstr (Some v)) <$> l) | _ => ∅ end.

Definition nested_as {A} (f : jval → option A) (d : A) (m : Unstructured) (p : list string)
    : A * bool * option error :=
  match nested m p with
  | Some v => match f v with Some a => (a, true, None) | None => (d, false, Some (errorf "wrong type")) end
  | None => (d, false, None)
  end.

#[export] Instance unstructured_ops : UnstructuredOps := {|
  u_SetGroupVersionKind g m := jset "kind" (JStr (gvk_Kind g))
    (jset "apiVersion" (JStr (gvk_Group g +:+ "/" +:+ gvk_Version g)) m);
  u_SetNamespace ns m := set_meta "namespace" (JStr ns) m;
  u_SetName n m := set_meta "name" (JStr n) m;
  u_SetLabels l m := set_meta "labels" (labels_to_j l) m;
  u_GetName m := jstr (get_meta "name" m);
  u_GetNamespace m := jstr (get_meta "namespace" m);
  u_GetLabels m := labels_of_j (get_meta "labels" m);
  u_GetCreationTimestamp m := jint (get_meta "creationTimestamp" m);
  u_SetNestedField := set_nested;
  u_NestedString := nested_as (λ v, match v with JStr s => Some s | _ => None end) "";
  u_NestedBool := nested_as (λ v, match v with JBool b => Some b | _ => None end) false;
  u_NestedSlice := nested_as (λ v, match v with JList l => Some l | _ => None end) [];
  u_SetControllerReference o m := Ok (set_meta "ownerReferences" (JList [JStr (om_UID o)]) m)
|}.

Lemma get_set_meta k v m : get_meta k (set_meta k v m) = Some v.
Proof. unfold get_meta, set_meta, submap. rewrite jget_jset. apply jget_jset. Qed.
Lemma get_set_meta_ne k k' v m : k ≠ k' → get_meta k (set_meta k' v m) = get_meta k m.
Proof.
  intros. unfold get_meta, set_meta, submap at 1. rewrite jget_jset. by apply jget_jset_ne.
Qed.
Lemma get_meta_jset k k' v m : k' ≠ "metadata" → get_meta k (jset k' v m) = get_meta k m.
Proof. intros. unfold get_meta, submap. by rewrite jget_jset_ne. Qed.

Lemma set_nested_head m v k p m' :
  set_nested m v (k :: p) = Ok m' → ∃ w, m' = jset k w m.
Proof.
  cbn. destruct p as [|k' p].
  - intros [= <-]. eauto.
  - intros H. repeat case_match; simplify_eq; eauto.
Qed.

Lemma nested_set_nested p m v m' : set_nested m v p = Ok m' → nested m' p = Some v.
Proof.
  revert m m'. induction p as [|k p IH]; intros m m'; [done|].
  destruct p as [|k' p].
  - cbn. intros [= <-]. apply jget_jset.
  - intros H. change (match (match jget k m with
      | Some (JMap m1) => set_nested m1 v (k' :: p)
      | None => set_nested [] v (k' :: p)
      | Some _ => Err (errorf "value cannot be set because it is not a map")
      end) with Ok m1 => Ok (jset k (JMap m1) m) | Err e => Err e end = Ok m') in H.
    case_match eqn:E; simplify_eq.
    change (match jget k (jset k (JMap a) m) with Some (JMap m1) => nested m1 (k' :: p) | _ => None end = Some v).
    rewrite jget_jset. repeat case_match; simplify_eq; by eapply IH.
Qed.

Lemma labels_round_trip l : labels_of_j (Some (labels_to_j l)) = l.
Proof.
  cbn. rewrite <-list_fmap_compose.
  rewrite (list_fmap_ext _ id) by (by intros ? []). rewrite list_fmap_id. apply list_to_map_to_list.
Qed.

#[export] Instance unstructured_laws : UnstructuredLaws.
Proof.
  split; cbn.
  - intros. by rewrite get_set_meta.
  - intros. by rewrite !get_meta_jset.
  - intros. by rewrite get_set_meta_ne.
  - intros. by rewrite get_set_meta_ne.
  - intros. by rewrite get_set_meta.
  - intros. by rewrite !get_meta_jset.
  - intros. by rewrite get_set_meta_ne.
  - intros. by rewrite get_set_meta_ne.
  - intros. rewrite get_set_meta. apply labels_round_trip.
  - intros u v p u' [w ->]%set_nested_head. by rewrite !get_meta_jset.
  - intros o u u' [= <-]. by rewrite !get_set_meta_ne.
  - intros u s p u' H%nested_set_nested. unfold nested_as. by rewrite H.
  - intros u. unfold nested_as, get_meta, submap, jstr. cbn. repeat case_match; simplify_eq/=; congruence.
  - intros u. unfold nested_as, get_meta, submap, jstr. cbn. repeat case_match; simplify_eq/=; congruence.
  - intros u k s H. unfold nested_as. cbn. by rewrite H.
  - intros u k m k' s H1 H2. unfold nested_as. cbn. by rewrite H1, H2.
Qed.

(** ** Sorting: insertion sort *)

Fixpoint insert_by {A} (less : A → A → bool) (a : A) (l : list A) : list A :=
  match l with
  | [] => [a]
  | b :: l => if less b a then b :: insert_by less a l else a :: b :: l
  end.
#[export] Instance sort_ops : SortOps := λ A less l, foldr (insert_by less) [] l.

Lemma insert_by_perm {A} (less : A → A → bool) a l : Permutation (insert_by less a l) (a :: l).
Proof.
  induction l as [|b l IH]; cbn; [done|]. case_match; [|done].
  rewrite IH. apply perm_swap.
Qed.

Section SortKey.
Context {A : Type} (less : A → A → bool) (key : A → Z) (Hless : ∀ a b, less a b = true ↔ key a < key b).

Definition key_le (a b : A) : Prop := key a ≤ key b.
#[local] Instance key_le_trans : Transitive key_le.
Proof. unfold key_le. intros ???. lia. Qed.

Lemma insert_by_sorted a l : StronglySorted key_le l → StronglySorted key_le (insert_by less a l).
Proof.
  induction 1 as [|b l Hl IH Hb]; cbn; [repeat constructor|].
  case_match eqn:E.
  - apply Hless in E. constructor; [done|].
    rewrite insert_by_perm. constructor; [unfold key_le; lia|done].
  - assert (key a ≤ key b) as Hab.
    { destruct (decide (key b < key a)) as [H|H]; [|lia]. apply Hless in H. congruence. }
    constructor; [by constructor|]. constructor; [done|].
    eapply Forall_impl; [exact Hb|]. unfold key_le. intros; lia.
Qed.

Lemma sort_sorted l : StronglySorted key_le (sort_slice less l).
Proof. unfold sort_slice, sort_ops. induction l; cbn; [constructor|by apply insert_by_sorted]. Qed.
End SortKey.

Lemma strongly_sorted_lookup {A} (R : A → A → Prop) l i j a b :
  StronglySorted R l → l !! i = Some a → l !! j = Some b → (i < j)%nat → R a b.
Proof.
  intros Hs. revert i j. induction Hs as [|c l Hl IH Hc]; intros i j; [done|].
  destruct i as [|i], j as [|j]; cbn; intros Hi Hj Hlt; try lia.
  - simplify_eq. rewrite Forall_lookup in Hc. eauto.
  - eapply IH; eauto. lia.
Qed.

#[export] Instance sort_laws : SortLaws.
Proof.
  split.
  - intros A less l. unfold sort_slice, sort_ops. induction l as [|a l IH]; cbn; [done|].
    by rewrite insert_by_perm, IH.
  - intros A less key l Hless i j a b Hi Hj Hlt.
    exact (strongly_sorted_lookup _ _ _ _ _ _ (sort_sorted less key Hless l) Hi Hj Hlt).
Qed.

(** ** Gauges: a map from label values *)

#[export] Instance gauge_ops : GaugeVecOps := {|
  GaugeVec := gmap (list string) Z;
  gauge_empty := ∅;
  gauge_set l v g := if forallb valid_utf8 l then Some (<[l := v]> g) else None;
  gauge_delete l g := delete l g;
  gauge_get l g := g !! l
|}.
#[export] Instance gauge_laws : GaugeVecLaws.
Proof.
  split; cbn.
  - intros l v g. rewrite Forall_forall. setoid_rewrite list_elem_of_In. rewrite <- forallb_forall.
    destruct (forallb _ _); split; intros H; [done|by eexists|by destruct H|done].
  - done.
  - intros l l' v g g'. destruct (forallb _ _); [|done]. intros [= <-].
    case_decide; [subst; apply lookup_insert_eq|by apply lookup_insert_ne].
  - intros l l' g. case_decide; [subst; apply lookup_delete_eq|by apply lookup_delete_ne].
Qed.

(** ** Time zones and Unicode: UTC and a zone two hours east; ASCII printing *)

#[export] Instance tz_database : TzDatabase := λ name,
  if decide (name = "UTC") then Some UTC
  else if decide (name = "Etc/GMT-2") then Some (λ _, 7200)
  else None.
#[export] Instance unicode_tables : UnicodeTables := λ _, false.
End Model.
