(* ===== verification/Api.v ===== *)
(** * The EnshroudedServer API

    The custom resource of [api/v1alpha1/enshroudedserver_types.go]: one record
    per Go struct, the fields in the order of the source.  String-typed
    enumerations stay strings, as in Go; pointers are options; a nil map is the
    empty map. *)
From S2P Require Import Prelude GoTime Platform.
Local Open Scope Z_scope.

(** [corev1.SecretKeySelector] (with its embedded LocalObjectReference). *)
Record SecretKeySelector := MkSecretKeySelector {
  sks_Name : string; sks_Key : string; sks_Optional : option bool
}.

Record ImageSpec := MkImageSpec {
  img_Repository : string; img_Tag : string; img_PullPolicy : string
}.

Record UserGroup := MkUserGroup {
  ug_Name : string;
  ug_PasswordSecretRef : option SecretKeySelector;
  ug_CanKickBan : bool;
  ug_CanAccessInventories : bool;
  ug_CanEditWorld : bool;
  ug_CanEditBase : bool;
  ug_CanExtendBase : bool;
  ug_ReservedSlots : Z
}.

Record UpdatePolicySpec := MkUpdatePolicySpec {
  up_DeferWhilePlaying : bool;
  up_MaintenanceWindows : list string;
  up_UpgradeStrategy : string
}.
Definition UpgradeStrategyNoSnapshot := "NoSnapshot".
Definition UpgradeStrategySnapshotBeforeUpdate := "SnapshotBeforeUpdate".
Definition UpgradeStrategyStrictSnapshotBeforeUpdate := "StrictSnapshotBeforeUpdate".

Record VolumeSnapshotBackupSpec := MkVolumeSnapshotBackupSpec {
  vsb_Enabled : bool;
  vsb_Schedule : string;
  vsb_RetainCount : Z;
  vsb_VolumeSnapshotClassName : option string
}.

Record S3BackupSpec := MkS3BackupSpec {
  s3_BucketURL : string;
  s3_CredentialsSecretRef : string;
  s3_Schedule : string;
  s3_Image : string
}.

Record BackupSpec := MkBackupSpec {
  bk_VolumeSnapshot : VolumeSnapshotBackupSpec;
  bk_S3 : option S3BackupSpec
}.

Record MetricsSidecarSpec := MkMetricsSidecarSpec {
  ms_Enabled : bool;
  ms_Image : string;
  ms_MetricsPort : Z;
  ms_ScrapeIntervalSeconds : Z
}.

Definition VPAUpdateModeOff := "Off".
Definition VPAUpdateModeWhenIdle := "WhenIdle".
Definition VPAUpdateModeInPlace := "InPlace".

Definition EnshroudedServerPhasePending := "Pending".
Definition EnshroudedServerPhaseRunning := "Running".
Definition EnshroudedServerPhaseUpdating := "Updating".
Definition EnshroudedServerPhaseError := "Error".
Definition ConditionReady := "Ready".
Definition ConditionUpdateDeferred := "UpdateDeferred".

Record EnshroudedServerStatus := MkEnshroudedServerStatus {
  st_Phase : string;
  st_ReadyReplicas : Z;
  st_ActivePlayers : Z;
  st_GameVersion : string;
  st_UpdateDeferred : bool;
  st_Conditions : list Condition
}.

(** [GroupVersion.Group] of groupversion_info.go. *)
Definition GroupVersion_Group := "enshrouded.enshrouded.io".

Section Api.
Context {QO : QuantityOps}.

(** [corev1.ResourceList]. *)
Definition ResourceList := gmap string Quantity.

Record ResourceRequirements := MkResourceRequirements {
  rr_Limits : ResourceList; rr_Requests : ResourceList; rr_Claims : list string
}.

Record StorageSpec := MkStorageSpec {
  sto_Size : Quantity; sto_StorageClassName : option string; sto_RetainOnDelete : option bool
}.

Record VerticalScalingSpec := MkVerticalScalingSpec {
  vsc_Enabled : bool;
  vsc_UpdateMode : string;
  vsc_MinAllowed : ResourceList;
  vsc_MaxAllowed : ResourceList
}.

Record EnshroudedServerSpec := MkEnshroudedServerSpec {
  sp_ServerName : string;
  sp_ServerPasswordSecretRef : option SecretKeySelector;
  sp_Port : Z;
  sp_SteamPort : Z;
  sp_ServerSlots : Z;
  sp_ServerIP : string;
  sp_Image : ImageSpec;
  sp_Resources : ResourceRequirements;
  sp_Storage : StorageSpec;
  sp_UserGroups : list UserGroup;
  sp_UpdatePolicy : UpdatePolicySpec;
  sp_Backup : BackupSpec;
  sp_MetricsSidecar : MetricsSidecarSpec;
  sp_VerticalScaling : VerticalScalingSpec
}.

Record EnshroudedServer := MkEnshroudedServer {
  es_Meta : ObjectMeta; es_Spec : EnshroudedServerSpec; es_Status : EnshroudedServerStatus
}.

Definition es_Name (s : EnshroudedServer) : string := om_Name (es_Meta s).
Definition es_Namespace (s : EnshroudedServer) : string := om_Namespace (es_Meta s).

Definition set_es_meta (m : ObjectMeta) (s : EnshroudedServer) : EnshroudedServer :=
  MkEnshroudedServer m (es_Spec s) (es_Status s).
Definition set_es_status (st : EnshroudedServerStatus) (s : EnshroudedServer) : EnshroudedServer :=
  MkEnshroudedServer (es_Meta s) (es_Spec s) st.
End Api.
