(* ===== verification/DeepCopy.v ===== *)
(** * The generated deep copies

    [api/v1alpha1/zz_generated.deepcopy.go] over the memory of [GoMemory.v]: the API
    types as they lie in memory, with pointers, slices and maps as locations, and
    one [DeepCopyInto] and [DeepCopy] per type.  [DeepCopyInto] takes the struct it
    copies from and gives the struct it leaves in [out].  Types and copies of other
    packages are parameters. *)
From S2P Require Import Prelude GoMemory GoTime Platform Api.
Local Open Scope Z_scope.

(** Representations of [ObjectMeta], [ListMeta], [SecretKeySelector],
    [ResourceRequirements], [Condition] and [Quantity], and the cells they use. *)
Class ForeignTypes := {
  ObjectMeta_mem : Type; ListMeta_mem : Type; SecretKeySelector_mem : Type;
  ResourceRequirements_mem : Type; Condition_mem : Type; Quantity_mem : Type;
  foreign_cell : Type;
  zero_ObjectMeta :: Zero ObjectMeta_mem;
  zero_ListMeta :: Zero ListMeta_mem;
  zero_SecretKeySelector :: Zero SecretKeySelector_mem;
  zero_ResourceRequirements :: Zero ResourceRequirements_mem;
  zero_Condition :: Zero Condition_mem;
  zero_Quantity :: Zero Quantity_mem
}.

Record TypeMeta := MkTypeMeta { tm_Kind : string; tm_APIVersion : string }.

Section Types.
Context {FT : ForeignTypes}.

(** ** The types in memory *)

Record UserGroup_mem := MkUserGroupMem {
  ugm_Name : string; ugm_PasswordSecretRef : option loc; ugm_CanKickBan : bool; ugm_CanAccessInventories : bool;
  ugm_CanEditWorld : bool; ugm_CanEditBase : bool; ugm_CanExtendBase : bool; ugm_ReservedSlots : Z
}.
Record UpdatePolicySpec_mem := MkUpdatePolicyMem {
  upm_DeferWhilePlaying : bool; upm_MaintenanceWindows : option slice; upm_UpgradeStrategy : string
}.
Record VolumeSnapshotBackupSpec_mem := MkVolumeSnapshotBackupMem {
  vsbm_Enabled : bool; vsbm_Schedule : string; vsbm_RetainCount : Z; vsbm_VolumeSnapshotClassName : option loc
}.
Record BackupSpec_mem := MkBackupMem { bkm_VolumeSnapshot : VolumeSnapshotBackupSpec_mem; bkm_S3 : option loc }.
Record StorageSpec_mem := MkStorageMem {
  stom_Size : Quantity_mem; stom_StorageClassName : option loc; stom_RetainOnDelete : option loc
}.
Record VerticalScalingSpec_mem := MkVerticalScalingMem {
  vscm_Enabled : bool; vscm_UpdateMode : string; vscm_MinAllowed : option loc; vscm_MaxAllowed : option loc
}.
Record EnshroudedServerSpec_mem := MkSpecMem {
  spm_ServerName : string; spm_ServerPasswordSecretRef : option loc; spm_Port : Z; spm_SteamPort : Z;
  spm_ServerSlots : Z; spm_ServerIP : string; spm_Image : ImageSpec; spm_Resources : ResourceRequirements_mem;
  spm_Storage : StorageSpec_mem; spm_UserGroups : option slice; spm_UpdatePolicy : UpdatePolicySpec_mem;
  spm_Backup : BackupSpec_mem; spm_MetricsSidecar : MetricsSidecarSpec; spm_VerticalScaling : VerticalScalingSpec_mem
}.
Record EnshroudedServerStatus_mem := MkStatusMem {
  stm_Phase : string; stm_ReadyReplicas : Z; stm_ActivePlayers : Z; stm_GameVersion : string;
  stm_UpdateDeferred : bool; stm_Conditions : option slice
}.
Record EnshroudedServer_mem := MkServerMem {
  esm_TypeMeta : TypeMeta; esm_ObjectMeta : ObjectMeta_mem; esm_Spec : EnshroudedServerSpec_mem;
  esm_Status : EnshroudedServerStatus_mem
}.
Record EnshroudedServerList_mem := MkListMem {
  elm_TypeMeta : TypeMeta; elm_ListMeta : ListMeta_mem; elm_Items : option slice
}.

#[global] Instance zero_UserGroup : Zero UserGroup_mem := MkUserGroupMem "" None false false false false false 0.
#[global] Instance zero_UpdatePolicy : Zero UpdatePolicySpec_mem := MkUpdatePolicyMem false None "".
#[global] Instance zero_Vsb : Zero VolumeSnapshotBackupSpec_mem := MkVolumeSnapshotBackupMem false "" 0 None.
#[global] Instance zero_Backup : Zero BackupSpec_mem := MkBackupMem zero_value None.
#[global] Instance zero_S3 : Zero S3BackupSpec := MkS3BackupSpec "" "" "" "".
#[global] Instance zero_Storage : Zero StorageSpec_mem := MkStorageMem zero_value None None.
#[global] Instance zero_Scaling : Zero VerticalScalingSpec_mem := MkVerticalScalingMem false "" None None.
#[global] Instance zero_Image : Zero ImageSpec := MkImageSpec "" "" "".
#[global] Instance zero_Sidecar : Zero MetricsSidecarSpec := MkMetricsSidecarSpec false "" 0 0.
#[global] Instance zero_Spec : Zero EnshroudedServerSpec_mem :=
  MkSpecMem "" None 0 0 0 "" zero_value zero_value zero_value None zero_value zero_value zero_value zero_value.
#[global] Instance zero_Status : Zero EnshroudedServerStatus_mem := MkStatusMem "" 0 0 "" false None.
#[global] Instance zero_Server : Zero EnshroudedServer_mem := MkServerMem (MkTypeMeta "" "") zero_value zero_value zero_value.
#[global] Instance zero_List : Zero EnshroudedServerList_mem := MkListMem (MkTypeMeta "" "") zero_value None.

(** One kind of cell per type that is allocated. *)
Inductive cell :=
  | CString (x : string) | CBool (x : bool) | CStrings (x : list string)
  | CImage (x : ImageSpec) | CSidecar (x : MetricsSidecarSpec) | CS3 (x : S3BackupSpec)
  | CGroup (x : UserGroup_mem) | CGroups (x : list UserGroup_mem)
  | CPolicy (x : UpdatePolicySpec_mem) | CVsb (x : VolumeSnapshotBackupSpec_mem) | CBackup (x : BackupSpec_mem)
  | CStorage (x : StorageSpec_mem) | CScaling (x : VerticalScalingSpec_mem)
  | CSpec (x : EnshroudedServerSpec_mem) | CStatus (x : EnshroudedServerStatus_mem)
  | CServer (x : EnshroudedServer_mem) | CServers (x : list EnshroudedServer_mem) | CList (x : EnshroudedServerList_mem)
  | CSelector (x : SecretKeySelector_mem) | CConditions (x : list Condition_mem)
  | CResources (x : gmap string Quantity_mem) | CForeign (x : foreign_cell).

#[global] Instance st_string : Stored cell string :=
  {| to_cell := CString; of_cell x := match x with CString y => Some y | _ => None end; of_to_cell _ := eq_refl |}.
#[global] Instance st_bool : Stored cell bool :=
  {| to_cell := CBool; of_cell x := match x with CBool y => Some y | _ => None end; of_to_cell _ := eq_refl |}.
#[global] Instance st_strings : Stored cell (list string) :=
  {| to_cell := CStrings; of_cell x := match x with CStrings y => Some y | _ => None end; of_to_cell _ := eq_refl |}.
#[global] Instance st_image : Stored cell ImageSpec :=
  {| to_cell := CImage; of_cell x := match x with CImage y => Some y | _ => None end; of_to_cell _ := eq_refl |}.
#[global] Instance st_sidecar : Stored cell MetricsSidecarSpec :=
  {| to_cell := CSidecar; of_cell x := match x with CSidecar y => Some y | _ => None end; of_to_cell _ := eq_refl |}.
#[global] Instance st_s3 : Stored cell S3BackupSpec :=
  {| to_cell := CS3; of_cell x := match x with CS3 y => Some y | _ => None end; of_to_cell _ := eq_refl |}.
#[global] Instance st_group : Stored cell UserGroup_mem :=
  {| to_cell := CGroup; of_cell x := match x with CGroup y => Some y | _ => None end; of_to_cell _ := eq_refl |}.
#[global] Instance st_groups : Stored cell (list UserGroup_mem) :=
  {| to_cell := CGroups; of_cell x := match x with CGroups y => Some y | _ => None end; of_to_cell _ := eq_refl |}.
#[global] Instance st_policy : Stored cell UpdatePolicySpec_mem :=
  {| to_cell := CPolicy; of_cell x := match x with CPolicy y => Some y | _ => None end; of_to_cell _ := eq_refl |}.
#[global] Instance st_vsb : Stored cell VolumeSnapshotBackupSpec_mem :=
  {| to_cell := CVsb; of_cell x := match x with CVsb y => Some y | _ => None end; of_to_cell _ := eq_refl |}.
#[global] Instance st_backup : Stored cell BackupSpec_mem :=
  {| to_cell := CBackup; of_cell x := match x with CBackup y => Some y | _ => None end; of_to_cell _ := eq_refl |}.
#[global] Instance st_storage : Stored cell StorageSpec_mem :=
  {| to_cell := CStorage; of_cell x := match x with CStorage y => Some y | _ => None end; of_to_cell _ := eq_refl |}.
#[global] Instance st_scaling : Stored cell VerticalScalingSpec_mem :=
  {| to_cell := CScaling; of_cell x := match x with CScaling y => Some y | _ => None end; of_to_cell _ := eq_refl |}.
#[global] Instance st_spec : Stored cell EnshroudedServerSpec_mem :=
  {| to_cell := CSpec; of_cell x := match x with CSpec y => Some y | _ => None end; of_to_cell _ := eq_refl |}.
#[global] Instance st_status : Stored cell EnshroudedServerStatus_mem :=
  {| to_cell := CStatus; of_cell x := match x with CStatus y => Some y | _ => None end; of_to_cell _ := eq_refl |}.
#[global] Instance st_server : Stored cell EnshroudedServer_mem :=
  {| to_cell := CServer; of_cell x := match x with CServer y => Some y | _ => None end; of_to_cell _ := eq_refl |}.
#[global] Instance st_servers : Stored cell (list EnshroudedServer_mem) :=
  {| to_cell := CServers; of_cell x := match x with CServers y => Some y | _ => None end; of_to_cell _ := eq_refl |}.
#[global] Instance st_list : Stored cell EnshroudedServerList_mem :=
  {| to_cell := CList; of_cell x := match x with CList y => Some y | _ => None end; of_to_cell _ := eq_refl |}.
#[global] Instance st_selector : Stored cell SecretKeySelector_mem :=
  {| to_cell := CSelector; of_cell x := match x with CSelector y => Some y | _ => None end; of_to_cell _ := eq_refl |}.
#[global] Instance st_conditions : Stored cell (list Condition_mem) :=
  {| to_cell := CConditions; of_cell x := match x with CConditions y => Some y | _ => None end; of_to_cell _ := eq_refl |}.
#[global] Instance st_resources : Stored cell (gmap string Quantity_mem) :=
  {| to_cell := CResources; of_cell x := match x with CResources y => Some y | _ => None end; of_to_cell _ := eq_refl |}.
End Types.

Abbreviation MG := (M cell).

(** Copies of other packages, over the same memory. *)
Class ForeignCopies `{!ForeignTypes} := {
  ObjectMeta_DeepCopyInto : ObjectMeta_mem → MG ObjectMeta_mem;
  ListMeta_DeepCopyInto : ListMeta_mem → MG ListMeta_mem;
  SecretKeySelector_DeepCopyInto : SecretKeySelector_mem → MG SecretKeySelector_mem;
  ResourceRequirements_DeepCopyInto : ResourceRequirements_mem → MG ResourceRequirements_mem;
  Condition_DeepCopyInto : Condition_mem → MG Condition_mem;
  Quantity_DeepCopy : Quantity_mem → MG Quantity_mem
}.

Section Copies.
Context {FT : ForeignTypes} {FC : ForeignCopies}.

(** ** [DeepCopyInto] *)

Definition VolumeSnapshotBackupSpec_DeepCopyInto (x : VolumeSnapshotBackupSpec_mem) : MG VolumeSnapshotBackupSpec_mem :=
  p ← copy_ptr (T := string) mret (vsbm_VolumeSnapshotClassName x);
  mret (MkVolumeSnapshotBackupMem (vsbm_Enabled x) (vsbm_Schedule x) (vsbm_RetainCount x) p).

Definition S3BackupSpec_DeepCopyInto (x : S3BackupSpec) : MG S3BackupSpec := mret x.

Definition BackupSpec_DeepCopyInto (x : BackupSpec_mem) : MG BackupSpec_mem :=
  v ← VolumeSnapshotBackupSpec_DeepCopyInto (bkm_VolumeSnapshot x);
  s3 ← copy_ptr (T := S3BackupSpec) mret (bkm_S3 x);
  mret (MkBackupMem v s3).

Definition ImageSpec_DeepCopyInto (x : ImageSpec) : MG ImageSpec := mret x.
Definition MetricsSidecarSpec_DeepCopyInto (x : MetricsSidecarSpec) : MG MetricsSidecarSpec := mret x.

Definition StorageSpec_DeepCopyInto (x : StorageSpec_mem) : MG StorageSpec_mem :=
  size ← Quantity_DeepCopy (stom_Size x);
  cls ← copy_ptr (T := string) mret (stom_StorageClassName x);
  retain ← copy_ptr (T := bool) mret (stom_RetainOnDelete x);
  mret (MkStorageMem size cls retain).

Definition UpdatePolicySpec_DeepCopyInto (x : UpdatePolicySpec_mem) : MG UpdatePolicySpec_mem :=
  w ← copy_slice (T := string) mret (upm_MaintenanceWindows x);
  mret (MkUpdatePolicyMem (upm_DeferWhilePlaying x) w (upm_UpgradeStrategy x)).

Definition UserGroup_DeepCopyInto (x : UserGroup_mem) : MG UserGroup_mem :=
  p ← copy_ptr SecretKeySelector_DeepCopyInto (ugm_PasswordSecretRef x);
  mret (MkUserGroupMem (ugm_Name x) p (ugm_CanKickBan x) (ugm_CanAccessInventories x) (ugm_CanEditWorld x)
    (ugm_CanEditBase x) (ugm_CanExtendBase x) (ugm_ReservedSlots x)).

Definition VerticalScalingSpec_DeepCopyInto (x : VerticalScalingSpec_mem) : MG VerticalScalingSpec_mem :=
  lo ← copy_map Quantity_DeepCopy (vscm_MinAllowed x);
  hi ← copy_map Quantity_DeepCopy (vscm_MaxAllowed x);
  mret (MkVerticalScalingMem (vscm_Enabled x) (vscm_UpdateMode x) lo hi).

Definition EnshroudedServerSpec_DeepCopyInto (x : EnshroudedServerSpec_mem) : MG EnshroudedServerSpec_mem :=
  pw ← copy_ptr SecretKeySelector_DeepCopyInto (spm_ServerPasswordSecretRef x);
  res ← ResourceRequirements_DeepCopyInto (spm_Resources x);
  sto ← StorageSpec_DeepCopyInto (spm_Storage x);
  groups ← copy_slice UserGroup_DeepCopyInto (spm_UserGroups x);
  policy ← UpdatePolicySpec_DeepCopyInto (spm_UpdatePolicy x);
  backup ← BackupSpec_DeepCopyInto (spm_Backup x);
  scaling ← VerticalScalingSpec_DeepCopyInto (spm_VerticalScaling x);
  mret (MkSpecMem (spm_ServerName x) pw (spm_Port x) (spm_SteamPort x) (spm_ServerSlots x) (spm_ServerIP x)
    (spm_Image x) res sto groups policy backup (spm_MetricsSidecar x) scaling).

Definition EnshroudedServerStatus_DeepCopyInto (x : EnshroudedServerStatus_mem) : MG EnshroudedServerStatus_mem :=
  conds ← copy_slice Condition_DeepCopyInto (stm_Conditions x);
  mret (MkStatusMem (stm_Phase x) (stm_ReadyReplicas x) (stm_ActivePlayers x) (stm_GameVersion x)
    (stm_UpdateDeferred x) conds).

Definition EnshroudedServer_DeepCopyInto (x : EnshroudedServer_mem) : MG EnshroudedServer_mem :=
  meta ← ObjectMeta_DeepCopyInto (esm_ObjectMeta x);
  spec ← EnshroudedServerSpec_DeepCopyInto (esm_Spec x);
  status ← EnshroudedServerStatus_DeepCopyInto (esm_Status x);
  mret (MkServerMem (esm_TypeMeta x) meta spec status).

Definition EnshroudedServerList_DeepCopyInto (x : EnshroudedServerList_mem) : MG EnshroudedServerList_mem :=
  meta ← ListMeta_DeepCopyInto (elm_ListMeta x);
  items ← copy_slice EnshroudedServer_DeepCopyInto (elm_Items x);
  mret (MkListMem (elm_TypeMeta x) meta items).

(** ** [DeepCopy]: nil for nil, otherwise a new struct filled by [DeepCopyInto] *)

Definition BackupSpec_DeepCopy : option loc → MG (option loc) := copy_ptr BackupSpec_DeepCopyInto.
Definition EnshroudedServer_DeepCopy : option loc → MG (option loc) := copy_ptr EnshroudedServer_DeepCopyInto.
Definition EnshroudedServerList_DeepCopy : option loc → MG (option loc) := copy_ptr EnshroudedServerList_DeepCopyInto.
Definition EnshroudedServerSpec_DeepCopy : option loc → MG (option loc) := copy_ptr EnshroudedServerSpec_DeepCopyInto.
Definition EnshroudedServerStatus_DeepCopy : option loc → MG (option loc) := copy_ptr EnshroudedServerStatus_DeepCopyInto.
Definition ImageSpec_DeepCopy : option loc → MG (option loc) := copy_ptr ImageSpec_DeepCopyInto.
Definition MetricsSidecarSpec_DeepCopy : option loc → MG (option loc) := copy_ptr MetricsSidecarSpec_DeepCopyInto.
Definition S3BackupSpec_DeepCopy : option loc → MG (option loc) := copy_ptr S3BackupSpec_DeepCopyInto.
Definition StorageSpec_DeepCopy : option loc → MG (option loc) := copy_ptr StorageSpec_DeepCopyInto.
Definition UpdatePolicySpec_DeepCopy : option loc → MG (option loc) := copy_ptr UpdatePolicySpec_DeepCopyInto.
Definition UserGroup_DeepCopy : option loc → MG (option loc) := copy_ptr UserGroup_DeepCopyInto.
Definition VerticalScalingSpec_DeepCopy : option loc → MG (option loc) := copy_ptr VerticalScalingSpec_DeepCopyInto.
Definition VolumeSnapshotBackupSpec_DeepCopy : option loc → MG (option loc) := copy_ptr VolumeSnapshotBackupSpec_DeepCopyInto.

(** [DeepCopyObject]: the copy as a [runtime.Object], nil when there is none. *)
Definition EnshroudedServer_DeepCopyObject (p : option loc) : MG (option loc) :=
  c ← EnshroudedServer_DeepCopy p; mret (match c with Some c => Some c | None => None end).
Definition EnshroudedServerList_DeepCopyObject (p : option loc) : MG (option loc) :=
  c ← EnshroudedServerList_DeepCopy p; mret (match c with Some c => Some c | None => None end).
End Copies.
