(* ===== verification/Effects.v ===== *)
(** * Interactive programs

    The controller and the sidecar are programs that talk to an environment they
    do not control: the Kubernetes API server, the clock, the network.  An
    [effect] is a type of calls with the type of answers to each; a [prog] is a
    tree of calls ending in a value, a Go panic, or the exhaustion of the fuel
    given to an unbounded loop.  [wp] is the program logic of the development:
    it runs a program against an arbitrary environment relation, with a
    guarantee on every call the program makes and a postcondition on how it
    ends. *)
From S2P Require Import Prelude.

Record effect := Effect { call :> Type; resp : call → Type }.
Arguments resp {_} _.

Inductive prog (E : effect) (A : Type) :=
  | Ret (a : A)
  | Vis (c : E) (k : resp c → prog E A)
  | Panic (msg : string)
  | OutOfFuel.
Arguments Ret {_ _} _.
Arguments Vis {_ _} _ _.
Arguments Panic {_ _} _.
Arguments OutOfFuel {_ _}.

Inductive outcome (A : Type) := Returns (a : A) | Panics (msg : string) | Exhausted.
Arguments Returns {_} _.
Arguments Panics {_} _.
Arguments Exhausted {_}.

Section Monad.
Context {E : effect}.

Fixpoint bind {A B} (f : A → prog E B) (p : prog E A) : prog E B :=
  match p with
  | Ret a => f a
  | Vis c k => Vis c (λ x, bind f (k x))
  | Panic m => Panic m
  | OutOfFuel => OutOfFuel
  end.

#[global] Instance prog_ret : MRet (prog E) := λ A a, Ret a.
#[global] Instance prog_bind : MBind (prog E) := λ A B f p, bind f p.

Definition trigger (c : E) : prog E (resp c) := Vis c Ret.
End Monad.

(** ** Environments and the program logic *)

(** An environment has a state and answers a call by relating the state, the
    call, the answer and the next state. *)
Record env (E : effect) := Env {
  env_state :> Type;
  env_step : env_state → ∀ c : E, resp c → env_state → Prop
}.
Arguments env_step {_ _} _ _ _ _.

Section Logic.
Context {E : effect} (N : env E).
(** The guarantee: which calls may be made in which state. *)
Context (G : N → E → Prop).

Fixpoint wp {A} (p : prog E A) (Q : N → outcome A → Prop) (s : N) : Prop :=
  match p with
  | Ret a => Q s (Returns a)
  | Vis c k => G s c ∧ ∀ x s', env_step s c x s' → wp (k x) Q s'
  | Panic m => Q s (Panics m)
  | OutOfFuel => Q s Exhausted
  end.

(** What a continuation has to establish after each way its prefix can end. *)
Definition bind_post {A B} (f : A → prog E B) (Q : N → outcome B → Prop)
    (s : N) (o : outcome A) : Prop :=
  match o with
  | Returns a => wp (f a) Q s
  | Panics m => Q s (Panics m)
  | Exhausted => Q s Exhausted
  end.

Lemma wp_bind {A B} (f : A → prog E B) p Q s :
  wp (p ≫= f) Q s ↔ wp p (bind_post f Q) s.
Proof.
  revert s. induction p as [a|c k IH|m|]; intros s; try done.
  unfold mbind, prog_bind. cbn. split; intros [HG H]; split; try done;
    intros x s' Hs; by apply IH, H.
Qed.

Lemma wp_mono {A} (p : prog E A) (Q Q' : N → outcome A → Prop) s :
  (∀ s o, Q s o → Q' s o) → wp p Q s → wp p Q' s.
Proof.
  intros HQ. revert s. induction p as [a|c k IH|m|]; intros s; cbn; try apply HQ.
  intros [HG H]. split; [done|]. intros x s' Hs. by apply IH, H.
Qed.

Lemma wp_bind_intro {A B} (f : A → prog E B) p Q Q' s :
  wp p Q' s → (∀ s o, Q' s o → bind_post f Q s o) → wp (p ≫= f) Q s.
Proof. intros Hp HQ. apply wp_bind. by eapply wp_mono. Qed.

Lemma wp_conj {A} (p : prog E A) (Q1 Q2 : N → outcome A → Prop) s :
  wp p Q1 s → wp p Q2 s → wp p (λ s o, Q1 s o ∧ Q2 s o) s.
Proof.
  revert s. induction p as [a|c k IH|m|]; intros s; cbn; try done.
  intros [HG H1] [_ H2]. split; [done|]. intros x s' Hs. by apply IH; [apply H1|apply H2].
Qed.
End Logic.

Lemma wp_mono_guarantee {E} (N : env E) (G G' : N → E → Prop) {A} (p : prog E A) Q s :
  (∀ s c, G s c → G' s c) → wp N G p Q s → wp N G' p Q s.
Proof.
  intros HG. revert s. induction p as [a|c k IH|m|]; intros s; cbn; try done.
  intros [H1 H2]. split; [by apply HG|]. intros x s' Hs. by apply IH, H2.
Qed.

(** ** Runs: the finite interactions of a program with an environment *)

Section Runs.
Context {E : effect}.

(** One call with its answer. *)
Inductive event := Ev (c : E) (x : resp c).

Fixpoint runs {A} (N : env E) (p : prog E A) (s : N) (tr : list event) (s' : N) (o : outcome A) : Prop :=
  match p with
  | Ret a => tr = [] ∧ s' = s ∧ o = Returns a
  | Vis c k => ∃ x s1 tr', env_step s c x s1 ∧ tr = Ev c x :: tr' ∧ runs N (k x) s1 tr' s' o
  | Panic m => tr = [] ∧ s' = s ∧ o = Panics m
  | OutOfFuel => tr = [] ∧ s' = s ∧ o = Exhausted
  end.

(** The logic is sound: in every run, the postcondition holds at the end. *)
Lemma wp_sound {A} (N : env E) G (p : prog E A) Q s tr s' o :
  wp N G p Q s → runs N p s tr s' o → Q s' o.
Proof.
  revert s tr. induction p as [a|c k IH|m|]; intros s tr; cbn.
  - by intros ? (-> & -> & ->).
  - intros [_ H] (x & s1 & tr' & Hs & _ & Hr). by eapply IH; [apply H|].
  - by intros ? (-> & -> & ->).
  - by intros ? (-> & -> & ->).
Qed.

(** Every call of a run satisfies a guarantee that does not look at the state. *)
Lemma wp_sound_calls {A} (N : env E) (G : E → Prop) (p : prog E A) Q s tr s' o :
  wp N (λ _, G) p Q s → runs N p s tr s' o →
  Forall (λ e, match e with Ev c _ => G c end) tr.
Proof.
  revert s tr. induction p as [a|c k IH|m|]; intros s tr; cbn.
  - intros _ (-> & _). constructor.
  - intros [HG H] (x & s1 & tr' & Hs & -> & Hr). constructor; [done|]. by eapply IH; [apply H|].
  - intros _ (-> & _). constructor.
  - intros _ (-> & _). constructor.
Qed.
End Runs.
Arguments event : clear implicits.

(** ** Two standard environments *)

(** The free environment answers anything [R] allows. *)
Definition free_env {E : effect} (R : ∀ c : E, resp c → Prop) : env E :=
  Env E unit (λ _ c x _, R c x).
(** The recording environment also keeps the history of the interaction. *)
Definition trace_env {E : effect} (R : ∀ c : E, resp c → Prop) : env E :=
  Env E (list (event E)) (λ h c x h', R c x ∧ h' = h ++ [Ev c x]).

(** Nothing is assumed about the answers. *)
Definition any {E : effect} : ∀ c : E, resp c → Prop := λ _ _, True.

(** [calls_only R G p]: whatever the answers (within [R]), every call of [p]
    satisfies [G]. *)
Definition calls_only {E : effect} (R : ∀ c : E, resp c → Prop) (G : E → Prop) {A} (p : prog E A) : Prop :=
  wp (free_env R) (λ _, G) p (λ _ _, True) ().

Lemma calls_only_bind {E : effect} R G {A B} (p : prog E A) (f : A → prog E B) :
  calls_only R G p → (∀ a, calls_only R G (f a)) → calls_only R G (p ≫= f).
Proof.
  intros Hp Hf. eapply wp_bind_intro; [exact Hp|]. intros [] [a|m|] _; cbn; try done. apply Hf.
Qed.

Lemma calls_only_ret {E : effect} (R : ∀ c : E, resp c → Prop) G {A} (a : A) : calls_only R G (Ret a).
Proof. done. Qed.

Lemma calls_only_vis {E : effect} (R : ∀ c : E, resp c → Prop) (G : E → Prop) {A} c (k : _ → prog E A) :
  G c → (∀ x, R c x → calls_only R G (k x)) → calls_only R G (Vis c k).
Proof. intros HG Hk. split; [done|]. intros x [] Hx. by apply Hk. Qed.

Lemma calls_only_panic {E : effect} (R : ∀ c : E, resp c → Prop) G {A} m : calls_only R G (Panic (A := A) m).
Proof. done. Qed.

Lemma calls_only_weaken {E : effect} (R R' : ∀ c : E, resp c → Prop) (G G' : E → Prop) {A} (p : prog E A) :
  (∀ c x, R' c x → R c x) → (∀ c, G c → G' c) → calls_only R G p → calls_only R' G' p.
Proof.
  intros HR HG. unfold calls_only. induction p as [a|c k IH|m|]; try done.
  intros [H1 H2]. split; [by apply HG|]. intros x [] Hx. apply IH, (H2 x ()), HR, Hx.
Qed.

(** Lifting to runs of any environment whose answers stay within [R]. *)
Lemma calls_only_wp {E : effect} (R : ∀ c : E, resp c → Prop) G {A} (p : prog E A) (N : env E) s :
  calls_only R G p → (∀ s c x s', env_step (e := N) s c x s' → R c x) →
  wp N (λ _, G) p (λ _ _, True) s.
Proof.
  intros Hp HR. revert s Hp. unfold calls_only.
  induction p as [a|c k IH|m|]; intros s; cbn; try done.
  intros [HG H]. split; [done|]. intros x s' Hs. eapply IH, (H x ()), HR, Hs.
Qed.

(** ** Driving a program with an oracle *)

(** The run in which every call is answered by [f]. *)
Fixpoint drive {E : effect} {A} (f : ∀ c : E, resp c) (p : prog E A) : list (event E) * outcome A :=
  match p with
  | Ret a => ([], Returns a)
  | Vis c k => let '(tr, o) := drive f (k (f c)) in (Ev c (f c) :: tr, o)
  | Panic m => ([], Panics m)
  | OutOfFuel => ([], Exhausted)
  end.

Lemma drive_runs {E : effect} {A} (R : ∀ c : E, resp c → Prop) (f : ∀ c : E, resp c) (p : prog E A) :
  (∀ c, R c (f c)) → runs (free_env R) p () (drive f p).1 () (drive f p).2.
Proof.
  intros Hf. induction p as [a|c k IH|m|]; cbn; [done| |done|done].
  specialize (IH (f c)). destruct (drive f (k (f c))) as [tr o].
  exists (f c), (), tr. split_and!; [apply Hf|done|done].
Qed.

(** Every call of a run against answers within [R] satisfies a guarantee proved
    with [calls_only]. *)
Lemma calls_only_runs {E : effect} (R : ∀ c : E, resp c → Prop) (G : E → Prop) {A} (p : prog E A)
    (N : env E) s tr s' o :
  calls_only R G p → (∀ s c x s', env_step (e := N) s c x s' → R c x) → runs N p s tr s' o →
  Forall (λ e, match e with Ev c _ => G c end) tr.
Proof. intros Hp HR Hr. eapply wp_sound_calls; [by apply (calls_only_wp R)|done]. Qed.

(** The same with an oracle that has a state. *)
Definition oracle_env {E : effect} {S : Type} (f : S → ∀ c : E, resp c * S) : env E :=
  Env E S (λ s c x s', f s c = (x, s')).

Fixpoint drive_state {E : effect} {S A : Type} (f : S → ∀ c : E, resp c * S) (p : prog E A) (s : S)
    : list (event E) * S * outcome A :=
  match p with
  | Ret a => ([], s, Returns a)
  | Vis c k =>
    let '(x, s1) := f s c in
    let '(tr, s', o) := drive_state f (k x) s1 in (Ev c x :: tr, s', o)
  | Panic m => ([], s, Panics m)
  | OutOfFuel => ([], s, Exhausted)
  end.

Lemma drive_state_runs {E : effect} {S A : Type} (f : S → ∀ c : E, resp c * S) (p : prog E A) (s : S) :
  let '(tr, s', o) := drive_state f p s in runs (oracle_env f) p s tr s' o.
Proof.
  revert s. induction p as [a|c k IH|m|]; intros s; cbn; [done| |done|done].
  destruct (f s c) as [x s1] eqn:E1. specialize (IH x s1).
  destruct (drive_state f (k x) s1) as [[tr s'] o]. exists x, s1, tr. done.
Qed.

Lemma drive_state_run {E : effect} {S A : Type} (f : S → ∀ c : E, resp c * S) (p : prog E A) (s : S) r :
  drive_state f p s = r → runs (oracle_env f) p s r.1.1 r.1.2 r.2.
Proof. intros <-. pose proof (drive_state_runs f p s) as H. by destruct (drive_state f p s) as [[??]?]. Qed.

(** ** Guarantees that depend on the history *)

Section History.
Context {E : effect} (G : list (event E) → E → Prop).
Local Abbreviation H := (trace_env (E := E) any).

Lemma wp_trace_call {A} (c : E) (f : resp c → prog E A) Q (h : H) :
  G h c → (∀ x, wp H G (f x) Q (h ++ [Ev c x])) → wp H G (trigger c ≫= f) Q h.
Proof. intros HG Hf. split; [done|]. intros x h' [_ ->]. apply Hf. Qed.

(** Every call of a run comes after a history that justifies it. *)
Lemma trace_guarantee {A} (N : env E) (p : prog E A) Q (h : H) s tr s' o :
  wp H G p Q h → runs N p s tr s' o →
  Q (h ++ tr) o ∧ ∀ tr1 c x tr2, tr = tr1 ++ Ev c x :: tr2 → G (h ++ tr1) c.
Proof.
  revert h s tr. induction p as [a|c k IH|m|]; intros h s tr; cbn.
  - intros HQ (-> & -> & ->). rewrite app_nil_r. split; [done|]. by intros [] ????.
  - intros [HG Hw] (x & s1 & tr' & Hs & -> & Hr).
    destruct (IH x (h ++ [Ev c x]) s1 tr') as [HQ Hall]; [by apply Hw|done|].
    rewrite <- app_assoc in HQ. split; [exact HQ|].
    intros [|e tr1] c' x' tr2 Heq; cbn in Heq.
    + injection Heq as Hc Htr. rewrite app_nil_r. by subst.
    + injection Heq as <- Heq. specialize (Hall _ _ _ _ Heq). rewrite <- app_assoc in Hall. exact Hall.
  - intros HQ (-> & -> & ->). rewrite app_nil_r. split; [done|]. by intros [] ????.
  - intros HQ (-> & -> & ->). rewrite app_nil_r. split; [done|]. by intros [] ????.
Qed.
End History.

(** A run of a composition is a run of the first program, followed by a run of
    the second if the first returned. *)
Lemma runs_bind_inv {E : effect} {A B} (N : env E) (p : prog E A) (f : A → prog E B) s tr s' o :
  runs N (p ≫= f) s tr s' o →
  ∃ tr1 s1 o1, runs N p s tr1 s1 o1 ∧
    match o1 with
    | Returns a => ∃ tr2, tr = tr1 ++ tr2 ∧ runs N (f a) s1 tr2 s' o
    | Panics m => tr = tr1 ∧ s' = s1 ∧ o = Panics m
    | Exhausted => tr = tr1 ∧ s' = s1 ∧ o = Exhausted
    end.
Proof.
  revert s tr. induction p as [a|c k IH|m|]; intros s tr; unfold mbind, prog_bind; cbn.
  - intros Hr. exists [], s, (Returns a). eauto 10.
  - intros (x & s1 & tr' & Hs & -> & Hr). apply IH in Hr as (tr1 & s2 & o1 & H1 & H2).
    exists (Ev c x :: tr1), s2, o1. split; [eauto 10|].
    destruct o1 as [a|m|]; [destruct H2 as (tr2 & -> & H2); eauto|destruct H2 as (-> & -> & ->); eauto..].
  - intros (-> & -> & ->). exists [], s, (Panics m). done.
  - intros (-> & -> & ->). exists [], s, Exhausted. done.
Qed.
