(* ===== verification/Kube.v ===== *)
(** * Kubernetes objects and the client

    The objects the operator manages, with the fields it sets or reads, and the
    effect of the controller: the calls of [client.Client] (with the answers the
    API server may give), the clock, and the publication of operator metrics. *)
From S2P Require Import Prelude GoStrings GoTime Platform Api Effects.
Local Open Scope Z_scope.

Record NamespacedName := NN { nn_Namespace : string; nn_Name : string }.
#[global] Instance NamespacedName_eq_dec : EqDecision NamespacedName.
Proof. solve_decision. Defined.
#[global] Instance NamespacedName_countable : Countable NamespacedName.
Proof.
  refine (inj_countable' (λ n, (nn_Namespace n, nn_Name n)) (λ p, NN p.1 p.2) _).
  by intros [].
Defined.

(** [intstr.IntOrString] and its [String()]. *)
Inductive IntOrString := FromInt (z : Z) | FromStr (s : string).
Definition intstr_String (i : IntOrString) : string :=
  match i with FromInt z => itoa z | FromStr s => s end.

(** ** Pods *)

Record EnvVarSource := MkEnvVarSource {
  evs_SecretKeyRef : option SecretKeySelector; evs_FieldPath : option string
}.
Record EnvVar := MkEnvVar { ev_Name : string; ev_Value : string; ev_ValueFrom : option EnvVarSource }.
Record ContainerPort := MkContainerPort { cp_Name : string; cp_ContainerPort : Z; cp_Protocol : string }.
Record VolumeMount := MkVolumeMount { vm_Name : string; vm_MountPath : string; vm_ReadOnly : bool }.
Inductive VolumeSource := VolumePVC (claimName : string) | VolumeSecret (secretName : string).
Record Volume := MkVolume { vol_Name : string; vol_Source : VolumeSource }.
Record Probe := MkProbe {
  pr_Path : string; pr_Port : IntOrString;
  pr_InitialDelaySeconds : Z; pr_PeriodSeconds : Z;
  pr_FailureThreshold : Z; pr_SuccessThreshold : Z
}.
Record SecurityContext := MkSecurityContext {
  sc_AllowPrivilegeEscalation : option bool;
  sc_ReadOnlyRootFilesystem : option bool;
  sc_RunAsNonRoot : option bool;
  sc_CapabilitiesDrop : list string
}.
Record PodSecurityContext := MkPodSecurityContext {
  psc_RunAsUser : option Z; psc_RunAsGroup : option Z; psc_FSGroup : option Z
}.

(** ** Policy, RBAC, networking *)

Record PolicyRule := MkPolicyRule {
  rule_APIGroups : list string; rule_Resources : list string; rule_Verbs : list string
}.
Record Subject := MkSubject { sub_Kind : string; sub_Name : string; sub_Namespace : string }.
Record RoleRef := MkRoleRef { rr_APIGroup : string; rr_Kind : string; rr_Name : string }.
Record ServicePort := MkServicePort { svp_Name : string; svp_Port : Z; svp_Protocol : string }.
Record NetworkPolicyPort := MkNetworkPolicyPort { npp_Protocol : string; npp_Port : IntOrString }.
Record IPBlock := MkIPBlock { ipb_CIDR : string; ipb_Except : list string }.
Record NetworkPolicyPeer := MkNetworkPolicyPeer { peer_IPBlock : option IPBlock }.
Record IngressRule := MkIngressRule { in_Ports : list NetworkPolicyPort; in_From : list NetworkPolicyPeer }.
Record EgressRule := MkEgressRule { eg_Ports : list NetworkPolicyPort; eg_To : list NetworkPolicyPeer }.
Record NetworkPolicySpec := MkNetworkPolicySpec {
  np_PodSelector : LabelMap;
  np_PolicyTypes : list string;
  np_Ingress : list IngressRule;
  np_Egress : list EgressRule
}.

Record Secret := MkSecret { sec_Meta : ObjectMeta; sec_Data : gmap string string }.
Record Service := MkService {
  svc_Meta : ObjectMeta; svc_Type : string; svc_Selector : LabelMap;
  svc_Ports : list ServicePort; svc_ClusterIP : string
}.
Record NetworkPolicy := MkNetworkPolicy { np_Meta : ObjectMeta; np_Spec : NetworkPolicySpec }.
Record ServiceAccount := MkServiceAccount { sa_Meta : ObjectMeta }.
Record Role := MkRole { role_Meta : ObjectMeta; role_Rules : list PolicyRule }.
Record RoleBinding := MkRoleBinding {
  rb_Meta : ObjectMeta; rb_Subjects : list Subject; rb_RoleRef : RoleRef
}.
Record PodDisruptionBudget := MkPodDisruptionBudget {
  pdb_Meta : ObjectMeta; pdb_MaxUnavailable : option IntOrString; pdb_Selector : LabelMap
}.

Inductive kind :=
  | KServer | KStatefulSet | KService | KPersistentVolumeClaim | KSecret | KNetworkPolicy
  | KServiceAccount | KRole | KRoleBinding | KPodDisruptionBudget
  | KVolumeSnapshot | KVerticalPodAutoscaler.
#[global] Instance kind_eq_dec : EqDecision kind.
Proof. solve_decision. Defined.

Section Kube.
Context {QO : QuantityOps}.

Record Container := MkContainer {
  c_Name : string;
  c_Image : string;
  c_ImagePullPolicy : string;
  c_Command : list string;
  c_Env : list EnvVar;
  c_EnvFromSecrets : list string;
  c_Ports : list ContainerPort;
  c_Resources : ResourceRequirements;
  c_VolumeMounts : list VolumeMount;
  c_ReadinessProbe : option Probe;
  c_LivenessProbe : option Probe;
  c_SecurityContext : option SecurityContext
}.

Definition no_resources : ResourceRequirements := MkResourceRequirements ∅ ∅ [].

Record PodSpec := MkPodSpec {
  ps_ServiceAccountName : string;
  ps_SecurityContext : option PodSecurityContext;
  ps_Containers : list Container;
  ps_Volumes : list Volume
}.
Record PodTemplateSpec := MkPodTemplateSpec {
  pt_Labels : LabelMap; pt_Annotations : LabelMap; pt_Spec : PodSpec
}.
Record StatefulSetSpec := MkStatefulSetSpec {
  sts_Replicas : option Z;
  sts_ServiceName : string;
  sts_Selector : LabelMap;
  sts_Template : PodTemplateSpec
}.
Record StatefulSetStatus := MkStatefulSetStatus {
  sts_ReadyReplicas : Z; sts_CurrentRevision : string; sts_UpdateRevision : string
}.
Record StatefulSet := MkStatefulSet {
  sts_Meta : ObjectMeta; sts_Spec : StatefulSetSpec; sts_Status : StatefulSetStatus
}.

Record PersistentVolumeClaim := MkPersistentVolumeClaim {
  pvc_Meta : ObjectMeta;
  pvc_AccessModes : list string;
  pvc_Requests : ResourceList;
  pvc_StorageClassName : option string
}.

(** The Go type of each kind of object. *)
Definition object (k : kind) : Type :=
  match k with
  | KServer => EnshroudedServer
  | KStatefulSet => StatefulSet
  | KService => Service
  | KPersistentVolumeClaim => PersistentVolumeClaim
  | KSecret => Secret
  | KNetworkPolicy => NetworkPolicy
  | KServiceAccount => ServiceAccount
  | KRole => Role
  | KRoleBinding => RoleBinding
  | KPodDisruptionBudget => PodDisruptionBudget
  | KVolumeSnapshot | KVerticalPodAutoscaler => Unstructured
  end.

Section Keys.
Context {UO : UnstructuredOps}.

(** [client.ObjectKeyFromObject]. *)
Definition meta_key (m : ObjectMeta) : NamespacedName := NN (om_Namespace m) (om_Name m).
Definition u_key (u : Unstructured) : NamespacedName := NN (u_GetNamespace u) (u_GetName u).
Definition obj_key (k : kind) : object k → NamespacedName :=
  match k with
  | KServer => λ o, meta_key (es_Meta o)
  | KStatefulSet => λ o, meta_key (sts_Meta o)
  | KService => λ o, meta_key (svc_Meta o)
  | KPersistentVolumeClaim => λ o, meta_key (pvc_Meta o)
  | KSecret => λ o, meta_key (sec_Meta o)
  | KNetworkPolicy => λ o, meta_key (np_Meta o)
  | KServiceAccount => λ o, meta_key (sa_Meta o)
  | KRole => λ o, meta_key (role_Meta o)
  | KRoleBinding => λ o, meta_key (rb_Meta o)
  | KPodDisruptionBudget => λ o, meta_key (pdb_Meta o)
  | KVolumeSnapshot => u_key
  | KVerticalPodAutoscaler => u_key
  end.
End Keys.

(** ** The effect of the controller *)

(** Arguments of [SetServerMetrics] and [DeleteServerMetrics]. *)
Record ServerMetrics := MkServerMetrics {
  sm_namespace : string; sm_name : string; sm_readyReplicas : Z;
  sm_updateDeferred : bool; sm_phase : string; sm_oldPhase : string;
  sm_maintenanceWindowActive : bool
}.

Inductive controller_call :=
  (** [client.Client]: a successful write answers with the stored object. *)
  | Get (k : kind) (nn : NamespacedName)
  | Create (k : kind) (o : object k)
  | Update (k : kind) (o : object k)
  | Delete (k : kind) (o : object k)
  | StatusUpdate (o : EnshroudedServer)
  (** [List] of VolumeSnapshots by label, and of servers by field index. *)
  | ListSnapshots (ns : string) (label value : string)
  | ListServersByField (ns : string) (field value : string)
  (** [time.Now()], [time.Sleep(d)]. *)
  | Now
  | Sleep (d : Duration)
  (** The gauges of [internal/metrics]. *)
  | PublishMetrics (m : ServerMetrics)
  | DropMetrics (namespace name phase : string).

Definition controller_resp (c : controller_call) : Type :=
  match c with
  | Get k _ | Create k _ | Update k _ => result (object k)
  | Delete _ _ => result unit
  | StatusUpdate _ => result EnshroudedServer
  | ListSnapshots _ _ _ => result (list Unstructured)
  | ListServersByField _ _ _ => result (list EnshroudedServer)
  | Now => Time
  | Sleep _ | PublishMetrics _ | DropMetrics _ _ _ => unit
  end.

Definition KubeE : effect := Effect controller_call controller_resp.

Definition get (k : kind) (nn : NamespacedName) : prog KubeE (result (object k)) := trigger (E := KubeE) (Get k nn).
Definition create (k : kind) (o : object k) : prog KubeE (result (object k)) := trigger (E := KubeE) (Create k o).
Definition update (k : kind) (o : object k) : prog KubeE (result (object k)) := trigger (E := KubeE) (Update k o).
Definition delete_obj (k : kind) (o : object k) : prog KubeE (result unit) := trigger (E := KubeE) (Delete k o).
Definition status_update (o : EnshroudedServer) : prog KubeE (result EnshroudedServer) := trigger (E := KubeE) (StatusUpdate o).
Definition list_snapshots (ns label value : string) : prog KubeE (result (list Unstructured)) :=
  trigger (E := KubeE) (ListSnapshots ns label value).
Definition list_servers (ns field value : string) : prog KubeE (result (list EnshroudedServer)) :=
  trigger (E := KubeE) (ListServersByField ns field value).
Definition publish_metrics (m : ServerMetrics) : prog KubeE unit := trigger (E := KubeE) (PublishMetrics m).
Definition drop_metrics (namespace name phase : string) : prog KubeE unit :=
  trigger (E := KubeE) (DropMetrics namespace name phase).
Definition now : prog KubeE Time := trigger (E := KubeE) Now.
Definition sleep (d : Duration) : prog KubeE unit := trigger (E := KubeE) (Sleep d).

(** Functions that return [error]: [None] is nil. *)
Definition nil_error : prog KubeE (option error) := Ret None.
Definition fail (e : error) : prog KubeE (option error) := Ret (Some e).

(** [if err := p; err != nil { return err }; q] *)
Definition and_then (p q : prog KubeE (option error)) : prog KubeE (option error) :=
  p ≫= λ e, match e with Some e => fail e | None => q end.

End Kube.

Abbreviation step := (prog KubeE (option error)).

(** [return r.Create(ctx, desired)] and the like: keep only the error. *)
Definition err_of {A} (r : result A) : option error :=
  match r with Ok _ => None | Err e => Some e end.

Notation "p ;;? q" := (and_then p q) (at level 62, right associativity) : go_scope.
