(* ===== verification/Metrics.v ===== *)
(** * Operator metrics

    [internal/metrics/collector.go]: the four gauge vectors of the operator,
    [SetServerMetrics] and [DeleteServerMetrics].  [None] is a panic of
    [WithLabelValues]. *)
From S2P Require Import Prelude GoStrings GoTime Platform Kube.
Local Open Scope Z_scope.

Section Metrics.
Context {GO : GaugeVecOps}.

(** The package-level variables. *)
Record collector := MkCollector {
  ReadyReplicas : GaugeVec;
  UpdateDeferred : GaugeVec;
  Phase : GaugeVec;
  MaintenanceWindowActive : GaugeVec
}.
Definition new_collector : collector := MkCollector gauge_empty gauge_empty gauge_empty gauge_empty.

Definition gauge_bool (b : bool) : Z := if b then 1 else 0.

Definition SetServerMetrics (m : ServerMetrics) (c : collector) : option collector :=
  let '(MkServerMetrics namespace name readyReplicas updateDeferred phase oldPhase maintenanceWindowActive) := m in
  rr ← gauge_set [namespace; name] readyReplicas (ReadyReplicas c);
  ud ← gauge_set [namespace; name] (gauge_bool updateDeferred) (UpdateDeferred c);
  let ph := if negb (bool_decide (oldPhase = "")) && negb (bool_decide (oldPhase = phase))
            then gauge_delete [namespace; name; oldPhase] (Phase c) else Phase c in
  ph ← gauge_set [namespace; name; phase] 1 ph;
  mw ← gauge_set [namespace; name] (gauge_bool maintenanceWindowActive) (MaintenanceWindowActive c);
  Some (MkCollector rr ud ph mw).

Definition DeleteServerMetrics (namespace name phase : string) (c : collector) : collector :=
  MkCollector
    (gauge_delete [namespace; name] (ReadyReplicas c))
    (gauge_delete [namespace; name] (UpdateDeferred c))
    (gauge_delete [namespace; name; phase] (Phase c))
    (gauge_delete [namespace; name] (MaintenanceWindowActive c)).
End Metrics.
