(* ===== verification/A2S.v ===== *)
(** * Steam A2S_INFO

    The wire format of [cmd/metrics-sidecar/main.go]: the request, the cursor
    over a packet, and the response parser, with the exact set of packets the
    parser accepts. *)
From S2P Require Import Prelude GoStrings Platform.
From Stdlib Require Import Ascii.
Local Open Scope Z_scope.

Abbreviation byte := ascii (only parsing).

Definition a2sHeader : list byte := chr <$> [0xFF; 0xFF; 0xFF; 0xFF].

Definition a2sPayload : list byte := bytes "Source Engine Query" ++ [chr 0].

Definition buildA2SInfoRequest (challenge : list byte) : list byte :=
  a2sHeader ++ [chr 0x54] ++ a2sPayload ++ challenge.

Record A2SInfo := MkA2SInfo {
  info_Name : string;
  info_MapName : string;
  info_Players : Z;
  info_MaxPlayers : Z;
  info_Version : string
}.
#[global] Instance A2SInfo_eq_dec : EqDecision A2SInfo.
Proof. solve_decision. Defined.

(** ** [byteReader] *)

Record byteReader := MkByteReader { br_data : list byte; br_pos : nat }.

Definition io_EOF : error := errorf "EOF".

Definition readByte (r : byteReader) : result Z * byteReader :=
  match br_data r !! br_pos r with
  | None => (Err io_EOF, r)
  | Some b => (Ok (bval b), MkByteReader (br_data r) (S (br_pos r)))
  end.

Definition readUint16LE (r : byteReader) : result Z * byteReader :=
  match br_data r !! br_pos r, br_data r !! S (br_pos r) with
  | Some lo, Some hi => (Ok (Z.lor (bval lo) (Z.shiftl (bval hi) 8)), MkByteReader (br_data r) (br_pos r + 2))
  | _, _ => (Err io_EOF, r)
  end.

(** The loop of [readString]: [rest] is [data[pos:]], [acc] is [data[start:pos]]. *)
Fixpoint readString_loop (rest acc : list byte) (pos : nat) : option (list byte) * nat :=
  match rest with
  | [] => (None, pos)
  | b :: rest =>
    if bval b =? 0 then (Some acc, S pos) else readString_loop rest (acc ++ [b]) (S pos)
  end.
Definition readString (r : byteReader) : result string * byteReader :=
  let '(s, pos) := readString_loop (drop (br_pos r) (br_data r)) [] (br_pos r) in
  (match s with
   | Some s => Ok (of_bytes s)
   | None => Err (errorf ("unterminated string starting at byte " +:+ itoa (Z.of_nat (br_pos r))))
   end, MkByteReader (br_data r) pos).

Definition skip (n : nat) (r : byteReader) : byteReader := MkByteReader (br_data r) (br_pos r + n).

(** ** [parseA2SInfo] *)

Definition upper_hex_digit (z : Z) : ascii := if z <? 10 then chr (48 + z) else chr (65 + z - 10).
(** [%X] of a byte slice and [%02X] of a byte. *)
Fixpoint upper_hex (l : list byte) : string :=
  match l with
  | [] => ""
  | b :: l => String (upper_hex_digit (bval b / 16)) (String (upper_hex_digit (bval b mod 16)) (upper_hex l))
  end.

(** [v, _ := ...]: the value, Go's zero value next to an error. *)
Definition or_zero {A} (zero : A) (r : result A) : A := match r with Ok a => a | Err _ => zero end.

(** [x, err := p; if err != nil { return nil, fmt.Errorf(text, err) }] *)
Definition reading {A} (text : string) (r : result string * byteReader)
    (k : string → byteReader → result A) : result A :=
  match r with
  | (Err e, _) => Err (wrapf text e)
  | (Ok s, r) => k s r
  end.

(** What follows the four strings. *)
Definition parseA2STail (name mapName : string) (r : byteReader) : A2SInfo :=
  let r := skip 2 r in
  let '(players, r) := readByte r in
  let '(maxPlayers, r) := readByte r in
  let r := skip 1 (skip 1 (skip 1 (skip 1 (skip 1 r)))) in
  let '(version, r) := readString r in
  MkA2SInfo name mapName (or_zero 0 players) (or_zero 0 maxPlayers) (or_zero "" version).

Definition parseA2SInfo (data : list byte) : result A2SInfo :=
  if (Nat.ltb (length data) 6) then
    Err (errorf ("A2S_INFO response too short: " +:+ itoa (Z.of_nat (length data)) +:+ " bytes"))
  else if negb (bool_decide (take 4 data = a2sHeader)) then
    Err (errorf ("A2S_INFO: invalid header 0x" +:+ upper_hex (take 4 data)))
  else
    match data !! 4%nat with
    | None => Err io_EOF (* not reached: the length was checked *)
    | Some t =>
      if negb (bval t =? 0x49) then
        Err (errorf ("A2S_INFO: unexpected type byte 0x" +:+ upper_hex [t] +:+ " (expected 0x49)"))
      else
        reading "reading server name: " (readString (MkByteReader data 6)) (λ name r,
        reading "reading map name: " (readString r) (λ mapName r,
        reading "reading folder: " (readString r) (λ _ r,
        reading "reading game: " (readString r) (λ _ r,
        Ok (parseA2STail name mapName r)))))
    end.

(** ** The packets the parser accepts *)

Definition no_nul (s : string) : Prop := Forall (λ b, bval b ≠ 0) (bytes s).
Definition cstring (s : string) : list byte := bytes s ++ [chr 0].

(** Prefix of an A2S_INFO response up to the game string. *)
Definition a2s_prefix (proto : byte) (name map folder game : string) : list byte :=
  a2sHeader ++ [chr 0x49; proto] ++ cstring name ++ cstring map ++ cstring folder ++ cstring game.

(** The complete fixed part after it: application id, players, slots, bots,
    server type, environment, visibility, VAC, version. *)
Definition a2s_tail (id1 id2 : byte) (players slots : Z) (misc : list byte) (version : string) : list byte :=
  [id1; id2; chr players; chr slots] ++ misc ++ cstring version.

Lemma readString_loop_cstring s rest acc pos :
  no_nul s →
  readString_loop (cstring s ++ rest) acc pos = (Some (acc ++ bytes s), (pos + length (cstring s))%nat).
Proof.
  unfold no_nul, cstring. intros H. revert acc pos.
  induction H as [|b l Hb Hl IH]; intros acc pos; cbn [app readString_loop length].
  - change (bval (chr 0) =? 0) with true. rewrite app_nil_r. f_equal. lia.
  - destruct (Z.eqb_spec (bval b) 0); [done|]. rewrite IH, <- app_assoc. f_equal. lia.
Qed.

Lemma readString_cstring pre s rest :
  no_nul s →
  readString (MkByteReader (pre ++ cstring s ++ rest) (length pre))
  = (Ok s, MkByteReader (pre ++ cstring s ++ rest) (length (pre ++ cstring s))).
Proof.
  intros Hs. unfold readString. cbn [br_data br_pos]. rewrite drop_app_length.
  rewrite readString_loop_cstring by done. cbn [app]. rewrite of_bytes_bytes, length_app. done.
Qed.

(** Conversely, what was read was there, with its terminator. *)
Lemma readString_loop_inv rest acc pos l pos' :
  readString_loop rest acc pos = (Some l, pos') →
  ∃ s tl, rest = bytes s ++ chr 0 :: tl ∧ no_nul s ∧ l = acc ++ bytes s ∧ pos' = (pos + S (length (bytes s)))%nat.
Proof.
  revert acc pos. induction rest as [|b rest IH]; intros acc pos; cbn [readString_loop]; [done|].
  destruct (Z.eqb_spec (bval b) 0) as [Hb|Hb].
  - intros [= <- <-]. exists "", rest. split_and!; [|by constructor|by rewrite app_nil_r|cbn; lia].
    cbn. f_equal. apply bval_inj. by rewrite Hb.
  - intros (s & tl & -> & Hs & -> & ->)%IH. exists (String b s), tl. cbn [bytes app length].
    split_and!; [done|by constructor|by rewrite <- app_assoc|lia].
Qed.

Lemma readString_inv data pos s r :
  readString (MkByteReader data pos) = (Ok s, r) →
  ∃ tl, drop pos data = cstring s ++ tl ∧ no_nul s
    ∧ r = MkByteReader data (pos + length (cstring s)).
Proof.
  unfold readString. cbn [br_data br_pos].
  destruct (readString_loop _ _ _) as [[l|] pos'] eqn:E; [|done]. intros [= <- <-].
  apply readString_loop_inv in E as (s & tl & Hd & Hs & -> & ->).
  exists tl. cbn [app]. rewrite of_bytes_bytes. unfold cstring. rewrite length_app. cbn [length].
  rewrite Hd, <- app_assoc. split_and!; [done|done|f_equal; lia].
Qed.

(** What the tail reads as, whatever is there: missing bytes read as zero and a
    missing version as the empty string. *)
Definition tail_info (name map : string) (tl : list byte) : A2SInfo :=
  parseA2STail name map (MkByteReader tl 0).

Lemma readByte_shift pre tl n :
  readByte (MkByteReader (pre ++ tl) (length pre + n))
  = (let '(x, r) := readByte (MkByteReader tl n) in (x, MkByteReader (pre ++ br_data r) (length pre + br_pos r))).
Proof.
  unfold readByte. cbn [br_data br_pos]. rewrite lookup_app_r by lia.
  replace (length pre + n - length pre)%nat with n by lia.
  destruct (tl !! n); cbn; repeat f_equal; lia.
Qed.

Lemma readString_loop_pos rest acc p : (readString_loop rest acc p).1 = (readString_loop rest acc 0).1.
Proof.
  assert (∀ p q, (readString_loop rest acc p).1 = (readString_loop rest acc q).1) as H; [|apply H].
  revert acc. induction rest as [|b rest IH]; intros acc p1 q1; cbn [readString_loop]; [done|].
  case_match; [done|]. apply IH.
Qed.

Lemma readString_shift_zero pre tl n :
  or_zero "" (readString (MkByteReader (pre ++ tl) (length pre + n))).1
  = or_zero "" (readString (MkByteReader tl n)).1.
Proof.
  unfold readString. cbn [br_data br_pos]. rewrite drop_app_ge by lia.
  replace (length pre + n - length pre)%nat with n by lia.
  pose proof (readString_loop_pos (drop n tl) [] (length pre + n)) as H1.
  pose proof (readString_loop_pos (drop n tl) [] n) as H2. rewrite <- H2 in H1.
  destruct (readString_loop _ _ (length pre + n)), (readString_loop _ _ n). cbn in *. subst. by case_match.
Qed.

Lemma readByte_data r : br_data (readByte r).2 = br_data r.
Proof. unfold readByte. by case_match. Qed.

Lemma parseA2STail_shift name map pre tl :
  parseA2STail name map (MkByteReader (pre ++ tl) (length pre)) = tail_info name map tl.
Proof.
  unfold tail_info, parseA2STail, skip. cbn [br_data br_pos].
  rewrite readByte_shift. cbn [Nat.add].
  pose proof (readByte_data (MkByteReader tl 2)) as D1.
  destruct (readByte (MkByteReader tl 2)) as [x1 [d1 p1]]. cbn in D1. subst d1. cbn [br_data br_pos].
  rewrite readByte_shift.
  pose proof (readByte_data (MkByteReader tl p1)) as D2.
  destruct (readByte (MkByteReader tl p1)) as [x2 [d2 p2]]. cbn in D2. subst d2.
  cbn [br_data br_pos]. rewrite <- !Nat.add_assoc.
  pose proof (readString_shift_zero pre tl (p2 + (1 + (1 + (1 + (1 + 1)))))) as H.
  destruct (readString (MkByteReader (pre ++ tl) _)), (readString (MkByteReader tl _)). cbn in H |- *. by rewrite H.
Qed.

(** One [readString] of the parser, on a packet that goes on as expected. *)
Lemma reading_cstring {A} text pre s rest (k : string → byteReader → result A) :
  no_nul s →
  reading text (readString (MkByteReader (pre ++ cstring s ++ rest) (length pre))) k
  = k s (MkByteReader ((pre ++ cstring s) ++ rest) (length (pre ++ cstring s))).
Proof. intros Hs. rewrite readString_cstring by done. cbn [reading]. by rewrite <- !app_assoc. Qed.

Lemma reading_inv {A} text data pos (k : string → byteReader → result A) a :
  reading text (readString (MkByteReader data pos)) k = Ok a →
  ∃ s tl, drop pos data = cstring s ++ tl ∧ no_nul s
    ∧ k s (MkByteReader data (pos + length (cstring s))) = Ok a.
Proof.
  unfold reading. destruct (readString _) as [[s|e] r] eqn:E; [|done].
  apply readString_inv in E as (tl & Hd & Hs & ->). eauto.
Qed.

Lemma drop_app_more {A} n (l s tl : list A) : drop n l = s ++ tl → drop (n + length s) l = tl.
Proof. intros H. by rewrite <- drop_drop, H, drop_app_length. Qed.

Lemma a2s_prefix_accepted proto name map folder game tl :
  no_nul name → no_nul map → no_nul folder → no_nul game →
  parseA2SInfo (a2s_prefix proto name map folder game ++ tl) = Ok (tail_info name map tl).
Proof.
  intros H1 H2 H3 H4. unfold parseA2SInfo, a2s_prefix.
  set (pre := a2sHeader ++ [chr 0x49; proto]).
  replace ((a2sHeader ++ [chr 0x49; proto] ++ cstring name ++ cstring map ++ cstring folder ++ cstring game) ++ tl)
    with (pre ++ cstring name ++ cstring map ++ cstring folder ++ cstring game ++ tl)
    by (unfold pre; by rewrite <- !app_assoc).
  destruct (Nat.ltb_spec (length (pre ++ cstring name ++ cstring map ++ cstring folder ++ cstring game ++ tl)) 6)
    as [Hl|_]; [rewrite length_app in Hl; cbn in Hl; lia|].
  rewrite bool_decide_eq_true_2 by done. cbn [negb].
  change ((pre ++ cstring name ++ cstring map ++ cstring folder ++ cstring game ++ tl) !! 4%nat)
    with (Some (chr 0x49)). change (bval (chr 0x49) =? 0x49) with true. cbn [negb].
  change 6%nat with (length pre). rewrite !reading_cstring by done.
  by rewrite <- parseA2STail_shift with (pre := (((pre ++ cstring name) ++ cstring map) ++ cstring folder) ++ cstring game).
Qed.

Lemma take_4_header (data : list byte) t :
  (6 ≤ length data)%nat → take 4 data = a2sHeader → data !! 4%nat = Some t →
  ∃ proto, data = a2sHeader ++ [t; proto] ++ drop 6 data.
Proof.
  intros Hl Ht H4. do 6 (destruct data as [|? data]; [cbn in Hl; lia|]).
  cbn in H4, Ht |- *. injection Ht as -> -> -> ->. simplify_eq. eexists. unfold a2sHeader. cbn. done.
Qed.

Lemma a2s_accepted_prefix data info :
  parseA2SInfo data = Ok info →
  ∃ proto name map folder game tl,
    no_nul name ∧ no_nul map ∧ no_nul folder ∧ no_nul game
    ∧ data = a2s_prefix proto name map folder game ++ tl ∧ info = tail_info name map tl.
Proof.
  intros H. pose proof H as H0. unfold parseA2SInfo in H.
  destruct (Nat.ltb_spec (length data) 6) as [|Hlen]; [done|].
  case_bool_decide as Hh; [|done]. cbn [negb] in H.
  destruct (data !! 4%nat) as [t|] eqn:H4; [|done].
  destruct (Z.eqb_spec (bval t) 0x49) as [Ht|]; [|done]. cbn [negb] in H.
  apply (bval_inj t (chr 0x49)) in Ht as ->.
  destruct (take_4_header data (chr 0x49) Hlen Hh H4) as [proto Hd].
  apply reading_inv in H as (name & tl1 & D1 & N1 & H).
  apply reading_inv in H as (map & tl2 & D2 & N2 & H).
  apply reading_inv in H as (folder & tl3 & D3 & N3 & H).
  apply reading_inv in H as (game & tl4 & D4 & N4 & H).
  rewrite (drop_app_more _ _ _ _ D1) in D2. subst tl1.
  rewrite (drop_app_more (6 + length (cstring name)) data (cstring map) tl2) in D3
    by (by apply drop_app_more). subst tl2.
  rewrite (drop_app_more (6 + length (cstring name) + length (cstring map)) data (cstring folder) tl3) in D4
    by (by do 2 apply drop_app_more). subst tl3.
  exists proto, name, map, folder, game, tl4. split_and!; try done.
  - rewrite Hd at 1. rewrite D1. unfold a2s_prefix. by rewrite <- !app_assoc.
  - assert (data = a2s_prefix proto name map folder game ++ tl4) as E.
    { rewrite Hd at 1. rewrite D1. unfold a2s_prefix. by rewrite <- !app_assoc. }
    rewrite E, a2s_prefix_accepted in H0 by done. by simplify_eq.
Qed.

Lemma tail_info_complete name map id1 id2 players slots misc version extra :
  length misc = 5%nat → no_nul version → 0 ≤ players < 256 → 0 ≤ slots < 256 →
  tail_info name map (a2s_tail id1 id2 players slots misc version ++ extra)
  = MkA2SInfo name map players slots version.
Proof.
  intros Hm Hv Hp Hs. do 6 (destruct misc as [|? misc]; try done).
  unfold tail_info, parseA2STail, a2s_tail, skip. cbn [br_data br_pos readByte app lookup list_lookup Nat.add].
  rewrite !bval_chr by lia.
  match goal with |- context [readString (MkByteReader ?d 9)] =>
    change d with (take 9 d ++ cstring version ++ extra) end.
  match goal with |- context [readString (MkByteReader (?pre ++ _) 9)] =>
    change 9%nat with (length pre) end.
  by rewrite readString_cstring.
Qed.
