(* ===== verification/Sidecar.v ===== *)
(** * The metrics sidecar

    [cmd/metrics-sidecar/main.go]: configuration from the environment, the A2S
    exchange over an unconnected UDP socket, the four gauges, the status patch
    and the scrape loop. *)
From S2P Require Import Prelude GoStrings GoTime GoConv GoFlag Platform Api Effects Kube A2S.
From Stdlib Require Import Ascii.
Local Open Scope Z_scope.

(** ** Configuration *)

Record config := MkConfig {
  queryHost : string;
  queryPort : Z;
  metricsAddr : string;
  scrapeInterval : Duration;
  serverNamespace : string;
  serverName : string;
  patchStatusEnabled : bool
}.

Definition envOrDefault (e : environ) (key def : string) : string :=
  let v := Getenv e key in if decide (v = "") then def else v.

Definition loadConfig (e : environ) : config :=
  let port := (Atoi (envOrDefault e "QUERY_PORT" "15637")).1 in
  let port := if port <=? 0 then 15637 else port in
  let interval :=
    match ParseDuration (envOrDefault e "SCRAPE_INTERVAL" "15s") with
    | None => 15 * second
    | Some interval => if interval <? 5 * second then 15 * second else interval
    end in
  let v := Getenv e "STATUS_PATCH_ENABLED" in
  let patchEnabled := if bool_decide (v = "false") || bool_decide (v = "0") then false else true in
  {| queryHost := envOrDefault e "QUERY_HOST" "127.0.0.1";
     queryPort := port;
     metricsAddr := envOrDefault e "METRICS_ADDR" ":9090";
     scrapeInterval := interval;
     serverNamespace := Getenv e "SERVER_NAMESPACE";
     serverName := Getenv e "SERVER_NAME";
     patchStatusEnabled := patchEnabled |}.

Section Sidecar.
Context {QO : QuantityOps} {GO : GaugeVecOps}.

(** ** The effect of the sidecar *)

Inductive sidecar_call :=
  (** [net.ResolveUDPAddr], which answers with the address's [String()];
      [net.ListenPacket]; the calls on the socket. *)
  | ResolveUDPAddr (addr : string)
  | ListenPacket
  | CloseConn
  | SidecarNow
  | SetDeadline (t : Time)
  | WriteTo (req : list ascii) (raddr : string)
  (** [ReadFrom(buf)]: the packet stored in the 4096-byte buffer, and its source. *)
  | ReadFrom
  | GetServer (nn : NamespacedName)
  (** [Status().Patch(server, MergeFrom(base))]. *)
  | PatchStatus (base server : EnshroudedServer).

Definition sidecar_resp (c : sidecar_call) : Type :=
  match c with
  | ResolveUDPAddr _ => result string
  | ListenPacket => result unit
  | CloseConn => unit
  | SidecarNow => Time
  | SetDeadline _ | WriteTo _ _ => result unit
  | ReadFrom => result (list ascii * string)
  | GetServer _ => result EnshroudedServer
  | PatchStatus _ _ => result unit
  end.
Definition SidecarE : effect := Effect sidecar_call sidecar_resp.
Definition ask (c : sidecar_call) : prog SidecarE (sidecar_resp c) := trigger (E := SidecarE) c.

(** ** The query *)

(** The receive loop; [fuel] bounds the number of packets read. *)
Fixpoint receive (fuel : nat) (raddr : string) : prog SidecarE (result (list ascii)) :=
  match fuel with
  | O => OutOfFuel
  | S fuel =>
    r ← ask ReadFrom;
    match r with
    | Err e => Ret (Err (wrapf "reading A2S_INFO response: " e))
    | Ok (packet, from) => if decide (from = raddr) then Ret (Ok packet) else receive fuel raddr
    end
  end.

Definition udpRoundTrip (fuel : nat) (req : list ascii) (raddr : string) (timeout : Duration)
    : prog SidecarE (result (list ascii)) :=
  t ← ask SidecarNow;
  r ← ask (SetDeadline (add t timeout));
  match r with
  | Err e => Ret (Err e)
  | Ok _ =>
    r ← ask (WriteTo req raddr);
    match r with
    | Err e => Ret (Err (wrapf "sending A2S_INFO request: " e))
    | Ok _ => receive fuel raddr
    end
  end.

(** [resp[5:9]] when [resp] is a challenge packet. *)
Definition challenge_of (resp : list ascii) : option (list ascii) :=
  if Nat.leb 9 (length resp) && bool_decide (take 4 resp = a2sHeader) && bool_decide (resp !! 4%nat = Some (chr 0x41))
  then Some (take 4 (drop 5 resp)) else None.

Definition initialChallenge : list ascii := chr <$> [0xFF; 0xFF; 0xFF; 0xFF].

(** The exchange on an open socket. *)
Definition exchange (fuel : nat) (raddr : string) (timeout : Duration) : prog SidecarE (result A2SInfo) :=
  r ← udpRoundTrip fuel (buildA2SInfoRequest initialChallenge) raddr timeout;
  match r with
  | Err e => Ret (Err e)
  | Ok resp =>
    match challenge_of resp with
    | Some challenge =>
      r ← udpRoundTrip fuel (buildA2SInfoRequest challenge) raddr timeout;
      match r with
      | Err e => Ret (Err (wrapf "A2S_INFO (after challenge): " e))
      | Ok resp => Ret (parseA2SInfo resp)
      end
    | None => Ret (parseA2SInfo resp)
    end
  end.

Definition queryA2SInfo (fuel : nat) (addr : string) (timeout : Duration) : prog SidecarE (result A2SInfo) :=
  r ← ask (ResolveUDPAddr addr);
  match r with
  | Err e => Ret (Err (wrapf ("resolving " +:+ addr +:+ ": ") e))
  | Ok raddr =>
    r ← ask ListenPacket;
    match r with
    | Err e => Ret (Err (wrapf "opening UDP socket: " e))
    | Ok _ =>
      r ← exchange fuel raddr timeout;
      _ ← ask CloseConn;
      Ret r
    end
  end.

(** ** Gauges, status patch, scrape *)

Record metrics := MkMetrics {
  serverUp : GaugeVec; activePlayers : GaugeVec; maxPlayers : GaugeVec; serverInfo : GaugeVec
}.
Definition newMetrics : metrics := MkMetrics gauge_empty gauge_empty gauge_empty gauge_empty.

Definition set_players (players : Z) (gameVersion : string) (server : EnshroudedServer) : EnshroudedServer :=
  let st := es_Status server in
  set_es_status (MkEnshroudedServerStatus (st_Phase st) (st_ReadyReplicas st) players gameVersion
    (st_UpdateDeferred st) (st_Conditions st)) server.

Definition patchServerStatus (ns name : string) (players : Z) (gameVersion : string) : prog SidecarE unit :=
  r ← ask (GetServer (NN ns name));
  match r with
  | Err _ => Ret ()
  | Ok server =>
    if bool_decide (st_ActivePlayers (es_Status server) = players)
       && bool_decide (st_GameVersion (es_Status server) = gameVersion)
    then Ret ()
    else _ ← ask (PatchStatus server (set_players players gameVersion server)); Ret ()
  end.

(** What the process keeps between scrapes: the gauges, the readiness flag and
    the two locals of [main]. *)
Record sidecar := MkSidecar {
  sc_metrics : metrics;
  sc_isUp : bool;
  sc_previousInfo : option A2SInfo;
  sc_everUp : bool
}.
Definition initialSidecar : sidecar := MkSidecar newMetrics false None false.

(** [WithLabelValues(l...).Set(v)] in a program: it panics on bad labels. *)
Definition set_gauge (l : list string) (v : Z) (g : GaugeVec) : prog SidecarE GaugeVec :=
  match gauge_set l v g with
  | Some g => Ret g
  | None => Panic "label value is not valid UTF-8"
  end.

(** The condition under which the status is patched; [hasClient] is
    [k8sClient != nil]. *)
Definition may_patch (hasClient : bool) (cfg : config) : bool :=
  hasClient && patchStatusEnabled cfg
  && negb (bool_decide (serverNamespace cfg = "")) && negb (bool_decide (serverName cfg = "")).

Definition scrapeFailed (hasClient : bool) (cfg : config) (s : sidecar) : prog SidecarE sidecar :=
  let m := sc_metrics s in
  up ← set_gauge [serverName cfg] 0 (serverUp m);
  ap ← set_gauge [serverName cfg] 0 (activePlayers m);
  _ ← (if may_patch hasClient cfg
       then patchServerStatus (serverNamespace cfg) (serverName cfg) 0 "" else Ret ());
  Ret (MkSidecar (MkMetrics up ap (maxPlayers m) (serverInfo m)) false None (sc_everUp s)).

(** The update of [serverInfo]: only when map or version changed. *)
Definition updateInfo (cfg : config) (previousInfo : option A2SInfo) (info : A2SInfo) (g : GaugeVec)
    : prog SidecarE GaugeVec :=
  match previousInfo with
  | None => set_gauge [serverName cfg; info_MapName info; info_Version info] 1 g
  | Some p =>
    if bool_decide (info_MapName p = info_MapName info) && bool_decide (info_Version p = info_Version info)
    then Ret g
    else set_gauge [serverName cfg; info_MapName info; info_Version info] 1
           (gauge_delete [serverName cfg; info_MapName p; info_Version p] g)
  end.

Definition scrapeSucceeded (hasClient : bool) (cfg : config) (s : sidecar) (info : A2SInfo)
    : prog SidecarE sidecar :=
  let m := sc_metrics s in
  up ← set_gauge [serverName cfg] 1 (serverUp m);
  ap ← set_gauge [serverName cfg] (info_Players info) (activePlayers m);
  mp ← set_gauge [serverName cfg] (info_MaxPlayers info) (maxPlayers m);
  si ← updateInfo cfg (sc_previousInfo s) info (serverInfo m);
  _ ← (if may_patch hasClient cfg
       then patchServerStatus (serverNamespace cfg) (serverName cfg) (info_Players info) (info_Version info)
       else Ret ());
  Ret (MkSidecar (MkMetrics up ap mp si) true (Some info) true).

Definition scrape (fuel : nat) (hasClient : bool) (cfg : config) (s : sidecar) : prog SidecarE sidecar :=
  let addr := queryHost cfg +:+ ":" +:+ itoa (queryPort cfg) in
  r ← queryA2SInfo fuel addr (3 * second);
  match r with
  | Err _ => scrapeFailed hasClient cfg s
  | Ok info => scrapeSucceeded hasClient cfg s info
  end.

(** [n] ticks of the loop of [main]. *)
Fixpoint scrapeLoop (n fuel : nat) (hasClient : bool) (cfg : config) (s : sidecar) : prog SidecarE sidecar :=
  match n with
  | O => Ret s
  | S n => s ← scrape fuel hasClient cfg s; scrapeLoop n fuel hasClient cfg s
  end.

(** [makeReadyzHandler]: the HTTP status. *)
Definition readyz (s : sidecar) : Z := if sc_isUp s then 200 else 503.
End Sidecar.
