(* ===== verification/Cron.v ===== *)
(** * Maintenance windows

    The cron-style matcher of [internal/controller/enshroudedserver_controller.go]:
    [inWindow], [splitFields], [matchCronField], [splitByComma], [matchRange]
    and [atoi], followed by an abstract syntax of windows and the theorem that
    the matcher computes its meaning on every printed window. *)
From S2P Require Import Prelude GoStrings GoTime.
From Stdlib Require Import Ascii.
Local Open Scope Z_scope.

(** ** The code *)

Module Cron.

(** Loop of [splitFields]: [fields] and [cur] are the two locals. *)
Fixpoint splitFields_loop (rs : list Z) (fields : list string) (cur : string) : list string :=
  match rs with
  | [] => if decide (cur = "") then fields else fields ++ [cur]
  | c :: rs =>
    if (c =? 32) || (c =? 9) then
      if decide (cur = "") then splitFields_loop rs fields cur
      else splitFields_loop rs (fields ++ [cur]) ""
    else splitFields_loop rs fields (cur +:+ encode_rune c)
  end.
Definition splitFields (s : string) : list string := splitFields_loop (runes s) [] "".

Fixpoint splitByComma_loop (rs : list Z) (out : list string) (cur : string) : list string :=
  match rs with
  | [] => out ++ [cur]
  | c :: rs =>
    if c =? 44 then splitByComma_loop rs (out ++ [cur]) ""
    else splitByComma_loop rs out (cur +:+ encode_rune c)
  end.
Definition splitByComma (s : string) : list string := splitByComma_loop (runes s) [] "".

(** [n = n*10 + int(c-'0')] on [int], which is 64 bits wide; other characters
    are skipped. *)
Definition atoi_step (n : Z) (c : Z) : Z :=
  if in_range 48 57 c then wrap64 (wrap64 (n * 10) + (c - 48)) else n.
Definition atoi (s : string) : Z := foldl atoi_step 0 (runes s).

(** The first offset at which [range] meets a ['-']. *)
Fixpoint dash_offset (l : list (nat * Z)) : option nat :=
  match l with
  | [] => None
  | (i, c) :: l => if c =? 45 then Some i else dash_offset l
  end.

Definition matchRange (part : string) (value : Z) : bool :=
  match dash_offset (string_range part) with
  | Some i =>
    let lo := atoi (str_take i part) in
    let hi := atoi (str_drop (S i) part) in
    (lo <=? value) && (value <=? hi)
  | None => atoi part =? value
  end.

Fixpoint matchParts (parts : list string) (value : Z) : bool :=
  match parts with
  | [] => false
  | part :: parts => if matchRange part value then true else matchParts parts value
  end.
Definition matchCronField (field : string) (value : Z) : bool :=
  if decide (field = "*") then true else matchParts (splitByComma field) value.

(** Number of bytes before the first [' '] (or the end). *)
Fixpoint scan_nonspace (s : string) : nat :=
  match s with
  | "" => 0
  | String c s => if Ascii.eqb c " " then 0 else S (scan_nonspace s)
  end.

Section InWindow.
Context {TZ : TzDatabase}.

Definition strip_tz (expr : string) : Location * string :=
  if bool_decide (3 < String.length expr)%nat && bool_decide (str_take 3 expr = "TZ=") then
    let end_ := (3 + scan_nonspace (str_drop 3 expr))%nat in
    let tzName := str_take (end_ - 3) (str_drop 3 expr) in
    let loc := match LoadLocation tzName with Some l => l | None => UTC end in
    let rest := if bool_decide (end_ < String.length expr)%nat then str_drop (S end_) expr else expr in
    (loc, rest)
  else (UTC, expr).

Definition inWindow (t : Time) (expr : string) : bool :=
  let '(loc, rest) := strip_tz expr in
  match splitFields rest with
  | [_; hour; _; _; dow] =>
    if negb (matchCronField hour (hour_in loc t)) then false
    else if negb (matchCronField dow (weekday_in loc t)) then false
    else true
  | _ => false
  end.

(** The loop of [isInMaintenanceWindow] at the instant [now] it read. *)
Fixpoint anyWindow (now : Time) (windows : list string) : bool :=
  match windows with
  | [] => false
  | w :: windows => if inWindow now w then true else anyWindow now windows
  end.
End InWindow.

(** ** Characterisation of the tokenizers *)

Definition is_blank (c : Z) : bool := (c =? 32) || (c =? 9).

Lemma splitFields_loop_token tok rest fields cur :
  Forall (λ c, is_blank c = false) tok →
  splitFields_loop (tok ++ rest) fields cur
  = splitFields_loop rest fields (cur +:+ encode_runes tok).
Proof.
  intros H. revert cur. induction H as [|c tok Hc _ IH]; intros cur.
  { cbn. by rewrite str_app_nil_r. }
  cbn [app splitFields_loop]. unfold is_blank in Hc. rewrite Hc, IH.
  cbn [encode_runes]. by rewrite str_app_assoc.
Qed.

Lemma splitByComma_loop_token tok rest out cur :
  Forall (λ c, (c =? 44) = false) tok →
  splitByComma_loop (tok ++ rest) out cur
  = splitByComma_loop rest out (cur +:+ encode_runes tok).
Proof.
  intros H. revert cur. induction H as [|c tok Hc _ IH]; intros cur.
  { cbn. by rewrite str_app_nil_r. }
  cbn [app splitByComma_loop]. rewrite Hc, IH. cbn [encode_runes]. by rewrite str_app_assoc.
Qed.

(** Every field is non-empty and, glued together, the fields are the input
    without its blanks. *)
Lemma splitFields_loop_spec rs fields cur :
  splitFields_loop rs fields cur
  = fields ++ splitFields_loop rs [] cur
  ∧ Forall (λ f, f ≠ "") (splitFields_loop rs [] cur)
  ∧ foldr String.app "" (splitFields_loop rs [] cur)
    = cur +:+ encode_runes (List.filter (λ c, negb (is_blank c)) rs).
Proof.
  revert fields cur. induction rs as [|c rs IH]; intros fields cur;
    cbn [splitFields_loop List.filter].
  { case_decide as E.
    - subst. rewrite app_nil_r. repeat split. constructor.
    - repeat split. by repeat constructor. }
  unfold is_blank at 1. destruct ((c =? 32) || (c =? 9)) eqn:Hc; cbn [negb].
  - case_decide as E.
    + subst. apply IH.
    + destruct (IH (fields ++ [cur]) "") as [-> (H2 & H3)].
      destruct (IH [cur] "") as [H1' _]. rewrite (app_nil_l [cur]), H1'.
      rewrite <- app_assoc. repeat split; [by constructor|].
      cbn [app foldr]. by rewrite H3.
  - destruct (IH fields (cur +:+ encode_rune c)) as (H1 & H2 & H3).
    rewrite H1, H3. repeat split; [done|]. cbn [encode_runes]. by rewrite str_app_assoc.
Qed.

(** ** Numbers *)

Lemma dec_foldl_ge l n :
  forallb is_digit l = true → 0 ≤ n → n ≤ foldl dec_step n l.
Proof.
  revert n. induction l as [|c l IH]; intros n; cbn [forallb foldl]; [lia|].
  rewrite andb_true_iff. intros [Hc Hl] Hn. unfold is_digit in Hc. apply in_range_true in Hc.
  transitivity (dec_step n c); [unfold dec_step; lia|].
  apply IH; [done|]. unfold dec_step. lia.
Qed.

Lemma atoi_foldl_digits l n :
  forallb is_digit l = true → 0 ≤ n → foldl dec_step n l ≤ 9223372036854775807 →
  foldl atoi_step n (bval <$> l) = foldl dec_step n l.
Proof.
  revert n. induction l as [|c l IH]; intros n; cbn [forallb foldl fmap list_fmap]; [done|].
  rewrite andb_true_iff. intros [Hc Hl] Hn Hmax.
  unfold is_digit in Hc. pose proof Hc as Hc'. apply in_range_true in Hc.
  assert (0 ≤ dec_step n c) by (unfold dec_step; lia).
  pose proof (dec_foldl_ge l (dec_step n c) Hl H) as Hge.
  assert (atoi_step n (bval c) = dec_step n c) as ->; [|by apply IH].
  assert (dec_step n c ≤ 9223372036854775807) as Hb by lia.
  unfold atoi_step. rewrite Hc'. unfold dec_step in *.
  rewrite !wrap64_id; [done|..]; rewrite ?wrap64_id; width.
Qed.

Lemma atoi_itoa z : 0 ≤ z ≤ 9223372036854775807 → atoi (itoa z) = z.
Proof.
  intros Hz. destruct (itoa_spec z) as [Hv Hd]; [lia|].
  unfold atoi. rewrite runes_ascii by by apply all_digits_ascii.
  rewrite atoi_foldl_digits; [done|done|lia|]. unfold dec_value in Hv. lia.
Qed.

Lemma dash_offset_digits p i s :
  all_digits p = true →
  dash_offset (range_go 0 i (p +:+ s)) = dash_offset (range_go 0 (i + String.length p) s).
Proof.
  intros Hp. rewrite range_go_ascii_app by by apply all_digits_ascii.
  unfold all_digits in Hp. generalize (range_go 0 (i + String.length p) s) as rest.
  revert i. clear s. induction (bytes p) as [|c l IH]; intros i rest; [done|].
  cbn [forallb] in Hp. apply andb_true_iff in Hp as [Hc Hl].
  unfold is_digit in Hc. apply in_range_true in Hc.
  cbn [imap app dash_offset]. destruct (Z.eqb_spec (bval c) 45); [lia|].
  specialize (IH Hl (S i) rest). rewrite <- IH. f_equal. f_equal.
  apply imap_ext. intros k d _. cbn. f_equal. lia.
Qed.

(** ** Abstract windows and their meaning *)

Inductive cron_item := CSingle (n : Z) | CRange (lo hi : Z).
Inductive cron_field := CStar | CItems (i : cron_item) (l : list cron_item).

Definition item_sem (i : cron_item) (v : Z) : Prop :=
  match i with CSingle n => v = n | CRange lo hi => lo ≤ v ≤ hi end.
Definition field_sem (f : cron_field) (v : Z) : Prop :=
  match f with CStar => True | CItems i l => Exists (λ i, item_sem i v) (i :: l) end.

Definition print_item (i : cron_item) : string :=
  match i with CSingle n => itoa n | CRange lo hi => itoa lo +:+ "-" +:+ itoa hi end.
Definition print_field (f : cron_field) : string :=
  match f with CStar => "*" | CItems i l => join "," (print_item <$> i :: l) end.

Definition int_literal (n : Z) : Prop := 0 ≤ n ≤ 9223372036854775807.
Definition item_wf (i : cron_item) : Prop :=
  match i with CSingle n => int_literal n | CRange lo hi => int_literal lo ∧ int_literal hi end.
Definition field_wf (f : cron_field) : Prop :=
  match f with CStar => True | CItems i l => Forall item_wf (i :: l) end.

Lemma matchRange_print i v :
  item_wf i → matchRange (print_item i) v = true ↔ item_sem i v.
Proof.
  destruct i as [n|lo hi]; cbn [item_wf item_sem print_item].
  - intros Hn. unfold matchRange, string_range.
    destruct (itoa_spec n) as [_ Hd]; [unfold int_literal in Hn; lia|].
    pose proof (dash_offset_digits (itoa n) 0 "" Hd) as Hx. rewrite str_app_nil_r in Hx.
    rewrite Hx. cbn. rewrite atoi_itoa by done. rewrite Z.eqb_eq. lia.
  - intros [Hlo Hhi]. unfold matchRange, string_range.
    destruct (itoa_spec lo) as [_ Hd]; [unfold int_literal in Hlo; lia|].
    rewrite dash_offset_digits by done. cbn [plus].
    change ("-" +:+ itoa hi) with (String "-" (itoa hi)).
    assert (∀ k r, dash_offset (range_go 0 k (String "-" r)) = Some k) as -> by reflexivity.
    cbv zeta.
    assert (str_take (String.length (itoa lo)) (itoa lo +:+ String "-" (itoa hi)) = itoa lo) as ->
      by apply str_take_app.
    assert (str_drop (S (String.length (itoa lo))) (itoa lo +:+ String "-" (itoa hi)) = itoa hi) as ->.
    { rewrite <- (str_drop_app (itoa lo +:+ "-") (itoa hi)) at 2.
      rewrite str_length_app, Nat.add_comm, <- str_app_assoc. done. }
    rewrite !atoi_itoa by done. rewrite andb_true_iff, !Z.leb_le. done.
Qed.

Lemma splitByComma_join toks :
  toks ≠ [] → Forall (λ s, is_ascii s = true ∧ Forall (λ c, (c =? 44) = false) (bval <$> bytes s)) toks →
  splitByComma (join "," toks) = toks.
Proof.
  intros Hne Htoks. unfold splitByComma.
  enough (∀ out, splitByComma_loop (runes (join "," toks)) out "" = out ++ toks) as ->; [done|].
  induction toks as [|t toks IH]; [done|]. intros out.
  inversion_clear Htoks as [|? ? [Ha Hc] Hrest].
  destruct toks as [|t' toks].
  - cbn [join]. rewrite runes_ascii by done. rewrite <- (app_nil_r (bval <$> bytes t)).
    rewrite splitByComma_loop_token by done. cbn [splitByComma_loop].
    unfold String.app at 1. cbn [String.append]. by rewrite encode_runes_ascii.
  - cbn [join]. rewrite runes_app_valid by by apply valid_utf8_ascii.
    rewrite runes_app_valid by done. rewrite (runes_ascii t) by done.
    rewrite splitByComma_loop_token by done.
    change (runes ",") with [44]. cbn [app splitByComma_loop]. cbn [Z.eqb Pos.eqb].
    rewrite IH by done. rewrite <- app_assoc. cbn [app].
    by rewrite encode_runes_ascii.
Qed.

Lemma print_item_token i :
  item_wf i →
  is_ascii (print_item i) = true ∧
  Forall (λ c, c = 45 ∨ 48 ≤ c ≤ 57) (bval <$> bytes (print_item i)) ∧ print_item i ≠ "".
Proof.
  assert (∀ n, int_literal n → is_ascii (itoa n) = true ∧
    Forall (λ c, c = 45 ∨ 48 ≤ c ≤ 57) (bval <$> bytes (itoa n))) as Hn.
  { intros n Hn. destruct (itoa_spec n) as [_ Hd]; [unfold int_literal in Hn; lia|].
    split; [by apply all_digits_ascii|]. unfold all_digits in Hd.
    rewrite forallb_forall in Hd. apply Forall_fmap, Forall_forall.
    intros c Hc%list_elem_of_In%Hd. right. by apply in_range_true. }
  destruct i as [n|lo hi]; cbn [item_wf print_item].
  - intros H%Hn. destruct H. split_and!; [done..|apply itoa_nonempty].
  - intros [[??]%Hn [??]%Hn]. split_and!.
    + rewrite !is_ascii_app. by rewrite H, H1.
    + rewrite !bytes_app, !fmap_app, !Forall_app. split_and!; [done| |done].
      cbn. constructor; [by left|constructor].
    + intros Hx%(f_equal String.length). rewrite !str_length_app in Hx. cbn in Hx. lia.
Qed.

(** [matchCronField] computes the meaning of every printed field. *)
Lemma matchCronField_print f v :
  field_wf f → matchCronField (print_field f) v = true ↔ field_sem f v.
Proof.
  unfold matchCronField. destruct f as [|i l]; cbn [field_wf field_sem print_field].
  { intros _. by case_decide. }
  intros Hwf. case_decide as Estar.
  { exfalso. assert (Forall (λ c, c = 45 ∨ 48 ≤ c ≤ 57 ∨ c = 44) (bval <$> bytes (join "," (print_item <$> i :: l)))) as Hc.
    { clear Estar. revert i Hwf. induction l as [|j l IH]; intros i Hwf;
        inversion_clear Hwf as [|? ? Hi Hl]; destruct (print_item_token i Hi) as (_ & Hti & _).
      - cbn. eapply Forall_impl; [apply Hti|]. cbn. lia.
      - change (join "," (print_item <$> i :: j :: l))
          with (print_item i +:+ "," +:+ join "," (print_item <$> j :: l)).
        rewrite !bytes_app, !fmap_app, !Forall_app. split_and!.
        + eapply Forall_impl; [apply Hti|]. cbn. lia.
        + constructor; [by right; right|constructor].
        + by apply IH. }
    rewrite Estar in Hc. apply Forall_inv in Hc. vm_compute in Hc. intuition congruence. }
  rewrite splitByComma_join; [|done|].
  - clear Estar. induction Hwf as [|j l' Hj _ IH]; [cbn; rewrite Exists_nil; done|].
    cbn [fmap list_fmap matchParts]. rewrite Exists_cons, <- IH, <- (matchRange_print j) by done.
    destruct (matchRange _ _); intuition congruence.
  - apply Forall_fmap. eapply Forall_impl; [exact Hwf|]. intros j Hj.
    destruct (print_item_token j Hj) as (Ha & Hd & _). split; [done|].
    eapply Forall_impl; [exact Hd|]. cbn. intros c ?. apply Z.eqb_neq. lia.
Qed.

Definition token_ok (s : string) : Prop :=
  valid_utf8 s = true ∧ s ≠ "" ∧ Forall (λ c, is_blank c = false) (runes s).

(** Fields separated by blanks are read back unchanged. *)
Lemma splitFields_join toks :
  Forall token_ok toks → splitFields (join " " toks) = toks.
Proof.
  intros Htoks. unfold splitFields.
  enough (∀ fs, splitFields_loop (runes (join " " toks)) fs "" = fs ++ toks) as ->; [done|].
  induction Htoks as [|t toks (Hv & Hne & Hb) Hrest IH]; intros fs.
  { cbn. by rewrite app_nil_r. }
  assert (encode_runes (runes t) = t) as He by by apply valid_utf8_iff.
  destruct toks as [|t' toks].
  - cbn [join]. rewrite <- (app_nil_r (runes t)).
    rewrite splitFields_loop_token by done. cbn [splitFields_loop].
    unfold String.app at 1 2. cbn [String.append]. rewrite He. by case_decide.
  - cbn [join]. rewrite runes_app_valid by done. rewrite runes_app_valid by done.
    rewrite splitFields_loop_token by done.
    change (runes " ") with [32]. cbn [app splitFields_loop]. cbn [Z.eqb Pos.eqb orb].
    unfold String.app at 1 2. cbn [String.append]. rewrite He.
    case_decide; [done|]. rewrite IH, <- app_assoc. done.
Qed.

Record window := Window {
  w_tz : option string;
  w_min : string; w_hour : cron_field; w_dom : string; w_mon : string; w_dow : cron_field
}.

Definition print_cron (w : window) : string :=
  join " " [w_min w; print_field (w_hour w); w_dom w; w_mon w; print_field (w_dow w)].
Definition print_window (w : window) : string :=
  match w_tz w with
  | Some tz => "TZ=" +:+ tz +:+ " " +:+ print_cron w
  | None => print_cron w
  end.

Definition window_wf (w : window) : Prop :=
  token_ok (w_min w) ∧ token_ok (w_dom w) ∧ token_ok (w_mon w)
  ∧ field_wf (w_hour w) ∧ field_wf (w_dow w)
  ∧ match w_tz w with
    | Some tz => Forall (λ c, c ≠ " "%char) (bytes tz)
    | None => has_prefix "TZ=" (w_min w) = false
    end.

Section Refinement.
Context {TZ : TzDatabase}.

(** The location a window is evaluated in: UTC when no zone is named or the
    named one is unknown. *)
Definition window_loc (w : window) : Location :=
  match w_tz w with Some tz => default UTC (LoadLocation tz) | None => UTC end.

(** What a window means: the hour and the weekday of the instant, on the wall
    clock of its location, are among those the two fields list. *)
Definition window_sem (t : Time) (w : window) : Prop :=
  field_sem (w_hour w) (hour_in (window_loc w) t)
  ∧ field_sem (w_dow w) (weekday_in (window_loc w) t).

Lemma print_field_token f : field_wf f → token_ok (print_field f).
Proof.
  destruct f as [|i l]; cbn [field_wf print_field].
  { intros _. split_and!; [done|done|]. constructor; [done|constructor]. }
  revert i. induction l as [|j l IH]; intros i Hwf; inversion_clear Hwf as [|? ? Hi Hl];
    destruct (print_item_token i Hi) as (Ha & Hd & Hne);
    assert (token_ok (print_item i)) as (Hv & _ & Hb) by
      (split_and!; [by apply valid_utf8_ascii|done|]; rewrite runes_ascii by done;
       eapply Forall_impl; [exact Hd|]; cbn; intros c ?; unfold is_blank;
       destruct (Z.eqb_spec c 32), (Z.eqb_spec c 9); try done; lia).
  - by split_and!.
  - destruct (IH j Hl) as (Hv' & Hne' & Hb').
    change (join "," (print_item <$> i :: j :: l))
      with (print_item i +:+ "," +:+ join "," (print_item <$> j :: l)).
    split_and!.
    + rewrite valid_utf8_iff, !runes_app_valid by done.
      rewrite valid_utf8_iff in Hv, Hv'. by rewrite !encode_runes_app, Hv, Hv'.
    + intros Hx%(f_equal String.length). rewrite !str_length_app in Hx. cbn in Hx. lia.
    + rewrite !runes_app_valid by done. rewrite !Forall_app. split_and!; [done| |done].
      by repeat constructor.
Qed.

Lemma splitFields_print_cron w :
  window_wf w →
  splitFields (print_cron w)
  = [w_min w; print_field (w_hour w); w_dom w; w_mon w; print_field (w_dow w)].
Proof.
  intros (? & ? & ? & ? & ? & _). apply splitFields_join.
  apply Forall_cons; split; [done|]. apply Forall_cons; split; [by apply print_field_token|].
  apply Forall_cons; split; [done|]. apply Forall_cons; split; [done|].
  apply Forall_singleton. by apply print_field_token.
Qed.

Lemma scan_nonspace_app tz s :
  Forall (λ c, c ≠ " "%char) (bytes tz) →
  scan_nonspace (tz +:+ String " " s) = String.length tz.
Proof.
  induction tz as [|c tz IH]; [done|]. rewrite str_app_cons. cbn [bytes scan_nonspace].
  intros [Hc Htz]%Forall_cons. destruct (Ascii.eqb_spec c " "); [done|].
  cbn. by rewrite IH.
Qed.

Lemma strip_tz_print w :
  window_wf w → strip_tz (print_window w) = (window_loc w, print_cron w).
Proof.
  intros (_ & _ & _ & _ & _ & Htz). unfold print_window, window_loc.
  destruct (w_tz w) as [tz|]; unfold strip_tz.
  - rewrite bool_decide_eq_true_2 by (rewrite !str_length_app; cbn; lia).
    rewrite bool_decide_eq_true_2 by done. cbn [andb].
    change (str_drop 3 ("TZ=" +:+ tz +:+ " " +:+ print_cron w))
      with (tz +:+ String " " (print_cron w)).
    rewrite scan_nonspace_app by done.
    replace (3 + String.length tz - 3)%nat with (String.length tz) by lia.
    rewrite str_take_app. cbv zeta.
    rewrite bool_decide_eq_true_2 by (rewrite !str_length_app; cbn; lia).
    f_equal.
    rewrite <- (str_drop_app ("TZ=" +:+ tz +:+ " ") (print_cron w)) at 2.
    rewrite !str_length_app, <- !str_app_assoc. f_equal. cbn. lia.
  - destruct (bool_decide (3 < _)%nat); [cbn [andb]|done].
    rewrite bool_decide_eq_false_2; [done|]. intros Hp.
    assert (has_prefix "TZ=" (w_min w) = true); [|congruence].
    unfold print_cron in Hp. cbn [join] in Hp. revert Hp.
    destruct (w_min w) as [|a [|b [|c m]]]; cbn; intros [= Hx];
      by repeat match goal with H : _ = _ |- _ => progress rewrite ?H end.
Qed.

(** The matcher computes the meaning of every well-formed printed window. *)
Lemma inWindow_print t w :
  window_wf w → inWindow t (print_window w) = true ↔ window_sem t w.
Proof.
  intros Hw. unfold inWindow. rewrite strip_tz_print, splitFields_print_cron by done.
  destruct Hw as (_ & _ & _ & Hh & Hd & _). unfold window_sem.
  rewrite <- (matchCronField_print (w_hour w)), <- (matchCronField_print (w_dow w)) by done.
  destruct (matchCronField (print_field (w_hour w)) _), (matchCronField (print_field (w_dow w)) _);
    cbn; naive_solver.
Qed.

Lemma anyWindow_exists now ws :
  anyWindow now ws = true ↔ Exists (λ w, inWindow now w = true) ws.
Proof.
  induction ws as [|w ws IH]; cbn.
  { rewrite Exists_nil. done. }
  rewrite Exists_cons, <- IH. destruct (inWindow now w); naive_solver.
Qed.
End Refinement.

End Cron.
