(* ===== verification/Windows.v ===== *)
(** * Maintenance windows in the controller

    [isInMaintenanceWindow] reads the clock once, and only when the list of
    windows is not empty. *)
From S2P Require Import Prelude GoTime Platform Api Effects Kube Cron.

Section Windows.
Context {QO : QuantityOps} {TZ : TzDatabase}.

Definition isInMaintenanceWindow (windows : list string) : prog KubeE bool :=
  match windows with
  | [] => Ret false
  | _ => t ← now; Ret (Cron.anyWindow t windows)
  end.

(** A clock reading at which none of the windows is open. *)
Definition closed_at (windows : list string) (t : Time) : Prop := Cron.anyWindow t windows = false.
End Windows.
