(* ===== verification/Builders.v ===== *)
(** * Desired objects

    The pure parts of the controller: the labels, the game-server StatefulSet
    ([buildStatefulSet]), the metrics and S3 sidecar containers, and the other
    objects the reconcilers compare the cluster with.  Every default the source
    applies is applied here in the same place. *)
From S2P Require Import Prelude GoStrings GoTime Platform Api Kube.
Local Open Scope Z_scope.

Definition finalizerName := "enshrouded.enshrouded.io/finalizer".
Definition configSecretKey := "enshrouded_server.json".
Definition configMountPath := "/config".
Definition PullIfNotPresent := "IfNotPresent".
Definition ProtocolUDP := "UDP".
Definition ProtocolTCP := "TCP".

Definition labelsForServer (name : string) : LabelMap :=
  <["app.kubernetes.io/name" := "enshrouded-server"]>
  (<["app.kubernetes.io/instance" := name]>
  (<["app.kubernetes.io/managed-by" := "enshrouded-operator"]> ∅)).

Definition sidecarServiceAccountName (serverName : string) : string := serverName +:+ "-metrics".

(** [if s == "" { s = d }] and [if n == 0 { n = d }]. *)
Definition or_str (s d : string) : string := if decide (s = "") then d else s.
Definition or_int (n d : Z) : Z := if decide (n = 0) then d else n.

Definition plain_env (n v : string) : EnvVar := MkEnvVar n v None.

Section Builders.
Context {QO : QuantityOps}.

(** The defaults repeated at the head of several functions. *)
Definition eff_serverName (s : EnshroudedServer) := or_str (sp_ServerName (es_Spec s)) "Enshrouded Server".
Definition eff_port (s : EnshroudedServer) := or_int (sp_Port (es_Spec s)) 15637.
Definition eff_steamPort (s : EnshroudedServer) := or_int (sp_SteamPort (es_Spec s)) 27015.
Definition eff_serverSlots (s : EnshroudedServer) := or_int (sp_ServerSlots (es_Spec s)) 16.
Definition eff_serverIP (s : EnshroudedServer) := or_str (sp_ServerIP (es_Spec s)) "0.0.0.0".
Definition eff_metricsPort (s : EnshroudedServer) := or_int (ms_MetricsPort (sp_MetricsSidecar (es_Spec s))) 9090.

Definition pvc_name (server : EnshroudedServer) : string := es_Name server +:+ "-savegame".
Definition config_secret_name (server : EnshroudedServer) : string := es_Name server +:+ "-config".

(** [metricsSidecarContainer]: nil unless the sidecar is enabled. *)
Definition metricsSidecarContainer (server : EnshroudedServer) (queryPort : Z) : option Container :=
  let spec := sp_MetricsSidecar (es_Spec server) in
  if negb (ms_Enabled spec) then None
  else
    let image := or_str (ms_Image spec) "ghcr.io/payback159/enshrouded-metrics-sidecar:latest" in
    let metricsPort := or_int (ms_MetricsPort spec) 9090 in
    let scrapeInterval := or_int (ms_ScrapeIntervalSeconds spec) 15 in
    Some {|
      c_Name := "metrics-sidecar";
      c_Image := image;
      c_ImagePullPolicy := PullIfNotPresent;
      c_Command := [];
      c_Env := [
        plain_env "QUERY_HOST" "127.0.0.1";
        plain_env "QUERY_PORT" (itoa queryPort);
        plain_env "METRICS_ADDR" (":" +:+ itoa metricsPort);
        plain_env "SCRAPE_INTERVAL" (itoa scrapeInterval +:+ "s");
        MkEnvVar "SERVER_NAMESPACE" "" (Some (MkEnvVarSource None (Some "metadata.namespace")));
        plain_env "SERVER_NAME" (es_Name server)
      ];
      c_EnvFromSecrets := [];
      c_Ports := [MkContainerPort "metrics" metricsPort ProtocolTCP];
      c_Resources := no_resources;
      c_VolumeMounts := [];
      c_ReadinessProbe := None;
      c_LivenessProbe := Some (MkProbe "/healthz" (FromInt metricsPort) 10 30 0 0);
      c_SecurityContext := Some (MkSecurityContext (Some false) (Some true) (Some true) ["ALL"])
    |}.

(** [s3SidecarContainer]: nil unless an S3 backup is configured. *)
Definition s3SidecarContainer (server : EnshroudedServer) : option Container :=
  match bk_S3 (sp_Backup (es_Spec server)) with
  | None => None
  | Some s3 =>
    let image := or_str (s3_Image s3) "rclone/rclone:latest" in
    let syncCmd := "while true; do rclone sync /savegame " +:+ s3_BucketURL s3
      +:+ " --s3-endpoint=$AWS_ENDPOINT_URL; sleep 1800; done" in
    Some {|
      c_Name := "s3-backup";
      c_Image := image;
      c_ImagePullPolicy := PullIfNotPresent;
      c_Command := ["/bin/sh"; "-c"; syncCmd];
      c_Env := [];
      c_EnvFromSecrets := [s3_CredentialsSecretRef s3];
      c_Ports := [];
      c_Resources := no_resources;
      c_VolumeMounts := [MkVolumeMount "savegame" "/savegame" true];
      c_ReadinessProbe := None;
      c_LivenessProbe := None;
      c_SecurityContext := Some (MkSecurityContext (Some false) (Some true) None ["ALL"])
    |}
  end.

Definition user_groups_mode (server : EnshroudedServer) : bool :=
  negb (bool_decide (sp_UserGroups (es_Spec server) = [])) .

Definition buildStatefulSet (server : EnshroudedServer) (annotationHash : string) : StatefulSet :=
  let spec := es_Spec server in
  let serverName := eff_serverName server in
  let port := eff_port server in
  let steamPort := eff_steamPort server in
  let serverSlots := eff_serverSlots server in
  let serverIP := eff_serverIP server in
  let imageRepo := or_str (img_Repository (sp_Image spec)) "ghcr.io/payback159/enshrouded-server" in
  let imageTag := or_str (img_Tag (sp_Image spec)) "latest" in
  let pullPolicy := or_str (img_PullPolicy (sp_Image spec)) PullIfNotPresent in
  let image := imageRepo +:+ ":" +:+ imageTag in
  let uid := 10000 in
  let gid := 10000 in
  let podAnnotations : LabelMap :=
    if decide (annotationHash = "") then ∅
    else <["enshrouded.enshrouded.io/password-secret-hash" := annotationHash]> ∅ in
  let volumes := [MkVolume "savegame" (VolumePVC (pvc_name server))] in
  let volumeMounts := [MkVolumeMount "savegame" "/home/steam/enshrouded/savegame" false] in
  let '(env, volumes, volumeMounts) :=
    if user_groups_mode server then
      (* EXTERNAL_CONFIG mode *)
      let configFilePath := configMountPath +:+ "/" +:+ configSecretKey in
      ([plain_env "EXTERNAL_CONFIG" "1"; plain_env "ENSHROUDED_CONFIG" configFilePath],
       volumes ++ [MkVolume "server-config" (VolumeSecret (config_secret_name server))],
       volumeMounts ++ [MkVolumeMount "server-config" configMountPath true])
    else
      (* simple ENV-var mode *)
      let env := [plain_env "SERVER_NAME" serverName; plain_env "PORT" (itoa port);
                  plain_env "SERVER_SLOTS" (itoa serverSlots); plain_env "SERVER_IP" serverIP] in
      let env := match sp_ServerPasswordSecretRef spec with
        | Some ref => env ++ [MkEnvVar "SERVER_PASSWORD" "" (Some (MkEnvVarSource (Some ref) None))]
        | None => env
        end in
      (env, volumes, volumeMounts) in
  let gameServerReadinessProbe :=
    if ms_Enabled (sp_MetricsSidecar spec)
    then Some (MkProbe "/readyz" (FromInt (eff_metricsPort server)) 60 15 3 1)
    else None in
  let containers := [{|
      c_Name := "enshrouded-server";
      c_Image := image;
      c_ImagePullPolicy := pullPolicy;
      c_Command := [];
      c_Env := env;
      c_EnvFromSecrets := [];
      c_Ports := [MkContainerPort "query" port ProtocolUDP; MkContainerPort "steam" steamPort ProtocolUDP];
      c_Resources := sp_Resources spec;
      c_VolumeMounts := volumeMounts;
      c_ReadinessProbe := gameServerReadinessProbe;
      c_LivenessProbe := None;
      c_SecurityContext := None
    |}] in
  let containers := match metricsSidecarContainer server port with
    | Some c => containers ++ [c]
    | None => containers
    end in
  let serviceAccountName :=
    if ms_Enabled (sp_MetricsSidecar spec) then sidecarServiceAccountName (es_Name server) else "" in
  {| sts_Meta := new_meta (es_Name server) (es_Namespace server) (labelsForServer (es_Name server));
     sts_Spec := {|
       sts_Replicas := Some 1;
       sts_ServiceName := es_Name server;
       sts_Selector := labelsForServer (es_Name server);
       sts_Template := {|
         pt_Labels := labelsForServer (es_Name server);
         pt_Annotations := podAnnotations;
         pt_Spec := {|
           ps_ServiceAccountName := serviceAccountName;
           ps_SecurityContext := Some (MkPodSecurityContext (Some uid) (Some gid) (Some gid));
           ps_Containers := containers;
           ps_Volumes := volumes
         |}
       |}
     |};
     sts_Status := MkStatefulSetStatus 0 "" "" |}.

Lemma buildStatefulSet_meta server h :
  sts_Meta (buildStatefulSet server h)
  = new_meta (es_Name server) (es_Namespace server) (labelsForServer (es_Name server)).
Proof. unfold buildStatefulSet. by destruct (if user_groups_mode server then _ else _) as [[??]?]. Qed.

(** [desired] of reconcileService. *)
Definition desiredService (server : EnshroudedServer) : Service :=
  {| svc_Meta := new_meta (es_Name server) (es_Namespace server) (labelsForServer (es_Name server));
     svc_Type := "LoadBalancer";
     svc_Selector := labelsForServer (es_Name server);
     svc_Ports := [MkServicePort "query" (eff_port server) ProtocolUDP;
                   MkServicePort "steam" (eff_steamPort server) ProtocolUDP];
     svc_ClusterIP := "" |}.

(** [desired] of reconcileNetworkPolicy. *)
Definition desiredNetworkPolicy (server : EnshroudedServer) : NetworkPolicy :=
  let queryPortInt := FromInt (eff_port server) in
  let steamPortInt := FromInt (eff_steamPort server) in
  let dnsPort := FromInt 53 in
  let httpsPort := FromInt 443 in
  let udp := MkNetworkPolicyPort ProtocolUDP in
  let tcp := MkNetworkPolicyPort ProtocolTCP in
  {| np_Meta := new_meta (es_Name server +:+ "-netpol") (es_Namespace server) (labelsForServer (es_Name server));
     np_Spec := {|
       np_PodSelector := labelsForServer (es_Name server);
       np_PolicyTypes := ["Ingress"; "Egress"];
       np_Ingress :=
         let rules := [MkIngressRule [udp queryPortInt; udp steamPortInt] []] in
         if ms_Enabled (sp_MetricsSidecar (es_Spec server))
         then rules ++ [MkIngressRule [tcp (FromInt (eff_metricsPort server))] []]
         else rules;
       np_Egress := [
         MkEgressRule [udp dnsPort; tcp dnsPort] [];
         MkEgressRule [tcp httpsPort]
           [MkNetworkPolicyPeer (Some (MkIPBlock "0.0.0.0/0" ["169.254.0.0/16"]))];
         MkEgressRule [udp queryPortInt; udp steamPortInt] []
       ]
     |} |}.

(** [desired] of reconcilePDB for the given [maxUnavailable]. *)
Definition desiredPDB (server : EnshroudedServer) (maxUnavailable : IntOrString) : PodDisruptionBudget :=
  {| pdb_Meta := new_meta (es_Name server) (es_Namespace server) (labelsForServer (es_Name server));
     pdb_MaxUnavailable := Some maxUnavailable;
     pdb_Selector := labelsForServer (es_Name server) |}.

(** [desired] of the three sidecar RBAC reconcilers. *)
Definition sidecar_meta (server : EnshroudedServer) : ObjectMeta :=
  new_meta (sidecarServiceAccountName (es_Name server)) (es_Namespace server) (labelsForServer (es_Name server)).
Definition desiredServiceAccount (server : EnshroudedServer) : ServiceAccount :=
  MkServiceAccount (sidecar_meta server).
Definition desiredRole (server : EnshroudedServer) : Role :=
  {| role_Meta := sidecar_meta server;
     role_Rules := [
       MkPolicyRule [GroupVersion_Group] ["enshroudedservers"] ["get"];
       MkPolicyRule [GroupVersion_Group] ["enshroudedservers/status"] ["get"; "update"; "patch"]
     ] |}.
Definition desiredRoleBinding (server : EnshroudedServer) : RoleBinding :=
  let name := sidecarServiceAccountName (es_Name server) in
  {| rb_Meta := sidecar_meta server;
     rb_Subjects := [MkSubject "ServiceAccount" name (es_Namespace server)];
     rb_RoleRef := MkRoleRef "rbac.authorization.k8s.io" "Role" name |}.

(** [desired] of reconcilePVC for the given size. *)
Definition desiredPVC (server : EnshroudedServer) (storageSize : Quantity) : PersistentVolumeClaim :=
  {| pvc_Meta := new_meta (pvc_name server) (es_Namespace server) (labelsForServer (es_Name server));
     pvc_AccessModes := ["ReadWriteOnce"];
     pvc_Requests := {["storage" := storageSize]};
     pvc_StorageClassName := sto_StorageClassName (sp_Storage (es_Spec server)) |}.
End Builders.
