(* ===== verification/Config.v ===== *)
(** * The generated server configuration

    [buildServerConfigJSON], [reconcileConfigSecret] and [cleanupConfigSecret]
    of the controller: in user-group mode the operator resolves every group
    password, marshals the server configuration to JSON, keeps it in the Secret
    [<server>-config], and hashes it for change detection. *)
From S2P Require Import Prelude GoStrings GoTime GoCodec Platform Api Effects Kube Builders.
Local Open Scope Z_scope.

Record userGroupJSON := MkUserGroupJSON {
  ugj_Name : string;
  ugj_Password : string;
  ugj_CanKickBan : bool;
  ugj_CanAccessInventories : bool;
  ugj_CanEditWorld : bool;
  ugj_CanEditBase : bool;
  ugj_CanExtendBase : bool;
  ugj_ReservedSlots : Z
}.

Record enshroudedConfigJSON := MkEnshroudedConfigJSON {
  cfg_Name : string;
  cfg_SaveDirectory : string;
  cfg_LogDirectory : string;
  cfg_IP : string;
  cfg_QueryPort : Z;
  cfg_SlotCount : Z;
  cfg_UserGroups : list userGroupJSON
}.

(** ** [json.Marshal(cfg)], following the struct tags *)

Definition json_key (k : string) : string := json_string k +:+ ":".
Definition json_bool (b : bool) : string := if b then "true" else "false".

Definition marshal_group (g : userGroupJSON) : string :=
  "{" +:+ json_key "name" +:+ json_string (ugj_Name g) +:+ ","
  +:+ json_key "password" +:+ json_string (ugj_Password g) +:+ ","
  +:+ json_key "canKickBan" +:+ json_bool (ugj_CanKickBan g) +:+ ","
  +:+ json_key "canAccessInventories" +:+ json_bool (ugj_CanAccessInventories g) +:+ ","
  +:+ json_key "canEditWorld" +:+ json_bool (ugj_CanEditWorld g) +:+ ","
  +:+ json_key "canEditBase" +:+ json_bool (ugj_CanEditBase g) +:+ ","
  +:+ json_key "canExtendBase" +:+ json_bool (ugj_CanExtendBase g) +:+ ","
  +:+ json_key "reservedSlots" +:+ itoa (ugj_ReservedSlots g) +:+ "}".

(** Elements of an array after its opening bracket, with the closing one. *)
Fixpoint marshal_rest (gs : list userGroupJSON) : string :=
  match gs with
  | [] => "]"
  | g :: gs => "," +:+ marshal_group g +:+ marshal_rest gs
  end.
Definition marshal_groups (gs : list userGroupJSON) : string :=
  match gs with
  | [] => "[]"
  | g :: gs => "[" +:+ marshal_group g +:+ marshal_rest gs
  end.

Definition marshal_config (c : enshroudedConfigJSON) : string :=
  "{" +:+ json_key "name" +:+ json_string (cfg_Name c) +:+ ","
  +:+ json_key "saveDirectory" +:+ json_string (cfg_SaveDirectory c) +:+ ","
  +:+ json_key "logDirectory" +:+ json_string (cfg_LogDirectory c) +:+ ","
  +:+ json_key "ip" +:+ json_string (cfg_IP c) +:+ ","
  +:+ json_key "queryPort" +:+ itoa (cfg_QueryPort c) +:+ ","
  +:+ json_key "slotCount" +:+ itoa (cfg_SlotCount c) +:+ ","
  +:+ json_key "userGroups" +:+ marshal_groups (cfg_UserGroups c) +:+ "}".

(** ** The reconcilers *)

Section Config.
Context {QO : QuantityOps} {UT : UnicodeTables} {MO : MetaOps}.

Definition group_json (g : UserGroup) (password : string) : userGroupJSON := {|
  ugj_Name := ug_Name g;
  ugj_Password := password;
  ugj_CanKickBan := ug_CanKickBan g;
  ugj_CanAccessInventories := ug_CanAccessInventories g;
  ugj_CanEditWorld := ug_CanEditWorld g;
  ugj_CanEditBase := ug_CanEditBase g;
  ugj_CanExtendBase := ug_CanExtendBase g;
  ugj_ReservedSlots := ug_ReservedSlots g
|}.

(** [secret.Data[key]] as a string: a missing key reads as the empty string. *)
Definition secret_value (secret : Secret) (key : string) : string :=
  default "" (sec_Data secret !! key).

(** The loop over [server.Spec.UserGroups]; [groups] is the slice built so far. *)
Fixpoint resolveGroups (ns : string) (gs : list UserGroup) (groups : list userGroupJSON)
    : prog KubeE (result (list userGroupJSON)) :=
  match gs with
  | [] => Ret (Ok groups)
  | g :: gs =>
    match ug_PasswordSecretRef g with
    | None => resolveGroups ns gs (groups ++ [group_json g ""])
    | Some ref =>
      r ← get KSecret (NN ns (sks_Name ref));
      match r with
      | Err e =>
        Ret (Err (wrapf ("UserGroup " +:+ quote (ug_Name g) +:+ ": Secret "
                         +:+ quote (sks_Name ref) +:+ ": ") e))
      | Ok secret =>
        resolveGroups ns gs (groups ++ [group_json g (secret_value secret (sks_Key ref))])
      end
    end
  end.

Definition server_config (server : EnshroudedServer) (groups : list userGroupJSON) : enshroudedConfigJSON := {|
  cfg_Name := eff_serverName server;
  cfg_SaveDirectory := "./savegame";
  cfg_LogDirectory := "./logs";
  cfg_IP := eff_serverIP server;
  cfg_QueryPort := eff_port server;
  cfg_SlotCount := eff_serverSlots server;
  cfg_UserGroups := groups
|}.

(** Returns the JSON and its hash; marshalling this struct cannot fail. *)
Definition buildServerConfigJSON (server : EnshroudedServer) : prog KubeE (result (string * string)) :=
  r ← resolveGroups (es_Namespace server) (sp_UserGroups (es_Spec server)) [];
  match r with
  | Err e => Ret (Err e)
  | Ok groups =>
    let data := marshal_config (server_config server groups) in
    Ret (Ok (data, sha256_hex data))
  end.

Definition desiredConfigSecret (server : EnshroudedServer) (data : string) : Secret :=
  MkSecret (new_meta (config_secret_name server) (es_Namespace server) (labelsForServer (es_Name server)))
    {[configSecretKey := data]}.

(** Returns the hash together with the error, as the Go function does. *)
Definition reconcileConfigSecret (server : EnshroudedServer) : prog KubeE (string * option error) :=
  r ← buildServerConfigJSON server;
  match r with
  | Err e => Ret ("", Some e)
  | Ok (data, configHash) =>
    let desired := desiredConfigSecret server data in
    match SetControllerReference (es_Meta server) (sec_Meta desired) with
    | Err e => Ret ("", Some e)
    | Ok m =>
      let desired := MkSecret m (sec_Data desired) in
      r ← get KSecret (NN (es_Namespace server) (config_secret_name server));
      match r with
      | Err e =>
        if negb (IsNotFound e) then Ret ("", Some e)
        else r ← create KSecret desired; Ret (configHash, err_of r)
      | Ok existing =>
        let existing := MkSecret (sec_Meta existing) (sec_Data desired) in
        r ← update KSecret existing; Ret (configHash, err_of r)
      end
    end
  end.

Definition cleanupConfigSecret (server : EnshroudedServer) : step :=
  r ← get KSecret (NN (es_Namespace server) (config_secret_name server));
  match r with
  | Err e => Ret (IgnoreNotFound e)
  | Ok existing =>
    r ← delete_obj KSecret existing;
    Ret (match r with Ok _ => None | Err e => IgnoreNotFound e end)
  end.
End Config.
