(* ===== verification/Backup.v ===== *)
(** * Backups and pre-update snapshots

    [internal/controller/enshroudedserver_backup.go]: scheduled VolumeSnapshots
    and their pruning, the S3 prerequisite check, and the snapshot taken before
    an image update. *)
From S2P Require Import Prelude GoStrings GoTime Platform Api Effects Kube Builders Windows.
Local Open Scope Z_scope.

Definition volumeSnapshotGVK := MkGVK "snapshot.storage.k8s.io" "v1" "VolumeSnapshot".

Section Backup.
Context {QO : QuantityOps} {TZ : TzDatabase} {UO : UnstructuredOps} {SO : SortOps}.

(** [client.IgnoreNotFound]-style test used by the delete loops. *)
Definition err_unless_notfound (r : result unit) : option error :=
  match r with Ok _ => None | Err e => if IsNotFound e then None else Some e end.

(** The unstructured VolumeSnapshot both functions build: metadata, source PVC,
    optional class, owner.  The last three arguments are their error texts. *)
Definition newSnapshot (server : EnshroudedServer) (snapName : string) (labels : LabelMap)
    (specErr classErr ownerErr : string) : result Unstructured :=
  let snap := u_SetGroupVersionKind volumeSnapshotGVK [] in
  let snap := u_SetNamespace (es_Namespace server) snap in
  let snap := u_SetName snapName snap in
  let snap := u_SetLabels labels snap in
  match u_SetNestedField snap
      (JMap [("source", JMap [("persistentVolumeClaimName", JStr (pvc_name server))])]) ["spec"] with
  | Err e => Err (wrapf specErr e)
  | Ok snap =>
    let withClass :=
      match vsb_VolumeSnapshotClassName (bk_VolumeSnapshot (sp_Backup (es_Spec server))) with
      | Some class =>
        match u_SetNestedField snap (JStr class) ["spec"; "volumeSnapshotClassName"] with
        | Err e => Err (wrapf classErr e)
        | Ok snap => Ok snap
        end
      | None => Ok snap
      end in
    match withClass with
    | Err e => Err e
    | Ok snap =>
      match u_SetControllerReference (es_Meta server) snap with
      | Err e => Err (wrapf ownerErr e)
      | Ok snap => Ok snap
      end
    end
  end.

Definition snapshotLabels (server : EnshroudedServer) : LabelMap :=
  <["app.kubernetes.io/managed-by" := "enshrouded-operator"]>
  (<["enshrouded.io/server" := es_Name server]> ∅).
Definition preUpdateLabels (server : EnshroudedServer) : LabelMap :=
  <["app.kubernetes.io/managed-by" := "enshrouded-operator"]>
  (<["enshrouded.io/server" := es_Name server]>
  (<["enshrouded.io/trigger" := "pre-update"]> ∅)).

(** The delete loop of [pruneVolumeSnapshots]. *)
Fixpoint deleteSnapshots (toDelete : list Unstructured) : step :=
  match toDelete with
  | [] => nil_error
  | snap :: rest =>
    r ← delete_obj KVolumeSnapshot snap;
    match err_unless_notfound r with
    | Some e => fail (wrapf ("deleting VolumeSnapshot " +:+ u_GetName snap +:+ ": ") e)
    | None => deleteSnapshots rest
    end
  end.

(** [items[:k]]: Go panics when [k] is negative or past the end. *)
Definition slice_to {A} (items : list A) (k : Z) : option (list A) :=
  if (0 <=? k) && (k <=? Z.of_nat (length items)) then Some (take (Z.to_nat k) items) else None.

Definition older (a b : Unstructured) : bool :=
  before (u_GetCreationTimestamp a) (u_GetCreationTimestamp b).

Definition pruneVolumeSnapshots (server : EnshroudedServer) (retainCount : Z) : step :=
  r ← list_snapshots (es_Namespace server) "enshrouded.io/server" (es_Name server);
  match r with
  | Err e => if IsNotFound e then nil_error else fail (wrapf "listing VolumeSnapshots: " e)
  | Ok items =>
    let n := wrap32 (Z.of_nat (length items)) in
    if n <=? retainCount then nil_error
    else
      let items := sort_slice older items in
      match slice_to items (wrap32 (n - retainCount)) with
      | Some toDelete => deleteSnapshots toDelete
      | None => Panic "slice bounds out of range"
      end
  end.

Definition reconcileVolumeSnapshot (server : EnshroudedServer) : step :=
  let spec := bk_VolumeSnapshot (sp_Backup (es_Spec server)) in
  if negb (vsb_Enabled spec) then nil_error
  else
    b ← isInMaintenanceWindow [vsb_Schedule spec];
    if negb b then nil_error
    else
      t ← now;
      let snapName := es_Name server +:+ "-" +:+ itoa (unix t) in
      match newSnapshot server snapName (snapshotLabels server)
          "building VolumeSnapshot spec: " "setting volumeSnapshotClassName: "
          "setting owner reference on VolumeSnapshot: " with
      | Err e => fail e
      | Ok snap =>
        r ← create KVolumeSnapshot snap;
        match r with
        | Err e =>
          if negb (IsAlreadyExists e)
          then fail (wrapf ("creating VolumeSnapshot " +:+ snapName +:+ ": ") e)
          else pruneVolumeSnapshots server (or_int (vsb_RetainCount spec) 3)
        | Ok _ => pruneVolumeSnapshots server (or_int (vsb_RetainCount spec) 3)
        end
      end.

Definition reconcileS3Sidecar (server : EnshroudedServer) : step :=
  match bk_S3 (sp_Backup (es_Spec server)) with
  | None => nil_error
  | Some s3 =>
    r ← get KSecret (NN (es_Namespace server) (s3_CredentialsSecretRef s3));
    match r with
    | Err e => if IsNotFound e then nil_error else fail (wrapf "fetching S3 credentials secret: " e)
    | Ok _ => nil_error
    end
  end.

(** ** The snapshot before an update *)

Definition pollInterval : Duration := 10 * second.
Definition snapshotTimeout : Duration := 3 * minute.

(** [if strict { return err }; log; return nil] *)
Definition strict_err (strict : bool) (e : error) : step :=
  if strict then fail e else nil_error.

(** What one reading of the snapshot says: [status.error.message] wins over
    [status.readyToUse]. *)
Inductive snapshot_verdict := SnapFailed (msg : string) | SnapReady | SnapPending.
Definition snapshot_status (current : Unstructured) : snapshot_verdict :=
  let '(errMsg, found, _) := u_NestedString current ["status"; "error"; "message"] in
  if found && negb (bool_decide (errMsg = "")) then SnapFailed errMsg
  else
    let '(ready, _, _) := u_NestedBool current ["status"; "readyToUse"] in
    if ready then SnapReady else SnapPending.

(** The polling loop; [fuel] bounds the number of times its condition is
    evaluated. *)
Fixpoint pollSnapshot (fuel : nat) (server : EnshroudedServer) (snapName : string)
    (strict : bool) (deadline : Time) : step :=
  match fuel with
  | O => OutOfFuel
  | S fuel =>
    t ← now;
    if before t deadline then
      r ← get KVolumeSnapshot (NN (es_Namespace server) snapName);
      match r with
      | Err e => strict_err strict (wrapf "checking pre-update snapshot status: " e)
      | Ok current =>
        match snapshot_status current with
        | SnapFailed msg =>
          strict_err strict (errorf ("pre-update snapshot " +:+ snapName +:+ " failed: " +:+ msg))
        | SnapReady => nil_error
        | SnapPending =>
          _ ← sleep pollInterval;
          pollSnapshot fuel server snapName strict deadline
        end
      end
    else
      strict_err strict (errorf ("timed out waiting for pre-update snapshot " +:+ snapName
        +:+ " to become ReadyToUse"))
  end.

Definition snapshotBeforeUpdate (fuel : nat) (server : EnshroudedServer) (strict : bool) : step :=
  t ← now;
  let snapName := es_Name server +:+ "-pre-update-" +:+ itoa (unix t) in
  match newSnapshot server snapName (preUpdateLabels server)
      "building pre-update VolumeSnapshot spec: "
      "setting volumeSnapshotClassName on pre-update snapshot: "
      "setting owner reference on pre-update VolumeSnapshot: " with
  | Err e => fail e
  | Ok snap =>
    r ← create KVolumeSnapshot snap;
    let poll :=
      t ← now;
      pollSnapshot fuel server snapName strict (add t snapshotTimeout) in
    match r with
    | Err e =>
      if negb (IsAlreadyExists e)
      then strict_err strict (wrapf ("creating pre-update VolumeSnapshot " +:+ snapName +:+ ": ") e)
      else poll
    | Ok _ => poll
    end
  end.
End Backup.
