(* ===== verification/Vpa.v ===== *)
(** * Vertical scaling

    [internal/controller/enshroudedserver_vpa.go]: the VerticalPodAutoscaler
    object and, in WhenIdle mode, the application of its recommendation to the
    StatefulSet. *)
From S2P Require Import Prelude GoStrings GoTime Platform Api Effects Kube Builders.
Local Open Scope Z_scope.

Definition vpaGVK := MkGVK "autoscaling.k8s.io" "v1" "VerticalPodAutoscaler".

(** The hand-written substring search: try every offset. *)
Fixpoint contains_loop (s substr : string) (i n : nat) : bool :=
  match n with
  | O => false
  | S n =>
    if decide (str_take (String.length substr) (str_drop i s) = substr) then true
    else contains_loop s substr (S i) n
  end.
Definition contains (s substr : string) : bool :=
  bool_decide (String.length substr ≤ String.length s)%nat
  && (bool_decide (s = substr) || bool_decide (String.length substr = 0)%nat
      || contains_loop s substr 0 (String.length s - String.length substr + 1)).

Definition isNoCRDError (e : error) : bool :=
  contains (Error e) "no kind is registered"
  || contains (Error e) "no matches for kind"
  || contains (Error e) "the server could not find the requested resource".

Definition labelsForServerMap (name : string) : jval :=
  JMap (prod_map id JStr <$> map_to_list (labelsForServer name)).

Section Vpa.
Context {QO : QuantityOps} {UO : UnstructuredOps}.

Definition resourceListToMap (rl : ResourceList) : jval :=
  JMap ((λ '(k, v), (k, JStr (q_String v))) <$> map_to_list rl).

Definition server_nn (server : EnshroudedServer) : NamespacedName :=
  NN (es_Namespace server) (es_Name server).

Definition vpaUpdateMode (server : EnshroudedServer) : string :=
  if decide (vsc_UpdateMode (sp_VerticalScaling (es_Spec server)) = VPAUpdateModeInPlace)
  then "InPlace" else "Off".

Definition containerPolicy (server : EnshroudedServer) : jval :=
  let vs := sp_VerticalScaling (es_Spec server) in
  JMap ([("containerName", JStr "enshrouded-server")]
    ++ (if decide (vsc_MinAllowed vs = ∅) then [] else [("minAllowed", resourceListToMap (vsc_MinAllowed vs))])
    ++ (if decide (vsc_MaxAllowed vs = ∅) then [] else [("maxAllowed", resourceListToMap (vsc_MaxAllowed vs))])).

Definition desiredVPA (server : EnshroudedServer) : Unstructured := [
  ("apiVersion", JStr "autoscaling.k8s.io/v1");
  ("kind", JStr "VerticalPodAutoscaler");
  ("metadata", JMap [
    ("name", JStr (es_Name server));
    ("namespace", JStr (es_Namespace server));
    ("labels", labelsForServerMap (es_Name server))]);
  ("spec", JMap [
    ("targetRef", JMap [
      ("apiVersion", JStr "apps/v1"); ("kind", JStr "StatefulSet"); ("name", JStr (es_Name server))]);
    ("updatePolicy", JMap [("updateMode", JStr (vpaUpdateMode server))]);
    ("resourcePolicy", JMap [("containerPolicies", JList [containerPolicy server])])])].

(** The tail of [reconcileVPA]: bring the existing object to the wanted mode. *)
Definition updateVPA (server : EnshroudedServer) (existing : Unstructured) : step :=
  let name := es_Name server in
  let '(existingMode, _, _) := u_NestedString existing ["spec"; "updatePolicy"; "updateMode"] in
  if decide (existingMode = vpaUpdateMode server) then nil_error
  else
    match u_SetNestedField existing (JStr (vpaUpdateMode server)) ["spec"; "updatePolicy"; "updateMode"] with
    | Err e => fail (wrapf ("setting updateMode on VerticalPodAutoscaler " +:+ name +:+ ": ") e)
    | Ok existing =>
      match u_SetNestedField existing (JList [containerPolicy server])
          ["spec"; "resourcePolicy"; "containerPolicies"] with
      | Err e => fail (wrapf ("setting containerPolicies on VerticalPodAutoscaler " +:+ name +:+ ": ") e)
      | Ok existing =>
        r ← update KVerticalPodAutoscaler existing;
        match r with
        | Err e => fail (wrapf ("updating VerticalPodAutoscaler " +:+ name +:+ ": ") e)
        | Ok _ => nil_error
        end
      end
    end.

Definition ensureVPA (server : EnshroudedServer) : step :=
  let name := es_Name server in
  match u_SetControllerReference (es_Meta server) (desiredVPA server) with
  | Err e => fail (wrapf ("setting owner on VerticalPodAutoscaler " +:+ name +:+ ": ") e)
  | Ok desired =>
    r ← get KVerticalPodAutoscaler (server_nn server);
    match r with
    | Err e =>
      if negb (IsNotFound e) then fail (wrapf ("getting VerticalPodAutoscaler " +:+ name +:+ ": ") e)
      else
        r ← create KVerticalPodAutoscaler desired;
        match r with
        | Err e =>
          if negb (IsAlreadyExists e)
          then fail (wrapf ("creating VerticalPodAutoscaler " +:+ name +:+ ": ") e)
          else nil_error
        | Ok _ => nil_error
        end
    | Ok existing => updateVPA server existing
    end
  end.

Definition reconcileVPA (server : EnshroudedServer) : step :=
  if negb (vsc_Enabled (sp_VerticalScaling (es_Spec server))) then
    r ← get KVerticalPodAutoscaler (server_nn server);
    match r with
    | Ok existing =>
      r ← delete_obj KVerticalPodAutoscaler existing;
      match r with
      | Err e =>
        if negb (IsNotFound e)
        then fail (wrapf ("deleting VerticalPodAutoscaler " +:+ es_Name server +:+ ": ") e)
        else nil_error
      | Ok _ => nil_error
      end
    | Err _ => nil_error
    end
  else
    probe ← get KVerticalPodAutoscaler (NN (es_Namespace server) "__crd-probe__");
    match probe with
    | Err e =>
      if IsNotFound e then ensureVPA server
      else if isNoCRDError e then nil_error
      else ensureVPA server
    | Ok _ => ensureVPA server
    end.

(** ** Applying the recommendation *)

(** The loop over [containerRecommendations]: the targets of the first entry
    named ["enshrouded-server"], empty strings when there is none. *)
Fixpoint findTargets (recs : list jval) : string * string :=
  match recs with
  | [] => ("", "")
  | JMap recMap :: recs =>
    let '(name, _, _) := u_NestedString recMap ["containerName"] in
    if decide (name = "enshrouded-server") then
      let '(cpu, _, _) := u_NestedString recMap ["target"; "cpu"] in
      let '(memory, _, _) := u_NestedString recMap ["target"; "memory"] in
      (cpu, memory)
    else findTargets recs
  | _ :: recs => findTargets recs
  end.

(** Index of the first container named ["enshrouded-server"]. *)
Fixpoint gameContainer (i : nat) (cs : list Container) : option (nat * Container) :=
  match cs with
  | [] => None
  | c :: cs => if decide (c_Name c = "enshrouded-server") then Some (i, c) else gameContainer (S i) cs
  end.

Definition applyCPU (newCPU : Quantity) (current updated : ResourceList) : ResourceList * bool :=
  match current !! "cpu" with
  | Some curCPU => if q_Equal curCPU newCPU then (updated, false) else (<["cpu" := newCPU]> updated, true)
  | None => (<["cpu" := newCPU]> updated, true)
  end.

(** Memory: scale up always, scale down only while nobody is connected. *)
Definition applyMemory (activePlayers : Z) (newMem : Quantity) (current updated : ResourceList)
    (changed : bool) : ResourceList * bool :=
  match current !! "memory" with
  | Some curMem =>
    if (q_Cmp newMem curMem <? 0) && (0 <? activePlayers) then (updated, changed)
    else if q_Equal curMem newMem then (updated, changed)
    else (<["memory" := newMem]> updated, true)
  | None => (<["memory" := newMem]> updated, true)
  end.

(** [resource.MustParse]. *)
Definition q_MustParse (s : string) : prog KubeE Quantity :=
  match q_Parse s with
  | Some q => Ret q
  | None => Panic "cannot parse quantity"
  end.

(** The new requests and whether they differ from the current ones. *)
Definition recommendedRequests (server : EnshroudedServer) (targetCPU targetMemory : string)
    (current : ResourceList) : prog KubeE (ResourceList * bool) :=
  cpu ← (if decide (targetCPU = "") then Ret (current, false)
         else newCPU ← q_MustParse targetCPU; Ret (applyCPU newCPU current current));
  let '(updated, changed) := cpu in
  if decide (targetMemory = "") then Ret (updated, changed)
  else
    newMem ← q_MustParse targetMemory;
    Ret (applyMemory (st_ActivePlayers (es_Status server)) newMem current updated changed).

Definition set_container_requests (rl : ResourceList) (c : Container) : Container := {|
  c_Name := c_Name c; c_Image := c_Image c; c_ImagePullPolicy := c_ImagePullPolicy c;
  c_Command := c_Command c; c_Env := c_Env c; c_EnvFromSecrets := c_EnvFromSecrets c;
  c_Ports := c_Ports c;
  c_Resources := MkResourceRequirements (rr_Limits (c_Resources c)) rl (rr_Claims (c_Resources c));
  c_VolumeMounts := c_VolumeMounts c; c_ReadinessProbe := c_ReadinessProbe c;
  c_LivenessProbe := c_LivenessProbe c; c_SecurityContext := c_SecurityContext c |}.

Definition set_template (t : PodTemplateSpec) (replicas : option Z) (s : StatefulSet) : StatefulSet :=
  MkStatefulSet (sts_Meta s)
    (MkStatefulSetSpec replicas (sts_ServiceName (sts_Spec s)) (sts_Selector (sts_Spec s)) t)
    (sts_Status s).

Definition sts_containers (s : StatefulSet) : list Container := ps_Containers (pt_Spec (sts_Template (sts_Spec s))).

Definition set_containers (cs : list Container) (s : StatefulSet) : StatefulSet :=
  let t := sts_Template (sts_Spec s) in
  let p := pt_Spec t in
  set_template
    (MkPodTemplateSpec (pt_Labels t) (pt_Annotations t)
      (MkPodSpec (ps_ServiceAccountName p) (ps_SecurityContext p) cs (ps_Volumes p)))
    (sts_Replicas (sts_Spec s)) s.

Definition applyVPARecommendation (server : EnshroudedServer) : step :=
  let vs := sp_VerticalScaling (es_Spec server) in
  if negb (vsc_Enabled vs) || negb (bool_decide (vsc_UpdateMode vs = VPAUpdateModeWhenIdle)) then nil_error
  else
    r ← get KVerticalPodAutoscaler (server_nn server);
    match r with
    | Err e =>
      if IsNotFound e || isNoCRDError e then nil_error
      else fail (wrapf ("getting VerticalPodAutoscaler " +:+ es_Name server +:+ " for recommendation: ") e)
    | Ok vpa =>
      let '(recs, found, err) := u_NestedSlice vpa ["status"; "recommendation"; "containerRecommendations"] in
      if bool_decide (is_Some err) || negb found || bool_decide (length recs = 0)%nat then nil_error
      else
        let '(targetCPU, targetMemory) := findTargets recs in
        if bool_decide (targetCPU = "") && bool_decide (targetMemory = "") then nil_error
        else
          r ← get KStatefulSet (server_nn server);
          match r with
          | Err e =>
            fail (wrapf ("getting StatefulSet " +:+ es_Name server +:+ " for VPA recommendation apply: ") e)
          | Ok sts =>
            match gameContainer 0 (sts_containers sts) with
            | None => nil_error
            | Some (containerIdx, c) =>
              res ← recommendedRequests server targetCPU targetMemory (rr_Requests (c_Resources c));
              let '(updated, changed) := res in
              if negb changed then nil_error
              else
                let patch := set_containers
                  (<[containerIdx := set_container_requests updated c]> (sts_containers sts)) sts in
                r ← update KStatefulSet patch;
                match r with
                | Err e =>
                  fail (wrapf ("applying VPA recommendation to StatefulSet " +:+ es_Name server +:+ ": ") e)
                | Ok _ => nil_error
                end
            end
          end
    end.
End Vpa.

(** ** The substring search is exact *)

Lemma str_take_drop n s : str_take n s +:+ str_drop n s = s.
Proof.
  revert s. induction n as [|n IH]; intros [|c s]; try done. cbn [str_take str_drop]. by rewrite str_app_cons, IH.
Qed.

Lemma contains_loop_spec s sub i n :
  contains_loop s sub i n = true ↔
  ∃ j, (i ≤ j < i + n)%nat ∧ str_take (String.length sub) (str_drop j s) = sub.
Proof.
  revert i. induction n as [|n IH]; intros i; cbn [contains_loop].
  - split; [done|]. intros (j & Hj & _). lia.
  - case_decide as E.
    + split; [|done]. intros _. exists i. split; [lia|done].
    + rewrite IH. split; intros (j & Hj & Hs).
      * exists j. split; [lia|done].
      * exists j. split; [|done]. destruct (decide (i = j)) as [->|]; [done|lia].
Qed.

Lemma str_length_drop n s : String.length (str_drop n s) = (String.length s - n)%nat.
Proof. revert s. induction n as [|n IH]; intros [|c s]; try done. cbn. apply IH. Qed.

(** The hand-written [contains] finds exactly the substrings, for all byte
    strings, the empty one and equal ones included; so an error is taken for a
    missing CRD exactly when its text contains one of the three phrases. *)
Theorem contains_spec s sub : contains s sub = true ↔ ∃ a b, s = a +:+ sub +:+ b.
Proof.
  unfold contains. rewrite andb_true_iff, !orb_true_iff, !bool_decide_eq_true, contains_loop_spec. split.
  - intros [Hl [[->|Hz]|(j & Hj & Hs)]].
    + exists "", "". by rewrite str_app_nil_r.
    + destruct sub; [|done]. by exists "", s.
    + exists (str_take j s), (str_drop (String.length sub) (str_drop j s)).
      pose proof (str_take_drop (String.length sub) (str_drop j s)) as E. rewrite Hs in E.
      by rewrite E, str_take_drop.
  - intros (a & b & ->). rewrite !str_length_app. split; [lia|]. right.
    exists (String.length a). split; [lia|]. by rewrite str_drop_app, str_take_app.
Qed.
