(* ===== verification/Guards.v ===== *)
(** * Disruption budget and sidecar RBAC

    [internal/controller/enshroudedserver_pdb.go] and the RBAC half of
    [internal/controller/enshroudedserver_sidecar.go]. *)
From S2P Require Import Prelude GoStrings GoTime Platform Api Effects Kube Builders Windows Vpa.
Local Open Scope go_scope.
Local Open Scope Z_scope.

Section Guards.
Context {QO : QuantityOps} {TZ : TzDatabase} {MO : MetaOps}.

(** [DeferWhilePlaying && ActivePlayers > 0 && !isInMaintenanceWindow(...)]:
    Go evaluates the window test only when the first two hold. *)
Definition playersProtected (server : EnshroudedServer) : prog KubeE bool :=
  if up_DeferWhilePlaying (sp_UpdatePolicy (es_Spec server))
     && (0 <? st_ActivePlayers (es_Status server))
  then b ← isInMaintenanceWindow (up_MaintenanceWindows (sp_UpdatePolicy (es_Spec server))); Ret (negb b)
  else Ret false.

Definition set_max_unavailable (m : IntOrString) (p : PodDisruptionBudget) : PodDisruptionBudget :=
  MkPodDisruptionBudget (pdb_Meta p) (Some m) (pdb_Selector p).

Definition reconcilePDB (server : EnshroudedServer) : step :=
  protect ← playersProtected server;
  let maxUnavailable := FromInt (if protect : bool then 0 else 1) in
  let name := es_Name server in
  match SetControllerReference (es_Meta server) (pdb_Meta (desiredPDB server maxUnavailable)) with
  | Err e => fail (wrapf ("setting owner on PodDisruptionBudget " +:+ name +:+ ": ") e)
  | Ok m =>
    let desired := MkPodDisruptionBudget m (Some maxUnavailable) (pdb_Selector (desiredPDB server maxUnavailable)) in
    r ← get KPodDisruptionBudget (server_nn server);
    match r with
    | Err e =>
      if negb (IsNotFound e) then fail (wrapf ("getting PodDisruptionBudget " +:+ name +:+ ": ") e)
      else
        r ← create KPodDisruptionBudget desired;
        match r with
        | Err e =>
          if negb (IsAlreadyExists e)
          then fail (wrapf ("creating PodDisruptionBudget " +:+ name +:+ ": ") e)
          else nil_error
        | Ok _ => nil_error
        end
    | Ok existing =>
      let same := match pdb_MaxUnavailable existing with
        | Some cur => bool_decide (intstr_String cur = intstr_String maxUnavailable)
        | None => false
        end in
      if same then nil_error
      else
        r ← update KPodDisruptionBudget (set_max_unavailable maxUnavailable existing);
        match r with
        | Err e => fail (wrapf ("updating PodDisruptionBudget " +:+ name +:+ ": ") e)
        | Ok _ => nil_error
        end
    end
  end.

(** ** Sidecar RBAC *)

Definition sidecar_nn (server : EnshroudedServer) : NamespacedName :=
  NN (es_Namespace server) (sidecarServiceAccountName (es_Name server)).

Definition reconcileSidecarServiceAccount (server : EnshroudedServer) : step :=
  let name := sidecarServiceAccountName (es_Name server) in
  match SetControllerReference (es_Meta server) (sidecar_meta server) with
  | Err e => fail (wrapf ("setting owner on ServiceAccount " +:+ name +:+ ": ") e)
  | Ok m =>
    r ← get KServiceAccount (sidecar_nn server);
    match r with
    | Err e =>
      if negb (IsNotFound e) then fail (wrapf ("getting ServiceAccount " +:+ name +:+ ": ") e)
      else
        r ← create KServiceAccount (MkServiceAccount m);
        match r with
        | Err e =>
          if negb (IsAlreadyExists e) then fail (wrapf ("creating ServiceAccount " +:+ name +:+ ": ") e)
          else nil_error
        | Ok _ => nil_error
        end
    | Ok _ => nil_error
    end
  end.

Definition reconcileSidecarRole (server : EnshroudedServer) : step :=
  let name := sidecarServiceAccountName (es_Name server) in
  match SetControllerReference (es_Meta server) (sidecar_meta server) with
  | Err e => fail (wrapf ("setting owner on Role " +:+ name +:+ ": ") e)
  | Ok m =>
    r ← get KRole (sidecar_nn server);
    match r with
    | Err e =>
      if negb (IsNotFound e) then fail (wrapf ("getting Role " +:+ name +:+ ": ") e)
      else
        r ← create KRole (MkRole m (role_Rules (desiredRole server)));
        match r with
        | Err e =>
          if negb (IsAlreadyExists e) then fail (wrapf ("creating Role " +:+ name +:+ ": ") e)
          else nil_error
        | Ok _ => nil_error
        end
    | Ok existing =>
      r ← update KRole (MkRole (role_Meta existing) (role_Rules (desiredRole server)));
      match r with
      | Err e => fail (wrapf ("updating Role " +:+ name +:+ ": ") e)
      | Ok _ => nil_error
      end
    end
  end.

Definition reconcileSidecarRoleBinding (server : EnshroudedServer) : step :=
  let name := sidecarServiceAccountName (es_Name server) in
  match SetControllerReference (es_Meta server) (sidecar_meta server) with
  | Err e => fail (wrapf ("setting owner on RoleBinding " +:+ name +:+ ": ") e)
  | Ok m =>
    r ← get KRoleBinding (sidecar_nn server);
    match r with
    | Err e =>
      if negb (IsNotFound e) then fail (wrapf ("getting RoleBinding " +:+ name +:+ ": ") e)
      else
        r ← create KRoleBinding
              (MkRoleBinding m (rb_Subjects (desiredRoleBinding server)) (rb_RoleRef (desiredRoleBinding server)));
        match r with
        | Err e =>
          if negb (IsAlreadyExists e) then fail (wrapf ("creating RoleBinding " +:+ name +:+ ": ") e)
          else nil_error
        | Ok _ => nil_error
        end
    | Ok _ => nil_error
    end
  end.

Definition reconcileMetricsSidecarRBAC (server : EnshroudedServer) : step :=
  if negb (ms_Enabled (sp_MetricsSidecar (es_Spec server))) then nil_error
  else
    reconcileSidecarServiceAccount server ;;?
    reconcileSidecarRole server ;;?
    reconcileSidecarRoleBinding server.
End Guards.
