(* ===== verification/Controller.v ===== *)
(** * The reconciler

    [Reconcile] and the functions of
    [internal/controller/enshroudedserver_controller.go] it calls directly,
    composed as in the source: deletion, finalizer, secrets and hash, owned
    objects, the deferred StatefulSet update, backups, status. *)
From S2P Require Import Prelude GoStrings GoTime GoCodec Platform Api Effects Kube Builders Config Windows Backup Vpa Guards.
Local Open Scope go_scope.
Local Open Scope Z_scope.

(** [ctrl.Result] and the error it is returned with. *)
Record Result := MkResult { res_RequeueAfter : Duration }.
Definition no_requeue : Result := MkResult 0.

Section Controller.
Context {QO : QuantityOps} {UT : UnicodeTables} {TZ : TzDatabase} {MO : MetaOps} {UO : UnstructuredOps} {SO : SortOps}.

Abbreviation rprog := (prog KubeE (Result * option error)).

Definition reconcilePVC (server : EnshroudedServer) : step :=
  let sto := sp_Storage (es_Spec server) in
  storageSize ← (if q_IsZero (sto_Size sto) then q_MustParse "10Gi" else Ret (sto_Size sto));
  r ← get KPersistentVolumeClaim (NN (es_Namespace server) (pvc_name server));
  match r with
  | Err e =>
    if negb (IsNotFound e) then fail e
    else r ← create KPersistentVolumeClaim (desiredPVC server storageSize); Ret (err_of r)
  | Ok _ => nil_error
  end.

(** [fuel] bounds the polling of the pre-update snapshot. *)
Definition reconcileStatefulSet (fuel : nat) (server : EnshroudedServer) (secretHash : string) : step :=
  let desired := buildStatefulSet server secretHash in
  match SetControllerReference (es_Meta server) (sts_Meta desired) with
  | Err e => fail e
  | Ok m =>
    r ← get KStatefulSet (server_nn server);
    match r with
    | Err e =>
      if negb (IsNotFound e) then fail e
      else
        r ← create KStatefulSet (MkStatefulSet m (sts_Spec desired) (sts_Status desired));
        Ret (err_of r)
    | Ok existing =>
      let strategy := or_str (up_UpgradeStrategy (sp_UpdatePolicy (es_Spec server))) UpgradeStrategyNoSnapshot in
      snapErr ← (
        if bool_decide (strategy = UpgradeStrategyNoSnapshot) then nil_error
        else
          match sts_containers existing with
          | [] => nil_error
          | cur :: _ =>
            match sts_containers desired with
            | [] => Panic "index out of range"
            | new :: _ =>
              if bool_decide (c_Image cur = c_Image new) then nil_error
              else snapshotBeforeUpdate fuel server
                     (bool_decide (strategy = UpgradeStrategyStrictSnapshotBeforeUpdate))
            end
          end);
      match snapErr with
      | Some e => fail (wrapf "strict pre-update snapshot failed, blocking update: " e)
      | None =>
        r ← update KStatefulSet
              (set_template (sts_Template (sts_Spec desired)) (sts_Replicas (sts_Spec desired)) existing);
        Ret (err_of r)
      end
    end
  end.

Definition reconcileService (server : EnshroudedServer) : step :=
  let desired := desiredService server in
  match SetControllerReference (es_Meta server) (svc_Meta desired) with
  | Err e => fail e
  | Ok m =>
    r ← get KService (server_nn server);
    match r with
    | Err e =>
      if negb (IsNotFound e) then fail e
      else
        r ← create KService (MkService m (svc_Type desired) (svc_Selector desired) (svc_Ports desired)
                              (svc_ClusterIP desired));
        Ret (err_of r)
    | Ok existing =>
      r ← update KService (MkService (svc_Meta existing) (svc_Type desired) (svc_Selector desired)
                            (svc_Ports desired) (svc_ClusterIP existing));
      Ret (err_of r)
    end
  end.

Definition reconcileNetworkPolicy (server : EnshroudedServer) : step :=
  let desired := desiredNetworkPolicy server in
  match SetControllerReference (es_Meta server) (np_Meta desired) with
  | Err e => fail e
  | Ok m =>
    r ← get KNetworkPolicy (NN (es_Namespace server) (es_Name server +:+ "-netpol"));
    match r with
    | Err e =>
      if negb (IsNotFound e) then fail e
      else r ← create KNetworkPolicy (MkNetworkPolicy m (np_Spec desired)); Ret (err_of r)
    | Ok existing =>
      r ← update KNetworkPolicy (MkNetworkPolicy (np_Meta existing) (np_Spec desired)); Ret (err_of r)
    end
  end.

(** ** Status *)

Definition setPhaseError (server : EnshroudedServer) (msg : string) : rprog :=
  let st := es_Status server in
  let server := set_es_status (MkEnshroudedServerStatus EnshroudedServerPhaseError (st_ReadyReplicas st)
    (st_ActivePlayers st) (st_GameVersion st) (st_UpdateDeferred st) (st_Conditions st)) server in
  _ ← status_update server;
  Ret (no_requeue, Some (errorf msg)).

(** Phase and Ready condition (status, reason, message) for a StatefulSet. *)
Definition classifyStatefulSet (st : StatefulSetStatus) : string * (string * string * string) :=
  if 0 <? sts_ReadyReplicas st then
    (EnshroudedServerPhaseRunning, ("True", "ServerRunning", "Server is running and accepting connections"))
  else if negb (bool_decide (sts_CurrentRevision st = ""))
          && negb (bool_decide (sts_CurrentRevision st = sts_UpdateRevision st)) then
    (EnshroudedServerPhaseUpdating, ("False", "ServerUpdating", "Server is being updated"))
  else (EnshroudedServerPhasePending, ("False", "ServerStarting", "Server is starting up")).

(** The status written for the phase, replicas and condition found; [t] is the
    time [SetStatusCondition] stamps a transition with. *)
Definition newStatus (t : Time) (server : EnshroudedServer) (phase : string) (readyReplicas : Z)
    (ready : string * string * string) (updateDeferred : bool) : EnshroudedServerStatus :=
  let st := es_Status server in
  let '(readyStatus, readyReason, readyMessage) := ready in
  let generation := om_Generation (es_Meta server) in
  let conds := SetStatusCondition t (st_Conditions st)
    (MkCondition ConditionReady readyStatus generation zero_time readyReason readyMessage) in
  let conds :=
    if updateDeferred then
      SetStatusCondition t conds
        (MkCondition ConditionUpdateDeferred "True" generation zero_time "PlayersConnected"
          ("Update deferred: " +:+ itoa (st_ActivePlayers st) +:+ " player(s) connected"))
    else RemoveStatusCondition conds ConditionUpdateDeferred in
  MkEnshroudedServerStatus phase readyReplicas (st_ActivePlayers st) (st_GameVersion st) updateDeferred conds.

Definition publishStatus (server : EnshroudedServer) (phase : string) (readyReplicas : Z)
    (ready : string * string * string) (updateDeferred maintenanceWindowActive : bool) : step :=
  let oldPhase := st_Phase (es_Status server) in
  t ← now;
  r ← status_update (set_es_status (newStatus t server phase readyReplicas ready updateDeferred) server);
  match r with
  | Err e => fail e
  | Ok server =>
    let st := es_Status server in
    _ ← publish_metrics {|
      sm_namespace := es_Namespace server; sm_name := es_Name server;
      sm_readyReplicas := st_ReadyReplicas st; sm_updateDeferred := st_UpdateDeferred st;
      sm_phase := st_Phase st; sm_oldPhase := oldPhase;
      sm_maintenanceWindowActive := maintenanceWindowActive |};
    nil_error
  end.

Definition updateStatus (server : EnshroudedServer) (updateDeferred maintenanceWindowActive : bool) : step :=
  r ← get KStatefulSet (server_nn server);
  match r with
  | Err e =>
    if IsNotFound e then
      publishStatus server EnshroudedServerPhasePending 0
        ("False", "StatefulSetNotFound", "StatefulSet has not been created yet")
        updateDeferred maintenanceWindowActive
    else fail e
  | Ok sts =>
    let '(phase, ready) := classifyStatefulSet (sts_Status sts) in
    publishStatus server phase (sts_ReadyReplicas (sts_Status sts)) ready updateDeferred maintenanceWindowActive
  end.

(** ** Deletion *)

Definition retainPVC (server : EnshroudedServer) : bool :=
  match sto_RetainOnDelete (sp_Storage (es_Spec server)) with None => true | Some b => b end.

Definition deletePVC (server : EnshroudedServer) : step :=
  r ← get KPersistentVolumeClaim (NN (es_Namespace server) (pvc_name server));
  match r with
  | Ok pvc => r ← delete_obj KPersistentVolumeClaim pvc; Ret (err_unless_notfound r)
  | Err e => if negb (IsNotFound e) then fail e else nil_error
  end.

Definition handleDeletion (server : EnshroudedServer) : rprog :=
  if negb (ContainsFinalizer (es_Meta server) finalizerName) then Ret (no_requeue, None)
  else
    e ← (if negb (retainPVC server) then deletePVC server else nil_error : step);
    match e with
    | Some e => Ret (no_requeue, Some e)
    | None =>
      r ← update KServer (set_es_meta (RemoveFinalizer (es_Meta server) finalizerName) server);
      match r with
      | Err e => Ret (no_requeue, Some e)
      | Ok server =>
        _ ← drop_metrics (es_Namespace server) (es_Name server) (st_Phase (es_Status server));
        Ret (no_requeue, None)
      end
    end.

(** ** [Reconcile] *)

(** The hash of the password material, or the values [Reconcile] returns early
    with. *)
Definition annotationHash (server : EnshroudedServer) : prog KubeE (string + (Result * option error)) :=
  if user_groups_mode server then
    r ← reconcileConfigSecret server;
    match r with
    | (_, Some e) => Ret (inr (no_requeue, Some e))
    | (hash, None) => Ret (inl hash)
    end
  else
    e ← cleanupConfigSecret server;
    match e with
    | Some e => Ret (inr (no_requeue, Some e))
    | None =>
      match sp_ServerPasswordSecretRef (es_Spec server) with
      | None => Ret (inl "")
      | Some ref =>
        r ← get KSecret (NN (es_Namespace server) (sks_Name ref));
        match r with
        | Err e =>
          if IsNotFound e then
            x ← setPhaseError server ("referenced Secret " +:+ quote (sks_Name ref) +:+ " not found");
            Ret (inr x)
          else Ret (inr (no_requeue, Some e))
        | Ok secret =>
          match sec_Data secret !! sks_Key ref with
          | None =>
            x ← setPhaseError server ("key " +:+ quote (sks_Key ref) +:+ " not found in Secret " +:+ quote (sks_Name ref));
            Ret (inr x)
          | Some v => Ret (inl (sha256_hex v))
          end
        end
      end
    end.

(** Everything from the deferral decision to the end. *)
Definition finishReconcile (fuel : nat) (server : EnshroudedServer) (hash : string) : rprog :=
  playersProtected server ≫= λ updateDeferred : bool,
  e ← ((if updateDeferred then nil_error else reconcileStatefulSet fuel server hash) ;;?
       reconcileService server ;;?
       reconcileS3Sidecar server ;;?
       reconcileVolumeSnapshot server ;;?
       (maintenanceWindowActive ← isInMaintenanceWindow (up_MaintenanceWindows (sp_UpdatePolicy (es_Spec server)));
        updateStatus server updateDeferred maintenanceWindowActive));
  match e with
  | Some e => Ret (no_requeue, Some e)
  | None => Ret (if updateDeferred then MkResult (1 * minute) else no_requeue, None)
  end.

(** The reconciliation of a live server that carries the finalizer. *)
Definition reconcileLive (fuel : nat) (server : EnshroudedServer) : rprog :=
  h ← annotationHash server;
  match h with
  | inr early => Ret early
  | inl hash =>
    e ← (reconcilePVC server ;;?
         reconcileMetricsSidecarRBAC server ;;?
         reconcilePDB server ;;?
         reconcileVPA server ;;?
         applyVPARecommendation server ;;?
         reconcileNetworkPolicy server);
    match e with
    | Some e => Ret (no_requeue, Some e)
    | None => finishReconcile fuel server hash
    end
  end.

Definition Reconcile (fuel : nat) (req : NamespacedName) : rprog :=
  r ← get KServer req;
  match r with
  | Err e => Ret (no_requeue, IgnoreNotFound e)
  | Ok server =>
    if negb (time_ptr_IsZero (om_DeletionTimestamp (es_Meta server))) then handleDeletion server
    else if negb (ContainsFinalizer (es_Meta server) finalizerName) then
      r ← update KServer (set_es_meta (AddFinalizer (es_Meta server) finalizerName) server);
      match r with
      | Err e => Ret (no_requeue, Some e)
      | Ok server => reconcileLive fuel server
      end
    else reconcileLive fuel server
  end.

(** ** Secret watches *)

(** The index function [SetupWithManager] registers under [.spec.allSecretRefs]. *)
Definition allSecretRefs (server : EnshroudedServer) : list string :=
  (match sp_ServerPasswordSecretRef (es_Spec server) with Some ref => [sks_Name ref] | None => [] end)
  ++ omap (λ g, sks_Name <$> ug_PasswordSecretRef g) (sp_UserGroups (es_Spec server)).

Definition findServersForSecret (secret : ObjectMeta) : prog KubeE (list NamespacedName) :=
  r ← list_servers (om_Namespace secret) ".spec.allSecretRefs" (om_Name secret);
  match r with
  | Err _ => Ret []
  | Ok items => Ret (map server_nn items)
  end.
End Controller.
