(* ===== verification/Webhook.v ===== *)
(** * Admission webhook

    [internal/webhook/v1alpha1/enshroudedserver_webhook.go]: defaulting and
    validation of EnshroudedServers, with the theorems that make the two
    webhooks and the controller agree. *)
From S2P Require Import Prelude GoStrings GoTime GoNet Platform Api Kube Builders.
Local Open Scope Z_scope.

Definition defaultServerIP := "0.0.0.0".
Definition defaultImageRepository := "ghcr.io/payback159/enshrouded-server".

(** [field.Invalid(path, value, detail)] and [field.Required(path, detail)]. *)
Inductive FieldError :=
  | FieldInvalid (path : list string) (value : string) (detail : string)
  | FieldRequired (path : list string) (detail : string).

Section Webhook.
Context {QO : QuantityOps}.

(** [Default]: [None] is a panic of [resource.MustParse]. *)
Definition Default (obj : EnshroudedServer) : option EnshroudedServer :=
  let spec := es_Spec obj in
  let image := sp_Image spec in
  let storage := sp_Storage spec in
  size ← (if q_IsZero (sto_Size storage) then q_Parse "10Gi" else Some (sto_Size storage));
  Some (MkEnshroudedServer (es_Meta obj) {|
    sp_ServerName := or_str (sp_ServerName spec) "Enshrouded Server";
    sp_ServerPasswordSecretRef := sp_ServerPasswordSecretRef spec;
    sp_Port := or_int (sp_Port spec) 15637;
    sp_SteamPort := or_int (sp_SteamPort spec) 27015;
    sp_ServerSlots := or_int (sp_ServerSlots spec) 16;
    sp_ServerIP := or_str (sp_ServerIP spec) defaultServerIP;
    sp_Image := MkImageSpec
      (or_str (img_Repository image) defaultImageRepository)
      (or_str (img_Tag image) "latest")
      (or_str (img_PullPolicy image) PullIfNotPresent);
    sp_Resources := sp_Resources spec;
    sp_Storage := MkStorageSpec size (sto_StorageClassName storage)
      (match sto_RetainOnDelete storage with None => Some true | Some b => Some b end);
    sp_UserGroups := sp_UserGroups spec;
    sp_UpdatePolicy := sp_UpdatePolicy spec;
    sp_Backup := sp_Backup spec;
    sp_MetricsSidecar := sp_MetricsSidecar spec;
    sp_VerticalScaling := sp_VerticalScaling spec
  |} (es_Status obj)).

(** [validateEnshroudedServer]: the list of errors; the Go function returns nil
    exactly when it is empty. *)
Definition validateEnshroudedServer (obj : EnshroudedServer) : list FieldError :=
  let spec := es_Spec obj in
  (if negb (sp_Port spec =? 0) && negb (sp_SteamPort spec =? 0) && (sp_Port spec =? sp_SteamPort spec)
   then [FieldInvalid ["spec"; "steamPort"] (itoa (sp_SteamPort spec)) "steamPort must differ from port"]
   else [])
  ++ (if negb (bool_decide (sp_ServerIP spec = "")) && negb (bool_decide (sp_ServerIP spec = defaultServerIP))
      then
        if ParseIP (sp_ServerIP spec) then []
        else [FieldInvalid ["spec"; "serverIP"] (sp_ServerIP spec) "must be a valid IP address"]
      else [])
  ++ match sp_ServerPasswordSecretRef spec with
     | None => []
     | Some ref =>
       (if bool_decide (sks_Name ref = "")
        then [FieldRequired ["spec"; "serverPasswordSecretRef"; "name"] "secret name must not be empty"] else [])
       ++ (if bool_decide (sks_Key ref = "")
           then [FieldRequired ["spec"; "serverPasswordSecretRef"; "key"] "secret key must not be empty"] else [])
     end
  ++ (if bool_decide (img_Repository (sp_Image spec) = "")
      then [FieldRequired ["spec"; "image"; "repository"] "image repository must not be empty"] else [])
  ++ (if negb (q_IsZero (sto_Size (sp_Storage spec))) && (q_Sign (sto_Size (sp_Storage spec)) <? 0)
      then [FieldInvalid ["spec"; "storage"; "size"] (q_String (sto_Size (sp_Storage spec)))
              "storage size must be positive"]
      else []).

Definition ValidateCreate (obj : EnshroudedServer) : list FieldError := validateEnshroudedServer obj.

Definition ValidateUpdate (oldObj newObj : EnshroudedServer) : list FieldError :=
  match validateEnshroudedServer newObj with
  | [] =>
    let oldSize := sto_Size (sp_Storage (es_Spec oldObj)) in
    let newSize := sto_Size (sp_Storage (es_Spec newObj)) in
    if negb (q_IsZero oldSize) && (q_Cmp newSize oldSize <? 0)
    then [FieldInvalid ["spec"; "storage"; "size"] (q_String newSize)
            ("storage size may not be reduced (current: " +:+ q_String oldSize +:+ ")")]
    else []
  | errs => errs
  end.

Definition ValidateDelete (obj : EnshroudedServer) : list FieldError := [].

(** ** Admission: the mutating webhook runs before the validating one *)

Definition admitCreate (obj : EnshroudedServer) : option EnshroudedServer :=
  obj' ← Default obj;
  match ValidateCreate obj' with [] => Some obj' | _ => None end.
Definition admitUpdate (oldObj newObj : EnshroudedServer) : option EnshroudedServer :=
  newObj' ← Default newObj;
  match ValidateUpdate oldObj newObj' with [] => Some newObj' | _ => None end.

(** ** Facts about the defaults *)

Lemma or_str_idemp s d : or_str (or_str s d) d = or_str s d.
Proof. unfold or_str. repeat case_decide; congruence. Qed.
Lemma or_int_idemp n d : or_int (or_int n d) d = or_int n d.
Proof. unfold or_int. repeat case_decide; congruence. Qed.
Lemma or_str_nonempty s d : d ≠ "" → or_str s d ≠ "".
Proof. unfold or_str. by case_decide. Qed.
Lemma or_int_nonzero n d : d ≠ 0 → or_int n d ≠ 0.
Proof. unfold or_int. by case_decide. Qed.

Lemma retain_default_idemp (o : option bool) :
  (match (match o with None => Some true | Some b => Some b end) with
   | None => Some true | Some b => Some b end)
  = match o with None => Some true | Some b => Some b end.
Proof. by destruct o. Qed.

Lemma Default_inv s s' :
  Default s = Some s' →
  ∃ size, (if q_IsZero (sto_Size (sp_Storage (es_Spec s))) then q_Parse "10Gi"
           else Some (sto_Size (sp_Storage (es_Spec s)))) = Some size
  ∧ sto_Size (sp_Storage (es_Spec s')) = size.
Proof. intros (size & Hs & [= <-])%bind_Some. eauto. Qed.

Section Laws.
Context {QL : QuantityLaws}.

Lemma q_parse_10Gi_not_zero q : q_Parse "10Gi" = Some q → q_IsZero q = false.
Proof.
  destruct q_parse_10Gi as (q' & Hq & Hs). intros Hq'. rewrite Hq in Hq'. simplify_eq.
  apply not_true_iff_false. rewrite q_iszero_cmp. destruct (q_sign_cmp q) as [_ H]. lia.
Qed.

Lemma Default_size_not_zero s s' :
  Default s = Some s' → q_IsZero (sto_Size (sp_Storage (es_Spec s'))) = false.
Proof.
  intros (size & Hs & ->)%Default_inv. destruct (q_IsZero _) eqn:E.
  - by apply q_parse_10Gi_not_zero.
  - by simplify_eq.
Qed.

Lemma Default_total s : ∃ s', Default s = Some s'.
Proof.
  unfold Default. destruct (q_IsZero _); [|by eexists].
  destruct q_parse_10Gi as (q & -> & _). by eexists.
Qed.

Lemma Default_idemp s s' : Default s = Some s' → Default s' = Some s'.
Proof.
  intros H. pose proof (Default_size_not_zero s s' H) as Hz.
  apply bind_Some in H as (size & Hs & [= <-]). unfold Default. cbn in Hz |- *.
  rewrite Hz. cbn. by rewrite !or_str_idemp, !or_int_idemp, retain_default_idemp.
Qed.
End Laws.

(** ** Validation *)

(** What an accepted server satisfies. *)
Definition valid_server (s : EnshroudedServer) : Prop :=
  let spec := es_Spec s in
  ¬ (sp_Port spec ≠ 0 ∧ sp_SteamPort spec ≠ 0 ∧ sp_Port spec = sp_SteamPort spec)
  ∧ (sp_ServerIP spec = "" ∨ sp_ServerIP spec = defaultServerIP ∨ ParseIP (sp_ServerIP spec) = true)
  ∧ (∀ ref, sp_ServerPasswordSecretRef spec = Some ref → sks_Name ref ≠ "" ∧ sks_Key ref ≠ "")
  ∧ img_Repository (sp_Image spec) ≠ ""
  ∧ (q_IsZero (sto_Size (sp_Storage spec)) = true ∨ 0 ≤ q_Sign (sto_Size (sp_Storage spec))).

Lemma validate_iff s : validateEnshroudedServer s = [] ↔ valid_server s.
Proof.
  unfold validateEnshroudedServer, valid_server. cbv zeta. rewrite !app_nil_iff, !if_nil.
  repeat apply and_iff_split.
  - generalize (sp_Port (es_Spec s)), (sp_SteamPort (es_Spec s)). intros p q.
    destruct (Z.eqb_spec p 0), (Z.eqb_spec q 0), (Z.eqb_spec p q); cbn; intuition congruence.
  - generalize (sp_ServerIP (es_Spec s)). intros ip.
    destruct (decide (ip = "")) as [->|H1]; [cbn; tauto|].
    destruct (decide (ip = defaultServerIP)) as [->|H2]; [cbn; tauto|].
    rewrite !bool_decide_eq_false_2 by done. cbn. destruct (ParseIP ip); intuition congruence.
  - destruct (sp_ServerPasswordSecretRef (es_Spec s)) as [ref|]; [|split; [congruence|done]].
    rewrite app_nil_iff, !if_nil, !bool_decide_eq_false. split.
    + intros H ref' [= <-]. exact H.
    + intros H. by apply H.
  - by rewrite bool_decide_eq_false.
  - rewrite andb_false_iff, negb_false_iff, Z.ltb_ge. done.
Qed.

(** ** What admission guarantees the controller *)

Lemma admitCreate_inv s s' :
  admitCreate s = Some s' → Default s = Some s' ∧ valid_server s'.
Proof.
  unfold admitCreate, ValidateCreate. intros (t & Ht & Hv)%bind_Some.
  destruct (validateEnshroudedServer t) eqn:E; simplify_eq. split; [done|]. by apply validate_iff.
Qed.

Lemma admitUpdate_inv o s s' :
  admitUpdate o s = Some s' →
  Default s = Some s' ∧ valid_server s'
  ∧ (q_IsZero (sto_Size (sp_Storage (es_Spec o))) = true
     ∨ 0 ≤ q_Cmp (sto_Size (sp_Storage (es_Spec s'))) (sto_Size (sp_Storage (es_Spec o)))).
Proof.
  unfold admitUpdate, ValidateUpdate. intros (t & Ht & Hv)%bind_Some.
  destruct (validateEnshroudedServer t) as [|e l] eqn:E; [|done].
  destruct (negb _ && _) eqn:Hc; simplify_eq. split_and!; [done|by apply validate_iff|].
  rewrite andb_false_iff, negb_false_iff, Z.ltb_ge in Hc. done.
Qed.

Lemma Default_eff_ports s s' :
  Default s = Some s' →
  sp_Port (es_Spec s') = eff_port s ∧ sp_SteamPort (es_Spec s') = eff_steamPort s
  ∧ eff_port s' = eff_port s ∧ eff_steamPort s' = eff_steamPort s.
Proof.
  intros (size & Hs & [= <-])%bind_Some. unfold eff_port, eff_steamPort. cbn.
  by rewrite !or_int_idemp.
Qed.

(** An admitted server exposes two different ports. *)
Lemma admitted_ports_differ s s' :
  admitCreate s = Some s' → eff_port s' ≠ eff_steamPort s'.
Proof.
  intros [Hd Hv]%admitCreate_inv. destruct (Default_eff_ports s s' Hd) as (H1 & H2 & H3 & H4).
  destruct Hv as [Hp _]. cbn in Hp. rewrite H3, H4. intros E. apply Hp.
  rewrite H1, H2. split_and!; [apply or_int_nonzero; lia|apply or_int_nonzero; lia|done].
Qed.

(** The controller builds the same objects for a server and for its defaulted
    version. *)
Lemma Default_transparent s s' h :
  Default s = Some s' →
  buildStatefulSet s' h = buildStatefulSet s h
  ∧ desiredService s' = desiredService s
  ∧ desiredNetworkPolicy s' = desiredNetworkPolicy s.
Proof.
  intros (size & Hs & [= <-])%bind_Some.
  unfold buildStatefulSet, desiredService, desiredNetworkPolicy, metricsSidecarContainer,
    eff_serverName, eff_port, eff_steamPort, eff_serverSlots, eff_serverIP, eff_metricsPort,
    pvc_name, config_secret_name, user_groups_mode, defaultServerIP, defaultImageRepository.
  cbn -[or_str or_int]. by rewrite !or_str_idemp, !or_int_idemp.
Qed.

(** ** Storage never shrinks over a history of admitted updates *)

Inductive admitted_history : EnshroudedServer → EnshroudedServer → Prop :=
  | history_refl s : admitted_history s s
  | history_step s t u v : admitted_history s t → admitUpdate t u = Some v → admitted_history s v.

Lemma storage_monotone `{!QuantityLaws} s0 s t :
  admitCreate s0 = Some s → admitted_history s t →
  0 ≤ q_Cmp (sto_Size (sp_Storage (es_Spec t))) (sto_Size (sp_Storage (es_Spec s)))
  ∧ q_IsZero (sto_Size (sp_Storage (es_Spec t))) = false.
Proof.
  intros [Hd _]%admitCreate_inv. induction 1 as [s|s t u v Hst IH Hu].
  - split; [by rewrite q_cmp_refl|by eapply Default_size_not_zero].
  - destruct (IH Hd) as [Hle Hnz]. apply admitUpdate_inv in Hu as (Hd' & _ & Hsz).
    split; [|by eapply Default_size_not_zero].
    destruct Hsz as [Hz|Hge]; [congruence|].
    set (a := sto_Size (sp_Storage (es_Spec v))) in *.
    set (b := sto_Size (sp_Storage (es_Spec t))) in *.
    set (c := sto_Size (sp_Storage (es_Spec s))) in *.
    assert (∀ p q, 0 ≤ q_Cmp p q ↔ q_Cmp q p ≤ 0) as Hflip.
    { intros p q. pose proof (q_cmp_antisym p q). pose proof (q_cmp_antisym q p). lia. }
    apply Hflip. apply (q_cmp_trans _ b); by apply Hflip.
Qed.
End Webhook.
