(* ===== verification/Manager.v ===== *)
(** * The manager binary

    [cmd/main.go]: command line, server options, and the calls that build and start
    the manager; [SetupWithManager] of the controller and
    [SetupEnshroudedServerWebhookWithManager] of the webhooks, which it runs; the
    registration of the API group.  The process is a program over the calls of
    controller-runtime; it ends with its exit status. *)
From S2P Require Import Prelude GoStrings GoTime GoFlag Platform Api Effects Kube Backup Vpa Guards Controller Webhook.
Local Open Scope Z_scope.

(** ** Command line *)

(** The variables [main] binds its flags to.  [fl_library] are the flags of the
    packages it links, in the order they were set. *)
Record flags := MkFlags {
  fl_metricsAddr : string;
  fl_metricsCertPath : string;
  fl_metricsCertName : string;
  fl_metricsCertKey : string;
  fl_webhookCertPath : string;
  fl_webhookCertName : string;
  fl_webhookCertKey : string;
  fl_enableLeaderElection : bool;
  fl_probeAddr : string;
  fl_secureMetrics : bool;
  fl_enableHTTP2 : bool;
  fl_library : list (string * string)
}.

Definition defaultFlags : flags := {|
  fl_metricsAddr := "0";
  fl_metricsCertPath := "";
  fl_metricsCertName := "tls.crt";
  fl_metricsCertKey := "tls.key";
  fl_webhookCertPath := "";
  fl_webhookCertName := "tls.crt";
  fl_webhookCertKey := "tls.key";
  fl_enableLeaderElection := false;
  fl_probeAddr := ":8081";
  fl_secureMetrics := true;
  fl_enableHTTP2 := false;
  fl_library := []
|}.

Definition set_metricsAddr v f := MkFlags v (fl_metricsCertPath f) (fl_metricsCertName f) (fl_metricsCertKey f)
  (fl_webhookCertPath f) (fl_webhookCertName f) (fl_webhookCertKey f) (fl_enableLeaderElection f) (fl_probeAddr f)
  (fl_secureMetrics f) (fl_enableHTTP2 f) (fl_library f).
Definition set_metricsCertPath v f := MkFlags (fl_metricsAddr f) v (fl_metricsCertName f) (fl_metricsCertKey f)
  (fl_webhookCertPath f) (fl_webhookCertName f) (fl_webhookCertKey f) (fl_enableLeaderElection f) (fl_probeAddr f)
  (fl_secureMetrics f) (fl_enableHTTP2 f) (fl_library f).
Definition set_metricsCertName v f := MkFlags (fl_metricsAddr f) (fl_metricsCertPath f) v (fl_metricsCertKey f)
  (fl_webhookCertPath f) (fl_webhookCertName f) (fl_webhookCertKey f) (fl_enableLeaderElection f) (fl_probeAddr f)
  (fl_secureMetrics f) (fl_enableHTTP2 f) (fl_library f).
Definition set_metricsCertKey v f := MkFlags (fl_metricsAddr f) (fl_metricsCertPath f) (fl_metricsCertName f) v
  (fl_webhookCertPath f) (fl_webhookCertName f) (fl_webhookCertKey f) (fl_enableLeaderElection f) (fl_probeAddr f)
  (fl_secureMetrics f) (fl_enableHTTP2 f) (fl_library f).
Definition set_webhookCertPath v f := MkFlags (fl_metricsAddr f) (fl_metricsCertPath f) (fl_metricsCertName f)
  (fl_metricsCertKey f) v (fl_webhookCertName f) (fl_webhookCertKey f) (fl_enableLeaderElection f) (fl_probeAddr f)
  (fl_secureMetrics f) (fl_enableHTTP2 f) (fl_library f).
Definition set_webhookCertName v f := MkFlags (fl_metricsAddr f) (fl_metricsCertPath f) (fl_metricsCertName f)
  (fl_metricsCertKey f) (fl_webhookCertPath f) v (fl_webhookCertKey f) (fl_enableLeaderElection f) (fl_probeAddr f)
  (fl_secureMetrics f) (fl_enableHTTP2 f) (fl_library f).
Definition set_webhookCertKey v f := MkFlags (fl_metricsAddr f) (fl_metricsCertPath f) (fl_metricsCertName f)
  (fl_metricsCertKey f) (fl_webhookCertPath f) (fl_webhookCertName f) v (fl_enableLeaderElection f) (fl_probeAddr f)
  (fl_secureMetrics f) (fl_enableHTTP2 f) (fl_library f).
Definition set_enableLeaderElection v f := MkFlags (fl_metricsAddr f) (fl_metricsCertPath f) (fl_metricsCertName f)
  (fl_metricsCertKey f) (fl_webhookCertPath f) (fl_webhookCertName f) (fl_webhookCertKey f) v (fl_probeAddr f)
  (fl_secureMetrics f) (fl_enableHTTP2 f) (fl_library f).
Definition set_probeAddr v f := MkFlags (fl_metricsAddr f) (fl_metricsCertPath f) (fl_metricsCertName f)
  (fl_metricsCertKey f) (fl_webhookCertPath f) (fl_webhookCertName f) (fl_webhookCertKey f) (fl_enableLeaderElection f) v
  (fl_secureMetrics f) (fl_enableHTTP2 f) (fl_library f).
Definition set_secureMetrics v f := MkFlags (fl_metricsAddr f) (fl_metricsCertPath f) (fl_metricsCertName f)
  (fl_metricsCertKey f) (fl_webhookCertPath f) (fl_webhookCertName f) (fl_webhookCertKey f) (fl_enableLeaderElection f)
  (fl_probeAddr f) v (fl_enableHTTP2 f) (fl_library f).
Definition set_enableHTTP2 v f := MkFlags (fl_metricsAddr f) (fl_metricsCertPath f) (fl_metricsCertName f)
  (fl_metricsCertKey f) (fl_webhookCertPath f) (fl_webhookCertName f) (fl_webhookCertKey f) (fl_enableLeaderElection f)
  (fl_probeAddr f) (fl_secureMetrics f) v (fl_library f).
Definition add_library name v f := MkFlags (fl_metricsAddr f) (fl_metricsCertPath f) (fl_metricsCertName f)
  (fl_metricsCertKey f) (fl_webhookCertPath f) (fl_webhookCertName f) (fl_webhookCertKey f) (fl_enableLeaderElection f)
  (fl_probeAddr f) (fl_secureMetrics f) (fl_enableHTTP2 f) (fl_library f ++ [(name, v)]).

(** The flags [main] defines itself, in order. *)
Definition ownFlags : list (string * flag_value flags) := [
  ("metrics-bind-address", string_flag set_metricsAddr);
  ("health-probe-bind-address", string_flag set_probeAddr);
  ("leader-elect", bool_flag set_enableLeaderElection);
  ("metrics-secure", bool_flag set_secureMetrics);
  ("webhook-cert-path", string_flag set_webhookCertPath);
  ("webhook-cert-name", string_flag set_webhookCertName);
  ("webhook-cert-key", string_flag set_webhookCertKey);
  ("metrics-cert-path", string_flag set_metricsCertPath);
  ("metrics-cert-name", string_flag set_metricsCertName);
  ("metrics-cert-key", string_flag set_metricsCertKey);
  ("enable-http2", bool_flag set_enableHTTP2)].

(** Flags of linked packages: those defined before [main] runs (the package that
    loads the Kubernetes configuration), and those of [zap.Options.BindFlags];
    name, whether boolean, and which texts are accepted. *)
Class LibraryFlags := {
  init_flags : list (string * bool * (string → bool));
  zap_flags : list (string * bool * (string → bool))
}.
Definition library_flag (d : string * bool * (string → bool)) : string * flag_value flags :=
  let '(name, isBool, accepts) := d in
  (name, MkFlagValue isBool (λ v f, if accepts v then Some (add_library name v f) else None)).

(** Their names are valid flag names, all different, and none of [main]'s. *)
Class LibraryFlagsLaws `{!LibraryFlags} : Prop := {
  library_names_valid : Forall (λ n, valid_flag_name n = true) (init_flags.*1.*1 ++ zap_flags.*1.*1);
  library_names_fresh : NoDup (init_flags.*1.*1 ++ ownFlags.*1 ++ zap_flags.*1.*1)
}.

Section Manager.
Context {QO : QuantityOps} {LF : LibraryFlags}.

(** [flag.CommandLine] when it is parsed; [None] is the panic of a redefinition. *)
Definition commandLine : option (FlagSet flags) :=
  fs ← define_all (library_flag <$> init_flags) ∅;
  fs ← define_all ownFlags fs;
  define_all (library_flag <$> zap_flags) fs.

(** ** Options *)

(** [tls.Config], with the field the options set. *)
Record TLSConfig := MkTLSConfig { NextProtos : list string }.
Definition disableHTTP2 (c : TLSConfig) : TLSConfig := MkTLSConfig ["http/1.1"].

Definition tlsOpts (f : flags) : list (TLSConfig → TLSConfig) :=
  if negb (fl_enableHTTP2 f) then [disableHTTP2] else [].

(** [webhook.Options]. *)
Record WebhookOptions := MkWebhookOptions {
  wo_TLSOpts : list (TLSConfig → TLSConfig); wo_CertDir : string; wo_CertName : string; wo_KeyName : string
}.
Definition webhookServerOptions (f : flags) : WebhookOptions :=
  let o := MkWebhookOptions (tlsOpts f) "" "" "" in
  if (0 <? Z.of_nat (String.length (fl_webhookCertPath f)))
  then MkWebhookOptions (wo_TLSOpts o) (fl_webhookCertPath f) (fl_webhookCertName f) (fl_webhookCertKey f)
  else o.

(** [metricsserver.Options]; the only filter used is authentication and
    authorization. *)
Inductive FilterProvider := WithAuthenticationAndAuthorization.
Record MetricsOptions := MkMetricsOptions {
  mo_BindAddress : string; mo_SecureServing : bool; mo_FilterProvider : option FilterProvider;
  mo_TLSOpts : list (TLSConfig → TLSConfig); mo_CertDir : string; mo_CertName : string; mo_KeyName : string
}.
Definition metricsServerOptions (f : flags) : MetricsOptions :=
  let o := MkMetricsOptions (fl_metricsAddr f) (fl_secureMetrics f) None (tlsOpts f) "" "" "" in
  let o :=
    if fl_secureMetrics f
    then MkMetricsOptions (mo_BindAddress o) (mo_SecureServing o) (Some WithAuthenticationAndAuthorization)
           (mo_TLSOpts o) "" "" ""
    else o in
  if (0 <? Z.of_nat (String.length (fl_metricsCertPath f)))
  then MkMetricsOptions (mo_BindAddress o) (mo_SecureServing o) (mo_FilterProvider o) (mo_TLSOpts o)
         (fl_metricsCertPath f) (fl_metricsCertName f) (fl_metricsCertKey f)
  else o.

(** [ctrl.Options]. *)
Record ManagerOptions := MkManagerOptions {
  mgr_Metrics : MetricsOptions; mgr_WebhookServer : WebhookOptions; mgr_HealthProbeBindAddress : string;
  mgr_LeaderElection : bool; mgr_LeaderElectionID : string
}.
Definition managerOptions (f : flags) : ManagerOptions :=
  MkManagerOptions (metricsServerOptions f) (webhookServerOptions f) (fl_probeAddr f)
    (fl_enableLeaderElection f) "8677a919.enshrouded.io".

(** ** The controller's watches *)

Inductive watch :=
  | For (k : kind)
  | Owns (k : kind)
  | Watches (k : kind) (mapFunc : ObjectMeta → prog KubeE (list NamespacedName)).
Record ControllerBuilder := MkControllerBuilder { cb_Name : string; cb_Watches : list watch }.

(** What [SetupWithManager] builds. *)
Definition controllerBuilder : ControllerBuilder :=
  MkControllerBuilder "enshroudedserver"
    [For KServer; Owns KStatefulSet; Owns KService; Owns KNetworkPolicy; Owns KServiceAccount; Owns KRole;
     Owns KRoleBinding; Owns KPodDisruptionBudget; Watches KSecret findServersForSecret].

(** ** The calls of the process *)

Inductive Scheme := ClientGoScheme | ApiScheme (group version : string) (kinds : list string).
(** [SchemeBuilder] of the API package. *)
Definition GroupVersion_Version := "v1alpha1".
Definition SchemeBuilder : Scheme :=
  ApiScheme GroupVersion_Group GroupVersion_Version ["EnshroudedServer"; "EnshroudedServerList"].

Inductive manager_call :=
  | AddToScheme (s : Scheme)
  | GetConfig
  | NewManager (o : ManagerOptions)
  | IndexField (field : string) (f : EnshroudedServer → list string)
  | CompleteController (b : ControllerBuilder)
  (** [NewWebhookManagedBy(mgr, obj).WithValidator(v).WithDefaulter(d).Complete()]. *)
  | CompleteWebhook (withValidator withDefaulter : bool)
  | AddHealthzCheck (name : string)
  | AddReadyzCheck (name : string)
  | Start.
(** Every call answers with an [error]. *)
Definition ManagerE : effect := Effect manager_call (λ _, option error).

(** [utilruntime.Must(f())]. *)
Definition Must (c : manager_call) (k : prog ManagerE Z) : prog ManagerE Z :=
  e ← trigger (E := ManagerE) c; match e with Some e => Panic (Error e) | None => k end.
(** [if err := f(); err != nil { os.Exit(1) }]. *)
Definition or_exit (p : prog ManagerE (option error)) (k : prog ManagerE Z) : prog ManagerE Z :=
  e ← p; match e with Some _ => Ret 1 | None => k end.

Definition SetupWithManager : prog ManagerE (option error) :=
  e ← trigger (E := ManagerE) (IndexField ".spec.allSecretRefs" allSecretRefs);
  match e with
  | Some e => Ret (Some e)
  | None => trigger (E := ManagerE) (CompleteController controllerBuilder)
  end.
Definition SetupEnshroudedServerWebhookWithManager : prog ManagerE (option error) :=
  trigger (E := ManagerE) (CompleteWebhook true true).

(** [init] and then [main], for a command line and an environment; the result is
    the exit status. *)
Definition run_manager (f : flags) (e : environ) : prog ManagerE Z :=
  or_exit (trigger (E := ManagerE) GetConfig) (
  or_exit (trigger (E := ManagerE) (NewManager (managerOptions f))) (
  or_exit SetupWithManager (
  or_exit (if negb (bool_decide (Getenv e "ENABLE_WEBHOOKS" = "false"))
           then SetupEnshroudedServerWebhookWithManager else Ret None) (
  or_exit (trigger (E := ManagerE) (AddHealthzCheck "healthz")) (
  or_exit (trigger (E := ManagerE) (AddReadyzCheck "readyz")) (
  or_exit (trigger (E := ManagerE) Start) (
  Ret 0))))))).

Definition main (args : list string) (e : environ) : prog ManagerE Z :=
  Must (AddToScheme ClientGoScheme) (
  Must (AddToScheme SchemeBuilder) (
  match commandLine with
  | None => Panic "flag redefined"
  | Some formal =>
    match Parse formal args defaultFlags with
    | inl ErrHelp => Ret 0
    | inl _ => Ret 2
    | inr (f, _) => run_manager f e
    end
  end)).
End Manager.
