(* ===== verification/ManagerTheory.v ===== *)
(** * Theorems about the manager binary

    What a command line means, which calls start the operator and in which order,
    with which exit status, and which servers it opens. *)
From S2P Require Import Prelude GoStrings GoTime GoFlag Platform Instances Api Effects Kube Controller Manager.
Local Open Scope Z_scope.

(** ** The flag set of the process *)

Section CommandLine.
Context {LF : LibraryFlags} {LL : LibraryFlagsLaws}.

Lemma library_flag_names l : (library_flag <$> l).*1 = l.*1.*1.
Proof. induction l as [|[[n b] a] l IH]; [done|]. cbn in *. by rewrite IH. Qed.

Lemma own_names_valid n : n ∈ ownFlags.*1 → valid_flag_name n = true ∧ n ≠ "".
Proof.
  intros Hn. assert (Forall (λ n, valid_flag_name n = true ∧ n ≠ "") ownFlags.*1) as H.
  { repeat constructor; discriminate. }
  rewrite Forall_forall in H. by apply H.
Qed.

(** Defining every flag succeeds, and each keeps its meaning. *)
Lemma commandLine_ok :
  commandLine = Some (list_to_map (library_flag <$> zap_flags)
    ∪ (list_to_map ownFlags ∪ (list_to_map (library_flag <$> init_flags) ∪ ∅))).
Proof.
  pose proof library_names_valid as Hv. rewrite Forall_app, !Forall_forall in Hv. destruct Hv as [Hi Hz].
  pose proof library_names_fresh as Hd.
  apply NoDup_app in Hd as (Hd1 & Hd12 & (Hd2 & Hd23 & Hd3)%NoDup_app).
  unfold commandLine. apply bind_Some. eexists.
  split; [apply define_all_ok; rewrite library_flag_names; [done|by auto]|].
  assert (∀ n, n ∉ init_flags.*1.*1 → (list_to_map (library_flag <$> init_flags) ∪ ∅ : FlagSet flags) !! n = None) as H1.
  { intros n Hn. rewrite (right_id_L ∅ (∪)). apply not_elem_of_list_to_map_1. by rewrite library_flag_names. }
  apply bind_Some. eexists. split; [apply define_all_ok; [done|]|].
  { intros n Hn. split; [by apply own_names_valid|]. apply H1. intros Hn'. apply (Hd12 n Hn'), elem_of_app. by left. }
  apply define_all_ok; rewrite ?library_flag_names; [done|].
  intros n Hn. split; [by apply Hz|]. apply lookup_union_None. split.
  - apply not_elem_of_list_to_map_1. intros Hn'. by apply (Hd23 n).
  - apply H1. intros Hn'. apply (Hd12 n Hn'), elem_of_app. by right.
Qed.

Lemma commandLine_spec :
  ∃ formal, commandLine = Some formal
    ∧ (∀ n v, (n, v) ∈ ownFlags → formal !! n = Some v)
    ∧ ∀ n v, formal !! n = Some v → (n, v) ∈ ownFlags ∨ ∃ d, d ∈ init_flags ++ zap_flags ∧ library_flag d = (n, v).
Proof.
  eexists. split; [apply commandLine_ok|]. pose proof library_names_fresh as Hd.
  apply NoDup_app in Hd as (_ & _ & (Hd2 & Hd23 & _)%NoDup_app). split.
  - intros n v Hn. rewrite lookup_union_r.
    + apply lookup_union_Some_l. by apply elem_of_list_to_map_1.
    + apply not_elem_of_list_to_map_1. rewrite library_flag_names. apply Hd23. by apply (list_elem_of_fmap_2 fst _ (n, v)).
  - intros n v. rewrite (right_id_L ∅ (∪)).
    intros [H|[_ [H|[_ H]]%lookup_union_Some_raw]]%lookup_union_Some_raw;
      apply elem_of_list_to_map_2 in H; [right|by left|right];
      apply list_elem_of_fmap in H as (d & -> & H); exists d; split; [|done| |done]; apply elem_of_app; tauto.
Qed.

(** ** What a command line means *)

(** A command line that writes every flag of [f] out: with one or two dashes, and
    string values behind an equals sign or as the next argument. *)
Definition bool_text (b : bool) : string := if b then "true" else "false".
Definition print_flags (two next : bool) (f : flags) : list assignment :=
  let text n v := Assign two n (if next then FormNext v else FormEquals v) in
  let switch n b := Assign two n (if next && b then FormBare else FormEquals (bool_text b)) in
  [text "metrics-bind-address" (fl_metricsAddr f);
   text "metrics-cert-path" (fl_metricsCertPath f);
   text "metrics-cert-name" (fl_metricsCertName f);
   text "metrics-cert-key" (fl_metricsCertKey f);
   text "webhook-cert-path" (fl_webhookCertPath f);
   text "webhook-cert-name" (fl_webhookCertName f);
   text "webhook-cert-key" (fl_webhookCertKey f);
   switch "leader-elect" (fl_enableLeaderElection f);
   text "health-probe-bind-address" (fl_probeAddr f);
   switch "metrics-secure" (fl_secureMetrics f);
   switch "enable-http2" (fl_enableHTTP2 f)].

(** [f] with the library flags of [s]. *)
Definition with_library (s f : flags) : flags :=
  MkFlags (fl_metricsAddr f) (fl_metricsCertPath f) (fl_metricsCertName f) (fl_metricsCertKey f)
    (fl_webhookCertPath f) (fl_webhookCertName f) (fl_webhookCertKey f) (fl_enableLeaderElection f) (fl_probeAddr f)
    (fl_secureMetrics f) (fl_enableHTTP2 f) (fl_library s).

Section Assigned.
Context (formal : FlagSet flags) (Hf : ∀ n v, (n, v) ∈ ownFlags → formal !! n = Some v).

Lemma assigned_own i n v two form s :
  ownFlags !! i = Some (n, v) → form_ok v form = true →
  assigned formal (Assign two n form) s = Set_ v (form_value form) s.
Proof.
  intros Hi%list_elem_of_lookup_2 Hform. unfold assigned. cbn. rewrite (Hf n v Hi). cbn.
  destruct (own_names_valid n) as [Hv Hne]; [by apply (list_elem_of_fmap_2 fst _ (n, v))|].
  rewrite Hv, Hform, bool_decide_eq_false_2 by done. done.
Qed.

Lemma assigned_text i n set two (next : bool) v s :
  ownFlags !! i = Some (n, string_flag set) →
  assigned formal (Assign two n (if next then FormNext v else FormEquals v)) s = Some (set v s).
Proof. intros Hi. rewrite (assigned_own i n _ two _ s Hi); by destruct next. Qed.
Lemma assigned_switch i n set two (next b : bool) s :
  ownFlags !! i = Some (n, bool_flag set) →
  assigned formal (Assign two n (if next && b then FormBare else FormEquals (bool_text b))) s = Some (set b s).
Proof. intros Hi. rewrite (assigned_own i n _ two _ s Hi); by destruct next, b. Qed.

Lemma assigned_print two next f s : assigned_all formal (print_flags two next f) s = Some (with_library s f).
Proof.
  unfold print_flags. cbn [assigned_all].
  rewrite (assigned_text 0 _ set_metricsAddr) by done. cbn [mbind option_bind].
  rewrite (assigned_text 7 _ set_metricsCertPath) by done. cbn [mbind option_bind].
  rewrite (assigned_text 8 _ set_metricsCertName) by done. cbn [mbind option_bind].
  rewrite (assigned_text 9 _ set_metricsCertKey) by done. cbn [mbind option_bind].
  rewrite (assigned_text 4 _ set_webhookCertPath) by done. cbn [mbind option_bind].
  rewrite (assigned_text 5 _ set_webhookCertName) by done. cbn [mbind option_bind].
  rewrite (assigned_text 6 _ set_webhookCertKey) by done. cbn [mbind option_bind].
  rewrite (assigned_switch 2 _ set_enableLeaderElection) by done. cbn [mbind option_bind].
  rewrite (assigned_text 1 _ set_probeAddr) by done. cbn [mbind option_bind].
  rewrite (assigned_switch 3 _ set_secureMetrics) by done. cbn [mbind option_bind].
  rewrite (assigned_switch 10 _ set_enableHTTP2) by done. done.
Qed.
End Assigned.

(** C37: the command line of the operator can be written down and read back: all
    flags are defined without a clash, and parsing a line that writes out every
    setting (with one or two dashes, values attached or separate, switches bare or
    with a value) and ends in ["--"] gives exactly those settings and the arguments
    after it, whatever was set before. *)
Theorem flags_roundtrip :
  ∃ formal, commandLine = Some formal ∧ ∀ two next f s rest,
    Parse formal (concat (print_assignment <$> print_flags two next f) ++ "--" :: rest) s
    = inr (with_library s f, rest).
Proof.
  destruct commandLine_spec as (formal & Hc & Hown & _). exists formal. split; [done|].
  intros two next f s rest. rewrite (Parse_assignments _ _ _ _ (with_library s f)).
  - by apply Parse_done.
  - by apply assigned_print.
Qed.

(** ** Settings that only their own flag changes *)

(** The name an argument would set, were it read as a flag. *)
Definition arg_name (arg : string) : option string := (λ b, (split_equals b).1) <$> flag_body arg.

Section Frame.
Context {S : Type} (formal : FlagSet S) (Inv : S → Prop) (n : string).
Context (Hset : ∀ m f v s s', formal !! m = Some f → m ≠ n → Set_ f v s = Some s' → Inv s → Inv s').

Lemma parseOne_keeps args s s' args' :
  Forall (λ a, arg_name a ≠ Some n) args → parseOne formal args s = Seen s' args' → Inv s →
  Inv s' ∧ Forall (λ a, arg_name a ≠ Some n) args'.
Proof.
  intros Hargs. unfold parseOne. destruct args as [|arg rest]; [done|].
  apply Forall_cons in Hargs as [Ha Hrest]. unfold arg_name in Ha.
  destruct (flag_body arg) as [body|]; [|done]. case_decide; [done|]. case_match; [done|]. cbn in Ha.
  destruct (split_equals body) as [m value]. cbn in Ha. assert (m ≠ n) by congruence.
  destruct (formal !! m) as [f|] eqn:Hm; [|by case_match].
  assert (∀ v rest', set_flag m f v s rest' = Seen s' args' → Forall (λ a, arg_name a ≠ Some n) rest' → Inv s →
    Inv s' ∧ Forall (λ a, arg_name a ≠ Some n) args') as Hgo.
  { intros v rest'. unfold set_flag. case_match eqn:E; [|done]. intros [= <- <-]. eauto. }
  destruct value as [v|]; [by eauto|]. case_match; [by eauto|].
  destruct rest as [|v rest]; [done|]. apply Forall_cons in Hrest as [_ Hrest]. eauto.
Qed.

Lemma Parse_keeps args s s' rest :
  Forall (λ a, arg_name a ≠ Some n) args → Parse formal args s = inr (s', rest) → Inv s → Inv s'.
Proof.
  unfold Parse. generalize (length args) as fuel. intros fuel. revert args s.
  induction fuel as [|fuel IH]; intros args s Hargs; cbn;
    destruct (parseOne formal args s) as [s1 args1|args1|] eqn:E; try done; try congruence; intros HP Hs.
  - destruct (parseOne_keeps _ _ _ _ Hargs E Hs). congruence.
  - destruct (parseOne_keeps _ _ _ _ Hargs E Hs). eauto.
Qed.
End Frame.
End CommandLine.

(** ** Starting the manager *)

Section Startup.
Context {QO : QuantityOps} {LF : LibraryFlags} {LL : LibraryFlagsLaws}.

(** The calls that start the operator with settings [f]. *)
Definition startup (f : flags) (e : environ) : list manager_call :=
  [GetConfig; NewManager (managerOptions f); IndexField ".spec.allSecretRefs" allSecretRefs;
   CompleteController controllerBuilder]
  ++ (if decide (Getenv e "ENABLE_WEBHOOKS" = "false") then [] else [CompleteWebhook true true])
  ++ [AddHealthzCheck "healthz"; AddReadyzCheck "readyz"; Start].

(** All calls of the process, and its exit status if they succeed. *)
Definition plan (formal : FlagSet flags) (args : list string) (e : environ) : list manager_call * Z :=
  let '(l, code) :=
    match Parse formal args defaultFlags with
    | inl ErrHelp => ([], 0)
    | inl _ => ([], 2)
    | inr (f, _) => (startup f e, 0)
    end in
  (AddToScheme ClientGoScheme :: AddToScheme SchemeBuilder :: l, code).

Definition is_scheme (c : manager_call) : bool := match c with AddToScheme _ => true | _ => false end.
(** How the process ends when a call fails. *)
Definition on_error (c : manager_call) (err : error) : outcome Z :=
  if is_scheme c then Panics (Error err) else Returns 1.

(** A trace that works through a list of calls and stops at the first error. *)
Fixpoint follow (l : list manager_call) (code : Z) (tr : list (event ManagerE)) (o : outcome Z) : Prop :=
  match l, tr with
  | [], [] => o = Returns code
  | c :: l, Ev c' x :: tr =>
    c' = c ∧ match (x : option error) with
             | None => follow l code tr o
             | Some err => tr = [] ∧ o = on_error c err
             end
  | _, _ => False
  end.

Section Follow.
Context (N : env ManagerE) (s' : N) (o : outcome Z) (code : Z).
Local Abbreviation follows l k := (∀ s tr, runs N k s tr s' o → follow l code tr o).

Lemma follow_ret : follows [] (Ret code).
Proof. intros s tr (-> & _ & ->). done. Qed.
Lemma follow_exit c l k : is_scheme c = false → follows l k → follows (c :: l) (or_exit (trigger (E := ManagerE) c) k).
Proof.
  intros Hc Hk s tr (x & s1 & tr' & _ & -> & Hr). split; [done|]. destruct x as [err|]; [|by eapply Hk].
  destruct Hr as (-> & _ & ->). unfold on_error. by rewrite Hc.
Qed.
Lemma follow_must c l k : is_scheme c = true → follows l k → follows (c :: l) (Must c k).
Proof.
  intros Hc Hk s tr (x & s1 & tr' & _ & -> & Hr). split; [done|]. destruct x as [err|]; [|by eapply Hk].
  destruct Hr as (-> & _ & ->). unfold on_error. by rewrite Hc.
Qed.
Lemma follow_setup l k : follows l k →
  follows (IndexField ".spec.allSecretRefs" allSecretRefs :: CompleteController controllerBuilder :: l)
    (or_exit SetupWithManager k).
Proof.
  intros Hk s tr (x & s1 & tr' & _ & -> & Hr). split; [done|].
  destruct x as [err|]; [by destruct Hr as (-> & _ & ->)|].
  destruct Hr as (x & s2 & tr2 & _ & -> & Hr). split; [done|].
  destruct x as [err|]; [by destruct Hr as (-> & _ & ->)|by eapply Hk].
Qed.
End Follow.

Lemma run_manager_follows N f e s tr s' o :
  runs N (run_manager f e) s tr s' o → follow (startup f e) 0 tr o.
Proof.
  revert s tr. unfold run_manager, startup. cbn [app].
  do 2 (apply follow_exit; [done|]). apply follow_setup. case_decide as Hw; cbn [app].
  - rewrite bool_decide_eq_true_2 by done. cbn [negb].
    change (or_exit (Ret None) ?k) with k. do 3 (apply follow_exit; [done|]). apply follow_ret.
  - rewrite bool_decide_eq_false_2 by done. cbn [negb].
    do 4 (apply follow_exit; [done|]). apply follow_ret.
Qed.

Lemma main_follows N args e s tr s' o formal :
  commandLine = Some formal → runs N (main args e) s tr s' o →
  follow (plan formal args e).1 (plan formal args e).2 tr o.
Proof.
  intros Hc. revert s tr. unfold main, plan. rewrite Hc.
  destruct (Parse formal args defaultFlags) as [[]|[f rest]]; cbn [fst snd];
    do 2 (apply follow_must; [done|]); try apply follow_ret.
  intros s tr. apply run_manager_follows.
Qed.

Definition call_of (ev : event ManagerE) : manager_call := match ev with Ev c _ => c end.
Definition answered_nil (ev : event ManagerE) : Prop :=
  match ev with Ev _ x => (x : option error) = None end.

Lemma follow_spec l code tr o :
  follow l code tr o →
  (call_of <$> tr) `prefix_of` l ∧ Forall answered_nil (removelast tr)
  ∧ match last tr with
    | Some (Ev c (Some err)) => o = on_error c err
    | _ => call_of <$> tr = l ∧ o = Returns code
    end.
Proof.
  revert tr. induction l as [|c l IH]; intros [|[c' x] tr]; try done.
  cbn [follow]. intros [E H]. subst c'. destruct x as [err|].
  { destruct H as [-> ->]. split_and!; [|constructor|done]. cbn. apply prefix_cons, prefix_nil. }
  destruct (IH tr H) as (Hp & Hn & Hl). split_and!.
  - by apply prefix_cons.
  - destruct tr as [|ev tr]; [constructor|]. by constructor.
  - destruct tr as [|ev tr]; [destruct Hl as [<- ->]; done|].
    change (last (Ev (E := ManagerE) c None :: ev :: tr)) with (last (ev :: tr)).
    destruct (last (ev :: tr)) as [[c2 [err|]]|]; [done| |]; destruct Hl as [<- ->]; done.
Qed.

(** C29: the operator starts in order.  Whatever the environment answers, the calls
    of the process are a prefix of its plan: the two schemes, then, unless the
    command line is malformed (status 2) or asks for help (status 0), the cluster
    configuration, the manager with the options of the flags, the Secret index,
    the controller, the webhooks unless [ENABLE_WEBHOOKS] is ["false"], the two
    probes, and the start.  Every call but the last succeeded; the first error
    ends the process, with status 1 or, for a scheme, a panic; without an error the
    whole plan was carried out. *)
Theorem startup_in_order N args e s tr s' o :
  runs N (main args e) s tr s' o →
  ∃ formal, commandLine = Some formal
    ∧ (call_of <$> tr) `prefix_of` (plan formal args e).1
    ∧ Forall answered_nil (removelast tr)
    ∧ match last tr with
      | Some (Ev c (Some err)) => o = on_error c err
      | _ => call_of <$> tr = (plan formal args e).1 ∧ o = Returns (plan formal args e).2
      end.
Proof.
  intros Hr. destruct commandLine_spec as (formal & Hc & _). exists formal. split; [done|].
  by apply follow_spec, (main_follows N args e s tr s' o formal).
Qed.

(** ** The servers of the manager *)

Definition apply_tls (opts : list (TLSConfig → TLSConfig)) (c : TLSConfig) : TLSConfig :=
  foldl (λ c f, f c) c opts.

Lemma prefix_elem {A} (l1 l2 : list A) x : l1 `prefix_of` l2 → x ∈ l1 → x ∈ l2.
Proof. intros [k ->] H. apply elem_of_app. by left. Qed.

(** The options of a manager that was created come from the flags parsed. *)
Lemma manager_options N args e s tr s' o opts :
  runs N (main args e) s tr s' o → NewManager opts ∈ call_of <$> tr →
  ∃ formal f rest, commandLine = Some formal ∧ Parse formal args defaultFlags = inr (f, rest) ∧ opts = managerOptions f.
Proof.
  intros Hr Hin. destruct commandLine_spec as (formal & Hc & _).
  apply (main_follows _ _ _ _ _ _ _ formal) in Hr; [|done]. apply follow_spec in Hr as (Hp & _ & _).
  eapply prefix_elem in Hin; [|exact Hp]. revert Hin. unfold plan.
  destruct (Parse formal args defaultFlags) as [err|[f rest]] eqn:HP.
  - destruct err; cbn [fst]; rewrite !elem_of_cons, elem_of_nil; naive_solver.
  - intros Hin. exists formal, f, rest. split_and!; [done|done|]. revert Hin. cbn [fst]. unfold startup.
    case_decide; cbn [app]; rewrite !elem_of_cons, elem_of_nil; naive_solver.
Qed.

(** A setter of [main] that does not belong to flag [n] keeps the projection [p]. *)
Definition keeps {A} (p : flags → A) (n : string) : Prop :=
  Forall (λ d, d.1 = n ∨ ∀ v s s', Set_ d.2 v s = Some s' → p s' = p s) ownFlags.
Ltac keeps_tac :=
  unfold keeps, ownFlags; repeat (constructor; [|]); try done;
  first [by left|right; intros v s s'; cbn; destruct (ParseBool v); cbn; by intros [= <-]].
Lemma keeps_http2 : keeps fl_enableHTTP2 "enable-http2".
Proof. keeps_tac. Qed.
Lemma keeps_secure : keeps fl_secureMetrics "metrics-secure".
Proof. keeps_tac. Qed.

Lemma library_flag_Set d v s s' :
  Set_ (library_flag d).2 v s = Some s' → s' = add_library d.1.1 v s.
Proof. destruct d as [[n b] a]. cbn. case_match; naive_solver. Qed.

(** An argument list that never names [n] leaves the projection at its default. *)
Lemma parse_default {A} (p : flags → A) n formal args f rest :
  keeps p n → (∀ m v s, p (add_library m v s) = p s) → commandLine = Some formal →
  Forall (λ a, arg_name a ≠ Some n) args →
  Parse formal args defaultFlags = inr (f, rest) → p f = p defaultFlags.
Proof.
  intros Hk Hlib Hc Hargs HP. destruct commandLine_spec as (formal' & Hc' & _ & Hall).
  assert (formal' = formal) as -> by congruence.
  refine (Parse_keeps formal (λ s, p s = p defaultFlags) n _ args defaultFlags f rest Hargs HP eq_refl).
  intros m v x s s' Hm Hne Hset <-. destruct (Hall m v Hm) as [Hown|(d & _ & Hd)].
  - unfold keeps in Hk. rewrite Forall_forall in Hk. destruct (Hk _ Hown) as [|H]; [done|]. by apply (H x).
  - pose proof (library_flag_Set d x s s') as H. rewrite Hd in H. by rewrite (H Hset).
Qed.

(** The servers are closed by default.  Unless an argument names
    [enable-http2], the webhook and metrics servers speak HTTP/1.1 only; unless one
    names [metrics-secure], the metrics are served over HTTPS to authenticated and
    authorized clients. *)
Theorem servers_closed_by_default N args e s tr s' o opts :
  runs N (main args e) s tr s' o → NewManager opts ∈ call_of <$> tr →
  (Forall (λ a, arg_name a ≠ Some "enable-http2") args → ∀ c,
    NextProtos (apply_tls (wo_TLSOpts (mgr_WebhookServer opts)) c) = ["http/1.1"]
    ∧ NextProtos (apply_tls (mo_TLSOpts (mgr_Metrics opts)) c) = ["http/1.1"])
  ∧ (Forall (λ a, arg_name a ≠ Some "metrics-secure") args →
    mo_SecureServing (mgr_Metrics opts) = true
    ∧ mo_FilterProvider (mgr_Metrics opts) = Some WithAuthenticationAndAuthorization).
Proof.
  intros Hr Hin. destruct (manager_options _ _ _ _ _ _ _ _ Hr Hin) as (formal & f & rest & Hc & HP & ->).
  split; intros Hargs.
  - pose proof (parse_default _ _ _ _ _ _ keeps_http2 (λ _ _ _, eq_refl) Hc Hargs HP) as E.
    unfold managerOptions, webhookServerOptions, metricsServerOptions, tlsOpts. rewrite E. intros c.
    split; repeat case_match; done.
  - pose proof (parse_default _ _ _ _ _ _ keeps_secure (λ _ _ _, eq_refl) Hc Hargs HP) as E.
    unfold managerOptions, metricsServerOptions. rewrite E. cbn. by case_match.
Qed.
End Startup.

(** ** Witnesses *)

Import Model.

(** The flags of the linked packages. *)
#[local] Instance library_flags : LibraryFlags := {|
  init_flags := [("kubeconfig", false, λ _, true)];
  zap_flags := [("zap-devel", true, λ v, bool_decide (is_Some (ParseBool v)));
    ("zap-encoder", false, λ v, bool_decide (v ∈ ["json"; "console"]));
    ("zap-log-level", false, λ v, bool_decide (v ∈ ["debug"; "info"; "error"; "panic"]));
    ("zap-stacktrace-level", false, λ v, bool_decide (v ∈ ["info"; "error"; "panic"]));
    ("zap-time-encoding", false, λ v, bool_decide (v ∈ ["epoch"; "millis"; "nano"; "iso8601"; "rfc3339"]))]
|}.
#[local] Instance library_flags_laws : LibraryFlagsLaws.
Proof.
  split; [repeat constructor|].
  apply (bool_decide_unpack _). vm_compute. exact I.
Qed.

(** The arguments of the deployment in [config/]. *)
Definition deployed_args : list string :=
  ["--metrics-bind-address=:8443"; "--leader-elect"; "--health-probe-bind-address=:8081";
   "--webhook-cert-path=/tmp/k8s-webhook-server/serving-certs"].
Definition deployed_flags : flags :=
  MkFlags ":8443" "" "tls.crt" "tls.key" "/tmp/k8s-webhook-server/serving-certs" "tls.crt" "tls.key" true ":8081"
    true false [].

Lemma flags_roundtrip_witness :
  (∃ formal, commandLine = Some formal ∧
    Parse formal (concat (print_assignment <$> print_flags true false deployed_flags) ++ ["--"; "left"]) defaultFlags
    = inr (deployed_flags, ["left"]))
  ∧ (Parse (default ∅ commandLine) deployed_args defaultFlags = inr (deployed_flags, [])).
Proof.
  split; [|vm_compute; reflexivity]. destruct flags_roundtrip as (formal & Hc & H).
  exists formal. split; [exact Hc|]. exact (H true false deployed_flags defaultFlags ["left"]).
Defined.

(** A cluster that accepts everything but the start, which ends with an error. *)
Definition failing_start : ∀ c : ManagerE, resp c := λ c,
  match c return option error with Start => Some (errorf "leader election lost") | _ => None end.
Definition failing_run : list (event ManagerE) * outcome Z := drive failing_start (main deployed_args ∅).
Lemma failing_run_runs : runs (free_env any) (main deployed_args ∅) () failing_run.1 () failing_run.2.
Proof. by apply (drive_runs any failing_start). Qed.

Lemma startup_in_order_witness :
  (∃ formal, commandLine = Some formal
    ∧ (call_of <$> failing_run.1) `prefix_of` (plan formal deployed_args ∅).1
    ∧ Forall answered_nil (removelast failing_run.1)
    ∧ match last failing_run.1 with
      | Some (Ev c (Some err)) => failing_run.2 = on_error c err
      | _ => call_of <$> failing_run.1 = (plan formal deployed_args ∅).1
             ∧ failing_run.2 = Returns (plan formal deployed_args ∅).2
      end)
  ∧ length failing_run.1 = 10%nat ∧ failing_run.2 = Returns 1.
Proof.
  split; [|vm_compute; split; reflexivity].
  exact (startup_in_order (free_env any) deployed_args ∅ () _ () _ failing_run_runs).
Defined.

Lemma servers_closed_by_default_witness :
  NextProtos (apply_tls (wo_TLSOpts (mgr_WebhookServer (managerOptions deployed_flags))) (MkTLSConfig ["h2"])) = ["http/1.1"]
  ∧ mo_FilterProvider (mgr_Metrics (managerOptions deployed_flags)) = Some WithAuthenticationAndAuthorization.
Proof.
  assert (NewManager (managerOptions deployed_flags) ∈ call_of <$> failing_run.1) as Hin.
  { apply (list_elem_of_lookup_2 _ 3). vm_compute. reflexivity. }
  destruct (servers_closed_by_default (free_env any) deployed_args ∅ () _ () _ _ failing_run_runs Hin) as [H1 H2].
  split.
  - apply H1. apply (bool_decide_unpack _); vm_compute; exact I.
  - apply H2. apply (bool_decide_unpack _); vm_compute; exact I.
Defined.
