(* ===== verification/Footprint.v ===== *)
(** * What the controller may do

    An abstract specification of the reconciler: for a given EnshroudedServer,
    [may_call] lists every call to the cluster that reconciling it can make, with
    the exact object written.  The theorem of this file is that the code stays
    within it whatever the API server answers; the safety theorems of the
    development are consequences. *)
From S2P Require Import Prelude GoStrings GoTime GoCodec Platform Api Effects Kube Builders Config Cron Windows Backup Vpa Guards Controller.
Local Open Scope go_scope.
Local Open Scope Z_scope.

(** ** Walking through a program *)

Section Calls.
Context {QO : QuantityOps}.

Lemma calls_only_call R (G : KubeE → Prop) {A} (c : KubeE) (f : resp c → prog KubeE A) :
  G c → (∀ x, R c x → calls_only R G (f x)) → calls_only R G (trigger c ≫= f).
Proof. intros. by apply calls_only_vis. Qed.

Lemma calls_only_trigger R (G : KubeE → Prop) (c : KubeE) : G c → calls_only R G (trigger c).
Proof. intros. by apply calls_only_vis. Qed.

Lemma calls_only_and_then R (G : KubeE → Prop) (p q : step) :
  calls_only R G p → calls_only R G q → calls_only R G (p ;;? q).
Proof. intros Hp Hq. apply calls_only_bind; [done|]. by intros [e|]. Qed.
End Calls.

(** One step of the walk: calls become goals about the call, answers are split. *)
Ltac walk_step :=
  lazymatch goal with
  | |- calls_only _ _ (Ret _) => apply calls_only_ret
  | |- calls_only _ _ (fail _) => apply calls_only_ret
  | |- calls_only _ _ nil_error => apply calls_only_ret
  | |- calls_only _ _ (Panic _) => apply calls_only_panic
  | |- calls_only _ _ OutOfFuel => exact I
  | |- calls_only _ _ (and_then _ _) => apply calls_only_and_then
  | |- calls_only _ _ (trigger _ ≫= _) => apply calls_only_call; [|intros ? ?]
  | |- calls_only _ _ (trigger _) => apply calls_only_trigger
  | |- calls_only _ _ (_ ≫= _) => apply calls_only_bind; [|intros ?]
  | |- calls_only _ _ (match ?x with _ => _ end) => destruct x eqn:?
  | |- calls_only _ _ (let _ := _ in _) => cbv zeta
  end.
Ltac unfold_calls := unfold get, create, update, delete_obj, status_update, list_snapshots,
  list_servers, publish_metrics, drop_metrics, now, sleep.
Ltac walk := unfold_calls; repeat walk_step.

(** ** The specification *)

Section Footprint.
Context {QO : QuantityOps} {UT : UnicodeTables} {TZ : TzDatabase} {MO : MetaOps} {UO : UnstructuredOps} {SO : SortOps}.

(** Readings the clock may give. *)
Context (clock : Time → Prop).
(** What is known of every object the API server answers a read or an update
    with. *)
Context (P : ∀ k, object k → Prop).

(** Players are connected, updates wait for them, and no window is open. *)
Definition protected_at (server : EnshroudedServer) (t : Time) : bool :=
  up_DeferWhilePlaying (sp_UpdatePolicy (es_Spec server))
  && (0 <? st_ActivePlayers (es_Status server))
  && negb (Cron.anyWindow t (up_MaintenanceWindows (sp_UpdatePolicy (es_Spec server)))).

(** [t] was read from the clock, or does not matter. *)
Definition sampled (server : EnshroudedServer) (t : Time) : Prop :=
  up_MaintenanceWindows (sp_UpdatePolicy (es_Spec server)) = []
  ∨ up_DeferWhilePlaying (sp_UpdatePolicy (es_Spec server)) && (0 <? st_ActivePlayers (es_Status server)) = false
  ∨ clock t.

(** An API server that answers for the object it was asked about. *)
Definition honest (c : KubeE) : resp c → Prop :=
  match c return controller_resp c → Prop with
  | Get k nn => λ r, ∀ o, r = Ok o → obj_key k o = nn ∧ P k o
  | Create k o => λ r, ∀ o', r = Ok o' → obj_key k o' = obj_key k o
  | Update k o => λ r, ∀ o', r = Ok o' → obj_key k o' = obj_key k o ∧ P k o'
  | Delete _ _ => λ _, True
  | StatusUpdate o => λ r, ∀ o', r = Ok o' → meta_key (es_Meta o') = meta_key (es_Meta o)
  | ListSnapshots ns label value => λ r, ∀ l, r = Ok l →
      Forall (λ u, u_GetNamespace u = ns ∧ u_GetLabels u !! label = Some value) l
  | ListServersByField _ _ _ => λ _, True
  | Now => clock
  | Sleep _ | PublishMetrics _ | DropMetrics _ _ _ => λ _, True
  end.

Definition pvc_nn (server : EnshroudedServer) := NN (es_Namespace server) (pvc_name server).
Definition config_nn (server : EnshroudedServer) := NN (es_Namespace server) (config_secret_name server).
Definition netpol_nn (server : EnshroudedServer) := NN (es_Namespace server) (es_Name server +:+ "-netpol").

(** Names of the Secrets a reconciliation reads. *)
Definition secret_reads (server : EnshroudedServer) : list string :=
  config_secret_name server :: allSecretRefs server
  ++ match bk_S3 (sp_Backup (es_Spec server)) with Some s3 => [s3_CredentialsSecretRef s3] | None => [] end.

Definition preUpdateName (server : EnshroudedServer) (t : Time) : string :=
  es_Name server +:+ "-pre-update-" +:+ itoa (unix t).
Definition scheduledName (server : EnshroudedServer) (t : Time) : string :=
  es_Name server +:+ "-" +:+ itoa (unix t).

(** What is read. *)
Definition may_get (server : EnshroudedServer) (k : kind) (nn : NamespacedName) : Prop :=
  match k with
  | KServer => False
  | KStatefulSet | KService | KPodDisruptionBudget => nn = server_nn server
  | KPersistentVolumeClaim => nn = pvc_nn server
  | KSecret => nn_Namespace nn = es_Namespace server ∧ nn_Name nn ∈ secret_reads server
  | KNetworkPolicy => nn = netpol_nn server
  | KServiceAccount | KRole | KRoleBinding => nn = sidecar_nn server
  | KVolumeSnapshot => ∃ t, clock t ∧ nn = NN (es_Namespace server) (preUpdateName server t)
  | KVerticalPodAutoscaler => nn = server_nn server ∨ nn = NN (es_Namespace server) "__crd-probe__"
  end.

Definition owned (server : EnshroudedServer) (m m' : ObjectMeta) : Prop :=
  SetControllerReference (es_Meta server) m = Ok m'.

(** A phase with the replicas and the Ready condition that go with it. *)
Definition classified (phase : string) (replicas : Z) (ready : string * string * string) : Prop :=
  (phase = EnshroudedServerPhasePending ∧ replicas = 0
   ∧ ready = ("False", "StatefulSetNotFound", "StatefulSet has not been created yet"))
  ∨ ∃ st, replicas = sts_ReadyReplicas st ∧ classifyStatefulSet st = (phase, ready).

Definition error_status (server : EnshroudedServer) : EnshroudedServerStatus :=
  let st := es_Status server in
  MkEnshroudedServerStatus EnshroudedServerPhaseError (st_ReadyReplicas st)
    (st_ActivePlayers st) (st_GameVersion st) (st_UpdateDeferred st) (st_Conditions st).

Definition whenIdle (server : EnshroudedServer) : Prop :=
  vsc_Enabled (sp_VerticalScaling (es_Spec server)) = true
  ∧ vsc_UpdateMode (sp_VerticalScaling (es_Spec server)) = VPAUpdateModeWhenIdle.

(** Memory is not lowered while players are connected. *)
Definition memory_kept (server : EnshroudedServer) (old new : ResourceList) : Prop :=
  0 < st_ActivePlayers (es_Status server) →
  ∀ cur, old !! "memory" = Some cur → ∃ m, new !! "memory" = Some m ∧ (m = cur ∨ 0 ≤ q_Cmp m cur).

(** Calls of [applyVPARecommendation]: requests of the game container change,
    nothing else does, and connected players keep their memory. *)
Inductive vpa_apply_call (server : EnshroudedServer) : controller_call → Prop :=
  | va_get_vpa : vpa_apply_call server (Get KVerticalPodAutoscaler (server_nn server))
  | va_get_sts : vpa_apply_call server (Get KStatefulSet (server_nn server))
  | va_update sts i c rl :
      whenIdle server → P KStatefulSet sts → obj_key KStatefulSet sts = server_nn server →
      sts_containers sts !! i = Some c → c_Name c = "enshrouded-server" →
      memory_kept server (rr_Requests (c_Resources c)) rl →
      vpa_apply_call server (Update KStatefulSet
        (set_containers (<[i := set_container_requests rl c]> (sts_containers sts)) sts)).

Inductive may_call (server : EnshroudedServer) : controller_call → Prop :=
  | mc_now : may_call server Now
  | mc_sleep : may_call server (Sleep pollInterval)
  | mc_get k nn : may_get server k nn → may_call server (Get k nn)
  | mc_metrics m :
      sm_namespace m = es_Namespace server → sm_name m = es_Name server →
      may_call server (PublishMetrics m)
  (** status: the fields the sidecar owns are written back as they were read *)
  | mc_status t phase replicas ready d :
      clock t → classified phase replicas ready →
      may_call server (StatusUpdate (set_es_status (newStatus t server phase replicas ready d) server))
  | mc_status_error : may_call server (StatusUpdate (set_es_status (error_status server) server))
  (** configuration Secret *)
  | mc_create_config data m :
      user_groups_mode server = true → owned server (sec_Meta (desiredConfigSecret server data)) m →
      may_call server (Create KSecret (MkSecret m {[configSecretKey := data]}))
  | mc_update_config data existing :
      user_groups_mode server = true → obj_key KSecret existing = config_nn server →
      may_call server (Update KSecret (MkSecret (sec_Meta existing) {[configSecretKey := data]}))
  | mc_delete_config existing :
      user_groups_mode server = false → obj_key KSecret existing = config_nn server →
      may_call server (Delete KSecret existing)
  (** the volume is only ever created *)
  | mc_create_pvc size : may_call server (Create KPersistentVolumeClaim (desiredPVC server size))
  (** sidecar RBAC *)
  | mc_create_sa m :
      ms_Enabled (sp_MetricsSidecar (es_Spec server)) = true → owned server (sidecar_meta server) m →
      may_call server (Create KServiceAccount (MkServiceAccount m))
  | mc_create_role m :
      ms_Enabled (sp_MetricsSidecar (es_Spec server)) = true → owned server (sidecar_meta server) m →
      may_call server (Create KRole (MkRole m (role_Rules (desiredRole server))))
  | mc_update_role existing :
      ms_Enabled (sp_MetricsSidecar (es_Spec server)) = true → obj_key KRole existing = sidecar_nn server →
      may_call server (Update KRole (MkRole (role_Meta existing) (role_Rules (desiredRole server))))
  | mc_create_rb m :
      ms_Enabled (sp_MetricsSidecar (es_Spec server)) = true → owned server (sidecar_meta server) m →
      may_call server (Create KRoleBinding
        (MkRoleBinding m (rb_Subjects (desiredRoleBinding server)) (rb_RoleRef (desiredRoleBinding server))))
  (** disruption budget: no disruption exactly while players are protected *)
  | mc_create_pdb m t :
      sampled server t → let v := FromInt (if protected_at server t then 0 else 1) in
      owned server (pdb_Meta (desiredPDB server v)) m →
      may_call server (Create KPodDisruptionBudget (MkPodDisruptionBudget m (Some v) (pdb_Selector (desiredPDB server v))))
  | mc_update_pdb existing t :
      sampled server t → let v := FromInt (if protected_at server t then 0 else 1) in
      obj_key KPodDisruptionBudget existing = server_nn server →
      may_call server (Update KPodDisruptionBudget (set_max_unavailable v existing))
  (** vertical autoscaler *)
  | mc_delete_vpa existing :
      vsc_Enabled (sp_VerticalScaling (es_Spec server)) = false →
      obj_key KVerticalPodAutoscaler existing = server_nn server →
      may_call server (Delete KVerticalPodAutoscaler existing)
  | mc_create_vpa desired :
      vsc_Enabled (sp_VerticalScaling (es_Spec server)) = true →
      u_SetControllerReference (es_Meta server) (desiredVPA server) = Ok desired →
      may_call server (Create KVerticalPodAutoscaler desired)
  | mc_update_vpa existing u1 u2 :
      vsc_Enabled (sp_VerticalScaling (es_Spec server)) = true →
      obj_key KVerticalPodAutoscaler existing = server_nn server →
      u_SetNestedField existing (JStr (vpaUpdateMode server)) ["spec"; "updatePolicy"; "updateMode"] = Ok u1 →
      u_SetNestedField u1 (JList [containerPolicy server]) ["spec"; "resourcePolicy"; "containerPolicies"] = Ok u2 →
      may_call server (Update KVerticalPodAutoscaler u2)
  (** network policy, service *)
  | mc_create_netpol m :
      owned server (np_Meta (desiredNetworkPolicy server)) m →
      may_call server (Create KNetworkPolicy (MkNetworkPolicy m (np_Spec (desiredNetworkPolicy server))))
  | mc_update_netpol existing :
      obj_key KNetworkPolicy existing = netpol_nn server →
      may_call server (Update KNetworkPolicy (MkNetworkPolicy (np_Meta existing) (np_Spec (desiredNetworkPolicy server))))
  | mc_create_service m :
      owned server (svc_Meta (desiredService server)) m →
      may_call server (Create KService (MkService m (svc_Type (desiredService server))
        (svc_Selector (desiredService server)) (svc_Ports (desiredService server)) (svc_ClusterIP (desiredService server))))
  | mc_update_service existing :
      obj_key KService existing = server_nn server →
      may_call server (Update KService (MkService (svc_Meta existing) (svc_Type (desiredService server))
        (svc_Selector (desiredService server)) (svc_Ports (desiredService server)) (svc_ClusterIP existing)))
  (** the game server: only while players are not protected *)
  | mc_create_sts t hash m :
      sampled server t → protected_at server t = false →
      owned server (sts_Meta (buildStatefulSet server hash)) m →
      may_call server (Create KStatefulSet (MkStatefulSet m (sts_Spec (buildStatefulSet server hash))
        (sts_Status (buildStatefulSet server hash))))
  | mc_update_sts t hash existing :
      sampled server t → protected_at server t = false → P KStatefulSet existing →
      obj_key KStatefulSet existing = server_nn server →
      may_call server (Update KStatefulSet (set_template (sts_Template (sts_Spec (buildStatefulSet server hash)))
        (sts_Replicas (sts_Spec (buildStatefulSet server hash))) existing))
  (** snapshots *)
  | mc_create_presnapshot t t' snap e1 e2 e3 :
      sampled server t → protected_at server t = false → clock t' →
      newSnapshot server (preUpdateName server t') (preUpdateLabels server) e1 e2 e3 = Ok snap →
      may_call server (Create KVolumeSnapshot snap)
  | mc_create_snapshot t t' snap e1 e2 e3 :
      vsb_Enabled (bk_VolumeSnapshot (sp_Backup (es_Spec server))) = true →
      clock t → Cron.anyWindow t [vsb_Schedule (bk_VolumeSnapshot (sp_Backup (es_Spec server)))] = true →
      clock t' →
      newSnapshot server (scheduledName server t') (snapshotLabels server) e1 e2 e3 = Ok snap →
      may_call server (Create KVolumeSnapshot snap)
  | mc_list_snapshots :
      vsb_Enabled (bk_VolumeSnapshot (sp_Backup (es_Spec server))) = true →
      may_call server (ListSnapshots (es_Namespace server) "enshrouded.io/server" (es_Name server))
  | mc_delete_snapshot snap :
      vsb_Enabled (bk_VolumeSnapshot (sp_Backup (es_Spec server))) = true →
      u_GetNamespace snap = es_Namespace server →
      u_GetLabels snap !! "enshrouded.io/server" = Some (es_Name server) →
      may_call server (Delete KVolumeSnapshot snap)
  (** vertical scaling of the game server *)
  | mc_apply_vpa c : vpa_apply_call server c → may_call server c.
End Footprint.

(** ** The code stays within the specification *)

Create HintDb footprint.
#[export] Hint Constructors may_call : footprint.
#[export] Hint Unfold may_get owned pvc_nn config_nn netpol_nn : footprint.

(** Use what an honest answer says. *)
Ltac use_answers :=
  repeat match goal with
  | H : honest _ _ (Get _ _) _ |- _ => destruct (H _ eq_refl); clear H
  | H : honest _ _ (Update _ _) _ |- _ => destruct (H _ eq_refl); clear H
  | H : honest _ _ (StatusUpdate _) _ |- _ => specialize (H _ eq_refl)
  | H : honest _ _ (ListSnapshots _ _ _) _ |- _ => specialize (H _ eq_refl)
  end.

Section Stays.
Context {QO : QuantityOps} {UT : UnicodeTables} {TZ : TzDatabase} {MO : MetaOps} {UO : UnstructuredOps} {SO : SortOps}.
Context {SL : SortLaws}.
Context (clock : Time → Prop) (P : ∀ k, object k → Prop) (server : EnshroudedServer).

Local Abbreviation R := (honest clock P).
Local Abbreviation stays := (calls_only R (may_call clock P server)).

Lemma secret_reads_ref ref :
  sp_ServerPasswordSecretRef (es_Spec server) = Some ref → sks_Name ref ∈ secret_reads server.
Proof. intros H. unfold secret_reads, allSecretRefs. rewrite H. set_solver. Qed.

Lemma secret_reads_group g ref :
  g ∈ sp_UserGroups (es_Spec server) → ug_PasswordSecretRef g = Some ref → sks_Name ref ∈ secret_reads server.
Proof.
  intros Hg Hr. unfold secret_reads, allSecretRefs. apply list_elem_of_further, elem_of_app. left.
  apply elem_of_app. right. apply list_elem_of_omap. exists g. by rewrite Hr.
Qed.

Lemma resolveGroups_calls gs acc :
  (∀ g, g ∈ gs → g ∈ sp_UserGroups (es_Spec server)) → stays (resolveGroups (es_Namespace server) gs acc).
Proof.
  revert acc. induction gs as [|g gs IH]; intros acc Hgs; cbn [resolveGroups]; walk.
  - constructor. split; [done|]. eapply secret_reads_group; [apply Hgs; left|done].
  - apply IH. intros. apply Hgs. by right.
  - apply IH. intros. apply Hgs. by right.
Qed.

Lemma buildServerConfigJSON_calls : stays (buildServerConfigJSON server).
Proof. unfold buildServerConfigJSON. walk. apply resolveGroups_calls. done. Qed.

Lemma config_get : may_call clock P server (Get KSecret (config_nn server)).
Proof. constructor. split; [done|]. unfold secret_reads. left. Qed.

Lemma reconcileConfigSecret_calls :
  user_groups_mode server = true → stays (reconcileConfigSecret server).
Proof.
  intros Hm. unfold reconcileConfigSecret. walk; use_answers.
  - apply buildServerConfigJSON_calls.
  - apply config_get.
  - by eapply mc_update_config.
  - by eapply mc_create_config.
Qed.

Lemma cleanupConfigSecret_calls :
  user_groups_mode server = false → stays (cleanupConfigSecret server).
Proof.
  intros Hm. unfold cleanupConfigSecret. walk; use_answers; [apply config_get|eauto with footprint].
Qed.

Lemma setPhaseError_calls msg : stays (setPhaseError server msg).
Proof. unfold setPhaseError. walk. apply mc_status_error. Qed.

Lemma annotationHash_calls : stays (annotationHash server).
Proof.
  unfold annotationHash. walk; try apply setPhaseError_calls.
  - by apply reconcileConfigSecret_calls.
  - by apply cleanupConfigSecret_calls.
  - constructor. split; [done|]. by apply secret_reads_ref.
Qed.

Lemma q_MustParse_calls s : stays (q_MustParse s).
Proof. unfold q_MustParse. walk. Qed.

Lemma reconcilePVC_calls : stays (reconcilePVC server).
Proof. unfold reconcilePVC. walk; use_answers; eauto using q_MustParse_calls with footprint. Qed.

Lemma reconcileMetricsSidecarRBAC_calls : stays (reconcileMetricsSidecarRBAC server).
Proof.
  unfold reconcileMetricsSidecarRBAC, reconcileSidecarServiceAccount, reconcileSidecarRole,
    reconcileSidecarRoleBinding. walk; use_answers; tidy; eauto with footprint.
Qed.

Lemma isInMaintenanceWindow_calls ws : stays (isInMaintenanceWindow ws).
Proof. unfold isInMaintenanceWindow. walk. constructor. Qed.

Lemma isInMaintenanceWindow_calls_bind {A} ws (f : bool → prog KubeE A) :
  (∀ t, ws = [] ∨ clock t → stays (f (Cron.anyWindow t ws))) → stays (isInMaintenanceWindow ws ≫= f).
Proof.
  intros Hf. unfold isInMaintenanceWindow, now. destruct ws as [|w ws].
  - apply (Hf 0). by left.
  - apply calls_only_call; [constructor|]. intros t Ht. apply (Hf t). by right.
Qed.

(** The deferral decision is the one of [protected_at] at a reading of the clock. *)
Lemma playersProtected_calls_bind {A} (f : bool → prog KubeE A) :
  (∀ t, sampled clock server t → stays (f (protected_at server t))) → stays (playersProtected server ≫= f).
Proof.
  intros Hf. unfold playersProtected, sampled, protected_at in *.
  destruct (up_DeferWhilePlaying _ && _) eqn:E.
  - cbn [andb] in Hf. unfold isInMaintenanceWindow, now.
    destruct (up_MaintenanceWindows _) as [|w ws] eqn:Ew.
    + apply (Hf 0). by left.
    + apply calls_only_call; [constructor|]. intros t Ht. apply (Hf t). auto.
  - apply (Hf 0). auto.
Qed.

Lemma reconcilePDB_calls : stays (reconcilePDB server).
Proof.
  unfold reconcilePDB. apply playersProtected_calls_bind. intros t Ht. cbv zeta.
  walk; use_answers.
  - eauto with footprint.
  - by eapply mc_update_pdb.
  - by eapply mc_create_pdb.
Qed.

Lemma reconcileVPA_calls : stays (reconcileVPA server).
Proof.
  unfold reconcileVPA, ensureVPA, updateVPA. walk; use_answers; tidy;
    try (constructor; cbn; by auto); eauto with footprint.
Qed.

Lemma gameContainer_lookup i cs j c :
  gameContainer i cs = Some (j, c) → (i ≤ j)%nat ∧ cs !! (j - i)%nat = Some c ∧ c_Name c = "enshrouded-server".
Proof.
  revert i. induction cs as [|d cs IH]; intros i; cbn [gameContainer]; [done|]. case_decide.
  - intros [= <- <-]. rewrite Nat.sub_diag. done.
  - intros (H1 & H2 & H3)%IH. split_and!; [lia| |done].
    replace (j - i)%nat with (S (j - S i)) by lia. done.
Qed.

Lemma applyCPU_memory q cur upd : (applyCPU q cur upd).1 !! "memory" = upd !! "memory".
Proof. unfold applyCPU, ResourceList in *. repeat case_match; cbn; try done; by rewrite lookup_insert_ne. Qed.

Lemma applyMemory_kept m old upd ch :
  upd !! "memory" = old !! "memory" →
  memory_kept server old (applyMemory (st_ActivePlayers (es_Status server)) m old upd ch).1.
Proof.
  intros Hu Hp cur Hc. unfold applyMemory. rewrite Hc.
  destruct (Z.ltb_spec (q_Cmp m cur) 0) as [Hlt|Hge]; cbn [andb].
  - destruct (Z.ltb_spec 0 (st_ActivePlayers (es_Status server))); [|lia]. cbn.
    exists cur. rewrite Hu. auto.
  - destruct (q_Equal cur m); cbn.
    + exists cur. rewrite Hu. auto.
    + exists m. unfold ResourceList in *. rewrite lookup_insert_eq. auto.
Qed.

(** The requests [applyVPARecommendation] computes keep the memory. *)
Lemma recommendedRequests_bind {A} G cpu mem old (f : ResourceList * bool → prog KubeE A) :
  (∀ rl ch, memory_kept server old rl → calls_only R G (f (rl, ch))) →
  calls_only R G (recommendedRequests server cpu mem old ≫= f).
Proof.
  intros Hf.
  assert (∀ up : ResourceList * bool, up.1 !! "memory" = old !! "memory" →
    calls_only R G ((let '(updated, changed) := up in
      if decide (mem = "") then Ret (updated, changed)
      else newMem ← q_MustParse mem;
        Ret (applyMemory (st_ActivePlayers (es_Status server)) newMem old updated changed)) ≫= f)) as Hmem.
  { intros [upd ch] Hu. cbn in Hu. case_decide.
    - apply Hf. intros _ cur Hc. exists cur. rewrite Hu. auto.
    - unfold q_MustParse. destruct (q_Parse mem) as [q|]; [|done].
      pose proof (applyMemory_kept q old upd ch Hu) as Hk. cbn.
      destruct (applyMemory _ _ _ _ _). by apply Hf. }
  unfold recommendedRequests, q_MustParse in *. destruct (decide (cpu = "")).
  - by apply (Hmem (old, false)).
  - destruct (q_Parse cpu) as [q|]; [|done]. apply (Hmem (applyCPU q old old)). apply applyCPU_memory.
Qed.

Lemma applyVPARecommendation_vpa_calls : calls_only R (vpa_apply_call P server) (applyVPARecommendation server).
Proof.
  unfold applyVPARecommendation. cbv zeta. walk_step; [walk|].
  match goal with H : _ || _ = false |- _ => apply orb_false_iff in H as [He Hm] end.
  tidy. apply bool_decide_eq_true in Hm. unfold_calls.
  repeat lazymatch goal with
  | |- calls_only _ _ (recommendedRequests _ _ _ _ ≫= _) => fail
  | _ => walk_step
  end; use_answers; try by constructor.
  apply recommendedRequests_bind. intros rl ch Hk. walk.
  match goal with H : gameContainer _ _ = _ |- _ =>
    apply gameContainer_lookup in H as (_ & Hl & Hn) end.
  rewrite Nat.sub_0_r in Hl. by eapply va_update.
Qed.

Lemma applyVPARecommendation_calls : stays (applyVPARecommendation server).
Proof.
  eapply calls_only_weaken; [done| |apply applyVPARecommendation_vpa_calls]. apply mc_apply_vpa.
Qed.

Lemma reconcileNetworkPolicy_calls : stays (reconcileNetworkPolicy server).
Proof.
  unfold reconcileNetworkPolicy. walk; use_answers;
    [by constructor|by apply mc_update_netpol|by apply mc_create_netpol].
Qed.

Lemma reconcileService_calls : stays (reconcileService server).
Proof.
  unfold reconcileService. walk; use_answers;
    [by constructor|by apply mc_update_service|by apply mc_create_service].
Qed.

Lemma reconcileS3Sidecar_calls : stays (reconcileS3Sidecar server).
Proof.
  unfold reconcileS3Sidecar. walk. constructor. split; [done|].
  unfold secret_reads. rewrite Heqo. set_solver.
Qed.

Lemma pollSnapshot_calls fuel t strict deadline :
  clock t → stays (pollSnapshot fuel server (preUpdateName server t) strict deadline).
Proof.
  intros Ht. induction fuel as [|fuel IH]; cbn [pollSnapshot]; [exact I|].
  unfold strict_err. walk; try (constructor; cbn); eauto.
Qed.

Lemma snapshotBeforeUpdate_calls fuel strict t :
  sampled clock server t → protected_at server t = false → stays (snapshotBeforeUpdate fuel server strict).
Proof.
  intros Ht Hp. unfold snapshotBeforeUpdate, strict_err. walk; try (by constructor);
    try (by apply pollSnapshot_calls); by eapply mc_create_presnapshot.
Qed.

Lemma reconcileStatefulSet_calls fuel hash t :
  sampled clock server t → protected_at server t = false → stays (reconcileStatefulSet fuel server hash).
Proof.
  intros Ht Hp. unfold reconcileStatefulSet. cbv zeta.
  walk; use_answers; try (by eapply snapshotBeforeUpdate_calls).
  - by constructor.
  - by eapply mc_update_sts.
  - by eapply mc_create_sts.
Qed.

Lemma deleteSnapshots_calls l :
  vsb_Enabled (bk_VolumeSnapshot (sp_Backup (es_Spec server))) = true →
  Forall (λ u, u_GetNamespace u = es_Namespace server
    ∧ u_GetLabels u !! "enshrouded.io/server" = Some (es_Name server)) l →
  stays (deleteSnapshots l).
Proof. intros He. induction 1 as [|u l [H1 H2] Hl IH]; cbn [deleteSnapshots]; walk; [by constructor|done]. Qed.

Lemma pruneVolumeSnapshots_calls rc :
  vsb_Enabled (bk_VolumeSnapshot (sp_Backup (es_Spec server))) = true →
  stays (pruneVolumeSnapshots server rc).
Proof.
  intros He. unfold pruneVolumeSnapshots, slice_to. walk; use_answers; [by constructor|].
  case_match; [|done]. simplify_eq. apply deleteSnapshots_calls; [done|]. apply Forall_take.
  by rewrite sort_slice_perm.
Qed.

Lemma reconcileVolumeSnapshot_calls : stays (reconcileVolumeSnapshot server).
Proof.
  unfold reconcileVolumeSnapshot. cbv zeta. walk_step; [walk|]. tidy.
  apply isInMaintenanceWindow_calls_bind. intros t [Ht|Ht]; [done|].
  walk; tidy; try (by constructor); try (by apply pruneVolumeSnapshots_calls).
  by eapply (mc_create_snapshot _ _ _ t x).
Qed.

Lemma publishStatus_calls phase replicas ready d w :
  classified phase replicas ready → stays (publishStatus server phase replicas ready d w).
Proof.
  intros Hc. unfold publishStatus. walk; use_answers; [constructor|by apply mc_status|].
  match goal with H : meta_key _ = _ |- _ => injection H as H1 H2 end. by apply mc_metrics.
Qed.

Lemma updateStatus_calls d w : stays (updateStatus server d w).
Proof.
  unfold updateStatus. walk; use_answers; [by constructor|apply publishStatus_calls..].
  - right. eauto.
  - left. done.
Qed.

Lemma finishReconcile_calls fuel hash : stays (finishReconcile fuel server hash).
Proof.
  unfold finishReconcile. apply playersProtected_calls_bind. intros t Ht.
  repeat walk_step; eauto using reconcileStatefulSet_calls, reconcileService_calls, reconcileS3Sidecar_calls,
    reconcileVolumeSnapshot_calls, isInMaintenanceWindow_calls, updateStatus_calls.
Qed.

Lemma reconcileLive_calls fuel : stays (reconcileLive fuel server).
Proof.
  unfold reconcileLive.
  repeat walk_step; eauto using annotationHash_calls, reconcilePVC_calls, reconcileMetricsSidecarRBAC_calls,
    reconcilePDB_calls, reconcileVPA_calls, applyVPARecommendation_calls, reconcileNetworkPolicy_calls,
    finishReconcile_calls.
Qed.
End Stays.

(** ** The whole reconciler *)

Section Whole.
Context {QO : QuantityOps} {UT : UnicodeTables} {TZ : TzDatabase} {MO : MetaOps} {UO : UnstructuredOps} {SO : SortOps}.
Context (clock : Time → Prop) (P : ∀ k, object k → Prop).

Definition deleting (server : EnshroudedServer) : bool :=
  negb (time_ptr_IsZero (om_DeletionTimestamp (es_Meta server))).
Definition has_finalizer (server : EnshroudedServer) : bool := ContainsFinalizer (es_Meta server) finalizerName.

Inductive del_call (server : EnshroudedServer) : controller_call → Prop :=
  | dc_get_pvc : retainPVC server = false → del_call server (Get KPersistentVolumeClaim (pvc_nn server))
  | dc_delete_pvc pvc :
      retainPVC server = false → obj_key KPersistentVolumeClaim pvc = pvc_nn server →
      del_call server (Delete KPersistentVolumeClaim pvc)
  | dc_finalizer :
      del_call server (Update KServer (set_es_meta (RemoveFinalizer (es_Meta server) finalizerName) server))
  | dc_metrics phase : del_call server (DropMetrics (es_Namespace server) (es_Name server) phase).

Inductive reconcile_call (req : NamespacedName) : controller_call → Prop :=
  | rc_get : reconcile_call req (Get KServer req)
  | rc_finalizer server :
      P KServer server → obj_key KServer server = req → deleting server = false → has_finalizer server = false →
      reconcile_call req (Update KServer (set_es_meta (AddFinalizer (es_Meta server) finalizerName) server))
  | rc_delete server c :
      P KServer server → obj_key KServer server = req → deleting server = true → has_finalizer server = true →
      del_call server c → reconcile_call req c
  | rc_live server c :
      P KServer server → obj_key KServer server = req → may_call clock P server c → reconcile_call req c.

Section Laws.
Context {ML : MetaLaws} {SL : SortLaws}.

Lemma meta_key_add_finalizer m f : meta_key (AddFinalizer m f) = meta_key m.
Proof. destruct (add_finalizer_identity m f) as (H1 & H2 & _). unfold meta_key. by rewrite H1, H2. Qed.
Lemma meta_key_remove_finalizer m f : meta_key (RemoveFinalizer m f) = meta_key m.
Proof. destruct (remove_finalizer_identity m f) as (H1 & H2 & _). unfold meta_key. by rewrite H1, H2. Qed.

Lemma handleDeletion_calls server :
  has_finalizer server = true → calls_only (honest clock P) (del_call server) (handleDeletion server).
Proof.
  intros Hf. unfold handleDeletion, deletePVC. walk; use_answers; tidy; try by constructor.
  cbn in H0. rewrite meta_key_remove_finalizer in H0. injection H0 as H5 H6.
  unfold es_Namespace at 1, es_Name at 1. rewrite H5, H6. constructor.
Qed.

(** Whatever an honest API server answers, [Reconcile] makes only the calls of
    the specification. *)
Lemma Reconcile_calls fuel req :
  calls_only (honest clock P) (reconcile_call req) (Reconcile fuel req).
Proof.
  unfold Reconcile. repeat lazymatch goal with
    | |- calls_only _ _ (handleDeletion _) => fail
    | |- calls_only _ _ (reconcileLive _ _) => fail
    | _ => unfold_calls; walk_step
    end; use_answers; tidy.
  - constructor.
  - destruct (has_finalizer a) eqn:Hf.
    + eapply calls_only_weaken; [done| |by apply handleDeletion_calls].
      intros c Hc. eapply (rc_delete _ a); try done. unfold deleting. by rewrite Heqb.
    + unfold handleDeletion. unfold has_finalizer in Hf. rewrite Hf. done.
  - apply rc_finalizer; try done. unfold deleting. by rewrite Heqb.
  - eapply calls_only_weaken; [done| |apply reconcileLive_calls].
    intros c Hc. eapply rc_live; [done| |done].
    etransitivity; [eassumption|]. cbn. rewrite meta_key_add_finalizer. done.
  - eapply calls_only_weaken; [done| |apply reconcileLive_calls].
    intros c Hc. by eapply rc_live.
Qed.
End Laws.
End Whole.
