(* ===== verification/Samples.v ===== *)
(** * Sample objects

    Concrete servers and API-server oracles over the models of [Instances.v], at
    which the theorems of the development are applied. *)
From S2P Require Import Prelude GoStrings GoTime Platform Instances Api Effects Kube Builders Windows Backup Vpa Guards Controller Footprint.
Local Open Scope Z_scope.
Import Model.

Definition sample_meta (finalizers : list string) (deletion : option Time) : ObjectMeta :=
  MkObjectMeta "srv" "games" "uid-1" "7" 2 0 deletion ∅ ∅ [] finalizers.

Definition sample_spec (policy : UpdatePolicySpec) (backup : BackupSpec) (retain : option bool)
    (metrics : bool) (vpa : VerticalScalingSpec) : EnshroudedServerSpec :=
  MkEnshroudedServerSpec "My Server" None 15637 27015 16 "0.0.0.0"
    (MkImageSpec "ghcr.io/payback159/enshrouded-server" "v2" "IfNotPresent")
    (MkResourceRequirements ∅ ∅ [])
    (MkStorageSpec 10737418240000 None retain)
    [] policy backup (MkMetricsSidecarSpec metrics "" 0 0) vpa.

Definition no_backup : BackupSpec := MkBackupSpec (MkVolumeSnapshotBackupSpec false "" 0 None) None.
Definition no_vpa : VerticalScalingSpec := MkVerticalScalingSpec false "" ∅ ∅.
Definition idle_vpa : VerticalScalingSpec := MkVerticalScalingSpec true VPAUpdateModeWhenIdle ∅ ∅.

Definition sample_status (players : Z) : EnshroudedServerStatus :=
  MkEnshroudedServerStatus EnshroudedServerPhaseRunning 1 players "0.8.1" false [].

(** Wednesdays at three. *)
Definition sample_policy : UpdatePolicySpec := MkUpdatePolicySpec true ["0 3 * * 3"] "StrictSnapshotBeforeUpdate".
(** 2024-01-01, a Monday, at noon. *)
Definition monday_noon : Time := 1704110400 * second.
(** Wednesday, 2024-01-03, a quarter past three. *)
Definition wednesday_night : Time := 1704251700 * second.

Definition busy_server : EnshroudedServer :=
  MkEnshroudedServer (sample_meta [finalizerName] None)
    (sample_spec sample_policy no_backup None true no_vpa) (sample_status 3).
(** The same server while nobody plays. *)
Definition idle_server : EnshroudedServer := set_es_status (sample_status 0) busy_server.
(** A server being deleted together with its data. *)
Definition doomed_server : EnshroudedServer :=
  MkEnshroudedServer (sample_meta [finalizerName] (Some monday_noon))
    (sample_spec sample_policy no_backup (Some false) true no_vpa) (sample_status 0).
Definition sample_req : NamespacedName := NN "games" "srv".

Definition not_found : error := MkError ReasonNotFound "not found".

(** An API server that holds only the given EnshroudedServer and volume: reads
    of anything else fail with NotFound, writes succeed. *)
Definition empty_cluster (server : EnshroudedServer) (t : Time) (c : KubeE) : resp c :=
  match c return controller_resp c with
  | Get k nn =>
    match k return result (object k) with
    | KServer => if decide (server_nn server = nn) then Ok server else Err not_found
    | KPersistentVolumeClaim =>
      if decide (pvc_nn server = nn) then Ok (desiredPVC server (q_zero)) else Err not_found
    | _ => Err not_found
    end
  | Create k o => Ok o
  | Update k o =>
    match k return object k → result (object k) with
    | KServer => λ _, Err (MkError ReasonConflict "conflict")
    | _ => Ok
    end o
  | Delete _ _ => Ok ()
  | StatusUpdate o => Ok o
  | ListSnapshots _ _ _ => Ok []
  | ListServersByField _ _ _ => Ok []
  | Now => t
  | Sleep _ | PublishMetrics _ | DropMetrics _ _ _ => ()
  end.

Lemma empty_cluster_honest (clock : Time → Prop) (P : ∀ k, object k → Prop) server t c :
  clock t → P KServer server → (∀ k o, k ≠ KServer → P k o) → honest clock P c (empty_cluster server t c).
Proof.
  intros Ht HP HQ. destruct c as [k nn|k o|k o|k o|o| | | | | |]; try done.
  - destruct k; try done; cbn; case_decide; intros o; naive_solver.
  - cbn. naive_solver.
  - destruct k; cbn; naive_solver.
  - cbn. naive_solver.
  - cbn. intros l [= <-]. constructor.
Qed.

(** ** A server with vertical scaling *)

Definition scaled_server : EnshroudedServer :=
  MkEnshroudedServer (sample_meta [finalizerName] None)
    (sample_spec sample_policy no_backup None true idle_vpa) (sample_status 3).

Definition scaled_sts : StatefulSet :=
  let sts := buildStatefulSet scaled_server "" in
  set_containers (set_container_requests {["memory" := 4294967296000]} <$> sts_containers sts) sts.

Definition scaled_vpa : Unstructured := [
  ("metadata", JMap [("name", JStr "srv"); ("namespace", JStr "games")]);
  ("status", JMap [("recommendation", JMap [("containerRecommendations", JList [
    JMap [("containerName", JStr "enshrouded-server");
          ("target", JMap [("cpu", JStr "2"); ("memory", JStr "2Gi")])]])])])].

(** An API server that holds the StatefulSet and the autoscaler. *)
Definition vpa_cluster (t : Time) (c : KubeE) : resp c :=
  match c return controller_resp c with
  | Get k nn =>
    match k return result (object k) with
    | KStatefulSet => if decide (sample_req = nn) then Ok scaled_sts else Err not_found
    | KVerticalPodAutoscaler => if decide (sample_req = nn) then Ok scaled_vpa else Err not_found
    | _ => Err not_found
    end
  | Update k o =>
    match k return object k → result (object k) with
    | KStatefulSet => λ _, Err (MkError ReasonConflict "conflict")
    | _ => Ok
    end o
  | c => empty_cluster scaled_server t c
  end.

Lemma vpa_cluster_honest c :
  honest (λ _, True) (λ k, match k with KStatefulSet => λ x, x = scaled_sts | _ => λ _, True end) c
    (vpa_cluster monday_noon c).
Proof.
  destruct c as [k nn|k o|k o|k o|o| | | | | |]; try done.
  - destruct k; try done; cbn; case_decide; intros o; naive_solver.
  - cbn. naive_solver.
  - destruct k; cbn; naive_solver.
  - cbn. naive_solver.
  - cbn. intros l [= <-]. constructor.
Qed.

(** ** A cluster whose snapshots never become ready *)

(** The StatefulSet of the idle server with an older image. *)
Definition old_sts : StatefulSet :=
  buildStatefulSet (MkEnshroudedServer (es_Meta idle_server)
    (let spec := es_Spec idle_server in
     MkEnshroudedServerSpec (sp_ServerName spec) (sp_ServerPasswordSecretRef spec) (sp_Port spec) (sp_SteamPort spec)
       (sp_ServerSlots spec) (sp_ServerIP spec) (MkImageSpec "ghcr.io/payback159/enshrouded-server" "v1" "")
       (sp_Resources spec) (sp_Storage spec) (sp_UserGroups spec) (sp_UpdatePolicy spec) (sp_Backup spec)
       (sp_MetricsSidecar spec) (sp_VerticalScaling spec)) (es_Status idle_server)) "".

(** A snapshot with the given readiness. *)
Definition sample_snapshot (ready : bool) : Unstructured := [("status", JMap [("readyToUse", JBool ready)])].

(** The state is the time; [ready t] says whether snapshots are ready at [t]. *)
Definition timed_cluster (server : EnshroudedServer) (ready : Time → bool) (t : Time) (c : KubeE) : resp c * Time :=
  match c return controller_resp c * Time with
  | Now => (t, t)
  | Sleep d => ((), t + Z.max 0 d)
  | Get KStatefulSet _ => (Ok old_sts, t)
  | Get KVolumeSnapshot _ => (Ok (sample_snapshot (ready t)), t)
  | c => (empty_cluster server t c, t)
  end.
