(* ===== verification/DeepCopyTheory.v ===== *)
(** * Deep copies share nothing

    Every generated copy is deep: it means the same value as the original, touches
    no cell there was, and reads the same whatever happens to the original.  The
    status patch of the sidecar depends on it: its base is a copy taken before the
    server is changed in place. *)
From S2P Require Import Prelude GoMemory GoStrings GoTime GoConv GoFlag Platform Instances Api DeepCopy Effects Kube A2S Sidecar Samples.
Local Open Scope Z_scope.

(** What the representations of other packages mean, and that their copies are
    deep, as their documentation says. *)
Class ForeignMeaning `{!QuantityOps, !ForeignTypes} := {
  ListMeta : Type;
  rep_ObjectMeta : meaning cell ObjectMeta_mem ObjectMeta;
  rep_ListMeta : meaning cell ListMeta_mem ListMeta;
  rep_SecretKeySelector : meaning cell SecretKeySelector_mem SecretKeySelector;
  rep_ResourceRequirements : meaning cell ResourceRequirements_mem ResourceRequirements;
  rep_Condition : meaning cell Condition_mem Condition;
  rep_Quantity : meaning cell Quantity_mem Quantity
}.
(** Everything but servers; structs of other packages do not point to servers. *)
Definition other_cell `{!ForeignTypes} (x : cell) : bool := match x with CServer _ => false | _ => true end.

Class ForeignLaws `{!QuantityOps, !ForeignTypes, !ForeignCopies, !ForeignMeaning} : Prop := {
  local_ObjectMeta : local other_cell rep_ObjectMeta;
  local_ListMeta : local other_cell rep_ListMeta;
  local_SecretKeySelector : local other_cell rep_SecretKeySelector;
  local_ResourceRequirements : local other_cell rep_ResourceRequirements;
  local_Condition : local other_cell rep_Condition;
  local_Quantity : local other_cell rep_Quantity;
  deep_ObjectMeta : deep rep_ObjectMeta ObjectMeta_DeepCopyInto;
  deep_ListMeta : deep rep_ListMeta ListMeta_DeepCopyInto;
  deep_SecretKeySelector : deep rep_SecretKeySelector SecretKeySelector_DeepCopyInto;
  deep_ResourceRequirements : deep rep_ResourceRequirements ResourceRequirements_DeepCopyInto;
  deep_Condition : deep rep_Condition Condition_DeepCopyInto;
  deep_Quantity : deep rep_Quantity Quantity_DeepCopy
}.
#[export] Hint Resolve local_ObjectMeta local_ListMeta local_SecretKeySelector local_ResourceRequirements
  local_Condition local_Quantity deep_ObjectMeta deep_ListMeta deep_SecretKeySelector deep_ResourceRequirements deep_Condition
  deep_Quantity : memory.

Section Theory.
Context {QO : QuantityOps} {FT : ForeignTypes} {FC : ForeignCopies} {FM : ForeignMeaning} {FL : ForeignLaws}.

(** ** The meaning of the types in memory *)

Definition rep_Vsb : meaning cell VolumeSnapshotBackupSpec_mem VolumeSnapshotBackupSpec := λ h x v,
  vsbm_Enabled x = vsb_Enabled v ∧ vsbm_Schedule x = vsb_Schedule v ∧ vsbm_RetainCount x = vsb_RetainCount v
  ∧ rep_ptr (T := string) rep_eq h (vsbm_VolumeSnapshotClassName x) (vsb_VolumeSnapshotClassName v).
Definition rep_Backup : meaning cell BackupSpec_mem BackupSpec := λ h x v,
  rep_Vsb h (bkm_VolumeSnapshot x) (bk_VolumeSnapshot v) ∧ rep_ptr (T := S3BackupSpec) rep_eq h (bkm_S3 x) (bk_S3 v).
Definition rep_Storage : meaning cell StorageSpec_mem StorageSpec := λ h x v,
  rep_Quantity h (stom_Size x) (sto_Size v)
  ∧ rep_ptr (T := string) rep_eq h (stom_StorageClassName x) (sto_StorageClassName v)
  ∧ rep_ptr (T := bool) rep_eq h (stom_RetainOnDelete x) (sto_RetainOnDelete v).
Definition rep_Policy : meaning cell UpdatePolicySpec_mem UpdatePolicySpec := λ h x v,
  upm_DeferWhilePlaying x = up_DeferWhilePlaying v
  ∧ rep_slice (T := string) rep_eq h (upm_MaintenanceWindows x) (up_MaintenanceWindows v)
  ∧ upm_UpgradeStrategy x = up_UpgradeStrategy v.
Definition rep_Group : meaning cell UserGroup_mem UserGroup := λ h x v,
  ugm_Name x = ug_Name v ∧ rep_ptr rep_SecretKeySelector h (ugm_PasswordSecretRef x) (ug_PasswordSecretRef v)
  ∧ ugm_CanKickBan x = ug_CanKickBan v ∧ ugm_CanAccessInventories x = ug_CanAccessInventories v
  ∧ ugm_CanEditWorld x = ug_CanEditWorld v ∧ ugm_CanEditBase x = ug_CanEditBase v
  ∧ ugm_CanExtendBase x = ug_CanExtendBase v ∧ ugm_ReservedSlots x = ug_ReservedSlots v.
Definition rep_Scaling : meaning cell VerticalScalingSpec_mem VerticalScalingSpec := λ h x v,
  vscm_Enabled x = vsc_Enabled v ∧ vscm_UpdateMode x = vsc_UpdateMode v
  ∧ rep_map rep_Quantity h (vscm_MinAllowed x) (vsc_MinAllowed v)
  ∧ rep_map rep_Quantity h (vscm_MaxAllowed x) (vsc_MaxAllowed v).
Definition rep_Spec : meaning cell EnshroudedServerSpec_mem EnshroudedServerSpec := λ h x v,
  spm_ServerName x = sp_ServerName v
  ∧ rep_ptr rep_SecretKeySelector h (spm_ServerPasswordSecretRef x) (sp_ServerPasswordSecretRef v)
  ∧ spm_Port x = sp_Port v ∧ spm_SteamPort x = sp_SteamPort v ∧ spm_ServerSlots x = sp_ServerSlots v
  ∧ spm_ServerIP x = sp_ServerIP v ∧ spm_Image x = sp_Image v
  ∧ rep_ResourceRequirements h (spm_Resources x) (sp_Resources v) ∧ rep_Storage h (spm_Storage x) (sp_Storage v)
  ∧ rep_slice rep_Group h (spm_UserGroups x) (sp_UserGroups v) ∧ rep_Policy h (spm_UpdatePolicy x) (sp_UpdatePolicy v)
  ∧ rep_Backup h (spm_Backup x) (sp_Backup v) ∧ spm_MetricsSidecar x = sp_MetricsSidecar v
  ∧ rep_Scaling h (spm_VerticalScaling x) (sp_VerticalScaling v).
Definition rep_Status : meaning cell EnshroudedServerStatus_mem EnshroudedServerStatus := λ h x v,
  stm_Phase x = st_Phase v ∧ stm_ReadyReplicas x = st_ReadyReplicas v ∧ stm_ActivePlayers x = st_ActivePlayers v
  ∧ stm_GameVersion x = st_GameVersion v ∧ stm_UpdateDeferred x = st_UpdateDeferred v
  ∧ rep_slice rep_Condition h (stm_Conditions x) (st_Conditions v).
Definition rep_Server : meaning cell EnshroudedServer_mem EnshroudedServer := λ h x v,
  rep_ObjectMeta h (esm_ObjectMeta x) (es_Meta v) ∧ rep_Spec h (esm_Spec x) (es_Spec v)
  ∧ rep_Status h (esm_Status x) (es_Status v).
(** A list stands for its metadata and its servers. *)
Definition rep_List : meaning cell EnshroudedServerList_mem (ListMeta * list EnshroudedServer) := λ h x v,
  rep_ListMeta h (elm_ListMeta x) v.1 ∧ rep_slice rep_Server h (elm_Items x) v.2.

(** A struct looks at the cells its fields look at. *)
Ltac kept := intros [] ?; cbn; intros; (reflexivity || discriminate).
Ltac local_fields :=
  intros h h' x v Hs; cbn; intros; destruct_and?; split_and?; try done;
  match goal with H : ?R h ?a ?b |- ?R h' ?a ?b =>
    refine ((_ : local other_cell R) h h' a b Hs H);
    first [apply local_ptr; [|kept]|apply local_slice; [|kept]|apply local_map; [|kept]|idtac]; eauto with memory end.
Lemma local_Vsb : local other_cell rep_Vsb.
Proof. unfold rep_Vsb. local_fields. Qed.
#[local] Hint Resolve local_Vsb : memory.
Lemma local_Backup : local other_cell rep_Backup.
Proof. unfold rep_Backup. local_fields. Qed.
Lemma local_Storage : local other_cell rep_Storage.
Proof. unfold rep_Storage. local_fields. Qed.
Lemma local_Policy : local other_cell rep_Policy.
Proof. unfold rep_Policy. local_fields. Qed.
Lemma local_Group : local other_cell rep_Group.
Proof. unfold rep_Group. local_fields. Qed.
Lemma local_Scaling : local other_cell rep_Scaling.
Proof. unfold rep_Scaling. local_fields. Qed.
#[local] Hint Resolve local_Backup local_Storage local_Policy local_Group local_Scaling : memory.
Lemma local_Spec : local other_cell rep_Spec.
Proof. unfold rep_Spec. local_fields. Qed.
Lemma local_Status : local other_cell rep_Status.
Proof. unfold rep_Status. local_fields. Qed.
#[local] Hint Resolve local_Spec local_Status : memory.
Lemma local_Server : local other_cell rep_Server.
Proof. unfold rep_Server. local_fields. Qed.
#[local] Hint Resolve local_Server : memory.
Lemma local_List : local other_cell rep_List.
Proof. unfold rep_List. local_fields. Qed.
#[local] Hint Resolve local_List : memory.
#[local] Hint Extern 1 (mono _) => apply (local_mono other_cell) : memory.

(** ** Every copy is deep *)

Ltac deep_fields :=
  apply deep_intro; intros h x v; intros; destruct_and?; copy_fields; intros; split_and?; done.

Lemma deep_Vsb : deep rep_Vsb VolumeSnapshotBackupSpec_DeepCopyInto.
Proof. unfold VolumeSnapshotBackupSpec_DeepCopyInto, rep_Vsb. deep_fields. Qed.
#[local] Hint Resolve deep_Vsb : memory.
Lemma deep_Backup : deep rep_Backup BackupSpec_DeepCopyInto.
Proof. unfold BackupSpec_DeepCopyInto, rep_Backup. deep_fields. Qed.
Lemma deep_Storage : deep rep_Storage StorageSpec_DeepCopyInto.
Proof. unfold StorageSpec_DeepCopyInto, rep_Storage. deep_fields. Qed.
Lemma deep_Policy : deep rep_Policy UpdatePolicySpec_DeepCopyInto.
Proof. unfold UpdatePolicySpec_DeepCopyInto, rep_Policy. deep_fields. Qed.
Lemma deep_Group : deep rep_Group UserGroup_DeepCopyInto.
Proof. unfold UserGroup_DeepCopyInto, rep_Group. deep_fields. Qed.
Lemma deep_Scaling : deep rep_Scaling VerticalScalingSpec_DeepCopyInto.
Proof. unfold VerticalScalingSpec_DeepCopyInto, rep_Scaling. deep_fields. Qed.
#[local] Hint Resolve deep_Backup deep_Storage deep_Policy deep_Group deep_Scaling : memory.
Lemma deep_Spec : deep rep_Spec EnshroudedServerSpec_DeepCopyInto.
Proof. unfold EnshroudedServerSpec_DeepCopyInto, rep_Spec. deep_fields. Qed.
Lemma deep_Status : deep rep_Status EnshroudedServerStatus_DeepCopyInto.
Proof. unfold EnshroudedServerStatus_DeepCopyInto, rep_Status. deep_fields. Qed.
#[local] Hint Resolve deep_Spec deep_Status : memory.
Lemma deep_Server : deep rep_Server EnshroudedServer_DeepCopyInto.
Proof. unfold EnshroudedServer_DeepCopyInto, rep_Server. deep_fields. Qed.
#[local] Hint Resolve deep_Server : memory.
Lemma deep_List : deep rep_List EnshroudedServerList_DeepCopyInto.
Proof. unfold EnshroudedServerList_DeepCopyInto, rep_List. deep_fields. Qed.
#[local] Hint Resolve deep_List : memory.
Lemma deep_Server_ptr : deep (rep_ptr rep_Server) EnshroudedServer_DeepCopy.
Proof. apply deep_ptr; eauto with memory. Qed.

(** C32: every generated [DeepCopy] and [DeepCopyObject] is deep: from any memory in
    which the pointer stands for a value, the copy succeeds, leaves all cells of
    that memory as they are, and gives a pointer that stands for the same value in
    every memory with the newly allocated cells, whatever was done to the cells of
    the original. *)
Theorem generated_copies_deep :
  deep (rep_ptr rep_Server) EnshroudedServer_DeepCopy ∧ deep (rep_ptr rep_Server) EnshroudedServer_DeepCopyObject
  ∧ deep (rep_ptr rep_List) EnshroudedServerList_DeepCopy ∧ deep (rep_ptr rep_List) EnshroudedServerList_DeepCopyObject
  ∧ deep (rep_ptr rep_Spec) EnshroudedServerSpec_DeepCopy ∧ deep (rep_ptr rep_Status) EnshroudedServerStatus_DeepCopy
  ∧ deep (rep_ptr rep_Backup) BackupSpec_DeepCopy ∧ deep (rep_ptr rep_Vsb) VolumeSnapshotBackupSpec_DeepCopy
  ∧ deep (rep_ptr rep_Storage) StorageSpec_DeepCopy ∧ deep (rep_ptr rep_Policy) UpdatePolicySpec_DeepCopy
  ∧ deep (rep_ptr rep_Group) UserGroup_DeepCopy ∧ deep (rep_ptr rep_Scaling) VerticalScalingSpec_DeepCopy
  ∧ deep (rep_ptr (T := ImageSpec) rep_eq) ImageSpec_DeepCopy
  ∧ deep (rep_ptr (T := MetricsSidecarSpec) rep_eq) MetricsSidecarSpec_DeepCopy
  ∧ deep (rep_ptr (T := S3BackupSpec) rep_eq) S3BackupSpec_DeepCopy.
Proof.
  assert (∀ (c : option loc → MG (option loc)) h p, (c p ≫= λ q, mret match q with Some q => Some q | None => None end) h = c p h) as Hobj.
  { intros c h p. unfold mbind, M_bind. destruct (c p h) as [[[q|] h']|]; done. }
  split_and!; try (apply deep_ptr; eauto with memory).
  - intros h p v Hv. unfold EnshroudedServer_DeepCopyObject. rewrite Hobj. revert h p v Hv. apply deep_ptr; eauto with memory.
  - intros h p v Hv. unfold EnshroudedServerList_DeepCopyObject. rewrite Hobj. revert h p v Hv. apply deep_ptr; eauto with memory.
Qed.

(** ** The base of the status patch *)

Definition set_mem_players (players : Z) (x : EnshroudedServer_mem) : EnshroudedServer_mem :=
  let st := esm_Status x in
  MkServerMem (esm_TypeMeta x) (esm_ObjectMeta x) (esm_Spec x)
    (MkStatusMem (stm_Phase st) (stm_ReadyReplicas st) players (stm_GameVersion st) (stm_UpdateDeferred st) (stm_Conditions st)).
Definition set_mem_version (version : string) (x : EnshroudedServer_mem) : EnshroudedServer_mem :=
  let st := esm_Status x in
  MkServerMem (esm_TypeMeta x) (esm_ObjectMeta x) (esm_Spec x)
    (MkStatusMem (stm_Phase st) (stm_ReadyReplicas st) (stm_ActivePlayers st) version (stm_UpdateDeferred st) (stm_Conditions st)).

(** The statements of [patchServerStatus] between the comparison and the patch:
    the copy given to [MergeFrom], and the two assignments to the server. *)
Definition patchObjects (server : loc) (players : Z) (gameVersion : string) : MG (option loc) :=
  base ← EnshroudedServer_DeepCopy (Some server);
  x ← load server;
  _ ← store server (set_mem_players players x);
  x ← load server;
  _ ← store server (set_mem_version gameVersion x);
  mret base.

Lemma server_load (h : heap cell) p x : h !! p = Some (CServer x) → load p h = Some (x, h).
Proof. intros Hp. apply load_eq. by rewrite Hp. Qed.
Lemma server_store (h : heap cell) p x y : h !! p = Some (CServer x) → store p y h = Some ((), <[p := CServer y]> h).
Proof. intros Hp. unfold store. by rewrite Hp. Qed.

(** Writing to a server changes no other cell. *)
Lemma store_server_local (h : heap cell) p x y :
  h !! p = Some (CServer x) → ∀ l z, h !! l = Some z → other_cell z = true → <[p := CServer y]> h !! l = Some z.
Proof. intros Hp l z Hl Hz. rewrite lookup_insert_ne; [done|]. intros <-. rewrite Hl in Hp. by simplify_eq. Qed.

(** C33: the status patch is computed from the right objects.  After the copy and
    the assignments of [patchServerStatus], the base of the merge patch still
    stands for the server that was read, although the server was changed in place,
    and the server stands for it with exactly the new player count and version:
    the pair of objects the pure model of the sidecar sends. *)
Theorem patch_base_survives h p v players version :
  rep_ptr rep_Server h (Some p) (Some v) →
  ∃ base h', patchObjects p players version h = Some (base, h')
    ∧ rep_ptr rep_Server h' base (Some v)
    ∧ rep_ptr rep_Server h' (Some p) (Some (set_players players version v)).
Proof.
  intros Hp. destruct (deep_Server_ptr h (Some p) (Some v) Hp) as (base & h1 & Hrun & Hs & Hbase).
  destruct Hp as (x & Hx & Hv). pose proof (lookup_mono _ _ _ _ Hs Hx) as Hx1.
  apply bind_Some in Hx as (z & Hz & _). apply bind_Some in Hx1 as (z1 & Hz1 & Hc).
  assert (z1 = CServer x) as -> by (by destruct z1; simplify_eq/=).
  set (y := set_mem_version version (set_mem_players players x)). exists base, (<[p := CServer y]> h1). split_and!.
  - unfold patchObjects. erewrite M_bind_eq by exact Hrun.
    erewrite M_bind_eq by by apply server_load. erewrite M_bind_eq by by eapply server_store.
    erewrite M_bind_eq by apply server_load, lookup_insert_eq.
    erewrite M_bind_eq by eapply server_store, lookup_insert_eq. by rewrite insert_insert_eq.
  - apply Hbase. apply map_subseteq_spec. intros l c [Hl Hn]%lookup_difference_Some.
    rewrite lookup_insert_ne; [done|]. intros <-. congruence.
  - exists y. split; [by rewrite lookup_insert_eq|].
    assert (local other_cell rep_ObjectMeta ∧ local other_cell rep_Spec ∧ local other_cell (rep_slice rep_Condition)) as (L1 & L2 & L3).
    { split_and!; eauto with memory. apply local_slice; [eauto with memory|kept]. }
    assert (∀ l c, h !! l = Some c → other_cell c = true → <[p := CServer y]> h1 !! l = Some c) as Hkeep.
    { intros l c Hl. apply (store_server_local h1 p x y Hz1). by eapply lookup_weaken. }
    destruct Hv as (Hm & Hspec & Hst). split_and!; [by eapply L1|by eapply L2|].
    unfold rep_Status in *. destruct_and? Hst. cbn. split_and!; try done. by eapply L3.
Qed.
End Theory.

(** ** Witnesses *)

Import Model.

(** Structs of other packages without pointers, but for the selector, which has an
    optional flag behind one. *)
Record selector_mem := MkSelectorMem { slm_Name : string; slm_Key : string; slm_Optional : option loc }.
#[local] Instance foreign_types : ForeignTypes := {|
  ObjectMeta_mem := ObjectMeta; ListMeta_mem := string; SecretKeySelector_mem := selector_mem;
  ResourceRequirements_mem := ResourceRequirements; Condition_mem := Condition; Quantity_mem := Z;
  foreign_cell := Empty_set;
  zero_ObjectMeta := new_meta "" "" ∅; zero_ListMeta := ""; zero_SecretKeySelector := MkSelectorMem "" "" None;
  zero_ResourceRequirements := MkResourceRequirements ∅ ∅ []; zero_Condition := MkCondition "" "" 0 0 "" "";
  zero_Quantity := 0
|}.
Definition copy_selector (x : selector_mem) : MG selector_mem :=
  p ← copy_ptr (T := bool) mret (slm_Optional x); mret (MkSelectorMem (slm_Name x) (slm_Key x) p).
#[local] Instance foreign_copies : ForeignCopies := {|
  ObjectMeta_DeepCopyInto := mret; ListMeta_DeepCopyInto := mret; SecretKeySelector_DeepCopyInto := copy_selector;
  ResourceRequirements_DeepCopyInto := mret; Condition_DeepCopyInto := mret; Quantity_DeepCopy := mret
|}.
Definition rep_selector : meaning cell selector_mem SecretKeySelector := λ h x v,
  slm_Name x = sks_Name v ∧ slm_Key x = sks_Key v ∧ rep_ptr (T := bool) rep_eq h (slm_Optional x) (sks_Optional v).
#[local] Instance foreign_meaning : ForeignMeaning := {|
  ListMeta := string; rep_ObjectMeta := rep_eq; rep_ListMeta := rep_eq; rep_SecretKeySelector := rep_selector;
  rep_ResourceRequirements := rep_eq; rep_Condition := rep_eq; rep_Quantity := rep_eq
|}.
#[local] Instance foreign_laws : ForeignLaws.
Proof.
  split; try apply local_eq; try apply deep_eq.
  - intros h h' x v Hs (H1 & H2 & H3). split_and!; [done|done|].
    refine (local_ptr rep_eq other_cell (local_eq _) _ h h' _ _ Hs H3). intros [] ?; cbn; intros; done.
  - apply deep_intro. intros h x v (H1 & H2 & H3). unfold SecretKeySelector_DeepCopyInto, foreign_copies, copy_selector.
    copy_fields. intros Hp. by split_and!.
Qed.

(** A server with a password, a maintenance window and a memory limit. *)
Definition stored_server : EnshroudedServer :=
  MkEnshroudedServer (sample_meta [] None)
    (MkEnshroudedServerSpec "" (Some (MkSecretKeySelector "pw" "password" (Some true))) 0 0 0 "" zero_value
      (MkResourceRequirements ∅ ∅ []) (MkStorageSpec 0 None None) [] (MkUpdatePolicySpec true ["0 3 * * 3"] "")
      (MkBackupSpec (MkVolumeSnapshotBackupSpec false "" 0 None) None) zero_value
      (MkVerticalScalingSpec true "" ∅ {["memory" := 1000]}))
    (sample_status 3).
Definition server_struct : EnshroudedServer_mem :=
  MkServerMem (MkTypeMeta "EnshroudedServer" "") (sample_meta [] None)
    (MkSpecMem "" (Some 2%positive) 0 0 0 "" zero_value (MkResourceRequirements ∅ ∅ []) (MkStorageMem 0 None None)
      None (MkUpdatePolicyMem true (Some (MkSlice 3%positive 1%nat 1%nat)) "") zero_value zero_value
      (MkVerticalScalingMem true "" None (Some 4%positive)))
    (MkStatusMem EnshroudedServerPhaseRunning 1 3 "0.8.1" false None).
Definition sample_heap : heap cell :=
  {[1%positive := CBool true; 2%positive := CSelector (MkSelectorMem "pw" "password" (Some 1%positive));
    3%positive := CStrings ["unused"; "0 3 * * 3"]; 4%positive := CResources {["memory" := 1000]};
    5%positive := CServer server_struct]}.

Lemma sample_heap_server : rep_ptr rep_Server sample_heap (Some 5%positive) (Some stored_server).
Proof.
  exists server_struct. split; [done|]. unfold rep_Server, rep_Spec, rep_Status, rep_Storage, rep_Policy, rep_Backup, rep_Vsb, rep_Scaling.
  split_and!; try done.
  - eexists. split; [reflexivity|]. split_and!; try done. exists true. done.
  - eexists. split; [reflexivity|]. constructor; [done|constructor].
  - eexists. split; [reflexivity|].
    refine (map_Forall2_insert_2 (M := gmap string) _ ∅ ∅ "memory" 1000 1000 eq_refl _). apply map_Forall2_empty.
Qed.

Lemma generated_copies_deep_witness :
  ∃ q h', EnshroudedServer_DeepCopy (Some 5%positive) sample_heap = Some (q, h') ∧ sample_heap ⊆ h'
    ∧ rep_ptr rep_Server (h' ∖ sample_heap) q (Some stored_server).
Proof.
  destruct generated_copies_deep as [Hd _].
  destruct (Hd sample_heap (Some 5%positive) (Some stored_server) sample_heap_server) as (q & h' & H1 & H2 & H3).
  exists q, h'. split; [exact H1|]. split; [exact H2|]. apply H3. reflexivity.
Defined.

Lemma patch_base_survives_witness :
  ∃ base h', patchObjects 5%positive 0 "0.9" sample_heap = Some (base, h')
    ∧ rep_ptr rep_Server h' base (Some stored_server)
    ∧ rep_ptr rep_Server h' (Some 5%positive) (Some (set_players 0 "0.9" stored_server)).
Proof. exact (patch_base_survives sample_heap 5%positive stored_server 0 "0.9" sample_heap_server). Defined.
