(* ===== verification/Safety.v ===== *)
(** * Safety of the reconciler

    Consequences of the specification of [Footprint.v] for every run of
    [Reconcile] against every honest API server: deferral, the savegame volume,
    separation between servers, ownership of status fields, permissions. *)
From S2P Require Import Prelude GoStrings GoTime GoCodec Platform Instances Api Effects Kube Builders Config Cron Windows Backup Vpa Guards Controller Footprint Samples.
Local Open Scope Z_scope.

(** Statements about the calls of a trace. *)
Definition every_call {E : effect} (G : E → Prop) (tr : list (event E)) : Prop :=
  Forall (λ e, match e with Ev c _ => G c end) tr.

Definition some_call {E : effect} (G : E → Prop) (tr : list (event E)) : Prop :=
  Exists (λ e, match e with Ev c _ => G c end) tr.

Lemma every_call_impl {E : effect} (G G' : E → Prop) tr :
  every_call G tr → (∀ c, G c → G' c) → every_call G' tr.
Proof. unfold every_call. intros H HG. eapply Forall_impl; [exact H|]. intros [c x]. apply HG. Qed.

Section Safety.
Context {QO : QuantityOps} {UT : UnicodeTables} {TZ : TzDatabase} {MO : MetaOps} {UO : UnstructuredOps} {SO : SortOps}.

Definition writes_kind (k : kind) (c : controller_call) : Prop :=
  match c with Create k' _ | Update k' _ | Delete k' _ => k' = k | _ => False end.

(** Environments whose answers are all honest. *)
Definition honest_env (clock : Time → Prop) (P : ∀ k, object k → Prop) (N : env KubeE) : Prop :=
  ∀ s c x s', env_step (e := N) s c x s' → honest clock P c x.

Section Laws.
Context {ML : MetaLaws} {SL : SortLaws}.

Lemma Reconcile_run clock P N fuel req s tr s' o :
  honest_env clock P N → runs N (Reconcile fuel req) s tr s' o →
  every_call (E := KubeE) (reconcile_call clock P req) tr.
Proof.
  intros HN. exact (calls_only_runs (E := KubeE) (honest clock P) (reconcile_call clock P req) _ N s tr s' o
    (Reconcile_calls clock P fuel req) HN).
Qed.
End Laws.

(** Something known of the EnshroudedServers only. *)
Definition servers (Q : EnshroudedServer → Prop) (k : kind) : object k → Prop :=
  match k with KServer => Q | _ => λ _, True end.

(** ** Deferral *)

(** A server whose updates wait for its players, with windows [ws], that does
    not use the WhenIdle vertical scaling. *)
Definition defers (ws : list string) (server : EnshroudedServer) : Prop :=
  up_DeferWhilePlaying (sp_UpdatePolicy (es_Spec server)) = true
  ∧ 0 < st_ActivePlayers (es_Status server)
  ∧ up_MaintenanceWindows (sp_UpdatePolicy (es_Spec server)) = ws
  ∧ ¬ whenIdle server.

Lemma defers_protected ws server t : defers ws server → sampled (closed_at ws) server t → protected_at server t = true.
Proof.
  intros (Hd & Hp & Hw & _) Ht. unfold protected_at. unfold sampled in Ht. rewrite Hd in *.
  apply Z.ltb_lt in Hp. rewrite Hp in *. rewrite Hw in *.
  destruct Ht as [->|[|Ht]]; [done|done|]. unfold closed_at in Ht. by rewrite Ht.
Qed.

Lemma defers_no_sts P ws server c :
  defers ws server → may_call (closed_at ws) P server c → ¬ writes_kind KStatefulSet c.
Proof.
  intros Hd Hc. destruct Hc; try (intros E; by discriminate E); cbn; try tauto.
  - by rewrite (defers_protected ws server t) in *.
  - by rewrite (defers_protected ws server t) in *.
  - destruct H; cbn; [tauto|tauto|]. by destruct Hd as (_ & _ & _ & []).
Qed.

(** ** The volume *)

Definition deletes_volume (c : controller_call) : Prop :=
  match c with Delete KPersistentVolumeClaim _ => True | _ => False end.

Lemma retainPVC_false server :
  retainPVC server = false ↔ sto_RetainOnDelete (sp_Storage (es_Spec server)) = Some false.
Proof. unfold retainPVC. destruct (sto_RetainOnDelete _) as [[]|]; naive_solver. Qed.

(** What a call does to the volume of a server: nothing, the creation of the
    desired claim, or the deletion the user asked for. *)
Definition volume_safe (P : ∀ k, object k → Prop) (req : NamespacedName) (c : controller_call) : Prop :=
  match c with
  | Create KPersistentVolumeClaim o =>
    ∃ server size, P KServer server ∧ obj_key KServer server = req ∧ o = desiredPVC server size
  | Update KPersistentVolumeClaim _ => False
  | Delete KPersistentVolumeClaim o =>
    ∃ server, P KServer server ∧ obj_key KServer server = req
      ∧ deleting server = true ∧ has_finalizer server = true
      ∧ sto_RetainOnDelete (sp_Storage (es_Spec server)) = Some false
      ∧ obj_key KPersistentVolumeClaim o = pvc_nn server
  | _ => True
  end.

Lemma reconcile_call_volume clock P req c : reconcile_call clock P req c → volume_safe P req c.
Proof.
  intros Hc. destruct Hc as [|server|server c HP Hk Hd Hf Hc|server c HP Hk Hc]; try done.
  - destruct Hc; try done. cbn. exists server. split_and!; try done. by apply retainPVC_false.
  - destruct Hc; try done; cbn; [by eauto 10|]. by destruct H.
Qed.

(** ** Status fields the sidecar owns *)

Definition keeps_sidecar_fields (P : ∀ k, object k → Prop) (req : NamespacedName) (c : controller_call) : Prop :=
  match c with
  | StatusUpdate o =>
    ∃ server, P KServer server ∧ obj_key KServer server = req
      ∧ es_Meta o = es_Meta server ∧ es_Spec o = es_Spec server
      ∧ st_ActivePlayers (es_Status o) = st_ActivePlayers (es_Status server)
      ∧ st_GameVersion (es_Status o) = st_GameVersion (es_Status server)
  | _ => True
  end.

Lemma reconcile_call_status clock P req c : reconcile_call clock P req c → keeps_sidecar_fields P req c.
Proof.
  intros Hc. destruct Hc as [|server|server c HP Hk Hd Hf Hc|server c HP Hk Hc]; try done.
  - by destruct Hc.
  - destruct Hc; try done; cbn.
    + exists server. destruct ready as [[??]?]. done.
    + by exists server.
    + by destruct H.
Qed.

(** ** Keys written *)

Definition write_key (c : controller_call) : option (kind * NamespacedName) :=
  match c with
  | Create k o | Update k o | Delete k o => Some (k, obj_key k o)
  | StatusUpdate o => Some (KServer, obj_key KServer o)
  | _ => None
  end.

(** The objects that belong to the server [req]; snapshots carry a label. *)
Definition belongs (req : NamespacedName) (k : kind) (nn : NamespacedName) : Prop :=
  nn_Namespace nn = nn_Namespace req ∧
  match k with
  | KServer | KStatefulSet | KService | KPodDisruptionBudget | KVerticalPodAutoscaler => nn_Name nn = nn_Name req
  | KPersistentVolumeClaim => nn_Name nn = nn_Name req +:+ "-savegame"
  | KSecret => nn_Name nn = nn_Name req +:+ "-config"
  | KNetworkPolicy => nn_Name nn = nn_Name req +:+ "-netpol"
  | KServiceAccount | KRole | KRoleBinding => nn_Name nn = nn_Name req +:+ "-metrics"
  | KVolumeSnapshot => True
  end.

Lemma belongs_disjoint req1 req2 k nn :
  k ≠ KVolumeSnapshot → belongs req1 k nn → belongs req2 k nn → req1 = req2.
Proof.
  destruct req1 as [ns1 n1], req2 as [ns2 n2]. intros Hk [H1 H2] [H3 H4]. cbn in *.
  assert (ns1 = ns2) as -> by congruence.
  assert (n1 = n2) as ->; [|done].
  destruct k; try done; rewrite H2 in H4; try done; by apply str_app_inj_r in H4.
Qed.

Section Keys.
Context {ML : MetaLaws} {UL : UnstructuredLaws}.

Lemma owned_key server m m' : owned server m m' → meta_key m' = meta_key m.
Proof.
  intros H. destruct (set_controller_reference_identity _ _ _ H) as [(H1 & H2 & _) _].
  unfold meta_key. by rewrite H1, H2.
Qed.

Lemma newSnapshot_meta server n l e1 e2 e3 snap :
  newSnapshot server n l e1 e2 e3 = Ok snap →
  u_GetNamespace snap = es_Namespace server ∧ u_GetName snap = n ∧ u_GetLabels snap = l.
Proof.
  unfold newSnapshot. intros H.
  set (u0 := u_SetLabels l _) in H.
  assert (u_GetNamespace u0 = es_Namespace server ∧ u_GetName u0 = n ∧ u_GetLabels u0 = l) as H0.
  { unfold u0. rewrite u_ns_set_labels, u_ns_set_name, u_ns_set, u_name_set_labels, u_name_set, u_labels_set. done. }
  clearbody u0. repeat case_match; simplify_eq;
  repeat match goal with
  | H : u_SetNestedField _ _ ("spec" :: _) = Ok _ |- _ => apply u_set_spec_meta in H as (?&?&?)
  | H : u_SetControllerReference _ _ = Ok _ |- _ => apply u_set_owner_meta in H as (?&?&?)
  end; naive_solver congruence.
Qed.

Lemma desiredVPA_key server desired :
  u_SetControllerReference (es_Meta server) (desiredVPA server) = Ok desired → u_key desired = server_nn server.
Proof.
  intros (H1 & H2 & _)%u_set_owner_meta. unfold u_key, server_nn. rewrite H1, H2, u_name_metadata, u_ns_metadata.
  by rewrite (u_nested_string2 (desiredVPA server) "metadata" _ "name" (es_Name server) eq_refl eq_refl),
    (u_nested_string2 (desiredVPA server) "metadata" _ "namespace" (es_Namespace server) eq_refl eq_refl).
Qed.

Lemma spec_write_key u v p u' : u_SetNestedField u v ("spec" :: p) = Ok u' → u_key u' = u_key u.
Proof. intros (H1 & H2 & _)%u_set_spec_meta. unfold u_key. by rewrite H1, H2. Qed.

Lemma may_call_belongs clock P server c k nn :
  may_call clock P server c → write_key c = Some (k, nn) → belongs (server_nn server) k nn.
Proof.
  intros Hc Hw. destruct Hc; cbn in Hw; simplify_eq; cbn [obj_key] in *;
    try match goal with H : owned _ _ _ |- _ => apply owned_key in H; rewrite H; done end;
    try match goal with H : _ = _ |- _ => rewrite H; done end; try done.
  - apply desiredVPA_key in H0. by rewrite H0.
  - apply spec_write_key in H1, H2. by rewrite H2, H1, H0.
  - apply owned_key in H1. by rewrite H1, buildStatefulSet_meta.
  - apply newSnapshot_meta in H2 as (Hn & _). split; [exact Hn|done].
  - apply newSnapshot_meta in H3 as (Hn & _). split; [exact Hn|done].
  - destruct H; cbn in Hw; simplify_eq. cbn [obj_key] in *.
    change (meta_key (sts_Meta (set_containers _ sts))) with (meta_key (sts_Meta sts)). by rewrite H1.
Qed.

Lemma reconcile_call_belongs clock P req c k nn :
  reconcile_call clock P req c → write_key c = Some (k, nn) → belongs req k nn.
Proof.
  intros Hc Hw. destruct Hc as [|server HP <-|server c HP <- Hd Hf Hc|server c HP <- Hc].
  - done.
  - cbn in Hw. simplify_eq. rewrite meta_key_add_finalizer. done.
  - destruct Hc; cbn in Hw; simplify_eq; [cbn in H0; by rewrite H0|by rewrite meta_key_remove_finalizer].
  - exact (may_call_belongs _ _ _ _ _ _ Hc Hw).
Qed.
End Keys.

(** ** Disruption budget *)

Definition budget_tracks (server : EnshroudedServer) (t : Time) (c : controller_call) : Prop :=
  match c with
  | Create KPodDisruptionBudget o | Update KPodDisruptionBudget o =>
    pdb_MaxUnavailable o = Some (FromInt (if protected_at server t then 0 else 1))
  | Delete KPodDisruptionBudget _ => False
  | _ => True
  end.

Lemma sampled_eq server t t' :
  sampled (λ x, x = t) server t' → protected_at server t' = protected_at server t.
Proof.
  unfold sampled, protected_at. intros [->|[H| ->]]; [done| |done]. by rewrite H.
Qed.

Lemma reconcile_call_budget server t req c :
  reconcile_call (λ x, x = t) (servers (λ s, s = server)) req c → budget_tracks server t c.
Proof.
  intros Hc. destruct Hc as [|s|s c HP Hk Hd Hf Hc|s c HP Hk Hc]; try done.
  - by destruct Hc.
  - cbn in HP. subst s. destruct Hc; try done; cbn;
      [subst v; by rewrite (sampled_eq server t t0)..|]. by destruct H.
Qed.

(** ** Vertical scaling *)

(** Container by container: the names stay, and no memory request goes down. *)
Definition memory_monotone (old new : StatefulSet) : Prop :=
  length (sts_containers new) = length (sts_containers old)
  ∧ ∀ j c c', sts_containers old !! j = Some c → sts_containers new !! j = Some c' →
    c_Name c' = c_Name c ∧ c_Image c' = c_Image c
    ∧ rr_Limits (c_Resources c') = rr_Limits (c_Resources c)
    ∧ ∀ cur, rr_Requests (c_Resources c) !! "memory" = Some cur →
      ∃ m, rr_Requests (c_Resources c') !! "memory" = Some m ∧ 0 ≤ q_Cmp m cur.

Lemma memory_kept_monotone `{!QuantityLaws} server sts i c rl :
  0 < st_ActivePlayers (es_Status server) →
  sts_containers sts !! i = Some c → memory_kept server (rr_Requests (c_Resources c)) rl →
  memory_monotone sts (set_containers (<[i := set_container_requests rl c]> (sts_containers sts)) sts).
Proof.
  intros Hp Hi Hk. unfold memory_monotone.
  change (sts_containers (set_containers ?l _)) with l. split; [apply length_insert|].
  intros j d d' Hd. destruct (decide (i = j)) as [<-|Hij].
  - rewrite list_lookup_insert_eq by (by eapply lookup_lt_Some). intros [= <-]. simplify_eq.
    split_and!; try done. intros cur Hc. cbn. destruct (Hk Hp cur Hc) as (m & Hm & Hle).
    exists m. split; [done|]. destruct Hle as [->|]; [by rewrite q_cmp_refl|done].
  - rewrite list_lookup_insert_ne by done. intros Hd'. simplify_eq. split_and!; try done.
    intros cur Hc. exists cur. by rewrite q_cmp_refl.
Qed.

(** ** Secrets *)

Definition reads_known_secret (Q : EnshroudedServer → Prop) (req : NamespacedName) (c : controller_call) : Prop :=
  match c with
  | Get KSecret nn =>
    ∃ server, Q server ∧ obj_key KServer server = req ∧ nn_Namespace nn = nn_Namespace req
      ∧ (nn_Name nn = config_secret_name server
         ∨ nn_Name nn ∈ allSecretRefs server
         ∨ ∃ s3, bk_S3 (sp_Backup (es_Spec server)) = Some s3 ∧ nn_Name nn = s3_CredentialsSecretRef s3)
  | _ => True
  end.

Lemma reconcile_call_secrets clock Q req c :
  reconcile_call clock (servers Q) req c → reads_known_secret Q req c.
Proof.
  intros Hc. destruct Hc as [|s|s c HP Hk Hd Hf Hc|s c HP Hk Hc]; try done.
  - by destruct Hc.
  - destruct Hc; try done.
    + destruct k; try done. destruct H as [Hns Hin]. cbn. exists s. subst req. split_and!; [done|done|done|].
      unfold secret_reads in Hin. rewrite elem_of_cons, elem_of_app in Hin.
      destruct Hin as [H|[H|H]]; [by left|by right; left|]. right; right.
      destruct (bk_S3 _) as [s3|]; [|by apply not_elem_of_nil in H]. exists s3.
      by apply list_elem_of_singleton in H.
    + by destruct H.
Qed.
End Safety.

(** ** The theorems *)

Section Theorems.
Context {QO : QuantityOps} {UT : UnicodeTables} {TZ : TzDatabase} {MO : MetaOps} {UO : UnstructuredOps} {SO : SortOps}.
Context {ML : MetaLaws} {SL : SortLaws}.


(** C2: in every run of [Reconcile], the savegame claim is never updated, is
    created only as the desired claim, and is deleted only when the server is
    being deleted, still has its finalizer, and asked for it with
    [retainOnDelete: false]. *)
Theorem volume_deleted_only_on_request clock P N fuel req s tr s' o :
  honest_env clock P N → runs N (Reconcile fuel req) s tr s' o →
  every_call (E := KubeE) (volume_safe P req) tr.
Proof.
  intros HN Hr. eapply every_call_impl; [by eapply Reconcile_run|]. apply reconcile_call_volume.
Qed.


(** Every status write of a run of [Reconcile] leaves metadata and spec as
    they were read, and the two fields the metrics sidecar owns (activePlayers,
    gameVersion) too. *)
Theorem status_keeps_sidecar_fields clock P N fuel req s tr s' o :
  honest_env clock P N → runs N (Reconcile fuel req) s tr s' o →
  every_call (E := KubeE) (keeps_sidecar_fields P req) tr.
Proof.
  intros HN Hr. eapply every_call_impl; [by eapply Reconcile_run|]. apply reconcile_call_status.
Qed.


(** C25: applying a VPA recommendation while players are connected never lowers
    the memory request of any container of the StatefulSet that was read, and
    changes no container's name, image or limits. *)
Theorem vpa_keeps_memory `{!QuantityLaws} clock server sts N s tr s' o :
  0 < st_ActivePlayers (es_Status server) →
  honest_env clock (λ k, match k with KStatefulSet => λ x, x = sts | _ => λ _, True end) N →
  runs N (applyVPARecommendation server) s tr s' o →
  every_call (λ c : KubeE, match c with
    | Update KStatefulSet new => memory_monotone sts new
    | Create _ _ | Update _ _ | Delete _ _ => False
    | _ => True
    end) tr.
Proof.
  intros Hp HN Hr. eapply every_call_impl.
  - exact (calls_only_runs (E := KubeE) _ (vpa_apply_call _ server) _ N s tr s' o
      (applyVPARecommendation_vpa_calls clock _ server) HN Hr).
  - intros c Hc. destruct Hc as [| |sts' i c rl _ -> _ Hi _ Hk]; try done. by apply (memory_kept_monotone server).
Qed.

(** The Secrets a reconciliation reads are the generated configuration, the
    Secrets the watch index lists for the server, or the S3 credentials; so a
    change of any password Secret a server depends on is mapped back to it. *)
Theorem secret_watch_covers_reads clock Q N fuel req s tr s' o :
  honest_env clock (servers Q) N → runs N (Reconcile fuel req) s tr s' o →
  every_call (E := KubeE) (reads_known_secret Q req) tr.
Proof.
  intros HN Hr. eapply every_call_impl; [by eapply Reconcile_run|]. apply reconcile_call_secrets.
Qed.
End Theorems.

(** ** Witnesses *)

Import Model.

(** The environment of a concrete run, and the run of a program against an
    oracle within it. *)
Definition sample_env (clock : Time → Prop) (P : ∀ k, object k → Prop) : env KubeE := free_env (honest clock P).

Lemma sample_env_honest clock P : honest_env clock P (sample_env clock P).
Proof. by intros s c x s'. Qed.

Lemma sample_run {A} (p : prog KubeE A) (clock : Time → Prop) (Q : EnshroudedServer → Prop) server t :
  clock t → Q server →
  let r := drive (empty_cluster server t) p in
  runs (sample_env clock (servers Q)) p () r.1 () r.2.
Proof. intros Ht HQ. apply drive_runs. intros c. apply empty_cluster_honest; [done|done|by intros []]. Qed.

(** [Reconcile] on a busy server in an otherwise empty cluster. *)
Definition busy_run := drive (empty_cluster busy_server monday_noon) (Reconcile 19 sample_req).


(** [Reconcile] on a server that is deleted together with its data: the claim is
    deleted. *)
Definition doomed_run := drive (empty_cluster doomed_server monday_noon) (Reconcile 19 sample_req).

Lemma volume_deleted_only_on_request_witness :
  every_call (E := KubeE) (volume_safe (servers (λ s, s = doomed_server)) sample_req) doomed_run.1
  ∧ some_call (E := KubeE) deletes_volume doomed_run.1.
Proof.
  split.
  - apply (volume_deleted_only_on_request (λ _, True) _ (sample_env (λ _, True) (servers (λ s, s = doomed_server)))
      19 sample_req () _ () doomed_run.2).
    + apply sample_env_honest.
    + by apply sample_run.
  - right. right. left. exact I.
Defined.


Lemma status_keeps_sidecar_fields_witness :
  every_call (E := KubeE) (keeps_sidecar_fields (servers (λ s, s = busy_server)) sample_req) busy_run.1.
Proof.
  apply (status_keeps_sidecar_fields (λ _, True) _ (sample_env (λ _, True) (servers (λ s, s = busy_server)))
    19 sample_req () _ () busy_run.2).
  - apply sample_env_honest.
  - by apply sample_run.
Defined.


Lemma secret_watch_covers_reads_witness :
  every_call (E := KubeE) (reads_known_secret (λ s, s = busy_server) sample_req) busy_run.1.
Proof.
  apply (secret_watch_covers_reads (λ _, True) _ (sample_env (λ _, True) (servers (λ s, s = busy_server)))
    19 sample_req () _ () busy_run.2).
  - apply sample_env_honest.
  - by apply sample_run.
Defined.

(** A recommendation of two CPUs and less memory than the server has. *)
Definition vpa_run := drive (vpa_cluster monday_noon) (applyVPARecommendation scaled_server).

Lemma vpa_keeps_memory_witness :
  every_call (λ c : KubeE, match c with
    | Update KStatefulSet new => memory_monotone scaled_sts new
    | Create _ _ | Update _ _ | Delete _ _ => False
    | _ => True
    end) vpa_run.1
  ∧ some_call (E := KubeE) (writes_kind KStatefulSet) vpa_run.1.
Proof.
  split.
  - apply (vpa_keeps_memory (λ _, True) scaled_server scaled_sts
      (sample_env (λ _, True) (λ k, match k with KStatefulSet => λ x, x = scaled_sts | _ => λ _, True end))
      () _ () vpa_run.2).
    + reflexivity.
    + apply sample_env_honest.
    + apply drive_runs. intros c. by apply vpa_cluster_honest.
  - right. right. left. reflexivity.
Defined.
