(* ===== verification/Rbac.v ===== *)
(** * Permissions

    The permissions the controller's kubebuilder markers ask for, the requests
    its calls become, and the Role it creates for the metrics sidecar. *)
From S2P Require Import Prelude GoStrings GoTime Platform Instances Api Effects Kube Builders Backup Vpa Guards Controller A2S Sidecar Footprint Samples Safety.
Local Open Scope Z_scope.

Definition all_verbs := ["get"; "list"; "watch"; "create"; "update"; "patch"; "delete"].

(** The [+kubebuilder:rbac] markers above [Reconcile], in order. *)
Definition managerRules : list PolicyRule := [
  MkPolicyRule ["enshrouded.enshrouded.io"] ["enshroudedservers"] all_verbs;
  MkPolicyRule ["enshrouded.enshrouded.io"] ["enshroudedservers/status"] ["get"; "update"; "patch"];
  MkPolicyRule ["enshrouded.enshrouded.io"] ["enshroudedservers/finalizers"] ["update"];
  MkPolicyRule ["apps"] ["statefulsets"] all_verbs;
  MkPolicyRule [""] ["services"] all_verbs;
  MkPolicyRule [""] ["persistentvolumeclaims"] all_verbs;
  MkPolicyRule [""] ["secrets"] all_verbs;
  MkPolicyRule ["networking.k8s.io"] ["networkpolicies"] all_verbs;
  MkPolicyRule ["snapshot.storage.k8s.io"] ["volumesnapshots"] ["get"; "list"; "watch"; "create"; "delete"];
  MkPolicyRule [""] ["serviceaccounts"] ["get"; "list"; "watch"; "create"; "update"; "patch"];
  MkPolicyRule ["rbac.authorization.k8s.io"] ["roles"] ["get"; "list"; "watch"; "create"; "update"; "patch"];
  MkPolicyRule ["rbac.authorization.k8s.io"] ["rolebindings"] ["get"; "list"; "watch"; "create"; "update"; "patch"];
  MkPolicyRule ["policy"] ["poddisruptionbudgets"] all_verbs;
  MkPolicyRule ["autoscaling.k8s.io"] ["verticalpodautoscalers"] all_verbs
].

(** A request: API group, resource, verb. *)
Definition request : Type := string * string * string.

Definition permits (rules : list PolicyRule) (r : request) : bool :=
  let '(group, resource, verb) := r in
  existsb (λ p, bool_decide (group ∈ rule_APIGroups p) && bool_decide (resource ∈ rule_Resources p)
                && bool_decide (verb ∈ rule_Verbs p)) rules.

(** API group and resource of a kind. *)
Definition resource_of (k : kind) : string * string :=
  match k with
  | KServer => (GroupVersion_Group, "enshroudedservers")
  | KStatefulSet => ("apps", "statefulsets")
  | KService => ("", "services")
  | KPersistentVolumeClaim => ("", "persistentvolumeclaims")
  | KSecret => ("", "secrets")
  | KNetworkPolicy => ("networking.k8s.io", "networkpolicies")
  | KServiceAccount => ("", "serviceaccounts")
  | KRole => ("rbac.authorization.k8s.io", "roles")
  | KRoleBinding => ("rbac.authorization.k8s.io", "rolebindings")
  | KPodDisruptionBudget => ("policy", "poddisruptionbudgets")
  | KVolumeSnapshot => ("snapshot.storage.k8s.io", "volumesnapshots")
  | KVerticalPodAutoscaler => ("autoscaling.k8s.io", "verticalpodautoscalers")
  end.

(** Every request a policy rule allows. *)
Definition granted (p : PolicyRule) : list request :=
  g ← rule_APIGroups p; r ← rule_Resources p; v ← rule_Verbs p; [(g, r, v)].

Section Rbac.
Context {QO : QuantityOps} {UT : UnicodeTables} {TZ : TzDatabase} {MO : MetaOps} {UO : UnstructuredOps} {SO : SortOps}.

(** The requests behind a call of the controller: reads of typed objects go
    through the manager's cache, which lists and watches. *)
Definition requests (c : controller_call) : list request :=
  match c with
  | Get k _ =>
    match k with
    | KVolumeSnapshot | KVerticalPodAutoscaler => [(resource_of k, "get")]
    | _ => [(resource_of k, "get"); (resource_of k, "list"); (resource_of k, "watch")]
    end
  | Create k _ => [(resource_of k, "create")]
  | Update k _ => [(resource_of k, "update")]
  | Delete k _ => [(resource_of k, "delete")]
  | StatusUpdate _ => [(GroupVersion_Group, "enshroudedservers/status", "update")]
  | ListSnapshots _ _ _ => [(resource_of KVolumeSnapshot, "list")]
  | ListServersByField _ _ _ => [(resource_of KServer, "list"); (resource_of KServer, "watch")]
  | Now | Sleep _ | PublishMetrics _ | DropMetrics _ _ _ => []
  end.

(** The requests behind a call of the sidecar. *)
Definition sidecar_requests (c : sidecar_call) : list request :=
  match c with
  | GetServer _ => [(GroupVersion_Group, "enshroudedservers", "get")]
  | PatchStatus _ _ => [(GroupVersion_Group, "enshroudedservers/status", "patch")]
  | _ => []
  end.

Lemma may_call_permitted clock P server c :
  may_call clock P server c → forallb (permits managerRules) (requests c) = true.
Proof.
  intros Hc. destruct Hc; try (vm_compute; reflexivity); [by destruct k|].
  destruct H; vm_compute; reflexivity.
Qed.

Lemma reconcile_call_permitted clock P req c :
  reconcile_call clock P req c → forallb (permits managerRules) (requests c) = true.
Proof.
  intros Hc. destruct Hc as [|server|server c HP Hk Hd Hf Hc|server c HP Hk Hc]; try (vm_compute; reflexivity).
  - destruct Hc; vm_compute; reflexivity.
  - by eapply may_call_permitted.
Qed.

(** C28: every request behind a run of [Reconcile] is permitted by the RBAC
    markers of the controller, the Role it creates grants the sidecar every
    request the sidecar makes, and nothing the controller may not do itself (the
    API server would refuse such a Role as an escalation). *)
Theorem manager_role_sufficient `{!MetaLaws} `{!SortLaws} clock P N fuel req s tr s' o :
  honest_env clock P N → runs N (Reconcile fuel req) s tr s' o →
  every_call (λ c : KubeE, forallb (permits managerRules) (requests c) = true) tr
  ∧ (∀ server, forallb (permits managerRules) (role_Rules (desiredRole server) ≫= granted) = true)
  ∧ (∀ server c, forallb (permits (role_Rules (desiredRole server))) (sidecar_requests c) = true).
Proof.
  intros HN Hr. split_and!.
  - eapply every_call_impl; [by eapply Reconcile_run|]. apply reconcile_call_permitted.
  - intros server. vm_compute. reflexivity.
  - intros server c. destruct c; vm_compute; reflexivity.
Qed.
End Rbac.

Import Model.

Lemma manager_role_sufficient_witness :
  every_call (λ c : KubeE, forallb (permits managerRules) (requests c) = true) busy_run.1.
Proof.
  apply (manager_role_sufficient (λ _, True) (servers (λ s, s = busy_server)) (sample_env (λ _, True) (servers (λ s, s = busy_server)))
    19 sample_req () _ () busy_run.2).
  - apply sample_env_honest.
  - by apply sample_run.
Defined.
