(* ===== verification/Termination.v ===== *)
(** * The reconciler always returns

    Under a clock that never goes back and advances by at least [d] during
    [Sleep(d)], and answers within the ranges the API types allow, every run of
    [Reconcile] ends with a result and an error value: it neither panics nor
    polls for ever.  Nineteen evaluations of the polling condition are enough for
    the three minutes at one reading every ten seconds. *)
From S2P Require Import Prelude GoStrings GoTime GoCodec Platform Instances Api Effects Kube Builders Config Cron Windows Backup Vpa Guards Controller Footprint Samples Safety.
Local Open Scope go_scope.
Local Open Scope Z_scope.

Section Returns.
Context {QO : QuantityOps} {UT : UnicodeTables} {TZ : TzDatabase} {MO : MetaOps} {UO : UnstructuredOps} {SO : SortOps}.

(** ** Clocks and answers *)

(** [time] is the current time of a state of the environment. *)
Definition keeps_time (N : env KubeE) (time : N → Time) : Prop :=
  ∀ s c x s', env_step (e := N) s c x s' →
    time s ≤ time s'
    ∧ match c return controller_resp c → Prop with
      | Now => λ t, time s ≤ t ≤ time s'
      | Sleep d => λ _, time s + d ≤ time s'
      | _ => λ _, True
      end x.

(** A recommendation whose targets parse as quantities. *)
Definition targets_parse (vpa : Unstructured) : Prop :=
  let '(recs, _, _) := u_NestedSlice vpa ["status"; "recommendation"; "containerRecommendations"] in
  let '(cpu, mem) := findTargets recs in
  (cpu = "" ∨ is_Some (q_Parse cpu)) ∧ (mem = "" ∨ is_Some (q_Parse mem)).

(** Answers within the ranges of the API: quantities of a recommendation parse,
    the retain count is not negative, and a list has fewer than [2 ^ 31] items. *)
Definition sane_server (k : kind) : object k → Prop :=
  match k with
  | KServer => λ s, 0 ≤ vsb_RetainCount (bk_VolumeSnapshot (sp_Backup (es_Spec s)))
  | _ => λ _, True
  end.
Definition sane_object (k : kind) (o : object k) : Prop :=
  sane_server k o ∧ match k return object k → Prop with KVerticalPodAutoscaler => targets_parse | _ => λ _, True end o.
Definition sane (c : KubeE) : resp c → Prop :=
  match c return controller_resp c → Prop with
  | Get k _ => λ r, ∀ o, r = Ok o → sane_object k o
  | Update k _ => λ r, ∀ o, r = Ok o → sane_server k o
  | ListSnapshots _ _ _ => λ r, ∀ l, r = Ok l → Z.of_nat (length l) ≤ 2147483647
  | _ => λ _, True
  end.

Context (N : env KubeE) (time : N → Time).
Hypothesis HT : keeps_time N time.
Hypothesis HS : ∀ s c x s', env_step (e := N) s c x s' → sane c x.

(** ** Programs that return *)

Definition returns_from {A} (p : prog KubeE A) (s : N) : Prop :=
  wp N (λ _ _, True) p (λ _ o, ∃ a, o = Returns a) s.
Definition returns {A} (p : prog KubeE A) : Prop := ∀ s, returns_from p s.

Lemma returns_ret {A} (a : A) : returns (Ret a).
Proof. intros s. by exists a. Qed.
Lemma returns_bind {A B} (p : prog KubeE A) (f : A → prog KubeE B) :
  returns p → (∀ a, returns (f a)) → returns (p ≫= f).
Proof.
  intros Hp Hf s. eapply wp_bind_intro; [apply Hp|]. intros s' o [a ->]. apply Hf.
Qed.
Lemma returns_call {A} (c : KubeE) (f : resp c → prog KubeE A) :
  (∀ x, sane c x → returns (f x)) → returns (trigger c ≫= f).
Proof. intros Hf s. split; [done|]. intros x s' Hs. apply Hf. by eapply HS. Qed.
Lemma returns_trigger (c : KubeE) : returns (trigger c).
Proof. intros s. split; [done|]. intros x s' Hs. by exists x. Qed.
Lemma returns_and_then (p q : step) : returns p → returns q → returns (p ;;? q).
Proof. intros Hp Hq. apply returns_bind; [done|]. intros [e|]; [apply returns_ret|done]. Qed.
End Returns.

Ltac returns_step :=
  lazymatch goal with
  | |- returns _ (Ret _) => apply returns_ret
  | |- returns _ (fail _) => apply returns_ret
  | |- returns _ nil_error => apply returns_ret
  | |- returns _ (and_then _ _) => apply returns_and_then
  | HS : (∀ s c x s', env_step s c x s' → sane c x) |- returns _ (trigger _ ≫= _) =>
    apply (returns_call _ HS); intros ? ?
  | |- returns _ (trigger _) => apply returns_trigger
  | |- returns _ (_ ≫= _) => apply returns_bind; [|intros ?]
  | |- returns _ (match ?x with _ => _ end) => destruct x eqn:?
  | |- returns _ (let _ := _ in _) => cbv zeta
  end.
Ltac returns_walk := unfold_calls; repeat returns_step.

Section Components.
Context {QO : QuantityOps} {UT : UnicodeTables} {TZ : TzDatabase} {MO : MetaOps} {UO : UnstructuredOps} {SO : SortOps}.
Context {QL : QuantityLaws} {SL : SortLaws}.
Context (N : env KubeE) (time : N → Time).
Hypothesis HT : keeps_time N time.
Hypothesis HS : ∀ s c x s', env_step (e := N) s c x s' → sane c x.

(** ** The polling loop *)

Lemma returns_from_call {A} (c : KubeE) (f : resp c → prog KubeE A) s :
  (∀ x s', env_step s c x s' → returns_from N (f x) s') → returns_from N (trigger c ≫= f) s.
Proof. intros Hf. by split. Qed.

Lemma pollSnapshot_returns n server snapName strict deadline s :
  deadline ≤ time s + Z.of_nat n * pollInterval →
  returns_from N (pollSnapshot (S n) server snapName strict deadline) s.
Proof.
  revert s. induction n as [|n IH]; intros s Hd; cbn [pollSnapshot]; unfold now; apply returns_from_call;
    intros t s1 H1; destruct (HT _ _ _ _ H1) as [Hm1 Ht1]; cbn in Ht1.
  - unfold before. destruct (Z.ltb_spec t deadline); [lia|]. unfold strict_err. destruct strict; by eexists.
  - destruct (before t deadline); [|unfold strict_err; destruct strict; by eexists].
    unfold get. apply returns_from_call. intros r s2 H2. destruct (HT _ _ _ _ H2) as [Hm2 _].
    destruct r as [cur|e]; [|unfold strict_err; destruct strict; by eexists].
    destruct (snapshot_status cur); [unfold strict_err; destruct strict; by eexists|by eexists|].
    unfold sleep. apply returns_from_call. intros [] s3 H3. destruct (HT _ _ _ _ H3) as [_ Ht3]. cbn in Ht3.
    apply IH. unfold pollInterval, second in *. lia.
Qed.

Lemma pollSnapshot_returns_fuel fuel server snapName strict deadline s :
  (19 ≤ fuel)%nat → deadline ≤ time s + snapshotTimeout →
  returns_from N (pollSnapshot fuel server snapName strict deadline) s.
Proof.
  intros Hf Hd. destruct fuel as [|n]; [lia|]. apply pollSnapshot_returns.
  unfold snapshotTimeout, pollInterval, minute, second in *. lia.
Qed.

Lemma snapshotBeforeUpdate_returns fuel server strict :
  (19 ≤ fuel)%nat → returns N (snapshotBeforeUpdate fuel server strict).
Proof.
  intros Hf s. unfold snapshotBeforeUpdate. unfold_calls. apply returns_from_call. intros t0 s0 _. cbv zeta.
  set (snapName := es_Name server +:+ "-pre-update-" +:+ itoa (unix t0)).
  destruct (newSnapshot _ _ _ _ _ _) as [snap|e]; [|by eexists].
  assert (returns N (t ← now; pollSnapshot fuel server snapName strict (add t snapshotTimeout))) as Hpoll.
  { intros s1. unfold now. apply returns_from_call. intros t s' Hs. destruct (HT _ _ _ _ Hs) as [_ Ht].
    cbn in Ht. apply pollSnapshot_returns_fuel; [done|]. unfold add. lia. }
  apply returns_from_call. intros r s1 _. unfold strict_err. destruct r as [o|e]; [apply Hpoll|].
  destruct (negb (IsAlreadyExists e)); [|apply Hpoll]. destruct strict; by eexists.
Qed.

(** ** The places that could panic *)

Lemma q_MustParse_returns s : is_Some (q_Parse s) → returns N (q_MustParse s).
Proof. intros [q Hq]. unfold q_MustParse. rewrite Hq. apply returns_ret. Qed.

Lemma reconcilePVC_returns server : returns N (reconcilePVC server).
Proof.
  unfold reconcilePVC. returns_walk. apply q_MustParse_returns.
  destruct q_parse_10Gi as (q & Hq & _). by exists q.
Qed.

Lemma recommendedRequests_returns server cpu mem cur :
  cpu = "" ∨ is_Some (q_Parse cpu) → mem = "" ∨ is_Some (q_Parse mem) →
  returns N (recommendedRequests server cpu mem cur).
Proof.
  intros Hc Hm. unfold recommendedRequests. returns_walk; apply q_MustParse_returns; naive_solver.
Qed.

Lemma applyVPARecommendation_returns server : returns N (applyVPARecommendation server).
Proof.
  unfold applyVPARecommendation. returns_walk.
  match goal with H : sane (Get KVerticalPodAutoscaler _) _ |- _ => specialize (H _ eq_refl); destruct H as [_ H]; cbn in H end.
  unfold targets_parse in *.
  repeat match goal with H : u_NestedSlice _ _ = _ |- _ => rewrite H in * end.
  repeat match goal with H : findTargets _ = _ |- _ => rewrite H in * end.
  match goal with H : _ ∧ _ |- _ => destruct H end. by apply recommendedRequests_returns.
Qed.

Lemma deleteSnapshots_returns l : returns N (deleteSnapshots l).
Proof. induction l as [|u l IH]; cbn [deleteSnapshots]; returns_walk. done. Qed.

Lemma pruneVolumeSnapshots_returns server rc : 0 ≤ rc → returns N (pruneVolumeSnapshots server rc).
Proof.
  intros Hrc. unfold pruneVolumeSnapshots. unfold_calls. returns_step.
  destruct x as [items|e]; [|returns_walk]. specialize (H _ eq_refl). cbn in H.
  rewrite wrap32_id by width. cbv zeta.
  destruct (Z.leb_spec (Z.of_nat (length items)) rc); [apply returns_ret|].
  rewrite wrap32_id by width. unfold slice_to.
  assert (length (sort_slice older items) = length items) as Hl by apply Permutation_length, sort_slice_perm.
  rewrite Hl. destruct (Z.leb_spec 0 (Z.of_nat (length items) - rc)); [|lia].
  destruct (Z.leb_spec (Z.of_nat (length items) - rc) (Z.of_nat (length items))); [|lia].
  apply deleteSnapshots_returns.
Qed.

(** ** Everything else *)

Lemma isInMaintenanceWindow_returns ws : returns N (isInMaintenanceWindow ws).
Proof. unfold isInMaintenanceWindow. returns_walk. Qed.

Lemma playersProtected_returns server : returns N (playersProtected server).
Proof. unfold playersProtected. returns_walk. apply isInMaintenanceWindow_returns. Qed.

Lemma resolveGroups_returns ns gs acc : returns N (resolveGroups ns gs acc).
Proof. revert acc. induction gs as [|g gs IH]; intros acc; cbn [resolveGroups]; returns_walk; apply IH. Qed.

Lemma annotationHash_returns server : returns N (annotationHash server).
Proof.
  unfold annotationHash, reconcileConfigSecret, buildServerConfigJSON, cleanupConfigSecret, setPhaseError.
  returns_walk. apply resolveGroups_returns.
Qed.

Lemma reconcileMetricsSidecarRBAC_returns server : returns N (reconcileMetricsSidecarRBAC server).
Proof.
  unfold reconcileMetricsSidecarRBAC, reconcileSidecarServiceAccount, reconcileSidecarRole,
    reconcileSidecarRoleBinding. returns_walk.
Qed.

Lemma reconcilePDB_returns server : returns N (reconcilePDB server).
Proof. unfold reconcilePDB. returns_walk. apply playersProtected_returns. Qed.

Lemma reconcileVPA_returns server : returns N (reconcileVPA server).
Proof. unfold reconcileVPA, ensureVPA, updateVPA. returns_walk. Qed.

Lemma reconcileNetworkPolicy_returns server : returns N (reconcileNetworkPolicy server).
Proof. unfold reconcileNetworkPolicy. returns_walk. Qed.

Lemma reconcileService_returns server : returns N (reconcileService server).
Proof. unfold reconcileService. returns_walk. Qed.

Lemma buildStatefulSet_containers server h : ∃ c cs, sts_containers (buildStatefulSet server h) = c :: cs.
Proof.
  unfold buildStatefulSet, sts_containers. destruct (if user_groups_mode server then _ else _) as [[??]?].
  cbn. destruct (metricsSidecarContainer _ _); cbn; eauto.
Qed.

Lemma reconcileStatefulSet_returns fuel server hash :
  (19 ≤ fuel)%nat → returns N (reconcileStatefulSet fuel server hash).
Proof.
  intros Hf. unfold reconcileStatefulSet. cbv zeta. returns_walk.
  - destruct (buildStatefulSet_containers server hash) as (c' & cs & E). congruence.
  - by apply snapshotBeforeUpdate_returns.
Qed.

Lemma reconcileVolumeSnapshot_returns server :
  0 ≤ vsb_RetainCount (bk_VolumeSnapshot (sp_Backup (es_Spec server))) →
  returns N (reconcileVolumeSnapshot server).
Proof.
  intros Hrc. assert (0 ≤ or_int (vsb_RetainCount (bk_VolumeSnapshot (sp_Backup (es_Spec server)))) 3)
    by (unfold or_int; case_decide; lia).
  unfold reconcileVolumeSnapshot. returns_walk;
    try apply isInMaintenanceWindow_returns; by apply pruneVolumeSnapshots_returns.
Qed.

Lemma updateStatus_returns server d w : returns N (updateStatus server d w).
Proof. unfold updateStatus, publishStatus. returns_walk. Qed.

Lemma reconcileS3Sidecar_returns server : returns N (reconcileS3Sidecar server).
Proof. unfold reconcileS3Sidecar. returns_walk. Qed.

Lemma reconcileLive_returns fuel server :
  (19 ≤ fuel)%nat → sane_server KServer server → returns N (reconcileLive fuel server).
Proof.
  intros Hf Hs. unfold reconcileLive, finishReconcile.
  repeat returns_step; eauto using annotationHash_returns, reconcilePVC_returns, reconcileMetricsSidecarRBAC_returns,
    reconcilePDB_returns, reconcileVPA_returns, applyVPARecommendation_returns, reconcileNetworkPolicy_returns,
    playersProtected_returns, reconcileStatefulSet_returns, reconcileService_returns, reconcileS3Sidecar_returns,
    reconcileVolumeSnapshot_returns, isInMaintenanceWindow_returns, updateStatus_returns.
Qed.

Lemma handleDeletion_returns server : returns N (handleDeletion server).
Proof. unfold handleDeletion, deletePVC. returns_walk. Qed.

Lemma Reconcile_returns fuel req : (19 ≤ fuel)%nat → returns N (Reconcile fuel req).
Proof.
  intros Hf. unfold Reconcile. unfold_calls.
  repeat lazymatch goal with
  | |- returns _ (handleDeletion _) => apply handleDeletion_returns
  | |- returns _ (reconcileLive _ _) => apply reconcileLive_returns; [done|]
  | _ => returns_step
  end;
  repeat match goal with
  | H : sane (Get _ _) _ |- _ => destruct (H _ eq_refl); clear H
  | H : sane (Update _ _) _ |- _ => specialize (H _ eq_refl)
  end; done.
Qed.
End Components.

Section Theorems.
Context {QO : QuantityOps} {UT : UnicodeTables} {TZ : TzDatabase} {MO : MetaOps} {UO : UnstructuredOps} {SO : SortOps}.


(** [pollSnapshot] needs no more than one evaluation of its condition per
    ten seconds of its deadline: with [n] sleeps left before the deadline, [n + 1]
    units of fuel are enough, whatever the snapshot's status. *)
Theorem poll_terminates (N : env KubeE) (time : N → Time) n server snapName strict deadline s tr s' o :
  keeps_time N time → deadline ≤ time s + Z.of_nat n * pollInterval →
  runs N (pollSnapshot (S n) server snapName strict deadline) s tr s' o → ∃ err, o = Returns err.
Proof.
  intros HT Hd Hr. exact (wp_sound _ _ _ _ _ _ _ _ (pollSnapshot_returns N time HT n server snapName strict deadline s Hd) Hr).
Qed.
End Theorems.

(** ** Witnesses *)

Import Model.

Lemma timed_cluster_time server ready : keeps_time (oracle_env (timed_cluster server ready)) (λ t : Time, t).
Proof.
  intros t c x t'. unfold oracle_env. cbn. destruct c as [k nn|k o|k o|k o|o| | | | | |]; cbn; try destruct k;
    intros [= <- <-]; cbn; lia.
Qed.

Lemma timed_cluster_sane ready s c x s' :
  env_step (e := oracle_env (timed_cluster idle_server ready)) s c x s' → sane c x.
Proof.
  unfold oracle_env. cbn. destruct c as [k nn|k o|k o|k o|o| | | | | |]; cbn; try destruct k; intros [= <- <-]; try done;
    intros l; try case_decide; intros [= <-]; try split; cbn; lia || done.
Qed.

(** The strict update of an idle server in a cluster whose snapshots never become
    ready: three minutes of polling, then an error. *)
Definition stuck_run := drive_state (timed_cluster idle_server (λ _, false)) (Reconcile 19 sample_req) monday_noon.


Definition poll_run :=
  drive_state (timed_cluster idle_server (λ _, false)) (pollSnapshot 3 idle_server "snap" true 20000000000) 0.

Lemma poll_terminates_witness : ∃ err, poll_run.2 = Returns err.
Proof.
  apply (poll_terminates (oracle_env (timed_cluster idle_server (λ _, false))) (λ t : Time, t)
    2 idle_server "snap" true 20000000000 0 poll_run.1.1 poll_run.1.2).
  - apply timed_cluster_time.
  - unfold pollInterval, second. cbn. lia.
  - pose proof (drive_state_runs (timed_cluster idle_server (λ _, false))
      (pollSnapshot 3 idle_server "snap" true 20000000000) 0) as H.
    unfold poll_run. destruct (drive_state _ _ _) as [[tr s'] o]. exact H.
Defined.
