(* ===== verification/Ordering.v ===== *)
(** * Order of effects

    What has to have happened before the controller takes an irreversible step:
    a ready snapshot before a strict update, the end of the volume before the
    removal of the finalizer, the removal of the finalizer before the metrics go. *)
From S2P Require Import Prelude GoStrings GoTime GoCodec Platform Instances Api Effects Kube Builders Config Cron Windows Backup Vpa Guards Controller Footprint Samples Safety.
Local Open Scope Z_scope.

(** In [tr], every call satisfies [G] of the events before it. *)
Definition each_after {E : effect} (G : list (event E) → E → Prop) (tr : list (event E)) : Prop :=
  ∀ tr1 c x tr2, tr = tr1 ++ Ev c x :: tr2 → G tr1 c.

Section Ordering.
Context {QO : QuantityOps} {UT : UnicodeTables} {TZ : TzDatabase} {MO : MetaOps} {UO : UnstructuredOps} {SO : SortOps}.
Local Abbreviation history := (list (event KubeE)).

(** ** Strict updates wait for a snapshot *)

(** A pre-update snapshot of the server was read, and it was ready to use. *)
Definition snapshot_ready (server : EnshroudedServer) (h : history) : Prop :=
  ∃ t snap, Ev (E := KubeE) (Get KVolumeSnapshot (NN (es_Namespace server) (preUpdateName server t))) (Ok snap) ∈ h
    ∧ snapshot_status snap = SnapReady.

(** The StatefulSet that was read already runs the wanted image. *)
Definition same_image (server : EnshroudedServer) (hash : string) (h : history) : Prop :=
  ∃ existing, Ev (E := KubeE) (Get KStatefulSet (server_nn server)) (Ok existing) ∈ h
    ∧ (c_Image <$> head (sts_containers existing) = None
       ∨ c_Image <$> head (sts_containers existing) = c_Image <$> head (sts_containers (buildStatefulSet server hash))).

Definition update_after_snapshot (server : EnshroudedServer) (hash : string) (h : history) (c : KubeE) : Prop :=
  match c with
  | Update KStatefulSet _ => same_image server hash h ∨ snapshot_ready server h
  | _ => True
  end.

Local Abbreviation H := (trace_env (E := KubeE) any).

Lemma snapshot_ready_app server h h' : snapshot_ready server h → snapshot_ready server (h ++ h').
Proof. intros (t & snap & Hin & Hs). exists t, snap. split; [|done]. apply elem_of_app. by left. Qed.

(** The strict poll returns nil only after a reading that says ready. *)
Lemma pollSnapshot_strict hash fuel server t deadline (h : H) :
  wp H (update_after_snapshot server hash)
    (pollSnapshot fuel server (preUpdateName server t) true deadline)
    (λ h' o, o = Returns None → snapshot_ready server h') h.
Proof.
  revert h. induction fuel as [|fuel IH]; intros h; cbn [pollSnapshot]; [done|].
  unfold now. apply wp_trace_call; [done|]. intros t1. destruct (before _ _); [|done].
  unfold get. apply wp_trace_call; [done|]. intros [cur|e]; [|done].
  destruct (snapshot_status cur) eqn:Es; [done| |].
  - intros _. exists t, cur. split; [|done]. apply elem_of_app. right. left.
  - unfold sleep. apply wp_trace_call; [done|]. intros []. apply IH.
Qed.

Lemma snapshotBeforeUpdate_strict hash fuel server (h : H) :
  wp H (update_after_snapshot server hash) (snapshotBeforeUpdate fuel server true)
    (λ h' o, o = Returns None → snapshot_ready server h') h.
Proof.
  unfold snapshotBeforeUpdate, now. apply wp_trace_call; [done|]. intros t. cbv zeta.
  destruct (newSnapshot _ _ _ _ _ _); [|done]. unfold create. apply wp_trace_call; [done|].
  intros r. destruct r as [o|e]; [|destruct (negb (IsAlreadyExists e)); [done|]];
    (apply wp_trace_call; [done|]; intros t'; apply pollSnapshot_strict).
Qed.

Lemma reconcileStatefulSet_strict fuel server hash (h : H) :
  up_UpgradeStrategy (sp_UpdatePolicy (es_Spec server)) = UpgradeStrategyStrictSnapshotBeforeUpdate →
  wp H (update_after_snapshot server hash) (reconcileStatefulSet fuel server hash) (λ _ _, True) h.
Proof.
  intros Hst. unfold reconcileStatefulSet, nil_error. cbv zeta. destruct (SetControllerReference _ _) as [m|e]; [|done].
  unfold get. apply wp_trace_call; [done|]. intros [existing|e].
  2: { destruct (negb (IsNotFound e)); [done|]. unfold create. by apply wp_trace_call. }
  set (h1 := h ++ _).
  apply (wp_bind_intro H (update_after_snapshot server hash) _ _ _ (λ (h' : H) o, o = Returns None → same_image server hash h' ∨ snapshot_ready server h')).
  - assert (Ev (E := KubeE) (Get KStatefulSet (server_nn server)) (Ok existing) ∈ h1) as Hin
      by (apply elem_of_app; right; left).
    rewrite Hst. destruct (bool_decide (or_str _ _ = UpgradeStrategyNoSnapshot)) eqn:E.
    { apply bool_decide_eq_true in E. discriminate E. }
    destruct (sts_containers existing) as [|cur cs] eqn:Ec.
    { cbn [wp]. intros _. left. exists existing. split; [done|]. left. by rewrite Ec. }
    destruct (sts_containers (buildStatefulSet server hash)) as [|new ns] eqn:En; [done|].
    destruct (bool_decide_reflect (c_Image cur = c_Image new)) as [Ei|Ei].
    { cbn [wp]. intros _. left. exists existing. split; [done|]. right. rewrite Ec, En. cbn. by rewrite Ei. }
    rewrite bool_decide_eq_true_2 by done. eapply wp_mono; [|apply snapshotBeforeUpdate_strict].
    intros h' o Ho HN. right. auto.
  - intros h' o Ho. destruct o as [[e|]|m'|]; cbn; try done. split; [|done]. by apply Ho.
Qed.

(** ** Deletion *)

(** The volume is gone: its deletion was accepted, or it was not there. *)
Definition volume_gone (server : EnshroudedServer) (h : history) : Prop :=
  (∃ pvc, Ev (E := KubeE) (Delete KPersistentVolumeClaim pvc) (Ok ()) ∈ h)
  ∨ (∃ pvc e, Ev (E := KubeE) (Delete KPersistentVolumeClaim pvc) (Err e) ∈ h ∧ IsNotFound e = true)
  ∨ (∃ e, Ev (E := KubeE) (Get KPersistentVolumeClaim (pvc_nn server)) (Err e) ∈ h ∧ IsNotFound e = true).

Definition deletion_order (server : EnshroudedServer) (h : history) (c : KubeE) : Prop :=
  match c with
  | Update KServer _ => retainPVC server = true ∨ volume_gone server h
  | DropMetrics _ _ _ => ∃ o o', Ev (E := KubeE) (Update KServer o) (Ok o') ∈ h
  | _ => True
  end.

Lemma handleDeletion_ordered server (h : H) :
  wp H (deletion_order server) (handleDeletion server) (λ _ _, True) h.
Proof.
  unfold handleDeletion. destruct (negb (ContainsFinalizer _ _)); [done|].
  apply (wp_bind_intro H (deletion_order server) _ _ _ (λ (h' : H) o, o = Returns None → retainPVC server = true ∨ volume_gone server h')).
  - destruct (retainPVC server); [by left|]. cbn [negb]. unfold deletePVC, get.
    apply wp_trace_call; [done|]. intros [pvc|e].
    + unfold delete_obj. apply wp_trace_call; [done|]. intros [[]|e].
      * intros _. right. left. exists pvc. apply elem_of_app. right. left.
      * cbn. destruct (IsNotFound e) eqn:En; [|done]. intros _. right. right. left.
        exists pvc, e. split; [apply elem_of_app; right; left|done].
    + destruct (IsNotFound e) eqn:En; [|done]. intros _. right. right. right.
      exists e. split; [apply elem_of_app; right; left|done].
  - intros h' o Ho. destruct o as [[e|]|m'|]; cbn [bind_post]; try done.
    unfold update. apply wp_trace_call; [by apply Ho|]. intros [o'|e]; [|done].
    unfold drop_metrics. apply wp_trace_call; [|done]. eexists _, o'. apply elem_of_app. right. left.
Qed.

(** C3: under StrictSnapshotBeforeUpdate, a run of [reconcileStatefulSet] updates
    the StatefulSet only after it read one that already runs the wanted image
    (or has no container), or after it read a pre-update snapshot of the server
    that was ready to use. *)
Theorem strict_update_has_snapshot N fuel server hash s tr s' o :
  up_UpgradeStrategy (sp_UpdatePolicy (es_Spec server)) = UpgradeStrategyStrictSnapshotBeforeUpdate →
  runs N (reconcileStatefulSet fuel server hash) s tr s' o →
  each_after (update_after_snapshot server hash) tr.
Proof.
  intros Hst Hr. exact (proj2 (trace_guarantee _ N _ _ [] _ _ _ _ (reconcileStatefulSet_strict fuel server hash [] Hst) Hr)).
Qed.

(** C12: a run of [handleDeletion] removes the finalizer only after the volume is
    gone (deleted, or not found) unless it is retained, and drops the metrics of
    the server only after the API server accepted the removal. *)
Theorem finalizer_removed_last N server s tr s' o :
  runs N (handleDeletion server) s tr s' o → each_after (deletion_order server) tr.
Proof. intros Hr. exact (proj2 (trace_guarantee _ N _ _ [] _ _ _ _ (handleDeletion_ordered server []) Hr)). Qed.
End Ordering.

(** ** Witnesses *)

Import Model.

Definition updates_sts (c : KubeE) : bool := match c with Update KStatefulSet _ => true | _ => false end.

(** A strict update in a cluster whose snapshots are ready after a minute. *)
Definition update_run :=
  drive_state (timed_cluster idle_server (λ t, monday_noon + minute <=? t))
    (reconcileStatefulSet 19 idle_server "") monday_noon.

Lemma strict_update_has_snapshot_witness :
  each_after (update_after_snapshot idle_server "") update_run.1.1
  ∧ existsb (λ e, match e with Ev c _ => updates_sts c end) update_run.1.1 = true.
Proof.
  split.
  - apply (strict_update_has_snapshot (oracle_env (timed_cluster idle_server (λ t, monday_noon + minute <=? t)))
      19 idle_server "" monday_noon _ update_run.1.2 update_run.2); [reflexivity|].
    pose proof (drive_state_runs (timed_cluster idle_server (λ t, monday_noon + minute <=? t))
      (reconcileStatefulSet 19 idle_server "") monday_noon) as Hr.
    unfold update_run. destruct (drive_state _ _ _) as [[tr s'] o]. exact Hr.
  - vm_compute. reflexivity.
Defined.

Lemma finalizer_removed_last_witness :
  each_after (deletion_order doomed_server)
    (drive (empty_cluster doomed_server monday_noon) (handleDeletion doomed_server)).1.
Proof.
  apply (finalizer_removed_last (sample_env (λ _, True) (servers (λ _, True))) doomed_server () _ ()
    (drive (empty_cluster doomed_server monday_noon) (handleDeletion doomed_server)).2).
  by apply sample_run.
Defined.
