(* ===== verification/Pruning.v ===== *)
(** * Retention of snapshots

    What [pruneVolumeSnapshots] deletes, and what a pre-update snapshot that is
    not strict may stop. *)
From S2P Require Import Prelude GoStrings GoTime Platform Instances Api Effects Kube Builders Windows Backup Vpa Guards Controller Footprint Samples Safety Termination.
Local Open Scope Z_scope.

Section Pruning.
Context {QO : QuantityOps} {TZ : TzDatabase} {UO : UnstructuredOps} {SO : SortOps}.

(** The snapshots whose deletion a trace asks for, in order. *)
Definition deleted (tr : list (event KubeE)) : list Unstructured :=
  omap (λ e : event KubeE, match e with Ev c _ => match (c : controller_call) with Delete KVolumeSnapshot u => Some u | _ => None end end) tr.

Lemma deleteSnapshots_trace N l s tr s' o :
  runs N (deleteSnapshots l) s tr s' o →
  deleted tr `prefix_of` l ∧ ∃ err, o = Returns err ∧ (err = None → deleted tr = l).
Proof.
  revert s tr. induction l as [|u l IH]; intros s tr; cbn [deleteSnapshots].
  - intros (-> & -> & ->). split; [done|]. by exists None.
  - intros (x & s1 & tr' & Hs & -> & Hr).
    change (deleted (Ev (E := KubeE) (Delete KVolumeSnapshot u) x :: tr')) with (u :: deleted tr').
    cbn in Hr. destruct (err_unless_notfound x) as [e|].
    + destruct Hr as (-> & -> & ->). split; [by exists l|]. eexists. split; [done|]. done.
    + destruct (IH _ _ Hr) as [Hp (err & -> & Herr)]. split; [by apply prefix_cons|].
      exists err. split; [done|]. intros H. by rewrite Herr.
Qed.

(** Splitting the sorted list at [k] separates older from newer. *)
Lemma sorted_split `{!SortLaws} items k :
  let l := sort_slice older items in
  Permutation items (take k l ++ drop k l)
  ∧ ∀ d e, d ∈ take k l → e ∈ drop k l → u_GetCreationTimestamp d ≤ u_GetCreationTimestamp e.
Proof.
  cbv zeta. split; [by rewrite take_drop, sort_slice_perm|].
  intros d e [i Hi]%list_elem_of_lookup [j Hj]%list_elem_of_lookup.
  apply lookup_take_Some in Hi as [Hi Hlt]. rewrite lookup_drop in Hj.
  apply (sort_slice_sorted older u_GetCreationTimestamp items) with i (k + j)%nat; [|done|done|lia].
  intros a b. unfold older, before. by rewrite Z.ltb_lt.
Qed.

(** C13: given the list of snapshots the API server answered with and a retain
    count that is not negative, a run of [pruneVolumeSnapshots] deletes only
    snapshots that are at least as old as every one it keeps, keeps
    [min retainCount n] of them, deletes the rest in full when it returns nil, and
    always returns. *)
Theorem prune_keeps_newest `{!SortLaws} N server retainCount items s tr s' o :
  0 ≤ retainCount → Z.of_nat (length items) ≤ 2147483647 →
  (∀ s ns label value x s', env_step (e := N) s (ListSnapshots ns label value : KubeE) x s' → x = Ok items) →
  runs N (pruneVolumeSnapshots server retainCount) s tr s' o →
  ∃ del keep err,
    Permutation items (del ++ keep)
    ∧ Z.of_nat (length keep) = Z.min retainCount (Z.of_nat (length items))
    ∧ (∀ d k, d ∈ del → k ∈ keep → u_GetCreationTimestamp d ≤ u_GetCreationTimestamp k)
    ∧ o = Returns err ∧ deleted tr `prefix_of` del ∧ (err = None → deleted tr = del).
Proof.
  intros Hrc Hlen HN (x & s1 & tr' & Hs & -> & Hr). pose proof (HN _ _ _ _ _ _ Hs) as ->. clear Hs.
  change (deleted (_ :: tr')) with (deleted tr'). cbn in Hr. rewrite wrap32_id in Hr by width.
  destruct (Z.leb_spec (Z.of_nat (length items)) retainCount) as [Hle|Hgt].
  { destruct Hr as (-> & -> & ->). exists [], items, None.
    split_and!; [done|lia|by intros ?? ?%elem_of_nil|done|done|done]. }
  rewrite wrap32_id in Hr by width. unfold slice_to in Hr.
  assert (length (sort_slice older items) = length items) as Hl by apply Permutation_length, sort_slice_perm.
  rewrite Hl in Hr. destruct (Z.leb_spec 0 (Z.of_nat (length items) - retainCount)); [|lia].
  destruct (Z.leb_spec (Z.of_nat (length items) - retainCount) (Z.of_nat (length items))); [|lia]. cbn in Hr.
  set (k := Z.to_nat (Z.of_nat (length items) - retainCount)) in *.
  destruct (sorted_split items k) as [Hp Hold]. apply deleteSnapshots_trace in Hr as [Hpre (err & -> & Herr)].
  exists (take k (sort_slice older items)), (drop k (sort_slice older items)), err.
  split_and!; try done. rewrite length_drop, Hl. lia.
Qed.

(** A poll that is not strict never returns an error. *)
Lemma lenient_poll N fuel server snapName deadline s tr s' o :
  runs N (pollSnapshot fuel server snapName false deadline) s tr s' o → o = Returns None ∨ o = Exhausted.
Proof.
  revert s tr. induction fuel as [|fuel IH]; intros s tr; cbn [pollSnapshot]; [intros (_ & _ & ->); by right|].
  intros (t1 & s1 & tr1 & _ & -> & Hr). cbn in Hr. destruct (before _ _); [|destruct Hr as (_ & _ & ->); by left].
  destruct Hr as (r & s2 & tr2 & _ & -> & Hr). destruct r as [cur|e1]; [|destruct Hr as (_ & _ & ->); by left].
  destruct (snapshot_status cur); try (destruct Hr as (_ & _ & ->); by left).
  destruct Hr as ([] & s3 & tr3 & _ & -> & Hr). by apply IH in Hr.
Qed.

(** With strict=false a pre-update snapshot never stops an update once the
    snapshot object can be built: under a clock that keeps time, every run returns
    nil, whatever the API server, the snapshot or the wait do. *)
Theorem lenient_snapshot_never_blocks (N : env KubeE) (time : N → Time) fuel server s tr s' o :
  keeps_time N time → (19 ≤ fuel)%nat →
  (∀ t e1 e2 e3, ∃ snap, newSnapshot server (preUpdateName server t) (preUpdateLabels server) e1 e2 e3 = Ok snap) →
  runs N (snapshotBeforeUpdate fuel server false) s tr s' o → o = Returns None.
Proof.
  intros HT Hf Hb Hr.
  assert (o = Returns None ∨ o = Exhausted) as [->| ->]; [|done|].
  - destruct Hr as (t & s1 & tr' & _ & -> & Hr). cbn in Hr.
    destruct (newSnapshot _ _ _ _ _ _) as [snap|e'] eqn:E.
    2: { match type of E with newSnapshot _ _ _ ?e1 ?e2 ?e3 = _ => destruct (Hb t e1 e2 e3) as [snap Hs] end.
         unfold preUpdateName in Hs. congruence. }
    destruct Hr as (r & s2 & tr2 & _ & -> & Hr).
    destruct r as [o'|e1]; [|destruct (negb (IsAlreadyExists e1)); [destruct Hr as (_ & _ & ->); by left|]];
      destruct Hr as (t' & s3 & tr3 & _ & -> & Hr); by apply lenient_poll in Hr.
  - by destruct (wp_sound _ _ _ _ _ _ _ _ (snapshotBeforeUpdate_returns N time HT fuel server false Hf s) Hr) as [a [=]].
Qed.
End Pruning.

(** ** Witnesses *)

Import Model.

Definition dated_snapshot (name : string) (t : Time) : Unstructured :=
  [("metadata", JMap [("name", JStr name); ("creationTimestamp", JInt t)])].
Definition five_snapshots : list Unstructured :=
  [dated_snapshot "c" 3; dated_snapshot "a" 1; dated_snapshot "e" 5; dated_snapshot "b" 2; dated_snapshot "d" 4].

(** An API server that lists five snapshots. *)
Definition listing (t : Time) (c : KubeE) : resp c * Time :=
  match c return controller_resp c * Time with
  | ListSnapshots _ _ _ => (Ok five_snapshots, t)
  | c => (empty_cluster idle_server t c, t)
  end.
Definition prune_run := drive_state listing (pruneVolumeSnapshots idle_server 3) 0.

Lemma prune_keeps_newest_witness :
  (∃ del keep err,
    Permutation five_snapshots (del ++ keep)
    ∧ Z.of_nat (length keep) = Z.min 3 (Z.of_nat (length five_snapshots))
    ∧ (∀ d k, d ∈ del → k ∈ keep → u_GetCreationTimestamp d ≤ u_GetCreationTimestamp k)
    ∧ prune_run.2 = Returns err ∧ deleted prune_run.1.1 `prefix_of` del ∧ (err = None → deleted prune_run.1.1 = del))
  ∧ u_GetName <$> deleted prune_run.1.1 = ["a"; "b"].
Proof.
  split; [|vm_compute; reflexivity].
  apply (prune_keeps_newest (oracle_env listing) idle_server 3 five_snapshots 0 prune_run.1.1 prune_run.1.2).
  - lia.
  - cbn. lia.
  - intros s ns label value x s'. cbn. by intros [= <- _].
  - pose proof (drive_state_runs listing (pruneVolumeSnapshots idle_server 3) 0) as Hr.
    unfold prune_run. destruct (drive_state _ _ _) as [[tr s'] o]. exact Hr.
Defined.

Definition lenient_run :=
  drive_state (timed_cluster idle_server (λ _, false)) (snapshotBeforeUpdate 19 idle_server false) monday_noon.

Lemma lenient_snapshot_never_blocks_witness : lenient_run.2 = Returns None.
Proof.
  apply (lenient_snapshot_never_blocks (oracle_env (timed_cluster idle_server (λ _, false))) (λ t : Time, t)
    19 idle_server monday_noon lenient_run.1.1 lenient_run.1.2).
  - apply timed_cluster_time.
  - done.
  - intros t e1 e2 e3. eexists. reflexivity.
  - pose proof (drive_state_runs (timed_cluster idle_server (λ _, false)) (snapshotBeforeUpdate 19 idle_server false)
      monday_noon) as Hr.
    unfold lenient_run. destruct (drive_state _ _ _) as [[tr s'] o]. exact Hr.
Defined.
