(* ===== verification/Status.v ===== *)
(** * Status and requeueing

    The status the controller writes is the one the StatefulSet's state calls
    for, and a deferred update is looked at again a minute later. *)
From S2P Require Import Prelude GoStrings GoTime GoCodec Platform Instances Api Effects Kube Builders Config Cron Windows Backup Vpa Guards Controller Footprint Samples Safety.
Local Open Scope Z_scope.

Section Status.
Context {QO : QuantityOps} {UT : UnicodeTables} {TZ : TzDatabase} {MO : MetaOps} {UO : UnstructuredOps} {SO : SortOps}.

(** ** Abstract phase *)

(** Running when a replica is ready; otherwise updating while the revisions of
    the StatefulSet differ; otherwise pending. *)
Definition phase_spec (st : StatefulSetStatus) (phase : string) : Prop :=
  (phase = EnshroudedServerPhaseRunning ↔ 0 < sts_ReadyReplicas st)
  ∧ (phase = EnshroudedServerPhaseUpdating ↔
     sts_ReadyReplicas st ≤ 0 ∧ sts_CurrentRevision st ≠ "" ∧ sts_CurrentRevision st ≠ sts_UpdateRevision st)
  ∧ (phase = EnshroudedServerPhasePending ↔
     sts_ReadyReplicas st ≤ 0 ∧ (sts_CurrentRevision st = "" ∨ sts_CurrentRevision st = sts_UpdateRevision st)).

(** The Ready condition of a status, with the generation it was computed for. *)
Definition ready_is (generation : Z) (v : string) (st : EnshroudedServerStatus) : Prop :=
  ∃ c, find_condition ConditionReady (st_Conditions st) = Some c
    ∧ cond_Status c = v ∧ cond_ObservedGeneration c = generation.

(** The status that answer [r] of the read of the StatefulSet calls for. *)
Definition status_spec (server : EnshroudedServer) (deferred : bool) (r : result StatefulSet)
    (st : EnshroudedServerStatus) : Prop :=
  let generation := om_Generation (es_Meta server) in
  match r with
  | Ok sts =>
    phase_spec (sts_Status sts) (st_Phase st) ∧ st_ReadyReplicas st = sts_ReadyReplicas (sts_Status sts)
    ∧ ready_is generation (if 0 <? sts_ReadyReplicas (sts_Status sts) then "True" else "False") st
  | Err e =>
    IsNotFound e = true ∧ st_Phase st = EnshroudedServerPhasePending ∧ st_ReadyReplicas st = 0
    ∧ ready_is generation "False" st
  end
  ∧ st_UpdateDeferred st = deferred
  ∧ (is_Some (find_condition ConditionUpdateDeferred (st_Conditions st)) ↔ deferred = true).

Lemma classify_spec st : phase_spec st (classifyStatefulSet st).1.
Proof.
  unfold phase_spec, classifyStatefulSet.
  destruct (Z.ltb_spec 0 (sts_ReadyReplicas st)); cbn [fst].
  { split_and!; split; try done; try lia. }
  destruct (bool_decide_reflect (sts_CurrentRevision st = "")) as [E1|E1]; cbn [negb andb fst].
  { split_and!; split; try done; try lia; tauto. }
  destruct (bool_decide_reflect (sts_CurrentRevision st = sts_UpdateRevision st)) as [E2|E2]; cbn [negb fst];
    split_and!; split; try done; try lia; tauto.
Qed.

Lemma classify_ready st :
  (classifyStatefulSet st).2.1.1 = if 0 <? sts_ReadyReplicas st then "True" else "False".
Proof. unfold classifyStatefulSet. repeat case_match; done. Qed.

Section Laws.
Context {ML : MetaLaws}.

Lemma newStatus_spec t server phase replicas rs rr rm d :
  let st := newStatus t server phase replicas (rs, rr, rm) d in
  st_Phase st = phase ∧ st_ReadyReplicas st = replicas ∧ ready_is (om_Generation (es_Meta server)) rs st
  ∧ st_UpdateDeferred st = d
  ∧ (is_Some (find_condition ConditionUpdateDeferred (st_Conditions st)) ↔ d = true).
Proof.
  cbv zeta. unfold newStatus, ready_is. cbn [st_Phase st_ReadyReplicas st_Conditions st_UpdateDeferred].
  set (c := MkCondition ConditionReady _ _ _ _ _).
  destruct (set_condition_same t (st_Conditions (es_Status server)) c) as (c' & Hc & H1 & _ & _ & H4).
  destruct d; split_and!; try done.
  - exists c'. rewrite set_condition_other by done. done.
  - set (c2 := MkCondition ConditionUpdateDeferred _ _ _ _ _).
    destruct (set_condition_same t (SetStatusCondition t (st_Conditions (es_Status server)) c) c2) as (c2' & Hc2 & _).
    change (cond_Type c2) with ConditionUpdateDeferred in Hc2. rewrite Hc2. split; [done|]. by eexists.
  - exists c'. rewrite remove_condition_other by done. done.
  - rewrite remove_condition_same. split; [by intros [? ?]|done].
Qed.

(** C14: every status a run of [updateStatus] writes is the one the answer to its
    read of the StatefulSet calls for: phase, ready replicas and Ready condition
    for the current generation, and the UpdateDeferred field and condition exactly
    when the update was deferred. *)
Theorem status_reflects_statefulset N server deferred w s tr s' o new x :
  runs N (updateStatus server deferred w) s tr s' o → Ev (E := KubeE) (StatusUpdate new) x ∈ tr →
  ∃ r, Ev (E := KubeE) (Get KStatefulSet (server_nn server)) r ∈ tr
    ∧ status_spec server deferred r (es_Status new).
Proof.
  intros (r & s1 & tr1 & _ & -> & Hr) Hin. exists r. split; [left|].
  assert (Ev (E := KubeE) (StatusUpdate new) x ∈ tr1) as Hin1.
  { apply elem_of_cons in Hin as [Hin|]; [discriminate Hin|done]. }
  clear Hin. cbn in Hr.
  assert (∀ phase replicas rs rr rm, runs N (publishStatus server phase replicas (rs, rr, rm) deferred w) s1 tr1 s' o →
    ∃ t, es_Status new = newStatus t server phase replicas (rs, rr, rm) deferred) as Hpub.
  { intros phase replicas rs rr rm (t & s2 & tr2 & _ & -> & r2 & s3 & tr3 & _ & -> & Hp).
    apply elem_of_cons in Hin1 as [Hin1|Hin1]; [discriminate Hin1|].
    apply elem_of_cons in Hin1 as [Hin1|Hin1].
    - injection Hin1 as -> _. by exists t.
    - cbn in Hp. destruct r2 as [sv|e]; [|by destruct Hp as (-> & _); apply elem_of_nil in Hin1].
      destruct Hp as ([] & s4 & tr4 & _ & -> & -> & _).
      apply list_elem_of_singleton in Hin1. discriminate Hin1. }
  destruct r as [sts|e].
  - pose proof (classify_spec (sts_Status sts)) as Hph. pose proof (classify_ready (sts_Status sts)) as Hrd.
    destruct (classifyStatefulSet (sts_Status sts)) as [phase [[rs rr] rm]]. cbn in Hph, Hrd. subst rs.
    apply Hpub in Hr as [t ->]. destruct (newStatus_spec t server phase (sts_ReadyReplicas (sts_Status sts))
      (if 0 <? sts_ReadyReplicas (sts_Status sts) then "True" else "False") rr rm deferred) as (H1 & H2 & H3 & H4 & H5).
    unfold status_spec. split_and!; try done; rewrite ?H1; done.
  - destruct (IsNotFound e) eqn:En; [|by destruct Hr as (-> & _); apply elem_of_nil in Hin1].
    apply Hpub in Hr as [t ->]. match goal with |- status_spec _ _ _ (newStatus _ _ ?p ?n (?a, ?b, ?c) _) =>
      destruct (newStatus_spec t server p n a b c deferred) as (H1 & H2 & H3 & H4 & H5) end.
    unfold status_spec. split_and!; done.
Qed.
End Laws.

(** ** Requeueing *)

Lemma playersProtected_deferred ws N server s tr s' b :
  honest_env (closed_at ws) (servers (λ _, True)) N → defers ws server →
  runs N (playersProtected server) s tr s' (Returns b) → b = true.
Proof.
  intros HN (Hd & Hp & Hw & _) Hr. apply Z.ltb_lt in Hp.
  unfold playersProtected, isInMaintenanceWindow in Hr. rewrite Hd, Hp, Hw in Hr. cbn [andb] in Hr.
  destruct ws as [|w ws]; [by destruct Hr as (_ & _ & [= ->])|].
  destruct Hr as (t & s1 & tr1 & Hs & -> & _ & _ & [= ->]). apply HN in Hs. cbn [honest] in Hs.
  change (negb (Cron.anyWindow t (w :: ws)) = true). unfold closed_at in Hs. by rewrite Hs.
Qed.

Lemma annotationHash_early N server s tr s' res :
  runs N (annotationHash server) s tr s' (Returns (inr (res, None))) → False.
Proof.
  unfold annotationHash. destruct (user_groups_mode server).
  - intros (tr1 & s1 & o1 & _ & Hr)%runs_bind_inv.
    destruct o1 as [[hash [e|]]|m|]; [|by destruct Hr as (? & _ & _ & _ & [=])|by destruct Hr as (_ & _ & [=])..].
    by destruct Hr as (tr2 & _ & _ & _ & [=]).
  - intros (tr1 & s1 & o1 & _ & Hr)%runs_bind_inv.
    destruct o1 as [[e|]|m|]; [by destruct Hr as (tr2 & _ & _ & _ & [=])| |by destruct Hr as (_ & _ & [=])..].
    destruct Hr as (tr2 & _ & Hr). destruct (sp_ServerPasswordSecretRef _) as [ref|]; [|by destruct Hr as (_ & _ & [=])].
    destruct Hr as (r & s2 & tr3 & _ & _ & Hr). cbn in Hr. destruct r as [sec|e].
    + destruct (sec_Data sec !! sks_Key ref); [by destruct Hr as (_ & _ & [=])|].
      by destruct Hr as (x & s3 & tr4 & _ & _ & _ & _ & [=]).
    + destruct (IsNotFound e); [|by destruct Hr as (_ & _ & [=])].
      by destruct Hr as (x & s3 & tr4 & _ & _ & _ & _ & [=]).
Qed.

(** C26: a reconciliation of a server whose update is deferred (as in
    [deferral_blocks_updates]) that reports no error asks to be called again in
    one minute, so the update is not lost. *)
Theorem deferral_requeues ws N fuel server s tr s' res :
  honest_env (closed_at ws) (servers (λ _, True)) N → defers ws server →
  runs N (reconcileLive fuel server) s tr s' (Returns (res, None)) → res_RequeueAfter res = minute.
Proof.
  intros HN Hd. unfold reconcileLive. intros (tr1 & s1 & o1 & Hh & Hr)%runs_bind_inv.
  destruct o1 as [[hash|[r1 [e|]]]|m|]; [| | |by destruct Hr as (_ & _ & [=])..].
  2: { by destruct Hr as (tr2 & _ & _ & _ & [=]). }
  2: { by apply annotationHash_early in Hh. }
  destruct Hr as (tr2 & _ & Hr). apply runs_bind_inv in Hr as (tr3 & s2 & o2 & _ & Hr).
  destruct o2 as [[e|]|m|]; [by destruct Hr as (tr4 & _ & _ & _ & [=])| |by destruct Hr as (_ & _ & [=])..].
  destruct Hr as (tr4 & _ & Hr). unfold finishReconcile in Hr.
  apply runs_bind_inv in Hr as (tr5 & s3 & o3 & Hp & Hr). destruct o3 as [b|m|]; [|by destruct Hr as (_ & _ & [=])..].
  apply (playersProtected_deferred ws) in Hp as ->; [|done|done].
  destruct Hr as (tr6 & _ & Hr). apply runs_bind_inv in Hr as (tr7 & s4 & o4 & _ & Hr).
  destruct o4 as [[e|]|m|]; [by destruct Hr as (tr8 & _ & _ & _ & [=])| |by destruct Hr as (_ & _ & [=])..].
  destruct Hr as (tr8 & _ & _ & _ & [= ->]). done.
Qed.
End Status.

(** ** Witnesses *)

Import Model.

Definition status_run :=
  drive_state (timed_cluster idle_server (λ _, false)) (updateStatus idle_server true false) monday_noon.

Lemma status_reflects_statefulset_witness :
  ∃ new x, Ev (E := KubeE) (StatusUpdate new) x ∈ status_run.1.1
    ∧ ∃ r, Ev (E := KubeE) (Get KStatefulSet (server_nn idle_server)) r ∈ status_run.1.1
        ∧ status_spec idle_server true r (es_Status new).
Proof.
  eexists _, _. split; [do 2 right; left|].
  eapply (status_reflects_statefulset (oracle_env (timed_cluster idle_server (λ _, false))) idle_server true false
    monday_noon status_run.1.1 status_run.1.2 status_run.2).
  - pose proof (drive_state_runs (timed_cluster idle_server (λ _, false)) (updateStatus idle_server true false)
      monday_noon) as Hr.
    unfold status_run. destruct (drive_state _ _ _) as [[tr s'] o]. exact Hr.
  - do 2 right; left.
Defined.

Definition live_run := drive (empty_cluster busy_server monday_noon) (reconcileLive 19 busy_server).

Lemma deferral_requeues_witness : ∃ res, live_run.2 = Returns (res, None) ∧ res_RequeueAfter res = minute.
Proof.
  eexists. split; [vm_compute; reflexivity|].
  apply (deferral_requeues ["0 3 * * 3"] (sample_env (closed_at ["0 3 * * 3"]) (servers (λ _, True)))
    19 busy_server () live_run.1 ()).
  - apply sample_env_honest.
  - split_and!; [done|done|done|by intros [? _]].
  - assert (live_run.2 = Returns (MkResult 60000000000, None)) as <- by (vm_compute; reflexivity).
    apply sample_run; [vm_compute; reflexivity|done].
Defined.
