(* ===== verification/Objects.v ===== *)
(** * The desired objects fit together

    Cross-references between the objects the controller creates: selectors and
    labels, ports, volumes, probes, service accounts, and the environment the
    metrics sidecar is started with. *)
From S2P Require Import Prelude GoStrings GoFlag GoTime GoConv GoCodec Platform Instances Api Effects Kube Builders Config Vpa Sidecar Samples.
Local Open Scope Z_scope.

Section Objects.
Context {QO : QuantityOps}.

Definition game (sts : StatefulSet) : option Container := head (sts_containers sts).
Definition pod (sts : StatefulSet) : PodSpec := pt_Spec (sts_Template (sts_Spec sts)).

(** Every mount names a volume of the pod. *)
Definition mounts_resolve (p : PodSpec) : Prop :=
  ∀ c m, c ∈ ps_Containers p → m ∈ c_VolumeMounts c → ∃ v, v ∈ ps_Volumes p ∧ vol_Name v = vm_Name m.

(** Every volume is backed by an object the controller keeps: the savegame claim,
    or the configuration Secret when there are user groups. *)
Definition volumes_exist (server : EnshroudedServer) (p : PodSpec) : Prop :=
  ∀ v, v ∈ ps_Volumes p →
    match vol_Source v with
    | VolumePVC n => n = om_Name (pvc_Meta (desiredPVC server q_zero))
    | VolumeSecret n => n = om_Name (sec_Meta (desiredConfigSecret server "")) ∧ user_groups_mode server = true
    end.

(** A probe of a container is answered by a container of the pod that listens on
    its port, and the network policy admits it. *)
Definition probe_served (p : PodSpec) (np : NetworkPolicy) (pr : Probe) : Prop :=
  ∃ c port, c ∈ ps_Containers p ∧ pr_Port pr = FromInt port
    ∧ MkContainerPort "metrics" port ProtocolTCP ∈ c_Ports c
    ∧ MkIngressRule [MkNetworkPolicyPort ProtocolTCP (FromInt port)] [] ∈ np_Ingress (np_Spec np).

Definition service_port_of (cp : ContainerPort) : ServicePort :=
  MkServicePort (cp_Name cp) (cp_ContainerPort cp) (cp_Protocol cp).
Definition policy_port_of (cp : ContainerPort) : NetworkPolicyPort :=
  MkNetworkPolicyPort (cp_Protocol cp) (FromInt (cp_ContainerPort cp)).

Record coherent (server : EnshroudedServer) (sts : StatefulSet) : Prop := MkCoherent {
  co_labels :
    sts_Selector (sts_Spec sts) = pt_Labels (sts_Template (sts_Spec sts))
    ∧ svc_Selector (desiredService server) = pt_Labels (sts_Template (sts_Spec sts))
    ∧ np_PodSelector (np_Spec (desiredNetworkPolicy server)) = pt_Labels (sts_Template (sts_Spec sts))
    ∧ pdb_Selector (desiredPDB server (FromInt 0)) = pt_Labels (sts_Template (sts_Spec sts));
  co_ports :
    ∃ c, game sts = Some c ∧ c_Name c = "enshrouded-server"
      ∧ svc_Ports (desiredService server) = service_port_of <$> c_Ports c
      ∧ MkIngressRule (policy_port_of <$> c_Ports c) [] ∈ np_Ingress (np_Spec (desiredNetworkPolicy server))
      ∧ (∀ gs, cp_ContainerPort <$> head (c_Ports c) = Some (cfg_QueryPort (server_config server gs)))
      ∧ (∀ pr, c_ReadinessProbe c = Some pr → probe_served (pod sts) (desiredNetworkPolicy server) pr);
  co_mounts : mounts_resolve (pod sts);
  co_volumes : volumes_exist server (pod sts);
  co_account :
    ps_ServiceAccountName (pod sts) =
      if ms_Enabled (sp_MetricsSidecar (es_Spec server)) then om_Name (sa_Meta (desiredServiceAccount server)) else ""
}.

Lemma sidecar_container_some server port :
  ms_Enabled (sp_MetricsSidecar (es_Spec server)) = true →
  ∃ c, metricsSidecarContainer server port = Some c ∧ c_VolumeMounts c = []
    ∧ c_Ports c = [MkContainerPort "metrics" (eff_metricsPort server) ProtocolTCP].
Proof. intros H. unfold metricsSidecarContainer. rewrite H. cbn. eexists. by split_and!. Qed.

Lemma sidecar_container_none server port :
  ms_Enabled (sp_MetricsSidecar (es_Spec server)) = false → metricsSidecarContainer server port = None.
Proof. intros H. unfold metricsSidecarContainer. by rewrite H. Qed.

(** The parts of the StatefulSet, mode by mode. *)
Lemma build_volumes server hash :
  ps_Volumes (pod (buildStatefulSet server hash)) =
    [MkVolume "savegame" (VolumePVC (pvc_name server))]
    ++ (if user_groups_mode server then [MkVolume "server-config" (VolumeSecret (config_secret_name server))] else []).
Proof. unfold buildStatefulSet, pod. by destruct (user_groups_mode server). Qed.

(** The game container is first; a sidecar may follow. *)
Lemma build_containers server hash :
  ∃ c, ps_Containers (pod (buildStatefulSet server hash)) =
      c :: match metricsSidecarContainer server (eff_port server) with Some d => [d] | None => [] end
    ∧ c_Name c = "enshrouded-server"
    ∧ c_Ports c = [MkContainerPort "query" (eff_port server) ProtocolUDP;
                   MkContainerPort "steam" (eff_steamPort server) ProtocolUDP]
    ∧ c_ReadinessProbe c = (if ms_Enabled (sp_MetricsSidecar (es_Spec server))
        then Some (MkProbe "/readyz" (FromInt (eff_metricsPort server)) 60 15 3 1) else None)
    ∧ vm_Name <$> c_VolumeMounts c = vol_Name <$> ps_Volumes (pod (buildStatefulSet server hash)).
Proof.
  rewrite build_volumes. unfold buildStatefulSet, pod.
  destruct (user_groups_mode server), (metricsSidecarContainer server (eff_port server));
    cbn [pt_Spec sts_Template sts_Spec ps_Containers app]; eexists; (split; [reflexivity|]); by split_and!.
Qed.

Lemma build_mounts server hash : mounts_resolve (pod (buildStatefulSet server hash)).
Proof.
  destruct (build_containers server hash) as (c & Hcs & _ & _ & _ & Hm).
  intros d m Hd Hin. rewrite Hcs in Hd. apply elem_of_cons in Hd as [->|Hd].
  - assert (vm_Name m ∈ vm_Name <$> c_VolumeMounts c) as H by (by apply list_elem_of_fmap_2).
    rewrite Hm in H. apply list_elem_of_fmap in H as (v & Hv & Hin'). by exists v.
  - destruct (ms_Enabled (sp_MetricsSidecar (es_Spec server))) eqn:Em.
    + destruct (sidecar_container_some server (eff_port server) Em) as (e & He & Hv & _).
      rewrite He in Hd. apply list_elem_of_singleton in Hd as ->. rewrite Hv in Hin. by apply elem_of_nil in Hin.
    + rewrite (sidecar_container_none server (eff_port server) Em) in Hd. by apply elem_of_nil in Hd.
Qed.

Lemma build_volumes_exist server hash : volumes_exist server (pod (buildStatefulSet server hash)).
Proof.
  intros v Hv. rewrite build_volumes in Hv. apply elem_of_cons in Hv as [->|Hv]; [done|].
  destruct (user_groups_mode server) eqn:E; [|by apply elem_of_nil in Hv].
  by apply list_elem_of_singleton in Hv as ->.
Qed.

Lemma build_probe server hash c :
  game (buildStatefulSet server hash) = Some c →
  ∀ pr, c_ReadinessProbe c = Some pr → probe_served (pod (buildStatefulSet server hash)) (desiredNetworkPolicy server) pr.
Proof.
  intros Hg pr Hpr. destruct (build_containers server hash) as (c' & Hcs & _ & _ & Hp & _).
  unfold game, sts_containers in Hg. unfold pod in Hcs. rewrite Hcs in Hg. injection Hg as ->.
  rewrite Hp in Hpr. destruct (ms_Enabled (sp_MetricsSidecar (es_Spec server))) eqn:Em; [|done].
  injection Hpr as <-. destruct (sidecar_container_some server (eff_port server) Em) as (d & Hd & _ & Hports).
  exists d, (eff_metricsPort server). unfold pod. rewrite Hcs, Hd, Hports. cbn. rewrite Em.
  split_and!; [right; left|done|left|right; left].
Qed.


(** The pod template changes whenever the hash of the password material
    does, and only then for a given server: a new password restarts the pod, an
    unchanged one does not. *)
Theorem hash_change_restarts server h1 h2 :
  sts_Template (sts_Spec (buildStatefulSet server h1)) = sts_Template (sts_Spec (buildStatefulSet server h2)) ↔ h1 = h2.
Proof.
  split; [|by intros ->]. unfold buildStatefulSet.
  destruct (if user_groups_mode server then _ else _) as [[??]?]. cbn [sts_Template sts_Spec].
  intros Heq%(f_equal pt_Annotations). cbn [pt_Annotations] in Heq.
  set (k := "enshrouded.enshrouded.io/password-secret-hash") in Heq.
  apply (f_equal (λ m : LabelMap, m !! k)) in Heq. unfold LabelMap in Heq.
  repeat case_decide; subst; rewrite ?lookup_insert_eq, ?lookup_empty in Heq; by simplify_eq.
Qed.

(** ** The sidecar reads the configuration it was started with *)

(** The environment of a container in a pod of namespace [ns]: the downward API
    resolves [metadata.namespace]. *)
Definition env_value (ns : string) (e : EnvVar) : string :=
  match ev_ValueFrom e with
  | Some src => match evs_FieldPath src with
                | Some "metadata.namespace" => ns
                | _ => ""
                end
  | None => ev_Value e
  end.
Definition environ_of (ns : string) (c : Container) : environ :=
  list_to_map ((λ e, (ev_Name e, env_value ns e)) <$> c_Env c).

(** C35: the sidecar process, started with the environment of the container the
    controller builds, loads exactly the configuration of the server's spec: its
    query port, metrics port, scrape interval, name and namespace. *)
Theorem sidecar_config_roundtrip server c :
  metricsSidecarContainer server (eff_port server) = Some c →
  1 ≤ eff_port server ≤ 65535 →
  5 ≤ or_int (ms_ScrapeIntervalSeconds (sp_MetricsSidecar (es_Spec server))) 15 ≤ 2147483647 →
  loadConfig (environ_of (es_Namespace server) c) = {|
    queryHost := "127.0.0.1";
    queryPort := eff_port server;
    metricsAddr := ":" +:+ itoa (eff_metricsPort server);
    scrapeInterval := or_int (ms_ScrapeIntervalSeconds (sp_MetricsSidecar (es_Spec server))) 15 * second;
    serverNamespace := es_Namespace server;
    serverName := es_Name server;
    patchStatusEnabled := true
  |}.
Proof.
  intros Hc Hp Hi. unfold metricsSidecarContainer in Hc. destruct (negb _); [done|]. injection Hc as <-.
  set (n := or_int (ms_ScrapeIntervalSeconds _) 15) in *.
  set (e := environ_of _ _).
  assert (e !! "QUERY_HOST" = Some "127.0.0.1" ∧ e !! "QUERY_PORT" = Some (itoa (eff_port server))
    ∧ e !! "METRICS_ADDR" = Some (":" +:+ itoa (eff_metricsPort server))
    ∧ e !! "SCRAPE_INTERVAL" = Some (itoa n +:+ "s")
    ∧ e !! "SERVER_NAMESPACE" = Some (es_Namespace server) ∧ e !! "SERVER_NAME" = Some (es_Name server)
    ∧ e !! "STATUS_PATCH_ENABLED" = None) as (H1 & H2 & H3 & H4 & H5 & H6 & H7).
  { unfold e, environ_of. cbn -[lookup insert itoa n]. split_and!; by simplify_map_eq. }
  clearbody e. unfold loadConfig, envOrDefault, Getenv. rewrite H1, H2, H3, H4, H5, H6, H7. cbn [default]. unfold id.
  rewrite (decide_False (P := itoa _ = "")) by apply itoa_nonempty.
  rewrite (decide_False (P := itoa n +:+ "s" = "")) by (destruct (itoa n); discriminate).
  rewrite Atoi_itoa, ParseDuration_seconds by (unfold maxInt64; lia). cbn [fst].
  destruct (Z.leb_spec (eff_port server) 0); [lia|].
  destruct (Z.ltb_spec (n * second) (5 * second)) as [Hlt|_]; [unfold second in Hlt; lia|]. done.
Qed.
End Objects.

(** ** Witnesses *)

Import Model.

Lemma sidecar_config_roundtrip_witness :
  ∃ c, metricsSidecarContainer busy_server 15637 = Some c
    ∧ loadConfig (environ_of "games" c) = MkConfig "127.0.0.1" 15637 ":9090" (15 * second) "games" "srv" true.
Proof.
  eexists. split; [reflexivity|].
  apply (sidecar_config_roundtrip busy_server); [reflexivity|vm_compute; split; discriminate..].
Defined.
