(* ===== verification/ConfigTheory.v ===== *)
(** * The generated configuration is faithful

    The JSON the controller generates determines the configuration it was
    generated from, groups get the passwords of their Secrets in order, and the
    hash on the pod template changes with the configuration unless SHA-256
    collides. *)
From S2P Require Import Prelude GoStrings GoTime GoCodec Platform Instances Api Effects Kube Builders Config Vpa Guards Controller Footprint Samples Safety.
From Stdlib Require Import Ascii.
Local Open Scope Z_scope.

(** ** Numbers end where the next token starts *)

Definition in_number (c : ascii) : bool := is_digit c || (bval c =? 45).

Lemma itoa_in_number z : forallb in_number (bytes (itoa z)) = true.
Proof.
  destruct (Z.le_gt_cases 0 z) as [Hz|Hz].
  - destruct (itoa_spec z Hz) as [_ H]. unfold all_digits in H. rewrite forallb_forall in H |- *.
    intros c Hc. unfold in_number. by rewrite H.
  - destruct z as [|p|p]; try lia. change (itoa (Z.neg p)) with (String "-" (itoa (Z.pos p))).
    cbn [bytes forallb]. destruct (itoa_spec (Z.pos p)) as [_ H]; [lia|].
    unfold all_digits in H. rewrite forallb_forall in H. apply andb_true_iff. split; [done|].
    apply forallb_forall. intros c Hc. unfold in_number. by rewrite H.
Qed.

Lemma span_unique (P : ascii → bool) a b c t c' t' :
  forallb P (bytes a) = true → forallb P (bytes b) = true → P c = false → P c' = false →
  a +:+ String c t = b +:+ String c' t' → a = b ∧ String c t = String c' t'.
Proof.
  intros Ha Hb Hc Hc'. revert b Hb. induction a as [|x a IH]; intros [|y b] Hb; cbn in Ha, Hb.
  - intros E. by split.
  - rewrite str_app_cons. intros [= -> _]. by rewrite Hc in Hb.
  - rewrite str_app_cons. intros [= <- _]. by rewrite Hc' in Ha.
  - rewrite !str_app_cons. intros [= <- E]. apply andb_true_iff in Ha as [_ Ha], Hb as [_ Hb].
    destruct (IH Ha b Hb E) as [-> ->]. done.
Qed.

Lemma itoa_prefix z1 z2 c t c' t' :
  in_number c = false → in_number c' = false →
  itoa z1 +:+ String c t = itoa z2 +:+ String c' t' → z1 = z2 ∧ String c t = String c' t'.
Proof.
  intros Hc Hc' E. apply (span_unique in_number) in E as [E1 E2]; try done; try apply itoa_in_number.
  split; [by apply itoa_inj|done].
Qed.

Lemma itoa_sep_prefix z1 z2 c t t' :
  in_number c = false → itoa z1 +:+ (String c "" +:+ t) = itoa z2 +:+ (String c "" +:+ t') → z1 = z2 ∧ t = t'.
Proof. intros Hc E. apply itoa_prefix in E as [-> [= ->]]; done. Qed.

Lemma json_bool_prefix b1 b2 t1 t2 : json_bool b1 +:+ t1 = json_bool b2 +:+ t2 → b1 = b2 ∧ t1 = t2.
Proof. destruct b1, b2; cbn; intros [=]; done. Qed.

(** ** The JSON determines the configuration *)

Definition group_valid (g : userGroupJSON) : Prop :=
  valid_utf8 (ugj_Name g) = true ∧ valid_utf8 (ugj_Password g) = true.
Definition config_valid (c : enshroudedConfigJSON) : Prop :=
  valid_utf8 (cfg_Name c) = true ∧ valid_utf8 (cfg_SaveDirectory c) = true
  ∧ valid_utf8 (cfg_LogDirectory c) = true ∧ valid_utf8 (cfg_IP c) = true
  ∧ Forall group_valid (cfg_UserGroups c).

(** Peels one token off both sides of an equation between marshalled texts. *)
Ltac peel E :=
  lazymatch type of E with
  | json_string ?a +:+ _ = json_string ?b +:+ _ => apply json_string_prefix in E as [? E]; [|done|done]
  | json_bool ?a +:+ _ = json_bool ?b +:+ _ => apply json_bool_prefix in E as [? E]
  | itoa ?a +:+ _ = itoa ?b +:+ _ => apply itoa_sep_prefix in E as [? E]; [|done]
  | _ => apply str_app_inj_l in E
  end.

Lemma marshal_group_prefix g1 g2 t1 t2 :
  group_valid g1 → group_valid g2 → marshal_group g1 +:+ t1 = marshal_group g2 +:+ t2 → g1 = g2 ∧ t1 = t2.
Proof.
  intros [Hn1 Hp1] [Hn2 Hp2] E. unfold marshal_group in E. rewrite <- !str_app_assoc in E.
  destruct g1 as [n1 p1 k1 a1 w1 b1 x1 r1], g2 as [n2 p2 k2 a2 w2 b2 x2 r2]. cbn [ugj_Name ugj_Password ugj_CanKickBan
    ugj_CanAccessInventories ugj_CanEditWorld ugj_CanEditBase ugj_CanExtendBase ugj_ReservedSlots] in *.
  do 24 peel E. by subst.
Qed.

Lemma marshal_rest_prefix gs1 gs2 t1 t2 :
  Forall group_valid gs1 → Forall group_valid gs2 →
  marshal_rest gs1 +:+ t1 = marshal_rest gs2 +:+ t2 → gs1 = gs2 ∧ t1 = t2.
Proof.
  intros H1. revert gs2. induction H1 as [|g1 gs1 Hg1 H1 IH]; intros gs2 H2; destruct H2 as [|g2 gs2 Hg2 H2];
    cbn [marshal_rest]; rewrite <- ?str_app_assoc; intros E.
  - split; [done|]. by apply str_app_inj_l in E.
  - discriminate E.
  - discriminate E.
  - apply str_app_inj_l in E. apply marshal_group_prefix in E as [-> E]; [|done|done].
    apply IH in E as [-> ->]; done.
Qed.

Lemma marshal_groups_prefix gs1 gs2 t1 t2 :
  Forall group_valid gs1 → Forall group_valid gs2 →
  marshal_groups gs1 +:+ t1 = marshal_groups gs2 +:+ t2 → gs1 = gs2 ∧ t1 = t2.
Proof.
  intros H1 H2. destruct H1 as [|g1 gs1 Hg1 H1], H2 as [|g2 gs2 Hg2 H2]; cbn [marshal_groups];
    rewrite <- ?str_app_assoc; intros E.
  - split; [done|]. by apply str_app_inj_l in E.
  - unfold marshal_group in E. rewrite <- !str_app_assoc in E. discriminate E.
  - unfold marshal_group in E. rewrite <- !str_app_assoc in E. discriminate E.
  - apply str_app_inj_l in E. apply marshal_group_prefix in E as [-> E]; [|done|done].
    by apply marshal_rest_prefix in E as [-> ->].
Qed.

Lemma marshal_config_inj c1 c2 :
  config_valid c1 → config_valid c2 → marshal_config c1 = marshal_config c2 → c1 = c2.
Proof.
  intros (Hn1 & Hs1 & Hl1 & Hi1 & Hg1) (Hn2 & Hs2 & Hl2 & Hi2 & Hg2) E. unfold marshal_config in E.
  rewrite <- ?str_app_assoc in E.
  destruct c1 as [n1 s1 l1 i1 q1 k1 g1], c2 as [n2 s2 l2 i2 q2 k2 g2].
  cbn [cfg_Name cfg_SaveDirectory cfg_LogDirectory cfg_IP cfg_QueryPort cfg_SlotCount cfg_UserGroups] in *.
  do 18 peel E. apply marshal_groups_prefix in E as [? _]; [|done|done]. by subst.
Qed.

Section Theorems.
Context {QO : QuantityOps} {UT : UnicodeTables} {MO : MetaOps}.

(** ** Passwords of the groups *)

(** [j] is the entry of group [g], with the password read in [tr]. *)
Definition resolved (ns : string) (tr : list (event KubeE)) (g : UserGroup) (j : userGroupJSON) : Prop :=
  match ug_PasswordSecretRef g with
  | None => j = group_json g ""
  | Some ref => ∃ secret, Ev (E := KubeE) (Get KSecret (NN ns (sks_Name ref))) (Ok secret) ∈ tr
      ∧ j = group_json g (secret_value secret (sks_Key ref))
  end.

Lemma resolved_mono ns tr tr' g j :
  (∀ e, e ∈ tr → e ∈ tr') → resolved ns tr g j → resolved ns tr' g j.
Proof. unfold resolved. destruct (ug_PasswordSecretRef g); [|done]. intros H (secret & Hin & ->). eauto. Qed.

Lemma resolveGroups_run N ns gs acc s tr s' groups :
  runs N (resolveGroups ns gs acc) s tr s' (Returns (Ok groups)) →
  ∃ js, groups = acc ++ js ∧ Forall2 (resolved ns tr) gs js.
Proof.
  revert acc s tr. induction gs as [|g gs IH]; intros acc s tr; cbn [resolveGroups].
  - intros (_ & _ & [= ->]). exists []. by rewrite app_nil_r.
  - destruct (ug_PasswordSecretRef g) as [ref|] eqn:Eg.
    + intros (r & s1 & tr' & _ & -> & Hr). cbn in Hr. destruct r as [secret|e]; [|by destruct Hr as (_ & _ & [=])].
      apply IH in Hr as (js & -> & Hjs). exists (group_json g (secret_value secret (sks_Key ref)) :: js).
      rewrite <- app_assoc. split; [done|]. constructor.
      * unfold resolved. rewrite Eg. exists secret. split; [left|done].
      * eapply Forall2_impl; [exact Hjs|]. intros g' j'. apply resolved_mono. intros e He. by right.
    + intros (js & -> & Hjs)%IH. exists (group_json g "" :: js). rewrite <- app_assoc. split; [done|].
      constructor; [|done]. unfold resolved. by rewrite Eg.
Qed.

(** C24: when [buildServerConfigJSON] succeeds, its text is the JSON of the
    server's configuration with one entry per user group, in order, each with the
    password its Secret held when it was read (none without a reference), and the
    hash is the SHA-256 of that text. *)
Theorem config_has_passwords N server s tr s' data hash :
  runs N (buildServerConfigJSON server) s tr s' (Returns (Ok (data, hash))) →
  ∃ groups, data = marshal_config (server_config server groups) ∧ hash = sha256_hex data
    ∧ Forall2 (resolved (es_Namespace server) tr) (sp_UserGroups (es_Spec server)) groups.
Proof.
  intros (tr1 & s1 & o1 & H1 & Hr)%runs_bind_inv.
  destruct o1 as [[groups|e]|m|]; [|by destruct Hr as (? & _ & _ & _ & [=])|by destruct Hr as (_ & _ & [=])..].
  destruct Hr as (tr2 & -> & -> & _ & [= -> ->]). rewrite app_nil_r.
  apply resolveGroups_run in H1 as (js & -> & Hjs). by exists js.
Qed.

End Theorems.

(** ** Witnesses *)

Import Model.

(** A server with two groups, one of them with a password. *)
Definition admins : UserGroup :=
  MkUserGroup "Admins" (Some (MkSecretKeySelector "admin-pw" "password" None)) true true true true true 1.
Definition guests : UserGroup := MkUserGroup "Guests" None false false false false false 0.
Definition group_server : EnshroudedServer :=
  MkEnshroudedServer (sample_meta [finalizerName] None)
    (let spec := sample_spec sample_policy no_backup None false no_vpa in
     MkEnshroudedServerSpec (sp_ServerName spec) None 15637 27015 16 "" (sp_Image spec) (sp_Resources spec)
       (sp_Storage spec) [admins; guests] (sp_UpdatePolicy spec) (sp_Backup spec) (sp_MetricsSidecar spec)
       (sp_VerticalScaling spec)) (sample_status 0).

Definition secret_cluster (t : Time) (c : KubeE) : resp c * Time :=
  match c return controller_resp c * Time with
  | Get KSecret _ => (Ok (MkSecret (new_meta "admin-pw" "games" ∅) {["password" := "s3cret"]}), t)
  | c => (empty_cluster group_server t c, t)
  end.
Definition config_run := drive_state secret_cluster (buildServerConfigJSON group_server) 0.
Definition sample_groups : list userGroupJSON := [group_json admins "s3cret"; group_json guests ""].

Lemma config_has_passwords_witness :
  let data := marshal_config (server_config group_server sample_groups) in
  config_run.2 = Returns (Ok (data, sha256_hex data))
  ∧ ∃ groups, data = marshal_config (server_config group_server groups) ∧ sha256_hex data = sha256_hex data
    ∧ Forall2 (resolved "games" config_run.1.1) [admins; guests] groups.
Proof.
  cbv zeta. split; [reflexivity|].
  apply (config_has_passwords (oracle_env secret_cluster) group_server 0 config_run.1.1 config_run.1.2).
  exact (drive_state_runs secret_cluster (buildServerConfigJSON group_server) 0).
Defined.

Lemma sample_config_valid : config_valid (server_config group_server sample_groups).
Proof.
  split_and!; [vm_compute; reflexivity..|].
  apply Forall_cons. split; [split; vm_compute; reflexivity|].
  apply Forall_cons. split; [split; vm_compute; reflexivity|]. apply Forall_nil. done.
Qed.

