(* ===== verification/MetricsTheory.v ===== *)
(** * Series of the operator metrics

    The phase gauge is one series per server and phase; the old one has to go
    when the phase changes. *)
From S2P Require Import Prelude GoStrings GoTime Platform Instances Kube Metrics.
Local Open Scope Z_scope.

Section Theory.
Context {GO : GaugeVecOps} {GL : GaugeVecLaws}.

(** Effect of [SetServerMetrics] on the exposed values. *)
Lemma SetServerMetrics_get m c c' ns name :
  SetServerMetrics m c = Some c' →
  let here := bool_decide (ns = sm_namespace m ∧ name = sm_name m) in
  gauge_get [ns; name] (ReadyReplicas c') =
    (if here then Some (sm_readyReplicas m) else gauge_get [ns; name] (ReadyReplicas c))
  ∧ gauge_get [ns; name] (UpdateDeferred c') =
    (if here then Some (gauge_bool (sm_updateDeferred m)) else gauge_get [ns; name] (UpdateDeferred c))
  ∧ gauge_get [ns; name] (MaintenanceWindowActive c') =
    (if here then Some (gauge_bool (sm_maintenanceWindowActive m)) else gauge_get [ns; name] (MaintenanceWindowActive c))
  ∧ ∀ ph, gauge_get [ns; name; ph] (Phase c') =
    (if here then
       if decide (ph = sm_phase m) then Some 1
       else if decide (ph = sm_oldPhase m ∧ sm_oldPhase m ≠ "") then None
       else gauge_get [ns; name; ph] (Phase c)
     else gauge_get [ns; name; ph] (Phase c)).
Proof.
  destruct m as [ns' name' rr ud ph' old mw]. cbn [SetServerMetrics sm_namespace sm_name sm_readyReplicas
    sm_updateDeferred sm_phase sm_oldPhase sm_maintenanceWindowActive].
  intros (g1 & H1 & (g2 & H2 & (g3 & H3 & (g4 & H4 & [= <-])%bind_Some)%bind_Some)%bind_Some)%bind_Some.
  cbv zeta. cbn [ReadyReplicas UpdateDeferred Phase MaintenanceWindowActive].
  rewrite (gauge_get_set _ _ _ _ _ H1), (gauge_get_set _ _ _ _ _ H2), (gauge_get_set _ _ _ _ _ H4).
  set (old_g := if negb _ && _ then _ else _) in H3.
  assert (∀ l, gauge_get l old_g =
    if decide (old ≠ "" ∧ old ≠ ph' ∧ l = [ns'; name'; old]) then None else gauge_get l (Phase c)) as Hold.
  { intros l. unfold old_g. repeat case_bool_decide; cbn [negb andb]; rewrite ?gauge_get_delete;
      repeat case_decide; naive_solver. }
  clearbody old_g. destruct (bool_decide_reflect (ns = ns' ∧ name = name')) as [[-> ->]|Hh].
  - rewrite !decide_True by done. split_and!; try done. intros ph. rewrite (gauge_get_set _ _ _ _ _ H3), Hold.
    repeat case_decide; naive_solver.
  - rewrite !decide_False by (intros [= -> ->]; by destruct Hh). split_and!; try done. intros ph.
    rewrite (gauge_get_set _ _ _ _ _ H3), Hold, !decide_False; naive_solver.
Qed.

(** Histories of calls: [cur] is the phase last published for a server and not
    dropped since.  The caller names that phase as the old one. *)
Inductive published : collector → (string * string → option string) → Prop :=
  | pub_start : published new_collector (λ _, None)
  | pub_set c cur m c' :
      published c cur → SetServerMetrics m c = Some c' → sm_phase m ≠ "" →
      (∀ ph, cur (sm_namespace m, sm_name m) = Some ph → sm_oldPhase m = ph) →
      published c' (λ k, if decide (k = (sm_namespace m, sm_name m)) then Some (sm_phase m) else cur k)
  | pub_drop c cur ns name ph :
      published c cur → (∀ ph', cur (ns, name) = Some ph' → ph = ph') →
      published (DeleteServerMetrics ns name ph c) (λ k, if decide (k = (ns, name)) then None else cur k).


(** A phase that was not published is not removed: after Running was published
    and the status became Error without a publication (as [setPhaseError] does),
    the next publication names Error as the old phase, and two phases are exposed. *)
Theorem unpublished_phase_leaves_series ns name m1 m2 c0 c1 c2 :
  SetServerMetrics m1 c0 = Some c1 → SetServerMetrics m2 c1 = Some c2 →
  sm_namespace m1 = ns → sm_name m1 = name → sm_namespace m2 = ns → sm_name m2 = name →
  sm_phase m1 = "Running" → sm_phase m2 = "Pending" → sm_oldPhase m2 = "Error" →
  gauge_get [ns; name; "Running"] (Phase c2) = Some 1 ∧ gauge_get [ns; name; "Pending"] (Phase c2) = Some 1.
Proof.
  intros H1 H2 <- <- Hn2 Hm2 P1 P2 O2.
  destruct (SetServerMetrics_get m1 c0 c1 (sm_namespace m1) (sm_name m1) H1) as (_ & _ & _ & G1).
  destruct (SetServerMetrics_get m2 c1 c2 (sm_namespace m1) (sm_name m1) H2) as (_ & _ & _ & G2).
  rewrite bool_decide_eq_true_2 in G1, G2 by done. rewrite !G2, G1, P1, P2, O2. done.
Qed.
End Theory.

Import Model.

Definition sample_metrics (phase old : string) : ServerMetrics := MkServerMetrics "games" "srv" 1 false phase old false.

Definition after_pending : collector := default new_collector (SetServerMetrics (sample_metrics "Pending" "") new_collector).
Definition after_running : collector := default new_collector (SetServerMetrics (sample_metrics "Running" "Pending") after_pending).
Definition cur_pending : string * string → option string :=
  λ k, if decide (k = ("games", "srv")) then Some "Pending" else None.
Definition cur_running : string * string → option string :=
  λ k, if decide (k = ("games", "srv")) then Some "Running" else cur_pending k.

