(* ===== verification/SidecarTheory.v ===== *)
(** * The metrics sidecar

    The query protocol (which packets count, when the socket is closed, that the
    query returns), the gauges and the readiness flag over any number of scrapes,
    and what the status patch may change. *)
From S2P Require Import Prelude GoStrings GoTime GoConv Platform Instances Api Effects Kube A2S Sidecar Samples Safety.
From Stdlib Require Import Ascii.
Local Open Scope Z_scope.

(** ** Packets *)


(** C17: a complete A2S_INFO response, with any trailing data, is parsed into the
    name, map, player count, slots and version it carries. *)
Theorem a2s_roundtrip proto name map folder game id1 id2 players slots misc version extra :
  no_nul name → no_nul map → no_nul folder → no_nul game → no_nul version →
  length misc = 5%nat → 0 ≤ players < 256 → 0 ≤ slots < 256 →
  parseA2SInfo (a2s_prefix proto name map folder game ++ a2s_tail id1 id2 players slots misc version ++ extra)
  = Ok (MkA2SInfo name map players slots version).
Proof. intros. rewrite a2s_prefix_accepted by done. by rewrite tail_info_complete. Qed.

(** A packet cut off after the game string is accepted, as an empty server. *)
Theorem truncated_packet_reads_empty proto name map folder game :
  no_nul name → no_nul map → no_nul folder → no_nul game →
  parseA2SInfo (a2s_prefix proto name map folder game) = Ok (MkA2SInfo name map 0 0 "").
Proof.
  intros. rewrite <- (app_nil_r (a2s_prefix _ _ _ _ _)). by rewrite a2s_prefix_accepted.
Qed.

Section Query.
Context {QO : QuantityOps}.

(** ** The exchange *)

Lemma receive_source N fuel raddr s tr s' packet :
  runs N (receive fuel raddr) s tr s' (Returns (Ok packet)) →
  Ev (E := SidecarE) ReadFrom (Ok (packet, raddr)) ∈ tr.
Proof.
  revert s tr. induction fuel as [|fuel IH]; intros s tr; cbn [receive]; [by intros (_ & _ & [=])|].
  intros (x & s1 & tr1 & _ & -> & Hr). cbn in Hr. destruct x as [[p from]|e]; [|by destruct Hr as (_ & _ & [=])].
  case_decide as E; [destruct Hr as (-> & _ & [= ->]); subst; left|]. right. by eapply IH.
Qed.

(** The response [udpRoundTrip] returns was received from the address it
    asked, after the request was sent there: packets from other sources are never
    parsed. *)
Theorem response_from_server N fuel req raddr timeout s tr s' packet :
  runs N (udpRoundTrip fuel req raddr timeout) s tr s' (Returns (Ok packet)) →
  ∃ tr1 tr2, tr = tr1 ++ Ev (E := SidecarE) (WriteTo req raddr) (Ok ()) :: tr2
    ∧ Ev (E := SidecarE) ReadFrom (Ok (packet, raddr)) ∈ tr2.
Proof.
  intros (t & s1 & tr1 & _ & -> & r1 & s2 & tr2 & _ & -> & Hr). cbn in Hr.
  destruct r1 as [[]|e]; [|by destruct Hr as (_ & _ & [=])].
  destruct Hr as (r2 & s3 & tr3 & _ & -> & Hr). cbn in Hr. destruct r2 as [[]|e]; [|by destruct Hr as (_ & _ & [=])].
  eexists [_; _], tr3. split; [done|]. by eapply receive_source.
Qed.

(** ** The query returns *)

(** A socket on which only finitely many packets arrive before the deadline ends
    the read with an error: [left s] bounds the packets still to come. *)
Definition finite_traffic (N : env SidecarE) (left : N → nat) : Prop :=
  ∀ s c x s', env_step (e := N) s c x s' →
    (left s' ≤ left s)%nat
    ∧ match c return sidecar_resp c → Prop with
      | ReadFrom => λ r, ∀ p, r = Ok p → (left s' < left s)%nat
      | _ => λ _, True
      end x.

Definition ends {A} (N : env SidecarE) (p : prog SidecarE A) (s : N) (Q : A → N → Prop) : Prop :=
  wp N (λ _ _, True) p (λ s' o, ∃ a, o = Returns a ∧ Q a s') s.

Section Ends.
Context (N : env SidecarE) (left : N → nat) (HF : finite_traffic N left).

Lemma receive_ends fuel raddr s :
  (left s < fuel)%nat → ends N (receive fuel raddr) s (λ _ s', left s' ≤ left s)%nat.
Proof.
  revert s. induction fuel as [|fuel IH]; intros s Hf; [lia|]. cbn [receive]. split; [done|].
  intros x s1 Hs. destruct (HF _ _ _ _ Hs) as [Hle Hlt]. cbn in Hlt |- *.
  destruct x as [[p from]|e]; [|by eexists].
  specialize (Hlt _ eq_refl). case_decide; [by eexists|].
  eapply wp_mono; [|apply IH; lia]. intros s' o (ans & -> & Hl). exists ans. split; [done|]. lia.
Qed.

Lemma udpRoundTrip_ends fuel req raddr timeout s :
  (left s < fuel)%nat → ends N (udpRoundTrip fuel req raddr timeout) s (λ _ s', left s' ≤ left s)%nat.
Proof.
  intros Hf. split; [done|]. intros t s1 H1. destruct (HF _ _ _ _ H1) as [L1 _].
  split; [done|]. intros r2 s2 H2. destruct (HF _ _ _ _ H2) as [L2 _]. cbn.
  destruct r2; [|eexists; split; [done|lia]].
  split; [done|]. intros r3 s3 H3. destruct (HF _ _ _ _ H3) as [L3 _]. cbn.
  destruct r3; [|eexists; split; [done|lia]].
  eapply wp_mono; [|apply receive_ends; lia]. intros s' o (ans & -> & Hl). exists ans. split; [done|]. lia.
Qed.

Lemma exchange_ends fuel raddr timeout s :
  (left s < fuel)%nat → ends N (exchange fuel raddr timeout) s (λ _ _, True).
Proof.
  intros Hf. unfold exchange. eapply wp_bind_intro; [by apply udpRoundTrip_ends|].
  intros s1 o (r & -> & L1). cbn [bind_post]. destruct r as [resp|e]; [|by eexists].
  destruct (challenge_of resp); [|by eexists].
  eapply wp_bind_intro; [apply udpRoundTrip_ends; lia|].
  intros s2 o (r & -> & L2). cbn [bind_post]. destruct r; by eexists.
Qed.

Lemma queryA2SInfo_ends fuel addr timeout s :
  (left s < fuel)%nat → ends N (queryA2SInfo fuel addr timeout) s (λ _ _, True).
Proof.
  intros Hf. split; [done|]. intros r1 s1 H1. destruct (HF _ _ _ _ H1) as [L1 _].
  destruct r1 as [raddr|e]; [|by eexists]. split; [done|]. intros r2 s2 H2. destruct (HF _ _ _ _ H2) as [L2 _].
  destruct r2; [|by eexists]. eapply wp_bind_intro; [apply exchange_ends; lia|].
  intros s3 o (r & -> & _). cbn [bind_post]. split; [done|]. intros [] s4 _. by eexists.
Qed.
End Ends.


(** ** The socket is closed *)

Definition opens_or_closes (c : sidecar_call) : bool :=
  match c with ListenPacket | CloseConn => true | _ => false end.

Lemma exchange_socket N fuel raddr timeout s tr s' o :
  runs N (exchange fuel raddr timeout) s tr s' o →
  every_call (λ c : SidecarE, opens_or_closes c = false) tr.
Proof.
  assert (∀ fuel req s tr s' o, runs N (udpRoundTrip fuel req raddr timeout) s tr s' o →
    every_call (λ c : SidecarE, opens_or_closes c = false) tr) as Hrt.
  { clear. intros fuel req s tr s' o (t & s1 & tr1 & _ & -> & r1 & s2 & tr2 & _ & -> & Hr). cbn in Hr.
    constructor; [done|]. constructor; [done|].
    destruct r1; [|by destruct Hr as (-> & _); constructor].
    destruct Hr as (r2 & s3 & tr3 & _ & -> & Hr). constructor; [done|]. cbn in Hr.
    destruct r2; [|by destruct Hr as (-> & _); constructor]. clear -Hr.
    revert s3 tr3 Hr. induction fuel as [|fuel IH]; intros s tr; cbn [receive].
    - intros (-> & _). constructor.
    - intros (x & s1 & tr1 & _ & -> & Hr). constructor; [done|]. cbn in Hr.
      destruct x as [[p from]|e]; [|by destruct Hr as (-> & _); constructor].
      case_decide; [by destruct Hr as (-> & _); constructor|by eapply IH]. }
  unfold exchange. intros (tr1 & s1 & o1 & H1 & Hr)%runs_bind_inv. apply Hrt in H1.
  destruct o1 as [[resp|e]|m|]; [|by destruct Hr as (tr2 & -> & -> & _); rewrite app_nil_r|by destruct Hr as (-> & _)..].
  destruct Hr as (tr2 & -> & Hr). apply Forall_app. split; [done|].
  destruct (challenge_of resp); [|by destruct Hr as (-> & _); constructor].
  apply runs_bind_inv in Hr as (tr3 & s3 & o3 & H3 & Hr). apply Hrt in H3.
  destruct o3 as [[resp'|e]|m|];
    [by destruct Hr as (tr4 & -> & -> & _); rewrite app_nil_r..|by destruct Hr as (-> & _)|by destruct Hr as (-> & _)].
Qed.

(** A query that returns has opened at most one socket, and if it opened one,
    closing it is its last call: no scrape leaks a socket. *)
Theorem query_closes_socket N fuel addr timeout s tr s' r :
  runs N (queryA2SInfo fuel addr timeout) s tr s' (Returns r) →
  (∃ x, tr = [Ev (E := SidecarE) (ResolveUDPAddr addr) x])
  ∨ (∃ x e, tr = [Ev (E := SidecarE) (ResolveUDPAddr addr) x; Ev (E := SidecarE) ListenPacket (Err e)])
  ∨ (∃ x mid, tr = Ev (E := SidecarE) (ResolveUDPAddr addr) x :: Ev (E := SidecarE) ListenPacket (Ok ())
                   :: mid ++ [Ev (E := SidecarE) CloseConn ()]
      ∧ every_call (λ c : SidecarE, opens_or_closes c = false) mid).
Proof.
  intros (x & s1 & tr1 & _ & -> & Hr).
  destruct x as [raddr|e]; [|destruct Hr as (-> & _); eauto].
  destruct Hr as (y & s2 & tr2 & _ & -> & Hr).
  destruct y as [[]|e]; [|destruct Hr as (-> & _); eauto 10].
  change (runs N (exchange fuel raddr timeout ≫= λ r, ask CloseConn ≫= λ _, Ret r) s2 tr2 s' (Returns r)) in Hr.
  right. right. apply runs_bind_inv in Hr as (tr3 & s3 & o3 & H3 & Hr). apply exchange_socket in H3.
  destruct o3 as [r'|m|]; [|by destruct Hr as (_ & _ & [=])..].
  destruct Hr as (tr4 & -> & [] & s4 & tr5 & _ & -> & -> & _). eauto.
Qed.
End Query.

(** ** Gauges and readiness over any number of scrapes *)

Section Scrapes.
Context {QO : QuantityOps} {GO : GaugeVecOps}.

(** What the exposed values say about the last query: [sc_previousInfo] is its
    response, if there was one. *)
Definition tracks (cfg : config) (s : sidecar) : Prop :=
  let m := sc_metrics s in
  let name := serverName cfg in
  match sc_previousInfo s with
  | Some i =>
    sc_isUp s = true ∧ sc_everUp s = true
    ∧ gauge_get [name] (serverUp m) = Some 1
    ∧ gauge_get [name] (activePlayers m) = Some (info_Players i)
    ∧ gauge_get [name] (maxPlayers m) = Some (info_MaxPlayers i)
    ∧ gauge_get [name; info_MapName i; info_Version i] (serverInfo m) = Some 1
  | None =>
    sc_isUp s = false
    ∧ (gauge_get [name] (serverUp m) = None ∨ gauge_get [name] (serverUp m) = Some 0)
    ∧ (gauge_get [name] (activePlayers m) = None ∨ gauge_get [name] (activePlayers m) = Some 0)
  end.

Lemma set_gauge_bind {A} (N : env SidecarE) l v g (f : GaugeVec → prog SidecarE A) s tr s' o :
  runs N (set_gauge l v g ≫= f) s tr s' o →
  (gauge_set l v g = None ∧ ∃ m, o = Panics m) ∨ ∃ g', gauge_set l v g = Some g' ∧ runs N (f g') s tr s' o.
Proof.
  unfold set_gauge. destruct (gauge_set l v g) as [g'|] eqn:E; [by eauto|]. intros (_ & _ & ->). eauto.
Qed.

(** The update of the info gauge, as a function; [None] is the panic. *)
Definition updated_info (cfg : config) (prev : option A2SInfo) (info : A2SInfo) (g : GaugeVec) : option GaugeVec :=
  match prev with
  | None => gauge_set [serverName cfg; info_MapName info; info_Version info] 1 g
  | Some p =>
    if bool_decide (info_MapName p = info_MapName info) && bool_decide (info_Version p = info_Version info)
    then Some g
    else gauge_set [serverName cfg; info_MapName info; info_Version info] 1
           (gauge_delete [serverName cfg; info_MapName p; info_Version p] g)
  end.

Lemma updateInfo_bind {A} (N : env SidecarE) cfg prev info g (f : GaugeVec → prog SidecarE A) s tr s' o :
  runs N (updateInfo cfg prev info g ≫= f) s tr s' o →
  (updated_info cfg prev info g = None ∧ ∃ m, o = Panics m)
  ∨ ∃ g', updated_info cfg prev info g = Some g' ∧ runs N (f g') s tr s' o.
Proof.
  unfold updateInfo, updated_info. destruct prev as [p|]; [|apply set_gauge_bind].
  destruct (_ && _); [|apply set_gauge_bind]. intros Hr. right. by exists g.
Qed.

Lemma patchServerStatus_outcome (N : env SidecarE) ns name players v s tr s' o :
  runs N (patchServerStatus ns name players v) s tr s' o → o = Returns ().
Proof.
  intros (r & s1 & tr1 & _ & -> & Hr). cbn in Hr. destruct r as [sv|e]; [|by destruct Hr as (_ & _ & ->)].
  destruct (_ && _); [by destruct Hr as (_ & _ & ->)|]. by destruct Hr as (x & s2 & tr2 & _ & _ & _ & _ & ->).
Qed.

(** The status patch between the gauges and the result changes neither. *)
Lemma patch_bind {A} (N : env SidecarE) hasClient cfg players v (f : prog SidecarE A) s tr s' o :
  runs N ((if may_patch hasClient cfg
           then patchServerStatus (serverNamespace cfg) (serverName cfg) players v else Ret ()) ≫= λ _, f) s tr s' o →
  ∃ s1 tr1, runs N f s1 tr1 s' o.
Proof.
  intros (tr1 & s1 & o1 & H1 & Hr)%runs_bind_inv. assert (o1 = Returns ()) as ->.
  { destruct (may_patch _ _); [by apply patchServerStatus_outcome in H1|by destruct H1 as (_ & _ & ->)]. }
  destruct Hr as (tr2 & _ & Hr). eauto.
Qed.

Section Laws.
Context {GL : GaugeVecLaws}.

Lemma scrapeSucceeded_tracks N hasClient cfg s info st tr st' s' :
  tracks cfg s → runs N (scrapeSucceeded hasClient cfg s info) st tr st' (Returns s') →
  sc_previousInfo s' = Some info ∧ tracks cfg s'.
Proof.
  intros Ht Hr. unfold scrapeSucceeded in Hr.
  apply set_gauge_bind in Hr as [[_ [m [=]]]|(up & Hup & Hr)].
  apply set_gauge_bind in Hr as [[_ [m [=]]]|(ap & Hap & Hr)].
  apply set_gauge_bind in Hr as [[_ [m [=]]]|(mp & Hmp & Hr)].
  apply updateInfo_bind in Hr as [[_ [m [=]]]|(si & Hsi & Hr)].
  apply patch_bind in Hr as (s1 & tr1 & _ & _ & [= ->]). cbn. split; [done|].
  unfold tracks. cbn [sc_previousInfo sc_isUp sc_everUp sc_metrics serverUp activePlayers maxPlayers serverInfo].
  rewrite (gauge_get_set _ _ _ _ _ Hup), (gauge_get_set _ _ _ _ _ Hap), (gauge_get_set _ _ _ _ _ Hmp).
  rewrite !decide_True by done. split_and!; try done.
  unfold updated_info in Hsi. unfold tracks in Ht. destruct (sc_previousInfo s) as [p|].
  - destruct (bool_decide_reflect (info_MapName p = info_MapName info)) as [E1|];
      [destruct (bool_decide_reflect (info_Version p = info_Version info)) as [E2|]|]; cbn [andb] in Hsi.
    + injection Hsi as <-. rewrite <- E1, <- E2. apply Ht.
    + by rewrite (gauge_get_set _ _ _ _ _ Hsi), decide_True.
    + by rewrite (gauge_get_set _ _ _ _ _ Hsi), decide_True.
  - by rewrite (gauge_get_set _ _ _ _ _ Hsi), decide_True.
Qed.

Lemma scrapeFailed_tracks N hasClient cfg s st tr st' s' :
  runs N (scrapeFailed hasClient cfg s) st tr st' (Returns s') →
  sc_previousInfo s' = None ∧ tracks cfg s' ∧ gauge_get [serverName cfg] (serverUp (sc_metrics s')) = Some 0.
Proof.
  intros Hr. unfold scrapeFailed in Hr.
  apply set_gauge_bind in Hr as [[_ [m [=]]]|(up & Hup & Hr)].
  apply set_gauge_bind in Hr as [[_ [m [=]]]|(ap & Hap & Hr)].
  apply patch_bind in Hr as (s1 & tr1 & _ & _ & [= ->]).
  unfold tracks. cbn [sc_previousInfo sc_isUp sc_metrics serverUp activePlayers].
  rewrite (gauge_get_set _ _ _ _ _ Hup), (gauge_get_set _ _ _ _ _ Hap), !decide_True by done. auto 10.
Qed.

Lemma scrape_tracks N fuel hasClient cfg s st tr st' s' :
  tracks cfg s → runs N (scrape fuel hasClient cfg s) st tr st' (Returns s') → tracks cfg s'.
Proof.
  intros Ht Hr. unfold scrape in Hr. apply runs_bind_inv in Hr as (tr1 & s1 & o1 & _ & Hr).
  destruct o1 as [[info|e]|m|]; [| |by destruct Hr as (_ & _ & [=])..]; destruct Hr as (tr2 & _ & Hr).
  - by eapply scrapeSucceeded_tracks.
  - by eapply scrapeFailed_tracks.
Qed.


Lemma gauge_set_none l v g : gauge_set l v g = None → ¬ Forall (λ s, valid_utf8 s = true) l.
Proof. intros H Hv. apply (gauge_set_valid l v g) in Hv as [g' Hg]. congruence. Qed.

Definition never_panics {A} (p : prog SidecarE A) : Prop :=
  ∀ (N : env SidecarE) s tr s' m, ¬ runs N p s tr s' (Panics m).

Lemma never_panics_ret {A} (a : A) : never_panics (Ret a).
Proof. by intros N s tr s' m (_ & _ & [=]). Qed.
Lemma never_panics_ask c : never_panics (ask c).
Proof. by intros N s tr s' m (x & s1 & tr1 & _ & _ & _ & _ & [=]). Qed.
Lemma never_panics_bind {A B} (p : prog SidecarE A) (f : A → prog SidecarE B) :
  never_panics p → (∀ a, never_panics (f a)) → never_panics (p ≫= f).
Proof.
  intros Hp Hf N s tr s' m (tr1 & s1 & o1 & H1 & Hr)%runs_bind_inv.
  destruct o1 as [a|m'|]; [|by apply Hp in H1|by destruct Hr as (_ & _ & [=])].
  destruct Hr as (tr2 & _ & Hr). by apply Hf in Hr.
Qed.

Lemma receive_never_panics fuel raddr : never_panics (receive fuel raddr).
Proof.
  induction fuel as [|fuel IH]; cbn [receive]; [by intros N s tr s' m (_ & _ & [=])|].
  apply never_panics_bind; [apply never_panics_ask|]. intros [[p from]|e]; [|apply never_panics_ret].
  case_decide; [apply never_panics_ret|done].
Qed.

Lemma queryA2SInfo_never_panics fuel addr timeout : never_panics (queryA2SInfo fuel addr timeout).
Proof.
  assert (∀ req raddr, never_panics (udpRoundTrip fuel req raddr timeout)) as Hrt.
  { intros req raddr. unfold udpRoundTrip. repeat (apply never_panics_bind; [apply never_panics_ask|intros ?]).
    destruct a0; [|apply never_panics_ret]. apply never_panics_bind; [apply never_panics_ask|].
    intros []; [apply receive_never_panics|apply never_panics_ret]. }
  unfold queryA2SInfo. apply never_panics_bind; [apply never_panics_ask|]. intros [raddr|e]; [|apply never_panics_ret].
  apply never_panics_bind; [apply never_panics_ask|]. intros []; [|apply never_panics_ret].
  apply never_panics_bind; [|intros r; apply never_panics_bind; [apply never_panics_ask|intros; apply never_panics_ret]].
  unfold exchange. apply never_panics_bind; [apply Hrt|]. intros [resp|e]; [|apply never_panics_ret].
  destruct (challenge_of resp); [|apply never_panics_ret].
  apply never_panics_bind; [apply Hrt|]. intros []; apply never_panics_ret.
Qed.

Lemma updated_info_none cfg prev info g :
  valid_utf8 (serverName cfg) = true → updated_info cfg prev info g = None →
  ¬ (valid_utf8 (info_MapName info) = true ∧ valid_utf8 (info_Version info) = true).
Proof.
  intros Hn Hu [Hm Hv]. assert (Forall (λ s, valid_utf8 s = true) [serverName cfg; info_MapName info; info_Version info])
    as HF by (repeat constructor; done).
  unfold updated_info in Hu. destruct prev as [p|]; [destruct (_ && _); [done|]|]; by apply gauge_set_none in Hu.
Qed.

(** C40: a scrape panics only when a label value is not valid UTF-8: given a valid
    server name, only on a response whose map or version is not. *)
Theorem scrape_panics_only_on_labels N fuel hasClient cfg s st tr st' m :
  valid_utf8 (serverName cfg) = true →
  runs N (scrape fuel hasClient cfg s) st tr st' (Panics m) →
  ∃ tr1 st1 info,
    runs N (queryA2SInfo fuel (queryHost cfg +:+ ":" +:+ itoa (queryPort cfg)) (3 * second)) st tr1 st1 (Returns (Ok info))
    ∧ ¬ (valid_utf8 (info_MapName info) = true ∧ valid_utf8 (info_Version info) = true).
Proof.
  intros Hn Hr. assert (Forall (λ s, valid_utf8 s = true) [serverName cfg]) as HF by (by constructor).
  unfold scrape in Hr. apply runs_bind_inv in Hr as (tr1 & s1 & o1 & H1 & Hr).
  destruct o1 as [[info|e]|m'|]; [| |by apply queryA2SInfo_never_panics in H1|by destruct Hr as (_ & _ & [=])];
    destruct Hr as (tr2 & _ & Hr).
  - exists tr1, s1, info. split; [exact H1|]. unfold scrapeSucceeded in Hr.
    do 3 (apply set_gauge_bind in Hr as [[Hs%gauge_set_none _]|(? & _ & Hr)]; [done|]).
    apply updateInfo_bind in Hr as [[Hu _]|(si & _ & Hr)]; [by eapply updated_info_none|].
    by apply patch_bind in Hr as (s2 & tr3 & _ & _ & [=]).
  - unfold scrapeFailed in Hr.
    do 2 (apply set_gauge_bind in Hr as [[Hs%gauge_set_none _]|(? & _ & Hr)]; [done|]).
    by apply patch_bind in Hr as (s2 & tr3 & _ & _ & [=]).
Qed.
End Laws.
End Scrapes.

(** ** The status patch *)

Lemma readByte_range r : 0 ≤ or_zero 0 (readByte r).1 < 256.
Proof. unfold readByte. case_match; cbn [fst or_zero]; [apply bval_range|lia]. Qed.

Lemma parse_players_range data info : parseA2SInfo data = Ok info → 0 ≤ info_Players info < 256.
Proof.
  intros (? & name & map & ? & ? & tl & _ & _ & _ & _ & _ & ->)%a2s_accepted_prefix.
  unfold tail_info, parseA2STail. pose proof (readByte_range (skip 2 (MkByteReader tl 0))) as H.
  destruct (readByte (skip 2 _)) as [b1 r1]. destruct (readByte r1) as [b2 r2]. destruct (readString _) as [v r3].
  exact H.
Qed.

Section Patch.
Context {QO : QuantityOps} {GO : GaugeVecOps}.
Context (hasClient : bool) (cfg : config) (P : EnshroudedServer → Prop).

(** The API server answers with a server of which [P] holds. *)
Definition answers_server (c : SidecarE) : resp c → Prop :=
  match c return sidecar_resp c → Prop with
  | GetServer _ => λ r, ∀ sv, r = Ok sv → P sv
  | _ => λ _, True
  end.

Definition patch_allowed (c : SidecarE) : Prop :=
  match c with
  | GetServer nn => may_patch hasClient cfg = true ∧ nn = NN (serverNamespace cfg) (serverName cfg)
  | PatchStatus base new =>
    may_patch hasClient cfg = true ∧ P base
    ∧ ∃ players version, new = set_players players version base ∧ 0 ≤ players < 256
      ∧ (st_ActivePlayers (es_Status base) ≠ players ∨ st_GameVersion (es_Status base) ≠ version)
  | _ => True
  end.

Local Abbreviation F := (free_env (E := SidecarE) answers_server).
Local Abbreviation G := (λ (_ : F) c, patch_allowed c).

Lemma wp_ask {A} c (f : _ → prog SidecarE A) Q :
  patch_allowed c → (∀ x, answers_server c x → wp F G (f x) Q ()) → wp F G (ask c ≫= f) Q ().
Proof. intros HG Hf. split; [done|]. intros x [] Hx. by apply Hf. Qed.

Lemma receive_calls fuel raddr : wp F G (receive fuel raddr) (λ _ _, True) ().
Proof.
  induction fuel as [|fuel IH]; cbn [receive]; [done|]. apply wp_ask; [done|]. intros [[p from]|e] _; [|done].
  by case_decide.
Qed.

Lemma query_calls fuel addr timeout :
  wp F G (queryA2SInfo fuel addr timeout) (λ _ o, ∀ i, o = Returns (Ok i) → 0 ≤ info_Players i < 256) ().
Proof.
  assert (∀ req raddr, wp F G (udpRoundTrip fuel req raddr timeout) (λ _ _, True) ()) as Hrt.
  { intros req raddr. unfold udpRoundTrip. apply wp_ask; [done|]. intros t _. apply wp_ask; [done|].
    intros [[]|e] _; [|done]. apply wp_ask; [done|]. intros [[]|e] _; [|done]. apply receive_calls. }
  assert (∀ resp i, Returns (parseA2SInfo resp) = Returns (Ok i) → 0 ≤ info_Players i < 256) as Hpl.
  { intros resp i [= H]. by eapply parse_players_range. }
  unfold queryA2SInfo. apply wp_ask; [done|]. intros [raddr|e] _; [|done].
  apply wp_ask; [done|]. intros [[]|e] _; [|done].
  eapply (wp_bind_intro F G _ _ _ (λ _ o, ∀ i, o = Returns (Ok i) → 0 ≤ info_Players i < 256)).
  - unfold exchange. eapply wp_bind_intro; [apply Hrt|]. intros [] o _. destruct o as [[resp|e]|m|]; try done.
    cbn [bind_post]. destruct (challenge_of resp); [|exact (Hpl resp)].
    eapply wp_bind_intro; [apply Hrt|]. intros [] o _. destruct o as [[resp'|e]|m|]; try done. exact (Hpl resp').
  - intros [] o Ho. destruct o as [r|m|]; cbn [bind_post]; [|done|done]. apply wp_ask; [done|]. intros [] _.
    intros i [= ->]. by apply Ho.
Qed.

Lemma patchServerStatus_calls players v :
  may_patch hasClient cfg = true → 0 ≤ players < 256 →
  wp F G (patchServerStatus (serverNamespace cfg) (serverName cfg) players v) (λ _ _, True) ().
Proof.
  intros Hm Hp. unfold patchServerStatus. apply wp_ask; [done|]. intros [sv|e] Hsv; [|done].
  destruct (_ && _) eqn:E; [done|]. apply wp_ask; [|done]. split; [done|]. split; [by apply Hsv|].
  exists players, v. split_and!; try done; try lia. rewrite andb_false_iff, !bool_decide_eq_false in E. done.
Qed.

Lemma set_gauge_calls {A} l v g (f : _ → prog SidecarE A) :
  (∀ g', wp F G (f g') (λ _ _, True) ()) → wp F G (set_gauge l v g ≫= f) (λ _ _, True) ().
Proof. intros Hf. unfold set_gauge. destruct (gauge_set l v g); [apply Hf|done]. Qed.

Lemma may_patch_calls {A} players v (f : prog SidecarE A) :
  0 ≤ players < 256 → wp F G f (λ _ _, True) () →
  wp F G ((if may_patch hasClient cfg
           then patchServerStatus (serverNamespace cfg) (serverName cfg) players v else Ret ()) ≫= λ _, f) (λ _ _, True) ().
Proof.
  intros Hp Hf. destruct (may_patch hasClient cfg) eqn:Hm; [|done].
  eapply wp_bind_intro; [by apply patchServerStatus_calls|]. by intros [] [[]|m|] _.
Qed.

Lemma scrape_calls fuel s : wp F G (scrape fuel hasClient cfg s) (λ _ _, True) ().
Proof.
  unfold scrape. eapply wp_bind_intro; [apply query_calls|]. intros [] o Ho.
  destruct o as [[info|e]|m|]; cbn [bind_post]; try done.
  - unfold scrapeSucceeded. apply set_gauge_calls; intros up. apply set_gauge_calls; intros ap.
    apply set_gauge_calls; intros mp. unfold updateInfo. assert (∀ si, wp F G (
      _ ← (if may_patch hasClient cfg
           then patchServerStatus (serverNamespace cfg) (serverName cfg) (info_Players info) (info_Version info)
           else Ret ());
      Ret (MkSidecar (MkMetrics up ap mp si) true (Some info) true)) (λ _ _, True) ()) as H.
    { intros si. apply may_patch_calls; [by apply Ho|done]. }
    destruct (sc_previousInfo s) as [p|]; [destruct (_ && _)|]; try apply set_gauge_calls; intros; apply H.
  - unfold scrapeFailed. do 2 (apply set_gauge_calls; intros ?). by apply may_patch_calls.
Qed.
End Patch.

(** Every status patch of a scrape is for the configured server, based on the
    server the API server answered with, changes nothing but activePlayers and
    gameVersion, to a count a byte can hold, and is sent only when one of the two
    differs (no spurious reconcile triggers). *)
Theorem patch_changes_only_sidecar_fields `{QO : QuantityOps} `{GO : GaugeVecOps} (N : env SidecarE) fuel hasClient cfg
    (P : EnshroudedServer → Prop) s st tr st' o :
  (∀ st c x st', env_step (e := N) st c x st' → answers_server P c x) →
  runs N (scrape fuel hasClient cfg s) st tr st' o →
  every_call (E := SidecarE) (patch_allowed hasClient cfg P) tr.
Proof.
  intros HN Hr.
  exact (calls_only_runs (answers_server P) (patch_allowed hasClient cfg P) _ N st tr st' o
    (scrape_calls hasClient cfg P fuel s) HN Hr).
Qed.

(** ** Witnesses *)

Import Model.

Definition sample_cfg : config := MkConfig "127.0.0.1" 15637 ":9090" (15 * second) "games" "srv" true.
Definition misc5 : list ascii := chr <$> [0; 100; 108; 0; 0].

Definition response (map version : string) (players : Z) : list ascii :=
  a2s_prefix (chr 17) "My Server" map "enshrouded" "Enshrouded"
  ++ a2s_tail (chr 1) (chr 2) players 16 misc5 version.

(** A network that plays back a script: an answer to each read, in order. *)
Definition script := list (result (list ascii * string)).
Definition network (server : EnshroudedServer) (s : script) (c : SidecarE) : resp c * script :=
  match c return sidecar_resp c * script with
  | ResolveUDPAddr addr => (Ok addr, s)
  | ListenPacket => (Ok (), s)
  | CloseConn => ((), s)
  | SidecarNow => (0, s)
  | SetDeadline _ => (Ok (), s)
  | WriteTo _ _ => (Ok (), s)
  | ReadFrom => match s with [] => (Err (errorf "i/o timeout"), []) | r :: s => (r, s) end
  | GetServer _ => (Ok server, s)
  | PatchStatus _ _ => (Ok (), s)
  end.

Definition server_addr := "127.0.0.1:15637".
Definition challenge_packet : list ascii := a2sHeader ++ [chr 0x41] ++ (chr <$> [1; 2; 3; 4]).

(** A stray packet, a challenge, then a response with three players. *)
Definition good_script : script :=
  [Ok ([], "10.0.0.9:53"); Ok (challenge_packet, server_addr); Ok (response "World" "0.8.1" 3, server_addr)].

Lemma network_finite server : finite_traffic (oracle_env (network server)) (λ s : script, length s).
Proof.
  intros s c x s'. unfold oracle_env. cbn. destruct c; cbn; try (intros [= <- <-]; by auto).
  destruct s as [|r s]; intros [= <- <-]; cbn; split; [lia|by intros ? [=]|lia|lia].
Qed.

Definition query_run := drive_state (network busy_server) (queryA2SInfo 5 server_addr (3 * second)) good_script.

Lemma query_run_runs : runs (oracle_env (network busy_server)) (queryA2SInfo 5 server_addr (3 * second)) good_script
  query_run.1.1 query_run.1.2 query_run.2.
Proof. exact (drive_state_runs (network busy_server) (queryA2SInfo 5 server_addr (3 * second)) good_script). Qed.

Lemma a2s_roundtrip_witness :
  parseA2SInfo (response "World" "0.8.1" 3) = Ok (MkA2SInfo "My Server" "World" 3 16 "0.8.1").
Proof.
  unfold response. rewrite <- (app_nil_r (a2s_tail _ _ _ _ _ _)).
  apply (a2s_roundtrip (chr 17) "My Server" "World" "enshrouded" "Enshrouded" (chr 1) (chr 2) 3 16 misc5 "0.8.1" []);
    try (unfold no_nul; vm_compute; repeat constructor; discriminate); try reflexivity; lia.
Defined.


Definition trip_run :=
  drive_state (network busy_server) (udpRoundTrip 5 (buildA2SInfoRequest initialChallenge) server_addr (3 * second)) good_script.

Lemma response_from_server_witness :
  ∃ tr1 tr2, trip_run.1.1
    = tr1 ++ Ev (E := SidecarE) (WriteTo (buildA2SInfoRequest initialChallenge) server_addr) (Ok ()) :: tr2
    ∧ Ev (E := SidecarE) ReadFrom (Ok (challenge_packet, server_addr)) ∈ tr2.
Proof.
  apply (response_from_server (oracle_env (network busy_server)) 5 (buildA2SInfoRequest initialChallenge) server_addr
    (3 * second) good_script trip_run.1.1 trip_run.1.2).
  exact (drive_state_runs (network busy_server)
    (udpRoundTrip 5 (buildA2SInfoRequest initialChallenge) server_addr (3 * second)) good_script).
Defined.

Lemma query_closes_socket_witness :
  ∃ r, query_run.2 = Returns r ∧
  ((∃ x, query_run.1.1 = [Ev (E := SidecarE) (ResolveUDPAddr server_addr) x])
  ∨ (∃ x e, query_run.1.1 = [Ev (E := SidecarE) (ResolveUDPAddr server_addr) x; Ev (E := SidecarE) ListenPacket (Err e)])
  ∨ (∃ x mid, query_run.1.1 = Ev (E := SidecarE) (ResolveUDPAddr server_addr) x :: Ev (E := SidecarE) ListenPacket (Ok ())
                   :: mid ++ [Ev (E := SidecarE) CloseConn ()]
      ∧ every_call (λ c : SidecarE, opens_or_closes c = false) mid)).
Proof.
  exists (Ok (MkA2SInfo "My Server" "World" 3 16 "0.8.1")). split; [vm_compute; reflexivity|].
  apply (query_closes_socket (oracle_env (network busy_server)) 5 server_addr (3 * second) good_script _ query_run.1.2
    (Ok (MkA2SInfo "My Server" "World" 3 16 "0.8.1"))).
  assert (query_run.2 = Returns (Ok (MkA2SInfo "My Server" "World" 3 16 "0.8.1"))) as <- by (vm_compute; reflexivity).
  apply query_run_runs.
Defined.

(** Two scrapes: a response, then silence. *)
Definition two_scrapes := drive_state (network busy_server) (scrapeLoop 2 5 true sample_cfg initialSidecar) good_script.
Definition down_again : sidecar :=
  match two_scrapes.2 with Returns s => s | _ => initialSidecar end.


Definition scrape_run := drive_state (network busy_server) (scrape 5 true sample_cfg initialSidecar) good_script.

Lemma patch_changes_only_sidecar_fields_witness :
  every_call (E := SidecarE) (patch_allowed true sample_cfg (λ s, s = busy_server)) scrape_run.1.1.
Proof.
  apply (patch_changes_only_sidecar_fields (oracle_env (network busy_server)) 5 true sample_cfg (λ s, s = busy_server)
    initialSidecar good_script _ scrape_run.1.2 scrape_run.2).
  - intros st c x st'. unfold oracle_env. cbn. destruct c; cbn; try done. by intros [= <- _] sv [= <-].
  - exact (drive_state_runs (network busy_server) (scrape 5 true sample_cfg initialSidecar) good_script).
Defined.

(** ** A map name that is not UTF-8 stops the sidecar *)

Definition bad_map : string := String (chr 0xFF) "".
Definition bad_script : script := [Ok (response bad_map "0.8.1" 3, server_addr)].
Definition bad_run := drive_state (network busy_server) (scrape 5 true sample_cfg initialSidecar) bad_script.

(** A well-formed response whose map name is the byte 0xFF makes [scrape] panic
    (the label value is rejected), and nothing recovers. *)
Theorem non_utf8_map_panics : (if bad_run.2 is Panics _ then true else false) = true.
Proof. vm_compute. reflexivity. Qed.

Lemma scrape_panics_only_on_labels_witness :
  ∃ tr1 st1 info,
    runs (oracle_env (network busy_server)) (queryA2SInfo 5 "127.0.0.1:15637" (3 * second)) bad_script tr1 st1 (Returns (Ok info))
    ∧ ¬ (valid_utf8 (info_MapName info) = true ∧ valid_utf8 (info_Version info) = true).
Proof.
  apply (scrape_panics_only_on_labels (oracle_env (network busy_server)) 5 true sample_cfg initialSidecar bad_script
    bad_run.1.1 bad_run.1.2 "label value is not valid UTF-8").
  - vm_compute. reflexivity.
  - exact (drive_state_runs (network busy_server) (scrape 5 true sample_cfg initialSidecar) bad_script).
Defined.

(** ** A version change across a failed scrape leaves the old series *)

Definition restart_script : script :=
  [Ok (response "World" "0.8.1" 3, server_addr); Err (errorf "i/o timeout"); Ok (response "World" "0.9.0" 0, server_addr)].
Definition restarted : sidecar :=
  match (drive_state (network busy_server) (scrapeLoop 3 5 true sample_cfg initialSidecar) restart_script).2 with
  | Returns s => s | _ => initialSidecar end.

(** The failed scrape forgets the previous response, so the series of the old
    version is not removed when the server comes back with a new one: both are
    exposed with value 1. *)
Theorem version_change_leaves_series :
  gauge_get ["srv"; "World"; "0.8.1"] (serverInfo (sc_metrics restarted)) = Some 1
  ∧ gauge_get ["srv"; "World"; "0.9.0"] (serverInfo (sc_metrics restarted)) = Some 1.
Proof. split; vm_compute; reflexivity. Qed.
