(* ===== verification/SidecarMain.v ===== *)
(** * The sidecar process

    [main], [buildK8sClient], [newMetrics] and the HTTP routes of
    [cmd/metrics-sidecar/main.go].  The scrape of [Sidecar.v] runs inside a larger
    effect: the calls that create the Kubernetes client, the goroutine that serves
    HTTP, and the ticks of the loop. *)
From S2P Require Import Prelude GoStrings GoTime GoConv GoFlag Platform Instances Api Effects Kube A2S Sidecar Samples Safety SidecarTheory.
Local Open Scope Z_scope.

(** ** HTTP *)

Record http_server := MkHTTPServer { srv_Addr : string; srv_ReadTimeout : Duration; srv_WriteTimeout : Duration }.
Definition sidecar_server (cfg : config) : http_server := MkHTTPServer (metricsAddr cfg) (5 * second) (10 * second).

(** The collectors [newMetrics] registers: name and labels of each gauge.
    [MustRegister] panics on two collectors of one name. *)
Definition collectors : list (string * list string) := [
  ("enshrouded_server_up", ["server_name"]);
  ("enshrouded_active_players", ["server_name"]);
  ("enshrouded_max_players", ["server_name"]);
  ("enshrouded_server_info", ["server_name"; "map"; "version"])].

(** ** The effect of the process *)

Section Main.
Context {QO : QuantityOps} {GO : GaugeVecOps}.

Inductive main_call :=
  (** [rest.InClusterConfig], [AddToScheme] on a new scheme, [client.New]. *)
  | InClusterConfig
  | AddToNewScheme
  | NewClient
  (** The goroutine that runs [srv.ListenAndServe()]. *)
  | ServeHTTP (srv : http_server)
  (** The next tick of the ticker, or the error of the HTTP server that ended the
      process before it. *)
  | Tick
  | Scrape (c : sidecar_call).
Definition main_resp (c : main_call) : Type :=
  match c with
  | InClusterConfig | AddToNewScheme | NewClient | Tick => option error
  | ServeHTTP _ => unit
  | Scrape c => sidecar_resp c
  end.
Definition SidecarMainE : effect := Effect main_call main_resp.
Definition boot (c : main_call) : prog SidecarMainE (main_resp c) := trigger (E := SidecarMainE) c.

(** A program of the scraper, inside the process. *)
Fixpoint lift {A} (p : prog SidecarE A) : prog SidecarMainE A :=
  match p with
  | Ret a => Ret a
  | Vis c k => Vis (E := SidecarMainE) (Scrape c) (λ x, lift (k x))
  | Panic m => Panic m
  | OutOfFuel => OutOfFuel
  end.

(** [buildK8sClient]: whether there is a client, and the error. *)
Definition buildK8sClient : prog SidecarMainE (bool * option error) :=
  e ← boot InClusterConfig;
  match e with
  | Some _ => Ret (false, None)
  | None =>
    e ← boot AddToNewScheme;
    match e with
    | Some e => Ret (false, Some (wrapf "registering EnshroudedServer scheme: " e))
    | None =>
      e ← boot NewClient;
      match e with
      | Some e => Ret (false, Some (wrapf "creating K8s client: " e))
      | None => Ret (true, None)
      end
    end
  end.

(** [n] ticks; an exit status when the process ended before. *)
Fixpoint mainLoop (n fuel : nat) (hasClient : bool) (cfg : config) (s : sidecar) : prog SidecarMainE (Z + sidecar) :=
  match n with
  | O => Ret (inr s)
  | S n =>
    e ← boot Tick;
    match e with
    | Some _ => Ret (inl 1)
    | None => s ← lift (scrape fuel hasClient cfg s); mainLoop n fuel hasClient cfg s
    end
  end.

Definition sidecar_main (n fuel : nat) (e : environ) : prog SidecarMainE (Z + sidecar) :=
  let cfg := loadConfig e in
  if negb (bool_decide (NoDup collectors.*1)) then Panic "duplicate metrics collector registration attempted"
  else
    '(hasClient, _) ← buildK8sClient;
    _ ← boot (ServeHTTP (sidecar_server cfg));
    if scrapeInterval cfg <=? 0 then Panic "non-positive interval for NewTicker"
    else mainLoop n fuel hasClient cfg initialSidecar.

(** ** Bounds of the configuration *)

(** C36: whatever its environment holds, the sidecar runs with a configuration in
    range: it scrapes at least five seconds apart and at most the longest duration
    Go can represent, and asks a positive port that fits an [int]; malformed,
    missing, negative and overflowing values included. *)
Theorem config_in_range (e : environ) :
  5 * second ≤ scrapeInterval (loadConfig e) ≤ maxInt64 ∧ 1 ≤ queryPort (loadConfig e) ≤ maxInt64.
Proof.
  split; cbn [loadConfig scrapeInterval queryPort].
  - destruct (ParseDuration _) as [d|] eqn:E; [|unfold second, maxInt64; lia].
    apply ParseDuration_range in E. case_match; [unfold second, maxInt64; lia|]. lia.
  - pose proof (Atoi_range (envOrDefault e "QUERY_PORT" "15637")) as H. unfold maxInt64 in *. case_match; lia.
Qed.

(** The routes of the mux: the status of a request for a path. *)
Definition http_status (s : sidecar) (path : string) : Z :=
  if decide (path = "/metrics") then 200
  else if decide (path = "/healthz") then 200
  else if decide (path = "/readyz") then readyz s
  else 404.

(** ** The client *)

Local Abbreviation history := (list (event SidecarMainE)).
Local Abbreviation T := (trace_env (E := SidecarMainE) any).

(** All steps of [buildK8sClient] succeeded. *)
Definition client_built (h : history) : Prop :=
  Ev (E := SidecarMainE) InClusterConfig None ∈ h ∧ Ev (E := SidecarMainE) AddToNewScheme None ∈ h
  ∧ Ev (E := SidecarMainE) NewClient None ∈ h.

(** Calls to the API server are for the configured server and need a client. *)
Definition api_call_ok (cfg : config) (h : history) (c : SidecarMainE) : Prop :=
  match c with
  | Scrape (GetServer nn) =>
    client_built h ∧ may_patch true cfg = true ∧ nn = NN (serverNamespace cfg) (serverName cfg)
  | Scrape (PatchStatus _ _) => client_built h ∧ may_patch true cfg = true
  | _ => True
  end.

(** The process ends before its ticks are over only because the HTTP server failed. *)
Definition exit_ok {A} (h : history) (o : outcome (Z + A)) : Prop :=
  ∀ code, o = Returns (inl code) → code = 1 ∧ ∃ err, Ev (E := SidecarMainE) Tick (Some err) ∈ h.

Lemma client_built_app h h' : client_built h → client_built (h ++ h').
Proof. unfold client_built. rewrite !elem_of_app. tauto. Qed.

Lemma may_patch_client b cfg : may_patch b cfg = true → b = true ∧ may_patch true cfg = true.
Proof. by destruct b. Qed.

Section Cfg.
Context (cfg : config) (hasClient : bool).
Definition ready (h : history) : Prop := hasClient = true → client_built h.

Lemma patch_allowed_ok h c :
  ready h → patch_allowed hasClient cfg (λ _, True) c → api_call_ok cfg h (Scrape c).
Proof.
  intros Hh. assert (may_patch hasClient cfg = true → client_built h ∧ may_patch true cfg = true) as H.
  { intros [Hc Hm]%may_patch_client. split; [by apply Hh|done]. }
  destruct c; cbn; try done.
  - intros [Hm ->]. apply H in Hm as [??]. done.
  - intros [Hm _]. by apply H.
Qed.

(** A program of the scraper keeps to its own guarantee. *)
Lemma lift_ok {A} (p : prog SidecarE A) (h : history) :
  calls_only any (patch_allowed hasClient cfg (λ _, True)) p → ready h →
  wp T (api_call_ok cfg) (lift p) (λ h' _, ready h') h.
Proof.
  revert h. unfold calls_only. induction p as [a|c k IH|m|]; intros h Hp Hh; try done.
  destruct Hp as [HG Hk]. split; [by apply patch_allowed_ok|]. intros x h' [_ ->].
  apply IH; [by apply (Hk x ())|]. intros Hc. by apply client_built_app, Hh.
Qed.

Lemma scrape_within fuel s : calls_only any (patch_allowed hasClient cfg (λ _, True)) (scrape fuel hasClient cfg s).
Proof.
  eapply (calls_only_weaken (answers_server (λ _, True))); [|done|apply scrape_calls]. by intros [] x _.
Qed.

Lemma mainLoop_ok n fuel s (h : history) :
  ready h → wp T (api_call_ok cfg) (mainLoop n fuel hasClient cfg s) exit_ok h.
Proof.
  revert s h. induction n as [|n IH]; intros s h Hh; cbn [mainLoop]; [by intros ? [=]|].
  apply (wp_trace_call (api_call_ok cfg) Tick); [done|]. intros [err|].
  - intros code [= <-]. split; [done|]. exists err. apply elem_of_app. right. left.
  - eapply (wp_bind_intro T); [apply lift_ok; [apply scrape_within|]|].
    + intros Hc. by apply client_built_app, Hh.
    + intros h' [s'|m|] Hh'; cbn [bind_post]; [by apply IH|by intros ? [=]|by intros ? [=]].
Qed.
End Cfg.

(** Neither the registration nor the ticker panics. *)
Lemma sidecar_main_starts n fuel e :
  sidecar_main n fuel e = ('(hasClient, _) ← buildK8sClient; _ ← boot (ServeHTTP (sidecar_server (loadConfig e)));
    mainLoop n fuel hasClient (loadConfig e) initialSidecar).
Proof.
  unfold sidecar_main. rewrite bool_decide_eq_true_2 by (apply (bool_decide_unpack _); vm_compute; exact I).
  pose proof (proj1 (config_in_range e)) as H. unfold second in H.
  destruct (Z.leb_spec (scrapeInterval (loadConfig e)) 0); [lia|done].
Qed.

End Main.

(** ** Witness *)

Import Model.

(** A pod with a client and the network of [SidecarTheory.v]. *)
Definition pod (s : script) (c : SidecarMainE) : resp c * script :=
  match c return main_resp c * script with
  | Scrape c => network idle_server s c
  | ServeHTTP _ => ((), s)
  | InClusterConfig | AddToNewScheme | NewClient | Tick => (None, s)
  end.
Definition pod_environ : environ := {["SERVER_NAMESPACE" := "games"; "SERVER_NAME" := "srv"; "QUERY_PORT" := "-1"]}.
Definition pod_run := drive_state pod (sidecar_main 1 5 pod_environ) good_script.

Definition is_patch (ev : event SidecarMainE) : bool :=
  match ev with Ev (Scrape (PatchStatus _ _)) _ => true | _ => false end.

