(* ===== verification/WindowTheory.v ===== *)
(** * What maintenance windows mean, and which servers a Secret concerns

    The meaning of the window expressions at the level of the controller's
    decision, and the mapping from Secrets back to servers. *)
From S2P Require Import Prelude GoStrings GoTime Platform Instances Api Effects Kube Builders Cron Windows Vpa Guards Controller Footprint Samples Safety.
Local Open Scope Z_scope.

Section Windows.
Context {QO : QuantityOps} {TZ : TzDatabase}.

(** C18: on a list of printed windows, [isInMaintenanceWindow] answers true exactly
    when the hour and the weekday of the clock reading, on the wall clock of the
    zone a window names (UTC when it names none or an unknown one), are among
    those the window lists; it reads the clock at most once and always returns. *)
Theorem window_meaning (N : env KubeE) ws t s tr s' o :
  Forall Cron.window_wf ws →
  (∀ s x s', env_step (e := N) s (Now : KubeE) x s' → x = t) →
  runs N (isInMaintenanceWindow (Cron.print_window <$> ws)) s tr s' o →
  ∃ b, o = Returns b ∧ (b = true ↔ Exists (Cron.window_sem t) ws) ∧ (length tr ≤ 1)%nat.
Proof.
  intros Hwf HN. destruct ws as [|w ws].
  { intros (-> & _ & ->). exists false. rewrite Exists_nil. split_and!; [done|done|cbn; lia]. }
  change (isInMaintenanceWindow (Cron.print_window <$> w :: ws))
    with (t ← now; Ret (Cron.anyWindow t (Cron.print_window <$> w :: ws))).
  intros (x & s1 & tr1 & Hs & -> & -> & _ & ->). apply HN in Hs as ->.
  eexists. split_and!; [reflexivity| |cbn; lia].
  rewrite Cron.anyWindow_exists, Exists_fmap. rewrite !Exists_exists. rewrite Forall_forall in Hwf.
  split; intros (v & Hv & Hin); exists v; (split; [done|]); by apply Cron.inWindow_print; [apply Hwf|].
Qed.

(** The fields [splitFields] finds are non-empty, and put together they are
    the text without its blanks: nothing is lost, added or reordered. *)
Theorem fields_partition_text s :
  Forall (λ f, f ≠ "") (Cron.splitFields s)
  ∧ foldr String.app "" (Cron.splitFields s) = encode_runes (List.filter (λ c, negb (Cron.is_blank c)) (runes s)).
Proof. destruct (Cron.splitFields_loop_spec (runes s) [] "") as (_ & H1 & H2). by split. Qed.
End Windows.

Section Watch.
Context {QO : QuantityOps}.

(** The field index of the manager's cache: it answers with exactly the servers
    of the namespace for which the index function lists the value. *)
Definition index_answers (cluster : list EnshroudedServer) (N : env KubeE) : Prop :=
  ∀ s ns field value x s', env_step (e := N) s (ListServersByField ns field value : KubeE) x s' →
    field = ".spec.allSecretRefs" →
    x = Ok (List.filter (λ sv, bool_decide (es_Namespace sv = ns) && bool_decide (value ∈ allSecretRefs sv)) cluster).

End Watch.

(** ** Witnesses *)

Import Model.

(** Weekdays at three, two hours east of Greenwich. *)
Definition weekday_window : Cron.window :=
  Cron.Window (Some "Etc/GMT-2") "0" (Cron.CItems (Cron.CSingle 5) []) "*" "*" (Cron.CItems (Cron.CRange 1 5) []).

Lemma token_ok_ascii s : is_ascii s = true → s ≠ "" → forallb (λ c, negb (Cron.is_blank c)) (runes s) = true → Cron.token_ok s.
Proof.
  intros Ha Hne Hb. split_and!; [by apply valid_utf8_ascii|done|]. apply Forall_forall. intros c Hc%list_elem_of_In.
  rewrite forallb_forall in Hb. by apply negb_true_iff, Hb.
Qed.

Lemma weekday_window_wf : Cron.window_wf weekday_window.
Proof.
  split_and!; try (apply token_ok_ascii; [vm_compute; reflexivity|done|vm_compute; reflexivity]).
  - repeat constructor; cbn; lia.
  - repeat constructor; cbn; lia.
  - vm_compute. repeat constructor; discriminate.
Qed.

(** At a quarter past three UTC on a Wednesday it is a quarter past five there. *)
Definition window_run := drive (empty_cluster idle_server wednesday_night)
  (isInMaintenanceWindow (Cron.print_window <$> [weekday_window])).

Lemma window_meaning_witness :
  (∃ b, window_run.2 = Returns b ∧ (b = true ↔ Exists (Cron.window_sem wednesday_night) [weekday_window])
    ∧ (length window_run.1 ≤ 1)%nat)
  ∧ window_run.2 = Returns true.
Proof.
  split; [|vm_compute; reflexivity].
  apply (window_meaning (sample_env (λ x, x = wednesday_night) (servers (λ _, True))) [weekday_window] wednesday_night
    () window_run.1 ()).
  - apply Forall_singleton. apply weekday_window_wf.
  - by intros s x s' Hx.
  - by apply sample_run.
Defined.

(** A cluster of two servers, one of which uses the Secret. *)
Definition password_server : EnshroudedServer :=
  MkEnshroudedServer (sample_meta [] None)
    (let spec := sample_spec sample_policy no_backup None false no_vpa in
     MkEnshroudedServerSpec "" (Some (MkSecretKeySelector "pw" "password" None)) 0 0 0 "" (sp_Image spec)
       (sp_Resources spec) (sp_Storage spec) [] (sp_UpdatePolicy spec) (sp_Backup spec) (sp_MetricsSidecar spec)
       (sp_VerticalScaling spec)) (sample_status 0).
Definition two_servers : list EnshroudedServer := [password_server; busy_server].

Definition index_cluster (t : Time) (c : KubeE) : resp c * Time :=
  match c return controller_resp c * Time with
  | ListServersByField ns _ value =>
    (Ok (List.filter (λ sv, bool_decide (es_Namespace sv = ns) && bool_decide (value ∈ allSecretRefs sv)) two_servers), t)
  | c => (empty_cluster busy_server t c, t)
  end.
Definition sample_secret : ObjectMeta := new_meta "pw" "games" ∅.

