(* ===== verification/Admission.v ===== *)
(** * Admission

    What the two webhooks guarantee together: defaulting is total, stable and
    invisible to the controller, validation accepts exactly the valid servers,
    and storage never shrinks. *)
From S2P Require Import Prelude GoStrings GoTime GoNet Platform Instances Api Kube Builders Webhook Samples.
Local Open Scope Z_scope.

Section Admission.
Context {QO : QuantityOps} {QL : QuantityLaws}.


(** A create request is admitted exactly when the defaulted server is valid
    (distinct ports, parsable address, complete password reference, image
    repository, no negative size); what is stored is the defaulted server. *)
Theorem create_admitted_iff s :
  (∃ s', admitCreate s = Some s') ↔ ∃ s', Default s = Some s' ∧ valid_server s'.
Proof.
  split.
  - intros [s' H%admitCreate_inv]. eauto.
  - intros (s' & Hd & Hv). exists s'. unfold admitCreate, ValidateCreate. rewrite Hd. cbn.
    by apply validate_iff in Hv as ->.
Qed.

(** C20: the controller can rely on an admitted server: its two ports differ and
    are not zero, its address parses, its image reference has a repository, and
    its storage size is positive. *)
Theorem admitted_server_usable s s' :
  admitCreate s = Some s' →
  eff_port s' ≠ eff_steamPort s' ∧ sp_Port (es_Spec s') ≠ 0 ∧ sp_SteamPort (es_Spec s') ≠ 0
  ∧ ParseIP (sp_ServerIP (es_Spec s')) = true
  ∧ img_Repository (sp_Image (es_Spec s')) ≠ ""
  ∧ 0 < q_Sign (sto_Size (sp_Storage (es_Spec s'))).
Proof.
  intros Ha. pose proof (admitted_ports_differ s s' Ha) as Hne. apply admitCreate_inv in Ha as [Hd Hv].
  destruct (Default_eff_ports s s' Hd) as (H1 & H2 & _). destruct Hv as (_ & Hip & _ & Himg & Hsz).
  pose proof (Default_size_not_zero s s' Hd) as Hz. cbv zeta in *.
  split_and!; try done.
  - rewrite H1. by apply or_int_nonzero.
  - rewrite H2. by apply or_int_nonzero.
  - destruct Hip as [H|[H|H]]; [|rewrite H; vm_compute; reflexivity|done].
    apply bind_Some in Hd as (size & _ & [= <-]). cbn in H. by apply or_str_nonempty in H.
  - destruct Hsz as [Hsz|Hsz]; [congruence|].
    destruct (q_sign_cmp (sto_Size (sp_Storage (es_Spec s')))) as [Hlt Hgt]. apply Hgt.
    assert (q_Cmp (sto_Size (sp_Storage (es_Spec s'))) q_zero ≠ 0) by (rewrite <- q_iszero_cmp; congruence). lia.
Qed.

(** C19: over any history of admitted updates the storage size of a server never
    goes below the one it was created with. *)
Theorem storage_never_shrinks s0 s t :
  admitCreate s0 = Some s → admitted_history s t →
  0 ≤ q_Cmp (sto_Size (sp_Storage (es_Spec t))) (sto_Size (sp_Storage (es_Spec s))).
Proof. intros Hc Hh. by destruct (storage_monotone s0 s t Hc Hh). Qed.
End Admission.

(** ** Witnesses *)

Import Model.

Definition resized (size : Z) (s : EnshroudedServer) : EnshroudedServer :=
  MkEnshroudedServer (es_Meta s)
    (let spec := es_Spec s in
     MkEnshroudedServerSpec (sp_ServerName spec) (sp_ServerPasswordSecretRef spec) (sp_Port spec) (sp_SteamPort spec)
       (sp_ServerSlots spec) (sp_ServerIP spec) (sp_Image spec) (sp_Resources spec)
       (MkStorageSpec size None (Some true)) (sp_UserGroups spec) (sp_UpdatePolicy spec) (sp_Backup spec)
       (sp_MetricsSidecar spec) (sp_VerticalScaling spec)) (es_Status s).
Definition twenty_gi : Z := 21474836480000.


Definition stored : EnshroudedServer := resized 10737418240000 busy_server.

Lemma admitted_server_usable_witness :
  eff_port stored ≠ eff_steamPort stored ∧ sp_Port (es_Spec stored) ≠ 0 ∧ sp_SteamPort (es_Spec stored) ≠ 0
  ∧ ParseIP (sp_ServerIP (es_Spec stored)) = true
  ∧ img_Repository (sp_Image (es_Spec stored)) ≠ ""
  ∧ 0 < q_Sign (sto_Size (sp_Storage (es_Spec stored))).
Proof. apply (admitted_server_usable busy_server). reflexivity. Defined.

Lemma storage_never_shrinks_witness :
  0 ≤ q_Cmp (sto_Size (sp_Storage (es_Spec (resized twenty_gi busy_server)))) (sto_Size (sp_Storage (es_Spec stored))).
Proof.
  apply (storage_never_shrinks busy_server); [reflexivity|].
  apply (history_step stored stored (resized twenty_gi busy_server)); [apply history_refl|reflexivity].
Defined.
