(* ===== verification/Divergences.v ===== *)
(** * Where the code departs from its documentation

    Theorems behind the findings of the development: behaviours the comments of
    the source rule out, or that its features do not expect.  General statements
    where the behaviour is general, runs against a concrete API server where one
    run is the point. *)
From S2P Require Import Prelude GoStrings GoTime GoCodec Platform Instances Api Effects Kube Cron Builders Config Windows Backup Vpa Guards Controller Footprint Samples.
Local Open Scope Z_scope.

(** ** Cron fields *)

(** The documented schedule [0 */6 * * *] ("every 6 hours") fires at six only. *)
Lemma step_field_is_a_number v : Cron.matchCronField "*/6" v = (6 =? v).
Proof.
  unfold Cron.matchCronField. rewrite decide_False by done.
  change (Cron.splitByComma "*/6") with ["*/6"]. cbn [Cron.matchParts].
  change (Cron.matchRange "*/6" v) with (6 =? v). by destruct (6 =? v).
Qed.

(** Sunday written as 7, as cron allows, is never matched. *)
Lemma sunday_as_seven_never_matches `{TzDatabase} loc t : Cron.matchCronField "7" (weekday_in loc t) = false.
Proof.
  unfold Cron.matchCronField. rewrite decide_False by done.
  change (Cron.splitByComma "7") with ["7"]. cbn [Cron.matchParts].
  change (Cron.matchRange "7" (weekday_in loc t)) with (7 =? weekday_in loc t).
  pose proof (weekday_in_range loc t). destruct (Z.eqb_spec 7 (weekday_in loc t)); [lia|done].
Qed.

Section General.
Context {QO : QuantityOps} {UT : UnicodeTables} {TZ : TzDatabase} {MO : MetaOps} {UO : UnstructuredOps} {SO : SortOps}.

(** ** Builders *)

(** [buildStatefulSet] never adds the S3 backup container, although comments in
    [enshroudedserver_backup.go] say it does. *)
Lemma s3_backup_not_built server hash :
  Forall (λ c, c_Name c ≠ "s3-backup") (sts_containers (buildStatefulSet server hash)).
Proof.
  unfold sts_containers, buildStatefulSet, metricsSidecarContainer. cbn.
  destruct (user_groups_mode server), (ms_Enabled _); repeat (apply Forall_cons_2; [done|]); apply Forall_nil_2.
Qed.

(** The egress rules admit HTTPS to every address outside the link-local range,
    the API server's included. *)
Lemma api_server_egress_allowed server :
  MkEgressRule [MkNetworkPolicyPort ProtocolTCP (FromInt 443)]
    [MkNetworkPolicyPeer (Some (MkIPBlock "0.0.0.0/0" ["169.254.0.0/16"]))]
  ∈ np_Egress (np_Spec (desiredNetworkPolicy server)).
Proof. cbn. set_solver. Qed.

(** Snapshots taken before an update carry the label scheduled pruning lists by,
    so they count as (and are deleted as) scheduled ones. *)
Lemma pre_update_snapshots_are_listed server :
  preUpdateLabels server !! "enshrouded.io/server" = snapshotLabels server !! "enshrouded.io/server".
Proof. reflexivity. Qed.

(** ** StatefulSet *)

(** Every update of [reconcileStatefulSet] writes the template built from the
    spec: requests set by [applyVPARecommendation] before are reset. *)
Definition writes_built_template (server : EnshroudedServer) (hash : string) (c : KubeE) : Prop :=
  match c with
  | Update KStatefulSet new => sts_Template (sts_Spec new) = sts_Template (sts_Spec (buildStatefulSet server hash))
  | _ => True
  end.

Lemma pollSnapshot_no_update server hash fuel name strict deadline :
  calls_only any (writes_built_template server hash) (pollSnapshot fuel server name strict deadline).
Proof.
  induction fuel as [|fuel IH]; cbn [pollSnapshot]; [exact I|]. unfold strict_err. by walk.
Qed.

Lemma update_discards_recommendation fuel server hash :
  calls_only any (writes_built_template server hash) (reconcileStatefulSet fuel server hash).
Proof.
  unfold reconcileStatefulSet, snapshotBeforeUpdate, strict_err. cbv zeta.
  walk; try done; apply pollSnapshot_no_update.
Qed.

(** An existing autoscaler is updated only when its mode differs: a changed
    minAllowed or maxAllowed never reaches it. *)
Lemma policy_change_ignored server existing found err :
  u_NestedString existing ["spec"; "updatePolicy"; "updateMode"] = (vpaUpdateMode server, found, err) →
  updateVPA server existing = nil_error.
Proof. intros H. unfold updateVPA. rewrite H. by rewrite decide_True. Qed.

(** ** Secrets *)

(** [cleanupConfigSecret] deletes whatever Secret has the name, without looking
    at its owner. *)
Lemma cleanup_deletes_any_secret server (f : ∀ c : KubeE, resp c) secret :
  f (Get KSecret (NN (es_Namespace server) (config_secret_name server))) = Ok secret →
  Ev (E := KubeE) (Delete KSecret secret) (f (Delete KSecret secret)) ∈ (drive f (cleanupConfigSecret server)).1.
Proof.
  intros H. unfold cleanupConfigSecret. cbn. rewrite H. cbn.
  apply elem_of_cons. right. apply list_elem_of_singleton. done.
Qed.

(** A group whose Secret lacks the referenced key gets the empty password: the
    group is open to everyone, and no error is reported. *)
Lemma missing_key_opens_group ns g ref secret (f : ∀ c : KubeE, resp c) :
  ug_PasswordSecretRef g = Some ref → f (Get KSecret (NN ns (sks_Name ref))) = Ok secret →
  sec_Data secret !! sks_Key ref = None →
  (drive f (resolveGroups ns [g] [])).2 = Returns (Ok [group_json g ""]).
Proof.
  intros Hg Hf Hk. cbn. rewrite Hg. cbn. rewrite Hf. cbn. unfold secret_value. by rewrite Hk.
Qed.

(** The S3 credentials are not part of the watch index. *)
Lemma s3_credentials_not_indexed server :
  sp_ServerPasswordSecretRef (es_Spec server) = None → sp_UserGroups (es_Spec server) = [] → allSecretRefs server = [].
Proof. unfold allSecretRefs. by intros -> ->. Qed.

(** With strict=false, an error while building the snapshot is still returned,
    and [reconcileStatefulSet] does not update. *)
Lemma lenient_snapshot_build_error fuel server (f : ∀ c : KubeE, resp c) e :
  newSnapshot server (es_Name server +:+ "-pre-update-" +:+ itoa (unix (f Now))) (preUpdateLabels server)
    "building pre-update VolumeSnapshot spec: "
    "setting volumeSnapshotClassName on pre-update snapshot: "
    "setting owner reference on pre-update VolumeSnapshot: " = Err e →
  (drive f (snapshotBeforeUpdate fuel server false)).2 = Returns (Some e).
Proof. intros H. cbn. by rewrite H. Qed.
End General.

(** ** Runs against concrete clusters *)

Import Model.

(** A write of a StatefulSet. *)
Definition writes_sts (e : event KubeE) : bool :=
  match e with Ev (Create KStatefulSet _) _ | Ev (Update KStatefulSet _) _ => true | _ => false end.
Definition creates_snapshot (e : event KubeE) : bool :=
  match e with Ev (Create KVolumeSnapshot _) _ => true | _ => false end.

(** The autoscaler recommends, but the StatefulSet was deleted. *)
Definition lost_sts_cluster (c : KubeE) : resp c :=
  match c return controller_resp c with
  | Get KStatefulSet _ => Err not_found
  | Get KVerticalPodAutoscaler nn => if decide (sample_req = nn) then Ok scaled_vpa else Err not_found
  | c => empty_cluster (set_es_status (sample_status 0) scaled_server) monday_noon c
  end.

(** In WhenIdle mode a deleted StatefulSet is not recreated once the autoscaler
    has a recommendation: [applyVPARecommendation] fails first, every time. *)
Lemma recommendation_blocks_recreation :
  let '(tr, o) := drive lost_sts_cluster (Reconcile 19 sample_req) in
  existsb writes_sts tr = false
  ∧ o = Returns (no_requeue, Some (wrapf "getting StatefulSet srv for VPA recommendation apply: " not_found)).
Proof. vm_compute. by split. Qed.

(** A server whose status still counts players gets no StatefulSet when it has
    none: the deferral also blocks its creation. *)
Lemma deferral_blocks_creation :
  let '(tr, o) := drive (empty_cluster busy_server monday_noon) (Reconcile 19 sample_req) in
  existsb writes_sts tr = false ∧ o = Returns (MkResult minute, None).
Proof. vm_compute. by split. Qed.

(** WhenIdle scaling restarts the pod of a busy server although updates are
    deferred: the CPU request is always applied. *)
Lemma scaling_ignores_deferral :
  existsb writes_sts (drive (vpa_cluster monday_noon) (applyVPARecommendation scaled_server)).1 = true.
Proof. vm_compute. reflexivity. Qed.

(** A daily schedule takes a snapshot at every reconciliation in its hour. *)
Definition backup_server : EnshroudedServer :=
  MkEnshroudedServer (sample_meta [finalizerName] None)
    (sample_spec sample_policy (MkBackupSpec (MkVolumeSnapshotBackupSpec true "0 12 * * *" 3 None) None) None true no_vpa)
    (sample_status 0).
Lemma snapshot_at_every_reconciliation :
  existsb creates_snapshot (drive (empty_cluster backup_server monday_noon) (reconcileVolumeSnapshot backup_server)).1 = true
  ∧ existsb creates_snapshot
      (drive (empty_cluster backup_server (monday_noon + 59 * minute)) (reconcileVolumeSnapshot backup_server)).1 = true.
Proof. vm_compute. by split. Qed.
