(* ===== verification/Cluster.v ===== *)
(** * The API server as a store

    What the controller relies on when it expects to converge: an interface
    [Storage] to an API server whose objects change only through the calls of the
    controller, and for each reconciler the objects it brings about.  A [target]
    is an object key with what has to hold of the object stored there; a step
    [establishes] targets when it always succeeds, ends with all of them met,
    touches nothing else, and changes nothing when they were met before. *)
From S2P Require Import Prelude GoStrings GoTime GoCodec Platform Api Effects Kube Builders Config Cron Windows Backup Vpa Guards Controller Footprint.
Local Open Scope go_scope.
Local Open Scope Z_scope.

Section Interface.
Context {QO : QuantityOps} {UO : UnstructuredOps}.

(** What a write stores: the fields the operator sets (the API server assigns
    the rest: UIDs, versions, addresses, status). *)
Definition same_content (k : kind) : object k → object k → Prop :=
  match k with
  | KServer => λ o o', es_Spec o' = es_Spec o
  | KStatefulSet => λ o o', sts_Spec o' = sts_Spec o
  | KService => λ o o', svc_Type o' = svc_Type o ∧ svc_Selector o' = svc_Selector o ∧ svc_Ports o' = svc_Ports o
  | KPersistentVolumeClaim => λ o o', pvc_AccessModes o' = pvc_AccessModes o ∧ pvc_Requests o' = pvc_Requests o
  | KSecret => λ o o', sec_Data o' = sec_Data o
  | KNetworkPolicy => λ o o', np_Spec o' = np_Spec o
  | KServiceAccount => λ _ _, True
  | KRole => λ o o', role_Rules o' = role_Rules o
  | KRoleBinding => λ o o', rb_Subjects o' = rb_Subjects o ∧ rb_RoleRef o' = rb_RoleRef o
  | KPodDisruptionBudget => λ o o', pdb_MaxUnavailable o' = pdb_MaxUnavailable o ∧ pdb_Selector o' = pdb_Selector o
  | KVolumeSnapshot | KVerticalPodAutoscaler => λ _ _, True
  end.

(** The metadata of the typed objects. *)
Definition obj_meta (k : kind) : object k → option ObjectMeta :=
  match k with
  | KServer => λ o, Some (es_Meta o)
  | KStatefulSet => λ o, Some (sts_Meta o)
  | KService => λ o, Some (svc_Meta o)
  | KPersistentVolumeClaim => λ o, Some (pvc_Meta o)
  | KSecret => λ o, Some (sec_Meta o)
  | KNetworkPolicy => λ o, Some (np_Meta o)
  | KServiceAccount => λ o, Some (sa_Meta o)
  | KRole => λ o, Some (role_Meta o)
  | KRoleBinding => λ o, Some (rb_Meta o)
  | KPodDisruptionBudget => λ o, Some (pdb_Meta o)
  | KVolumeSnapshot | KVerticalPodAutoscaler => λ _, None
  end.
Definition obj_version (k : kind) (o : object k) : option string := om_ResourceVersion <$> obj_meta k o.

(** The object is marked for deletion. *)
Definition obj_deleting (k : kind) : object k → bool :=
  match k with
  | KVolumeSnapshot | KVerticalPodAutoscaler => λ u, (u_NestedString u ["metadata"; "deletionTimestamp"]).1.2
  | k => λ o, match obj_meta k o with Some m => negb (time_ptr_IsZero (om_DeletionTimestamp m)) | None => false end
  end.
(** Marked for deletion, and no finalizer keeps it. *)
Definition finalized (k : kind) (o : object k) : bool :=
  match obj_meta k o with
  | Some m => negb (time_ptr_IsZero (om_DeletionTimestamp m)) && bool_decide (om_Finalizers m = [])
  | None => false
  end.
(** There is no object, or it is on its way out. *)
Definition gone (k : kind) (o : option (object k)) : Prop := ∀ e, o = Some e → obj_deleting k e = true.

(** Metadata with another resource version. *)
Definition set_version (rv : string) (m : ObjectMeta) : ObjectMeta :=
  MkObjectMeta (om_Name m) (om_Namespace m) (om_UID m) rv (om_Generation m) (om_CreationTimestamp m)
    (om_DeletionTimestamp m) (om_Labels m) (om_Annotations m) (om_OwnerReferences m) (om_Finalizers m).

(** The objects an API server holds in a state of the environment. *)
Class Storage (N : env KubeE) := view : N → ∀ k, NamespacedName → option (object k).

Section Laws.
Context (N : env KubeE) {SN : Storage N}.

(** From [s] to [s'], at most the objects of [l] changed. *)
Definition touched (l : list (kind * NamespacedName)) (s s' : N) : Prop :=
  ∀ k nn, (k, nn) ∉ l → view s' k nn = view s k nn.

(** Documented behaviour of an API server with no other client: reads answer
    with what is stored, creates of absent objects and updates of the version
    that was read succeed, an update that changes nothing is not a write, the
    status subresource changes the status only, a deleted object goes or is
    marked until its finalizers are removed, and it goes with the last one. *)
Class StorageLaws (clock : Time → Prop) : Prop := {
  api_key s k nn o : view s k nn = Some o → obj_key k o = nn;
  api_stored s k nn o : view s k nn = Some o → finalized k o = false;
  api_get s k nn x s' :
    env_step s (Get k nn : KubeE) x s' → touched [] s s' ∧
    match view s k nn with Some o => x = Ok o | None => ∃ e, x = Err e ∧ IsNotFound e = true end;
  api_create s k o x s' :
    env_step s (Create k o : KubeE) x s' → view s k (obj_key k o) = None → finalized k o = false →
    ∃ o', x = Ok o' ∧ same_content k o o' ∧ view s' k (obj_key k o) = Some o'
      ∧ touched [(k, obj_key k o)] s s';
  api_update s k o e x s' :
    env_step s (Update k o : KubeE) x s' → view s k (obj_key k o) = Some e → obj_version k o = obj_version k e →
    finalized k o = false →
    ∃ o', x = Ok o' ∧ same_content k o o' ∧ (o = e → o' = e) ∧ view s' k (obj_key k o) = Some o'
      ∧ touched [(k, obj_key k o)] s s';
  (** An update of a server leaves its status alone and bumps its version. *)
  api_update_server s o e x s' :
    env_step s (Update KServer o : KubeE) x s' → view s KServer (meta_key (es_Meta o)) = Some e →
    obj_version KServer o = obj_version KServer e →
    ∃ rv, x = Ok (MkEnshroudedServer (set_version rv (es_Meta o)) (es_Spec o) (es_Status e));
  api_finalize s o e x s' :
    env_step s (Update KServer o : KubeE) x s' → view s KServer (meta_key (es_Meta o)) = Some e →
    obj_version KServer o = obj_version KServer e → finalized KServer o = true →
    view s' KServer (meta_key (es_Meta o)) = None ∧ touched [(KServer, meta_key (es_Meta o))] s s';
  api_status s o e x s' :
    env_step s (StatusUpdate o : KubeE) x s' → view s KServer (meta_key (es_Meta o)) = Some e →
    obj_version KServer o = obj_version KServer e →
    ∃ rv, let new := MkEnshroudedServer (set_version rv (es_Meta e)) (es_Spec e) (es_Status o) in
      x = Ok new ∧ (es_Status o = es_Status e → new = e)
      ∧ view s' KServer (meta_key (es_Meta o)) = Some new ∧ touched [(KServer, meta_key (es_Meta o))] s s';
  api_delete s k o e x s' :
    env_step s (Delete k o : KubeE) x s' → view s k (obj_key k o) = Some e →
    x = Ok () ∧ gone k (view s' k (obj_key k o)) ∧ touched [(k, obj_key k o)] s s'
    ∧ (obj_deleting k e = true → touched [] s s');
  api_now s x s' : env_step s (Now : KubeE) x s' → clock x ∧ touched [] s s';
  api_publish s m x s' : env_step s (PublishMetrics m : KubeE) x s' → touched [] s s';
  api_drop s ns n p x s' : env_step s (DropMetrics ns n p : KubeE) x s' → touched [] s s'
}.
End Laws.
End Interface.
Arguments touched {_ _ _} _ _ _ /.
#[global] Arguments touched : simpl never.

(** ** Reasoning about runs against a store *)

Section Store.
Context {QO : QuantityOps} {UT : UnicodeTables} {TZ : TzDatabase} {MO : MetaOps} {UO : UnstructuredOps} {SO : SortOps}.
Context {N : env KubeE} {SN : Storage N} {clock : Time → Prop} {SL : StorageLaws N clock}.

Local Abbreviation exec p Q s := (wp N (λ _ _, True) p Q s).

Lemma touched_refl l (s : N) : touched l s s.
Proof. done. Qed.
Lemma touched_app l1 l2 (s s1 s2 : N) : touched l1 s s1 → touched l2 s1 s2 → touched (l1 ++ l2) s s2.
Proof. intros H1 H2 k nn Hn. rewrite H2, H1; set_solver. Qed.
Lemma touched_sub l1 l2 (s s' : N) : l1 ⊆ l2 → touched l1 s s' → touched l2 s s'.
Proof. intros Hl H k nn Hn. apply H. set_solver. Qed.
Lemma touched_nil (s s' : N) k nn : touched [] s s' → view s' k nn = view s k nn.
Proof. intros H. apply H. set_solver. Qed.
Lemma touched_trans l (s s1 s2 : N) : touched l s s1 → touched l s1 s2 → touched l s s2.
Proof. intros H1 H2 k nn Hn. by rewrite H2, H1. Qed.
(** The object was written as it was. *)
Lemma touched_same k nn (s s' : N) : touched [(k, nn)] s s' → view s' k nn = view s k nn → touched [] s s'.
Proof.
  intros H Hv k' nn' _. destruct (decide ((k', nn') = (k, nn))) as [[= -> ->]|Hne]; [done|].
  apply H. set_solver.
Qed.

Lemma exec_get {A} k nn (f : _ → prog KubeE A) Q s :
  (∀ s' o, touched [] s s' → view s k nn = Some o → exec (f (Ok o)) Q s') →
  (∀ s' e, touched [] s s' → view s k nn = None → IsNotFound e = true → exec (f (Err e)) Q s') →
  exec (get k nn ≫= f) Q s.
Proof.
  intros H1 H2. split; [done|]. intros x s' Hs. destruct (api_get N (clock := clock) _ _ _ _ _ Hs) as [Ht Hx].
  destruct (view s k nn) as [o|] eqn:E.
  - subst x. by apply H1.
  - destruct Hx as (e & -> & He). by apply H2.
Qed.

Lemma exec_now {A} (f : _ → prog KubeE A) Q s :
  (∀ t s', clock t → touched [] s s' → exec (f t) Q s') → exec (now ≫= f) Q s.
Proof. intros H. split; [done|]. intros x s' Hs. destruct (api_now N (clock := clock) _ _ _ Hs). by apply H. Qed.

(** ** Targets *)

Record target := Target {
  t_kind : kind;
  t_key : NamespacedName;
  t_prop : option (object t_kind) → Prop
}.
Definition met (s : N) (T : target) : Prop := t_prop T (view s (t_kind T) (t_key T)).
Definition keys (Ts : list target) : list (kind * NamespacedName) := (λ T, (t_kind T, t_key T)) <$> Ts.

(** From [s] to [s'] the targets were met, at their keys only, and without a
    change if they were met before. *)
Definition reached (Ts : list target) (s s' : N) : Prop :=
  Forall (met s') Ts ∧ touched (keys Ts) s s' ∧ (Forall (met s) Ts → touched [] s s').
Definition achieved {A} (a : A) (Ts : list target) (s s' : N) (o : outcome A) : Prop :=
  o = Returns a ∧ reached Ts s s'.
Definition establishes (p : step) (Ts : list target) : Prop :=
  ∀ s, exec p (achieved None Ts s) s.

Lemma met_touched l Ts (s s' : N) :
  touched l s s' → (∀ x, x ∈ keys Ts → x ∉ l) → Forall (met s) Ts → Forall (met s') Ts.
Proof.
  intros Ht Hd. rewrite !Forall_forall. intros H T HT. unfold met. rewrite Ht; [by apply H|].
  apply Hd. apply list_elem_of_fmap. eauto.
Qed.

Lemma met_same Ts (s s' : N) : touched [] s s' → Forall (met s) Ts → Forall (met s') Ts.
Proof. intros Ht. apply (met_touched []); [done|set_solver]. Qed.

Lemma reached_nil (s s' : N) : touched [] s s' → reached [] s s'.
Proof. by intros H; split_and!. Qed.

(** Composition: what is established stays, and the rest starts from there. *)
Lemma reached_app T1 T2 (s s1 s2 : N) :
  (∀ x, x ∈ keys T1 → x ∉ keys T2) → reached T1 s s1 → reached T2 s1 s2 → reached (T1 ++ T2) s s2.
Proof.
  intros Hd (M1 & K1 & I1) (M2 & K2 & I2). split_and!.
  - apply Forall_app. split; [|done]. by eapply met_touched.
  - unfold keys. rewrite fmap_app. by eapply touched_app.
  - intros [H1 H2]%Forall_app. specialize (I1 H1). eapply touched_trans; [done|].
    by apply I2, (met_same T2 s).
Qed.

Lemma reached_frame Ts (s s1 s2 s3 : N) :
  touched [] s s1 → reached Ts s1 s2 → touched [] s2 s3 → reached Ts s s3.
Proof.
  intros H1%reached_nil H2 H3%reached_nil. rewrite <- (app_nil_r Ts).
  eapply (reached_app Ts []); [set_solver| |done]. by eapply (reached_app []); [set_solver|..].
Qed.

Lemma exec_and_then p Ts q Q s :
  establishes p Ts → (∀ s', reached Ts s s' → exec q Q s') → exec (p ;;? q) Q s.
Proof. intros Hp Hq. eapply wp_bind_intro; [apply Hp|]. intros s' o [-> Hr]. by apply Hq. Qed.

Lemma establishes_and_then p q T1 T2 :
  establishes p T1 → establishes q T2 → (∀ x, x ∈ keys T1 → x ∉ keys T2) → establishes (p ;;? q) (T1 ++ T2).
Proof.
  intros Hp Hq Hd s. eapply exec_and_then; [done|]. intros s1 H1.
  eapply wp_mono; [|apply Hq]. intros s2 o [-> H2]. split; [done|]. by eapply reached_app.
Qed.

Lemma establishes_nil : establishes nil_error [].
Proof. intros s. by split; [|apply reached_nil]. Qed.

(** The three ways a reconciler ends, after reads that changed nothing. *)
Section Ends.
Context {A : Type} (a : A) (k : kind) (nn : NamespacedName) (F : option (object k) → Prop).
Context (s0 s : N) (Hs : touched [] s0 s).

Lemma keep_achieves : F (view s k nn) → exec (Ret a) (achieved a [Target k nn F] s0) s.
Proof.
  intros H. split; [done|]. split_and!; [|by eapply touched_sub; [|done]; set_solver|done].
  by apply Forall_singleton.
Qed.

Lemma create_achieves (o : object k) f :
  obj_key k o = nn → (∀ m, obj_meta k o = Some m → om_DeletionTimestamp m = None) → view s k nn = None → (∀ o', same_content k o o' → F (Some o')) →
  ¬ F None → (∀ o', f (Ok o') = Ret a) →
  exec (create k o ≫= f) (achieved a [Target k nn F] s0) s.
Proof.
  intros <- Hdel Hv HF Hn Hf. split; [done|]. intros x s' Hx.
  assert (finalized k o = false) as Hfin.
  { unfold finalized. destruct (obj_meta k o) as [m|]; [|done]. by rewrite Hdel. }
  eapply (api_create N (clock := clock)) in Hx as (o' & -> & Hc & Hv' & Ht); [|done..].
  cbn. rewrite Hf. split; [done|]. split_and!; [| |].
  - apply Forall_singleton. unfold met. cbn. rewrite Hv'. by apply HF.
  - eapply (touched_app []); eauto.
  - rewrite Forall_singleton. unfold met. cbn. rewrite <- (touched_nil s0 s), Hv by done. done.
Qed.

Lemma update_achieves (e o : object k) f :
  view s k nn = Some e → obj_key k o = nn → obj_version k o = obj_version k e → finalized k o = finalized k e →
  (∀ o', same_content k o o' → F (Some o')) → (F (Some e) → o = e) → (∀ o', f (Ok o') = Ret a) →
  exec (update k o ≫= f) (achieved a [Target k nn F] s0) s.
Proof.
  intros Hv <- Hrv Hfin HF Hid Hf. split; [done|]. intros x s' Hx.
  rewrite (api_stored N (clock := clock) _ _ _ _ Hv) in Hfin.
  eapply (api_update N (clock := clock)) in Hx as (o' & -> & Hc & Hsame & Hv' & Ht); [|done..].
  cbn. rewrite Hf. split; [done|]. split_and!; [| |].
  - apply Forall_singleton. unfold met. cbn. rewrite Hv'. by apply HF.
  - eapply (touched_app []); eauto.
  - rewrite Forall_singleton. unfold met. cbn. rewrite <- (touched_nil s0 s), Hv by done. intros He%Hid%Hsame.
    eapply touched_trans; [done|]. eapply touched_same; [done|]. by rewrite Hv', Hv, He.
Qed.

Lemma delete_achieves (e : object k) f :
  view s k nn = Some e → (∀ o, gone k o → F o) → (F (Some e) → obj_deleting k e = true) → f (Ok ()) = Ret a →
  exec (delete_obj k e ≫= f) (achieved a [Target k nn F] s0) s.
Proof.
  intros Hv HF Hn Hf. pose proof (api_key N (clock := clock) _ _ _ _ Hv) as Hk. split; [done|]. intros x s' Hx.
  rewrite <- Hk in Hv. eapply (api_delete N (clock := clock)) in Hx as (-> & Hv' & Ht & Hd); [|done].
  cbn. rewrite Hf. rewrite Hk in *. split; [done|]. split_and!; [| |].
  - apply Forall_singleton. by apply HF.
  - eapply (touched_app []); eauto.
  - rewrite Forall_singleton. unfold met. cbn. rewrite <- (touched_nil s0 s), Hv by done. intros He%Hn.
    eapply touched_trans; [done|]. by apply Hd.
Qed.
End Ends.
End Store.
