(* ===== verification/Memory.v ===== *)
(** * An API server in memory

    The simplest API server that keeps the promises of [Cluster.v]: a map from
    keys to objects and a clock that stands still.  It shows that the laws of
    [StorageLaws] can hold, and lets runs of the controller be computed. *)
From S2P Require Import Prelude GoTime Platform Api Effects Kube Samples Cluster.
Local Open Scope Z_scope.

Section Memory.
Context {QO : QuantityOps} {UO : UnstructuredOps}.

Definition memory := ∀ k, NamespacedName → option (object k).
Definition empty_memory : memory := λ _ _, None.

(** [m] with [v] stored under [nn] among the objects of kind [k]. *)
Definition put (k : kind) (nn : NamespacedName) (v : option (object k)) (m : memory) : memory :=
  λ k' nn', match decide (k = k') with
    | left E => if decide (nn = nn') then eq_rect k (λ k, option (object k)) v k' E else m k' nn'
    | right _ => m k' nn'
    end.

Lemma put_same k nn v m : put k nn v m k nn = v.
Proof.
  unfold put. destruct (decide (k = k)) as [E|]; [|done]. rewrite decide_True by done.
  by rewrite (proof_irrel E eq_refl).
Qed.
Lemma put_other k nn v m k' nn' : (k', nn') ≠ (k, nn) → put k nn v m k' nn' = m k' nn'.
Proof.
  intros Hne. unfold put. destruct (decide (k = k')) as [E|]; [|done].
  destruct (decide (nn = nn')) as [->|]; [|done]. subst. done.
Qed.

(** What is stored under its own key and not about to go. *)
Definition look (m : memory) (k : kind) (nn : NamespacedName) : option (object k) :=
  o ← m k nn; if decide (obj_key k o = nn ∧ finalized k o = false) then Some o else None.

(** An update of a server does not reach its status. *)
Definition keep_status (k : kind) : object k → object k → object k :=
  match k with
  | KServer => λ e o, MkEnshroudedServer (es_Meta o) (es_Spec o) (es_Status e)
  | _ => λ _ o, o
  end.

Definition serve (t : Time) (m : memory) (c : KubeE) : resp c * memory :=
  match c return controller_resp c * memory with
  | Get k nn => (match look m k nn with Some o => Ok o | None => Err not_found end, m)
  | Create k o =>
    match look m k (obj_key k o) with
    | Some _ => (Err (MkError ReasonAlreadyExists "already exists"), m)
    | None => (Ok o, put k (obj_key k o) (Some o) m)
    end
  | Update k o =>
    match look m k (obj_key k o) with
    | Some e => (Ok (keep_status k e o), put k (obj_key k o) (Some (keep_status k e o)) m)
    | None => (Err not_found, m)
    end
  | Delete k o =>
    match look m k (obj_key k o) with
    | Some e => (Ok (), if obj_deleting k e then m else put k (obj_key k o) None m)
    | None => (Err not_found, m)
    end
  | StatusUpdate o =>
    match look m KServer (meta_key (es_Meta o)) with
    | Some e => let new := MkEnshroudedServer (es_Meta e) (es_Spec e) (es_Status o) in
                (Ok new, put KServer (meta_key (es_Meta o)) (Some new) m)
    | None => (Err not_found, m)
    end
  | ListSnapshots _ _ _ => (Ok [], m)
  | ListServersByField _ _ _ => (Ok [], m)
  | Now => (t, m)
  | Sleep _ | PublishMetrics _ | DropMetrics _ _ _ => ((), m)
  end.

Definition memory_env (t : Time) : env KubeE := oracle_env (serve t).
#[export] Instance memory_storage t : Storage (memory_env t) := look.

Lemma look_stored m k nn o : look m k nn = Some o → obj_key k o = nn ∧ finalized k o = false.
Proof. unfold look. intros (x & _ & Hx)%bind_Some. case_decide; naive_solver. Qed.
Lemma look_put k nn o m : obj_key k o = nn → finalized k o = false → look (put k nn (Some o) m) k nn = Some o.
Proof. intros <- Hf. unfold look. rewrite put_same. cbn. by rewrite decide_True. Qed.
Lemma look_put_finalized k nn o m : finalized k o = true → look (put k nn (Some o) m) k nn = None.
Proof. intros Hf. unfold look. rewrite put_same. cbn. rewrite decide_False; [done|]. rewrite Hf. naive_solver. Qed.
Lemma look_put_none k nn m : look (put k nn None m) k nn = None.
Proof. unfold look. by rewrite put_same. Qed.
Lemma touched_put t k nn v (m : memory_env t) : touched [(k, nn)] m (put k nn v m : memory_env t).
Proof. intros k' nn' Hn. unfold view, memory_storage, look. rewrite put_other; [done|set_solver]. Qed.
Lemma keep_status_same k e o : obj_key k (keep_status k e o) = obj_key k o ∧ finalized k (keep_status k e o) = finalized k o.
Proof. by destruct k. Qed.

#[export] Instance memory_laws t : StorageLaws (memory_env t) (λ x, x = t).
Proof.
  split; unfold view, memory_storage; cbn [env_step memory_env oracle_env serve env_state].
  - intros m k nn o Hv. by apply look_stored in Hv as [? ?].
  - intros m k nn o Hv. by apply look_stored in Hv as [? ?].
  - intros m k nn x m' [= <- <-]. split; [done|]. destruct (look m k nn); eauto.
  - intros m k o x m' H Hv Hf. rewrite Hv in H. injection H as <- <-. exists o.
    split_and!; [done|by destruct k|by apply look_put|apply touched_put].
  - intros m k o e x m' H Hv _ Hf. rewrite Hv in H. injection H as <- <-. exists (keep_status k e o).
    destruct (keep_status_same k e o) as [H1 H2]. split_and!; [done|by destruct k| | |apply touched_put].
    + intros ->. destruct k; try done. by destruct e.
    + apply look_put; congruence.
  - intros m o e x m' H Hv _. change (obj_key KServer o) with (meta_key (es_Meta o)) in H. rewrite Hv in H.
    injection H as <- <-. exists (om_ResourceVersion (es_Meta o)). by destruct o as [[] ? ?].
  - intros m o e x m' H Hv _ Hf. change (obj_key KServer o) with (meta_key (es_Meta o)) in H. rewrite Hv in H.
    injection H as <- <-. split; [by apply look_put_finalized|apply touched_put].
  - intros m o e x m' H Hv _. rewrite Hv in H. injection H as <- <-. exists (om_ResourceVersion (es_Meta e)).
    replace (set_version (om_ResourceVersion (es_Meta e)) (es_Meta e)) with (es_Meta e) by (by destruct e as [[] ? ?]).
    apply look_stored in Hv as [Hk Hf]. cbv zeta. split_and!; [done|intros ->; by destruct e| |apply touched_put].
    by apply look_put.
  - intros m k o e x m' H Hv. rewrite Hv in H. injection H as <- <-. destruct (obj_deleting k e) eqn:Ed.
    + split_and!; [done| |done|done]. intros e'. rewrite Hv. by intros [= <-].
    + split_and!; [done| |apply touched_put|done]. by rewrite look_put_none.
  - by intros m x m' [= <- <-].
  - by intros m sm x m' [= <- <-].
  - by intros m ns n p x m' [= <- <-].
Qed.
End Memory.
