(* ===== verification/Targets.v ===== *)
(** * What each reconciler establishes

    For every reconciler of the controller, the object it brings about in a
    storing API server ([Cluster.v]), and the proof that it does, in one run and
    from any state of the cluster. *)
From S2P Require Import Prelude GoStrings GoTime GoCodec Platform Api Effects Kube Builders Config Cron Windows Backup Vpa Guards Controller Footprint Cluster.
Local Open Scope go_scope.
Local Open Scope Z_scope.

Section Targets.
Context {QO : QuantityOps} {UT : UnicodeTables} {TZ : TzDatabase} {MO : MetaOps} {UO : UnstructuredOps} {SO : SortOps}.
Context {QL : QuantityLaws} {ML : MetaLaws}.
Context {N : env KubeE} {SN : Storage N} {clock : Time → Prop} {SL : StorageLaws N clock}.
Context (server : EnshroudedServer).

Local Abbreviation exec p Q s := (wp N (λ _ _, True) p Q s).
Local Abbreviation establishes := (establishes (N := N)).

(** The object is stored, and [P] holds of it. *)
Definition stored {A} (P : A → Prop) (o : option A) : Prop := ∃ x, o = Some x ∧ P x.

Definition pvc_target : target :=
  Target KPersistentVolumeClaim (pvc_nn server) (stored (λ _, True)).
Definition account_target : target :=
  Target KServiceAccount (sidecar_nn server) (stored (λ _, True)).
Definition role_target : target :=
  Target KRole (sidecar_nn server) (stored (λ o : Role, role_Rules o = role_Rules (desiredRole server))).
Definition binding_target : target :=
  Target KRoleBinding (sidecar_nn server) (stored (λ _, True)).
Definition rbac_targets : list target :=
  if ms_Enabled (sp_MetricsSidecar (es_Spec server)) then [account_target; role_target; binding_target] else [].
(** One disruption is allowed. *)
Definition budget_target : target :=
  Target KPodDisruptionBudget (server_nn server)
    (stored (λ o : PodDisruptionBudget, intstr_String <$> pdb_MaxUnavailable o = Some (intstr_String (FromInt 1)))).
Definition vpa_target : target :=
  Target KVerticalPodAutoscaler (server_nn server) (gone KVerticalPodAutoscaler).
Definition netpol_target : target :=
  Target KNetworkPolicy (netpol_nn server) (stored (λ o : NetworkPolicy, np_Spec o = np_Spec (desiredNetworkPolicy server))).
Definition sts_target (hash : string) : target :=
  Target KStatefulSet (server_nn server) (stored (λ o : StatefulSet,
    sts_Template (sts_Spec o) = sts_Template (sts_Spec (buildStatefulSet server hash))
    ∧ sts_Replicas (sts_Spec o) = sts_Replicas (sts_Spec (buildStatefulSet server hash)))).
Definition service_target : target :=
  Target KService (server_nn server) (stored (λ o : Service,
    svc_Type o = svc_Type (desiredService server) ∧ svc_Selector o = svc_Selector (desiredService server)
    ∧ svc_Ports o = svc_Ports (desiredService server))).

(** ** Owners *)

(** The object built for the server gets it as its owner. *)
Lemma owner_set n l :
  ∃ m, SetControllerReference (es_Meta server) (new_meta n (es_Namespace server) l) = Ok m
    ∧ meta_key m = NN (es_Namespace server) n ∧ om_DeletionTimestamp m = None.
Proof.
  destruct (set_controller_reference_fresh (es_Meta server) n l) as [m Hm]. exists m. split; [exact Hm|].
  destruct (set_controller_reference_identity _ _ _ Hm) as [(H1 & H2 & _ & _ & _ & H3 & _) _].
  split; [|exact H3]. unfold meta_key. by rewrite H1, H2.
Qed.

Lemma not_stored_none {A} (P : A → Prop) : ¬ stored P None.
Proof. by intros (? & ? & _). Qed.

Lemma view_key (s s' : N) k nn o : touched [] s s' → view s k nn = Some o → view s' k nn = Some o ∧ obj_key k o = nn.
Proof.
  intros Ht Hv. rewrite (touched_nil s s') by done. split; [done|]. by apply (api_key N (clock := clock) s).
Qed.
End Targets.

Ltac set_owner := match goal with
  | |- context [SetControllerReference (es_Meta ?sv) ?m] =>
    let mm := eval hnf in m in
    match mm with MkObjectMeta ?n _ _ _ _ _ _ ?l _ _ _ =>
      let Hm := fresh "Hm" in let Hk := fresh "Hkey" in let Hd := fresh "Hdel" in
      destruct (owner_set sv n l) as (? & Hm & Hk & Hd);
      change (SetControllerReference (es_Meta sv) m)
        with (SetControllerReference (es_Meta sv) (new_meta n (es_Namespace sv) l));
      rewrite Hm
    end
  end.
(** A read: the object is there, or it is not. *)
Ltac read_object := apply exec_get;
  [let Ht := fresh "Ht" in let Hv := fresh "Hview" in
   intros ? ? Ht Hv; apply (view_key _ _ _ _ _ Ht) in Hv as [? ?]
  |let Ht := fresh "Ht" in let Hv := fresh "Hview" in let He := fresh "Herr" in
   intros ? ? Ht Hv He; rewrite <- (touched_nil _ _ _ _ Ht) in Hv; rewrite ?He; cbn [negb]].

(** The object is created; what is left is what the new object is like. *)
Ltac create_object := eapply create_achieves;
  [done|done|by intros ? [= <-]|done| |apply not_stored_none|done].

Section Steps.
Context {QO : QuantityOps} {UT : UnicodeTables} {TZ : TzDatabase} {MO : MetaOps} {UO : UnstructuredOps} {SO : SortOps}.
Context {QL : QuantityLaws} {ML : MetaLaws}.
Context {N : env KubeE} {SN : Storage N} {clock : Time → Prop} {SL : StorageLaws N clock}.
Context (server : EnshroudedServer).
Local Abbreviation establishes := (establishes (N := N)).

Lemma reconcileNetworkPolicy_establishes : establishes (reconcileNetworkPolicy server) [netpol_target server].
Proof.
  intros s. unfold reconcileNetworkPolicy. cbv zeta. set_owner. read_object.
  - eapply update_achieves; try done; [by eexists|].
    intros (? & [= <-] & Hsp). rewrite <- Hsp. by destruct o.
  - create_object. by eexists.
Qed.

Lemma reconcileService_establishes : establishes (reconcileService server) [service_target server].
Proof.
  intros s. unfold reconcileService. cbv zeta. set_owner. read_object.
  - eapply update_achieves; try done; [by intros o' (? & ? & ?); eexists|].
    intros (? & [= <-] & H1 & H2 & H3). rewrite <- H1, <- H2, <- H3. by destruct o.
  - create_object. by intros o' (? & ? & ?); eexists.
Qed.

Lemma reconcilePVC_establishes : establishes (reconcilePVC server) [pvc_target server].
Proof.
  intros s. unfold reconcilePVC. cbv zeta.
  assert (∃ q, (if q_IsZero (sto_Size (sp_Storage (es_Spec server))) then q_MustParse "10Gi"
                else Ret (sto_Size (sp_Storage (es_Spec server)))) = Ret q) as [q ->].
  { destruct (q_IsZero _); [|by eexists]. destruct q_parse_10Gi as (q & Hq & _). exists q.
    unfold q_MustParse. by rewrite Hq. }
  change (Ret q ≫= ?f) with (f q). cbv beta. read_object.
  - eapply keep_achieves; [done|]. by eexists.
  - create_object. by eexists.
Qed.

Lemma reconcileSidecarServiceAccount_establishes :
  establishes (reconcileSidecarServiceAccount server) [account_target server].
Proof.
  intros s. unfold reconcileSidecarServiceAccount. cbv zeta. set_owner. read_object.
  - eapply keep_achieves; [done|]. by eexists.
  - create_object. by eexists.
Qed.

Lemma reconcileSidecarRole_establishes : establishes (reconcileSidecarRole server) [role_target server].
Proof.
  intros s. unfold reconcileSidecarRole. cbv zeta. set_owner. read_object.
  - eapply update_achieves; try done; [by eexists|].
    intros (? & [= <-] & Hr). rewrite <- Hr. by destruct o.
  - create_object. by eexists.
Qed.

Lemma reconcileSidecarRoleBinding_establishes :
  establishes (reconcileSidecarRoleBinding server) [binding_target server].
Proof.
  intros s. unfold reconcileSidecarRoleBinding. cbv zeta. set_owner. read_object.
  - eapply keep_achieves; [done|]. by eexists.
  - create_object. by eexists.
Qed.

Lemma reconcileMetricsSidecarRBAC_establishes :
  establishes (reconcileMetricsSidecarRBAC server) (rbac_targets server).
Proof.
  unfold reconcileMetricsSidecarRBAC, rbac_targets. destruct (ms_Enabled _); cbn [negb]; [|apply establishes_nil].
  apply (establishes_and_then _ _ [_] [_; _]); [apply reconcileSidecarServiceAccount_establishes| |set_solver].
  apply (establishes_and_then _ _ [_] [_]);
    [apply reconcileSidecarRole_establishes|apply reconcileSidecarRoleBinding_establishes|set_solver].
Qed.

(** Without an update strategy that takes snapshots. *)
Lemma reconcileStatefulSet_establishes fuel hash :
  or_str (up_UpgradeStrategy (sp_UpdatePolicy (es_Spec server))) UpgradeStrategyNoSnapshot = UpgradeStrategyNoSnapshot →
  establishes (reconcileStatefulSet fuel server hash) [sts_target server hash].
Proof.
  intros Hst s. unfold reconcileStatefulSet. cbv zeta. rewrite buildStatefulSet_meta.
  set_owner. read_object.
  - rewrite bool_decide_eq_true_2 by done. change (nil_error ≫= ?f) with (f None). cbv beta iota.
    eapply update_achieves; try done; [intros o' Hc; eexists; split; [done|]; by rewrite Hc|].
    intros (? & [= <-] & H1 & H2). unfold set_template. rewrite <- H1, <- H2. by destruct o as [? [] ?].
  - create_object. intros o' Hc; eexists; split; [done|]; by rewrite Hc.
Qed.

(** With vertical scaling off, an autoscaler left behind is removed. *)
Lemma reconcileVPA_establishes :
  vsc_Enabled (sp_VerticalScaling (es_Spec server)) = false → establishes (reconcileVPA server) [vpa_target server].
Proof.
  intros Hd s. unfold reconcileVPA. rewrite Hd. cbn [negb]. read_object.
  - eapply delete_achieves; try done. intros Hg. by apply Hg.
  - eapply keep_achieves; [done|]. intros e'. by rewrite Hview.
Qed.

Lemma applyVPARecommendation_establishes :
  vsc_Enabled (sp_VerticalScaling (es_Spec server)) = false → establishes (applyVPARecommendation server) [].
Proof. intros Hd. unfold applyVPARecommendation. rewrite Hd. apply establishes_nil. Qed.

Lemma reconcileS3Sidecar_establishes : establishes (reconcileS3Sidecar server) [].
Proof.
  intros s. unfold reconcileS3Sidecar. destruct (bk_S3 _) as [s3|]; [|apply establishes_nil].
  read_object; by split; [|apply reached_nil].
Qed.

Lemma reconcileVolumeSnapshot_establishes :
  vsb_Enabled (bk_VolumeSnapshot (sp_Backup (es_Spec server))) = false → establishes (reconcileVolumeSnapshot server) [].
Proof. intros Hd. unfold reconcileVolumeSnapshot. rewrite Hd. apply establishes_nil. Qed.

(** ** Players *)

(** Nobody plays, or updates do not wait for players, or a window is open
    whenever the clock is read. *)
Definition quiet (clock : Time → Prop) : Prop :=
  up_DeferWhilePlaying (sp_UpdatePolicy (es_Spec server)) && (0 <? st_ActivePlayers (es_Status server)) = false
  ∨ up_MaintenanceWindows (sp_UpdatePolicy (es_Spec server)) ≠ []
    ∧ ∀ t, clock t → Cron.anyWindow t (up_MaintenanceWindows (sp_UpdatePolicy (es_Spec server))) = true.

Lemma exec_isInMaintenanceWindow {A} ws (f : bool → prog KubeE A) Q s :
  (∀ b s', touched [] s s' → (ws ≠ [] → ∃ t, clock t ∧ b = Cron.anyWindow t ws) → wp N (λ _ _, True) (f b) Q s') →
  wp N (λ _ _, True) (isInMaintenanceWindow ws ≫= f) Q s.
Proof.
  intros H. unfold isInMaintenanceWindow. destruct ws as [|w ws]; [by apply H|].
  apply exec_now. intros t s' Ht Hs. apply H; eauto.
Qed.

Lemma exec_playersProtected {A} (f : bool → prog KubeE A) Q s :
  quiet clock → (∀ s', touched [] s s' → wp N (λ _ _, True) (f false) Q s') →
  wp N (λ _ _, True) (playersProtected server ≫= f) Q s.
Proof.
  intros Hq Hf. unfold playersProtected. destruct (_ && _) eqn:E; [|by apply Hf].
  destruct Hq as [Hq|[Hw Hq]]; [congruence|]. apply wp_bind. apply exec_isInMaintenanceWindow.
  intros b s' Hs Hb. destruct (Hb Hw) as (t & Ht & ->). rewrite Hq by done. by apply Hf.
Qed.

Lemma reconcilePDB_establishes : quiet clock → establishes (reconcilePDB server) [budget_target server].
Proof.
  intros Hq s. unfold reconcilePDB. apply exec_playersProtected; [done|]. intros s1 Hs1. cbv zeta.
  set_owner. read_object.
  - assert (touched [] s s') as Hs by (by eapply touched_trans).
    destruct (pdb_MaxUnavailable o) as [cur|] eqn:Ecur; [destruct (bool_decide_reflect
      (intstr_String cur = intstr_String (FromInt 1))) as [Eq|Eq]|].
    + eapply keep_achieves; [done|]. exists o. split; [done|]. rewrite Ecur. cbn [fmap option_fmap option_map]. by rewrite Eq.
    + eapply update_achieves; try done; [by intros o' (Ho & _); eexists; split; [done|rewrite Ho]|].
      intros (? & [= <-] & Hc). rewrite Ecur in Hc. by injection Hc.
    + eapply update_achieves; try done; [by intros o' (Ho & _); eexists; split; [done|rewrite Ho]|].
      intros (? & [= <-] & Hc). by rewrite Ecur in Hc.
  - assert (touched [] s s') as Hs by (by eapply touched_trans).
    create_object. by intros o' (Ho & _); eexists; split; [done|rewrite Ho].
Qed.
End Steps.
