(* ===== verification/Convergence.v ===== *)
(** * Convergence

    Against an API server that stores what it is given ([Cluster.v]), one run of
    [Reconcile] brings the cluster to the state the server's spec asks for, and
    from such a state another run changes nothing. *)
From S2P Require Import Prelude GoStrings GoTime GoCodec Platform Instances Api Effects Kube Builders Config Cron Windows Backup Vpa Guards Controller Footprint Samples Cluster Memory Targets.
Local Open Scope go_scope.
Local Open Scope Z_scope.

Section Convergence.
Context {QO : QuantityOps} {UT : UnicodeTables} {TZ : TzDatabase} {MO : MetaOps} {UO : UnstructuredOps} {SO : SortOps}.
Context {QL : QuantityLaws} {ML : MetaLaws}.
Context {N : env KubeE} {SN : Storage N} {clock : Time → Prop} {SL : StorageLaws N clock}.

Local Abbreviation exec p Q s := (wp N (λ _ _, True) p Q s).

(** ** Passwords *)

(** The text stored under a reference, and what it means for each mode. *)
Definition secret_text (s : N) (ns : string) (ref : SecretKeySelector) : string :=
  match view s KSecret (NN ns (sks_Name ref)) with Some sec => secret_value sec (sks_Key ref) | None => "" end.
Definition groups_of (s : N) (ns : string) (gs : list UserGroup) : list userGroupJSON :=
  (λ g, group_json g (match ug_PasswordSecretRef g with Some ref => secret_text s ns ref | None => "" end)) <$> gs.
Definition config_text (server : EnshroudedServer) (s : N) : string :=
  marshal_config (server_config server (groups_of s (es_Namespace server) (sp_UserGroups (es_Spec server)))).
Definition password_hash (server : EnshroudedServer) (s : N) : string :=
  if user_groups_mode server then sha256_hex (config_text server s)
  else match sp_ServerPasswordSecretRef (es_Spec server) with
       | Some ref => sha256_hex (secret_text s (es_Namespace server) ref)
       | None => ""
       end.

(** The Secrets the server refers to exist (with the key, without groups), and
    none of them is the generated one. *)
Definition passwords_stored (server : EnshroudedServer) (s : N) : Prop :=
  if user_groups_mode server then
    ∀ g ref, g ∈ sp_UserGroups (es_Spec server) → ug_PasswordSecretRef g = Some ref →
      sks_Name ref ≠ config_secret_name server ∧ is_Some (view s KSecret (NN (es_Namespace server) (sks_Name ref)))
  else
    ∀ ref, sp_ServerPasswordSecretRef (es_Spec server) = Some ref →
      sks_Name ref ≠ config_secret_name server
      ∧ ∃ sec, view s KSecret (NN (es_Namespace server) (sks_Name ref)) = Some sec ∧ is_Some (sec_Data sec !! sks_Key ref).

Definition config_target (server : EnshroudedServer) (text : string) : target :=
  Target KSecret (config_nn server)
    (if user_groups_mode server then stored (λ o : Secret, sec_Data o = {[configSecretKey := text]}) else gone KSecret).

(** Nothing but the generated Secret changed. *)
Definition secrets_kept (server : EnshroudedServer) (s s' : N) : Prop :=
  ∀ nn, nn ≠ config_nn server → view s' KSecret nn = view s KSecret nn.

Lemma secret_text_kept server s s' ref :
  secrets_kept server s s' → sks_Name ref ≠ config_secret_name server →
  secret_text s' (es_Namespace server) ref = secret_text s (es_Namespace server) ref.
Proof. intros Hk Hn. unfold secret_text. rewrite Hk; [done|]. by intros [= ?]. Qed.

Lemma passwords_kept server s s' :
  passwords_stored server s → secrets_kept server s s' →
  passwords_stored server s' ∧ config_text server s' = config_text server s ∧ password_hash server s' = password_hash server s.
Proof.
  unfold passwords_stored, password_hash. intros Hp Hk. destruct (user_groups_mode server) eqn:Em.
  - assert (config_text server s' = config_text server s) as Hc.
    { unfold config_text, groups_of. do 2 f_equal. apply list_fmap_ext. intros i g Hg.
      destruct (ug_PasswordSecretRef g) as [ref|] eqn:Er; [|done]. f_equal. apply secret_text_kept; [done|].
      eapply Hp; [|done]. by eapply list_elem_of_lookup_2. }
    rewrite Hc. split_and!; [|done..]. intros g ref Hg Hr. destruct (Hp g ref Hg Hr) as [Hn Hs].
    split; [done|]. rewrite Hk; [done|]. by intros [= ?].
  - assert (config_text server s' = config_text server s) as Hc.
    { unfold config_text, groups_of. unfold user_groups_mode in Em. destruct (sp_UserGroups _); done. }
    rewrite Hc. split_and!; [| |].
    + intros ref Hr. destruct (Hp ref Hr) as [Hn Hs]. split; [done|]. rewrite Hk; [done|]. by intros [= ?].
    + done.
    + destruct (sp_ServerPasswordSecretRef _) as [ref|]; [|done]. f_equal.
      apply secret_text_kept; [done|]. by apply Hp.
Qed.

Lemma exec_resolveGroups ns gs acc (Q : N → outcome (result (list userGroupJSON)) → Prop) s :
  (∀ g ref, g ∈ gs → ug_PasswordSecretRef g = Some ref → is_Some (view s KSecret (NN ns (sks_Name ref)))) →
  (∀ s', touched [] s s' → Q s' (Returns (Ok (acc ++ groups_of s ns gs)))) →
  exec (resolveGroups ns gs acc) Q s.
Proof.
  revert acc s. induction gs as [|g gs IH]; intros acc s Hg HQ.
  { cbn. specialize (HQ s (touched_refl _ _)). cbn in HQ. by rewrite app_nil_r in HQ. }
  assert (∀ p, acc ++ group_json g p :: groups_of s ns gs = (acc ++ [group_json g p]) ++ groups_of s ns gs) as Ha
    by (intros; by rewrite <- app_assoc).
  cbn [resolveGroups]. destruct (ug_PasswordSecretRef g) as [ref|] eqn:Er.
  - apply exec_get.
    + intros s1 sec Hs Hv. apply IH.
      { intros g' ref' Hin Hr. rewrite (touched_nil s s1) by done. eapply Hg; [by right|done]. }
      intros s2 Hs2. assert (groups_of s1 ns gs = groups_of s ns gs) as ->.
      { unfold groups_of. apply list_fmap_ext. intros i g' _. unfold secret_text.
        destruct (ug_PasswordSecretRef g'); [|done]. by rewrite (touched_nil s s1). }
      specialize (HQ s2). cbn [groups_of fmap list_fmap] in HQ. rewrite Er in HQ. unfold secret_text in HQ at 1.
      rewrite Hv, Ha in HQ. apply HQ. by eapply touched_trans.
    + intros s1 e _ Hv. destruct (Hg g ref) as [sec Hsec]; [by left|done|]. congruence.
  - apply IH; [intros g' ref' Hin; apply Hg; by right|].
    intros s2 Hs2. specialize (HQ s2 Hs2). cbn [groups_of fmap list_fmap] in HQ. by rewrite Er, Ha in HQ.
Qed.

Lemma exec_reconcileConfigSecret server s :
  user_groups_mode server = true → passwords_stored server s →
  exec (reconcileConfigSecret server)
    (achieved (password_hash server s, None) [config_target server (config_text server s)] s) s.
Proof.
  intros Em Hp. unfold passwords_stored, password_hash, config_target in *. rewrite Em in *.
  unfold reconcileConfigSecret, buildServerConfigJSON. apply wp_bind, wp_bind, exec_resolveGroups.
  { intros g ref Hg Hr. by apply (Hp g ref). }
  intros s1 Hs1. cbn [bind_post app]. cbv zeta. fold (config_text server s).
  match goal with |- wp _ _ (Ret ?a) (bind_post _ _ ?f ?Q) _ => change (exec (f a) Q s1) end. cbv beta iota zeta.
  set_owner. apply exec_get.
  - intros s2 o Hs2 Hv. pose proof (touched_trans _ _ _ _ Hs1 Hs2). apply (view_key _ _ _ _ _ Hs2) in Hv as [Hv Hko].
    eapply update_achieves; try done; [by intros o' Ho; eexists|].
    intros (? & [= <-] & Hd). cbn [sec_Data desiredConfigSecret]. rewrite <- Hd. by destruct o.
  - intros s2 e Hs2 Hv He. pose proof (touched_trans _ _ _ _ Hs1 Hs2). rewrite He. cbn [negb].
    rewrite <- (touched_nil _ _ _ _ Hs2) in Hv.
    create_object. by intros o' Ho; eexists.
Qed.

Lemma exec_cleanupConfigSecret server text s :
  user_groups_mode server = false →
  exec (cleanupConfigSecret server) (achieved None [config_target server text] s) s.
Proof.
  intros Em. unfold cleanupConfigSecret, config_target. rewrite Em. read_object.
  - eapply delete_achieves; try done. intros Hg. by apply Hg.
  - unfold IgnoreNotFound. rewrite Herr. eapply keep_achieves; [done|]. intros e' He'. unfold config_nn in He'. congruence.
Qed.

Lemma exec_annotationHash server s :
  passwords_stored server s →
  exec (annotationHash server) (achieved (inl (password_hash server s)) [config_target server (config_text server s)] s) s.
Proof.
  intros Hp. unfold annotationHash. destruct (user_groups_mode server) eqn:Em.
  - eapply wp_bind_intro; [by apply exec_reconcileConfigSecret|]. by intros s' o (-> & ?).
  - eapply wp_bind_intro; [by apply (exec_cleanupConfigSecret server (config_text server s))|].
    intros s1 o (-> & Hr). pose proof Hr as (Hm & Ht & Hn). cbn [bind_post].
    unfold passwords_stored in Hp. rewrite Em in Hp. unfold password_hash. rewrite Em.
    destruct (sp_ServerPasswordSecretRef _) as [ref|]; [|done].
    destruct (Hp ref eq_refl) as (Hne & sec & Hv & v & Hk).
    assert (view s1 KSecret (NN (es_Namespace server) (sks_Name ref)) = Some sec) as Hv1.
    { rewrite Ht; [done|]. cbn. intros [[= ?]|Hx]%elem_of_cons; [done|]. set_solver. }
    apply exec_get; [|congruence]. intros s2 o Hs2 Hv2. simplify_eq. rewrite Hk.
    unfold secret_text. rewrite Hv. unfold secret_value. rewrite Hk. split; [done|]. split_and!; [| |].
    + by apply (met_same _ s1).
    + eapply touched_trans; [done|]. eapply (touched_sub []); [set_solver|done].
    + intros Hs. eapply touched_trans; [by apply Hn|done].
Qed.

(** ** Status *)

(** The status says what the StatefulSet is like, for this generation. *)
Definition status_current (server : EnshroudedServer) (sts : StatefulSet) : Prop :=
  let st := es_Status server in
  let '(phase, (rs, rr, rm)) := classifyStatefulSet (sts_Status sts) in
  st_Phase st = phase ∧ st_ReadyReplicas st = sts_ReadyReplicas (sts_Status sts) ∧ st_UpdateDeferred st = false
  ∧ (∃ c, find_condition ConditionReady (st_Conditions st) = Some c ∧ cond_Status c = rs ∧ cond_Reason c = rr
      ∧ cond_Message c = rm ∧ cond_ObservedGeneration c = om_Generation (es_Meta server))
  ∧ find_condition ConditionUpdateDeferred (st_Conditions st) = None.

Lemma newStatus_current t rv server sts :
  let '(phase, ready) := classifyStatefulSet (sts_Status sts) in
  status_current (MkEnshroudedServer (set_version rv (es_Meta server)) (es_Spec server)
    (newStatus t server phase (sts_ReadyReplicas (sts_Status sts)) ready false)) sts.
Proof.
  unfold status_current, newStatus. destruct (classifyStatefulSet _) as [phase [[rs rr] rm]].
  cbn [es_Status es_Meta st_Phase st_ReadyReplicas st_UpdateDeferred st_Conditions].
  split_and!; try done; [|apply remove_condition_same].
  set (c := MkCondition _ _ _ _ _ _). destruct (set_condition_same t (st_Conditions (es_Status server)) c)
    as (c' & Hc & H1 & H2 & H3 & H4).
  exists c'. rewrite remove_condition_other by done. done.
Qed.

Lemma newStatus_fixed t server sts :
  status_current server sts →
  let '(phase, ready) := classifyStatefulSet (sts_Status sts) in
  newStatus t server phase (sts_ReadyReplicas (sts_Status sts)) ready false = es_Status server.
Proof.
  unfold status_current, newStatus. destruct (classifyStatefulSet _) as [phase [[rs rr] rm]].
  intros (H1 & H2 & H3 & (c & Hc & Hs & Hr & Hm & Hg) & Hu). rewrite <- H1, <- H2.
  rewrite (set_condition_id _ _ _ c) by done. rewrite remove_condition_id by done.
  rewrite <- H3. by destruct (es_Status server).
Qed.

(** The stored server after a status write. *)
Definition with_status (rv : string) (st : EnshroudedServerStatus) (server : EnshroudedServer) : EnshroudedServer :=
  MkEnshroudedServer (set_version rv (es_Meta server)) (es_Spec server) st.

Lemma exec_updateStatus server sts w s :
  view s KServer (server_nn server) = Some server → view s KStatefulSet (server_nn server) = Some sts →
  exec (updateStatus server false w) (λ s' o, o = Returns None
    ∧ (∃ rv t, let '(phase, ready) := classifyStatefulSet (sts_Status sts) in
        let new := with_status rv (newStatus t server phase (sts_ReadyReplicas (sts_Status sts)) ready false) server in
        view s' KServer (server_nn server) = Some new ∧ status_current new sts)
    ∧ touched [(KServer, server_nn server)] s s' ∧ (status_current server sts → touched [] s s')) s.
Proof.
  intros Hv Hsts. unfold updateStatus. apply exec_get; [|congruence]. intros s1 o Hs1 Ho.
  assert (o = sts) as -> by congruence.
  pose proof (λ t rv, newStatus_current t rv server sts) as Hcur. pose proof (λ t, newStatus_fixed t server sts) as Hfix.
  destruct (classifyStatefulSet (sts_Status sts)) as [phase ready].
  unfold publishStatus. apply exec_now. intros t s2 _ Hs2. pose proof (touched_trans _ _ _ _ Hs1 Hs2) as H02.
  split; [done|]. intros x s3 Hx. apply (api_status N (clock := clock) _ _ server) in Hx as (rv & -> & Hid & Hv3 & Ht);
    [|change (view s2 KServer (server_nn server) = Some server); by rewrite (touched_nil s s2)|done].
  cbn [mbind prog_bind bind]. split; [done|]. intros [] s4 Hx. apply (api_publish N (clock := clock)) in Hx as H34.
  split_and!; [done| | |].
  - exists rv, t. cbv zeta. split; [|apply Hcur]. rewrite (touched_nil s3 s4) by done. exact Hv3.
  - intros k nn Hn. rewrite (touched_nil s3 s4), Ht, (touched_nil s s2); done.
  - intros Hc. eapply touched_trans; [exact H02|]. eapply touched_trans; [|exact H34].
    eapply touched_same; [exact Ht|]. rewrite (touched_nil s s2) by done.
    change (meta_key _) with (server_nn server) in Hv3 |- *. rewrite Hv3, Hv. f_equal. apply Hid. cbn. by apply Hfix.
Qed.

(** ** The whole reconciliation *)

(** A live server without scheduled snapshots, pre-update snapshots and vertical
    scaling, whose Secrets exist and whose update nothing defers. *)
Record manageable (server : EnshroudedServer) (s : N) : Prop := {
  mg_live : om_DeletionTimestamp (es_Meta server) = None;
  mg_scaling : vsc_Enabled (sp_VerticalScaling (es_Spec server)) = false;
  mg_backup : vsb_Enabled (bk_VolumeSnapshot (sp_Backup (es_Spec server))) = false;
  mg_strategy : or_str (up_UpgradeStrategy (sp_UpdatePolicy (es_Spec server))) UpgradeStrategyNoSnapshot
                = UpgradeStrategyNoSnapshot;
  mg_quiet : quiet server clock;
  mg_passwords : passwords_stored server s
}.

(** Everything the server owns, for a configuration text and a hash. *)
Definition early_targets (server : EnshroudedServer) : list target :=
  [pvc_target server] ++ rbac_targets server ++ [budget_target server; vpa_target server; netpol_target server].
Definition targets (server : EnshroudedServer) (text hash : string) : list target :=
  [config_target server text] ++ early_targets server ++ [sts_target server hash; service_target server].

(** The cluster is what the stored server asks for, and its status says so. *)
Definition settled (server : EnshroudedServer) (s : N) : Prop :=
  ContainsFinalizer (es_Meta server) finalizerName = true
  ∧ Forall (met s) (targets server (config_text server s) (password_hash server s))
  ∧ ∃ sts, view s KStatefulSet (server_nn server) = Some sts ∧ status_current server sts.

Lemma early_establishes server s :
  manageable server s →
  establishes (reconcilePVC server ;;? reconcileMetricsSidecarRBAC server ;;? reconcilePDB server ;;?
    reconcileVPA server ;;? applyVPARecommendation server ;;? reconcileNetworkPolicy server) (early_targets server).
Proof.
  intros [_ Hv _ _ Hq _]. unfold early_targets.
  apply establishes_and_then; [apply reconcilePVC_establishes| |unfold rbac_targets; destruct (ms_Enabled _); set_solver].
  apply establishes_and_then; [apply reconcileMetricsSidecarRBAC_establishes| |
    unfold rbac_targets; destruct (ms_Enabled _); set_solver].
  apply (establishes_and_then _ _ [_] [_; _]); [by apply reconcilePDB_establishes| |set_solver].
  apply (establishes_and_then _ _ [_] [_]); [by apply reconcileVPA_establishes| |set_solver].
  apply (establishes_and_then _ _ [] [_]); [by apply applyVPARecommendation_establishes| |set_solver].
  apply reconcileNetworkPolicy_establishes.
Qed.

Lemma targets_secret server text hash nn :
  (KSecret, nn) ∈ keys (targets server text hash) → nn = config_nn server.
Proof.
  unfold targets, early_targets, rbac_targets. destruct (ms_Enabled _); cbn; set_solver.
Qed.
Lemma targets_server server text hash nn : (KServer, nn) ∉ keys (targets server text hash).
Proof.
  unfold targets, early_targets, rbac_targets. destruct (ms_Enabled _); cbn; set_solver.
Qed.

(** Up to the status, everything is in place. *)
Lemma exec_objects fuel server s Q :
  manageable server s →
  (∀ s', reached (targets server (config_text server s) (password_hash server s)) s s' →
     exec (b ← isInMaintenanceWindow (up_MaintenanceWindows (sp_UpdatePolicy (es_Spec server)));
           updateStatus server false b) (λ s o, match o with
             | Returns None => Q s (Returns (no_requeue, None))
             | Returns (Some e) => Q s (Returns (no_requeue, Some e))
             | Panics m => Q s (Panics m)
             | Exhausted => Q s Exhausted end) s') →
  exec (reconcileLive fuel server) Q s.
Proof.
  intros Hm HQ. unfold reconcileLive.
  eapply wp_bind_intro; [by apply exec_annotationHash, Hm|]. intros s1 o [-> H1]. cbn [bind_post].
  eapply wp_bind_intro; [by eapply early_establishes|]. intros s2 o [-> H2]. cbn [bind_post].
  unfold finishReconcile. apply exec_playersProtected; [apply Hm|]. intros s3 H3. apply wp_bind.
  eapply exec_and_then; [apply reconcileStatefulSet_establishes, Hm|]. intros s4 H4.
  eapply exec_and_then; [apply reconcileService_establishes|]. intros s5 H5.
  eapply exec_and_then; [apply reconcileS3Sidecar_establishes|]. intros s6 H6.
  eapply exec_and_then; [apply reconcileVolumeSnapshot_establishes, Hm|]. intros s7 H7.
  eapply wp_mono; [|apply HQ]; [by intros s' [[e|]|m|]|].
  assert (∀ x, x ∈ keys (early_targets server) → x.1 ∉ [KSecret; KStatefulSet; KService]) as Hd.
  { unfold early_targets, rbac_targets. destruct (ms_Enabled _); cbn; set_solver. }
  unfold targets. eapply reached_app; [|exact H1|].
  { intros x Hx Hx'. unfold keys in Hx'. rewrite fmap_app in Hx'. apply elem_of_app in Hx' as [Hx'|Hx'].
    - apply Hd in Hx'. set_solver.
    - set_solver. }
  eapply reached_app; [|exact H2|]; [intros x Hx%Hd Hx'; set_solver|].
  eapply (reached_frame _ s2 s3 s5 s7); [done| |eapply touched_trans; [by apply H6|by apply H7]].
  by eapply (reached_app [_] [_]); [set_solver|..].
Qed.

Lemma settled_with_status server rv st s : 
  targets (with_status rv st server) = targets server ∧ config_text (with_status rv st server) s = config_text server s
  ∧ password_hash (with_status rv st server) s = password_hash server s.
Proof. done. Qed.

(** The outcome of a reconciliation of the live server that is stored. *)
Lemma exec_reconcileLive fuel server s :
  view s KServer (server_nn server) = Some server → manageable server s →
  ContainsFinalizer (es_Meta server) finalizerName = true →
  exec (reconcileLive fuel server) (λ s' o, o = Returns (no_requeue, None)
    ∧ (∃ new, view s' KServer (server_nn server) = Some new ∧ es_Spec new = es_Spec server
        ∧ settled new s' ∧ manageable new s')
    ∧ (settled server s → touched [] s s')) s.
Proof.
  intros Hv Hm Hf. apply exec_objects; [done|]. intros s1 (M1 & K1 & I1).
  apply exec_isInMaintenanceWindow. intros b s2 H12 _.
  assert (∀ nn, view s2 KServer nn = view s KServer nn) as Hsv.
  { intros nn. rewrite (touched_nil s1 s2), K1; [done|apply targets_server|done]. }
  assert (∃ sts, view s2 KStatefulSet (server_nn server) = Some sts) as [sts Hsts].
  { assert (met s1 (sts_target server (password_hash server s))) as (sts & Hsts & _).
    { rewrite Forall_forall in M1. apply M1. unfold targets. set_solver. }
    exists sts. rewrite (touched_nil s1 s2) by done. exact Hsts. }
  eapply wp_mono; [|by apply (exec_updateStatus server sts); [rewrite Hsv|]].
  intros s3 o (-> & Hnew & K3 & I3). cbv beta iota. split; [done|]. split.
  - assert (secrets_kept server s s3) as Hk.
    { intros nn Hnn. rewrite K3, (touched_nil s1 s2), K1; [done| |done|set_solver].
      intros Hin%targets_secret. done. }
    destruct (passwords_kept server s s3 (mg_passwords _ _ Hm) Hk) as (Hp & Hc & Hh).
    destruct Hnew as (rv & t & Hnew). destruct (classifyStatefulSet _) as [phase ready].
    destruct Hnew as [Hv3 Hcur]. eexists. split; [exact Hv3|]. split; [done|]. split.
    + split; [|split].
      * apply contains_finalizer_iff. by apply contains_finalizer_iff in Hf.
      * rewrite (proj1 (settled_with_status _ _ _ s3)).
        destruct (settled_with_status server rv (newStatus t server phase (sts_ReadyReplicas (sts_Status sts)) ready false) s3) as (_ & -> & ->).
        rewrite Hc, Hh. eapply met_touched; [exact K3| |by apply (met_same _ s1)].
        intros x Hx ->%list_elem_of_singleton. by apply targets_server in Hx.
      * exists sts. split; [|done]. change (server_nn (with_status _ _ server)) with (server_nn server).
        rewrite K3; [done|set_solver].
    + destruct ready as [[rs rr] rm]. destruct Hm. by split.
  - intros (_ & Hall & sts' & Hsts' & Hcur). specialize (I1 Hall).
    eapply touched_trans; [exact I1|]. eapply touched_trans; [exact H12|]. apply I3.
    rewrite (touched_nil s1 s2), (touched_nil s s1) in Hsts by done. congruence.
Qed.

(** The finalizer changes nothing the rest depends on. *)
Lemma manageable_with_finalizer rv server s s' :
  manageable server s → touched [(KServer, server_nn server)] s s' →
  manageable (MkEnshroudedServer (set_version rv (AddFinalizer (es_Meta server) finalizerName)) (es_Spec server)
    (es_Status server)) s'.
Proof.
  intros [H1 H2 H3 H4 H5 H6] Ht.
  destruct (add_finalizer_identity (es_Meta server) finalizerName) as (E1 & E2 & _ & _ & _ & E3 & _).
  split; try done; [by cbn; rewrite E3|].
  apply (passwords_kept server s s') in H6 as [H6 _]; [|intros nn _; apply Ht; set_solver].
  unfold passwords_stored, user_groups_mode, config_secret_name, es_Name, es_Namespace in *. cbn. by rewrite E1, E2.
Qed.

Lemma exec_Reconcile fuel req server s :
  view s KServer req = Some server → manageable server s →
  exec (Reconcile fuel req) (λ s' o, o = Returns (no_requeue, None)
    ∧ (∃ new, view s' KServer req = Some new ∧ es_Spec new = es_Spec server ∧ settled new s' ∧ manageable new s')
    ∧ (settled server s → touched [] s s')) s.
Proof.
  intros Hv Hm. pose proof (api_key N (clock := clock) _ _ _ _ Hv) as Hreq.
  change (server_nn server = req) in Hreq. subst req.
  unfold Reconcile. apply exec_get; [|congruence]. intros s1 o Hs1 Ho. assert (o = server) as -> by congruence.
  rewrite (mg_live _ _ Hm). cbn [time_ptr_IsZero negb].
  assert (view s1 KServer (server_nn server) = Some server) as Hv1 by (by rewrite (touched_nil s s1)).
  assert (manageable server s1) as Hm1.
  { destruct Hm. split; try done. by apply (passwords_kept server s s1); [|intros nn _; apply touched_nil]. }
  destruct (ContainsFinalizer _ _) eqn:Hf; cbn [negb].
  - eapply wp_mono; [|by apply exec_reconcileLive].
    intros s' o (-> & Hnew & Hid). split_and!; [done|done|]. intros (H1 & H2 & H3).
    eapply touched_trans; [exact Hs1|]. apply Hid.
    destruct (passwords_kept server s s1 (mg_passwords _ _ Hm)) as (_ & Hc & Hh); [intros nn _; by apply touched_nil|].
    split; [done|]. rewrite Hc, Hh, (touched_nil s s1) by done. split; [by apply (met_same _ s)|done].
  - split; [done|]. intros x s2 Hx.
    destruct (add_finalizer_identity (es_Meta server) finalizerName) as (E1 & E2 & _ & E3 & _ & E4 & _).
    assert (view s1 KServer (meta_key (AddFinalizer (es_Meta server) finalizerName)) = Some server) as Hk
      by (by rewrite meta_key_add_finalizer).
    assert (obj_version KServer (set_es_meta (AddFinalizer (es_Meta server) finalizerName) server)
      = obj_version KServer server) as Hrv by (cbn; by rewrite E3).
    destruct (api_update_server N (clock := clock) _ _ server _ _ Hx Hk Hrv) as (rv & ->).
    apply (api_update N (clock := clock) _ _ _ server) in Hx as (o' & [= <-] & _ & _ & Hv2 & Ht);
      [|done|done|unfold finalized; cbn; by rewrite E4, (mg_live _ _ Hm)].
    change (obj_key KServer _) with (meta_key (AddFinalizer (es_Meta server) finalizerName)) in Hv2, Ht.
    rewrite meta_key_add_finalizer in Hv2, Ht. cbn [mbind prog_bind bind].
    set (server1 := MkEnshroudedServer _ _ _) in *.
    assert (server_nn server1 = server_nn server) as Hnn.
    { unfold server_nn, es_Name, es_Namespace. cbn. by rewrite E1, E2. }
    eapply wp_mono; [|apply (exec_reconcileLive fuel server1)].
    + intros s' o (-> & Hnew & _). rewrite Hnn in Hnew. split_and!; [done|done|]. intros [Hc _]. congruence.
    + by rewrite Hnn.
    + by apply (manageable_with_finalizer rv server s1).
    + apply contains_finalizer_iff. cbn. apply add_finalizer_iff. by left.
Qed.


End Convergence.

(** ** Witnesses *)

Import Model.

(** A server with a password, in a cluster that holds nothing else. *)
Definition plain_server : EnshroudedServer :=
  MkEnshroudedServer (sample_meta [] None)
    (let spec := sample_spec (MkUpdatePolicySpec true [] "") no_backup None true no_vpa in
     MkEnshroudedServerSpec "Keep" (Some (MkSecretKeySelector "pw" "password" None)) 15637 27015 16 "" (sp_Image spec)
       (sp_Resources spec) (sp_Storage spec) [] (sp_UpdatePolicy spec) (sp_Backup spec) (sp_MetricsSidecar spec)
       (sp_VerticalScaling spec)) (sample_status 0).
Definition plain_secret : Secret := MkSecret (new_meta "pw" "games" ∅) {["password" := "hunter2"]}.
Definition plain_memory : memory :=
  put KServer sample_req (Some plain_server) (put KSecret (NN "games" "pw") (Some plain_secret) empty_memory).

Lemma plain_manageable : manageable (N := memory_env monday_noon) (clock := λ x, x = monday_noon) plain_server plain_memory.
Proof.
  split; try done; [by left|]. intros ref [= <-]. split; [done|]. exists plain_secret. split; [done|]. by eexists.
Qed.

Definition first_run := drive_state (serve monday_noon) (Reconcile 19 sample_req) plain_memory.

Lemma first_run_runs :
  runs (memory_env monday_noon) (Reconcile 19 sample_req) plain_memory first_run.1.1 first_run.1.2 first_run.2.
Proof. by apply drive_state_run. Qed.


Definition second_run := drive_state (serve monday_noon) (Reconcile 19 sample_req) first_run.1.2.

