(* ===== verification/Deletion.v ===== *)
(** * Deletion

    Against an API server that stores what it is given ([Cluster.v]), one run of
    [Reconcile] on a server marked for deletion lets it go, together with its
    savegame volume when the user asked for that, and touches nothing else. *)
From S2P Require Import Prelude GoStrings GoTime GoCodec Platform Instances Api Effects Kube Builders Config Cron Windows Backup Vpa Guards Controller Footprint Samples Safety Cluster Memory Targets.
Local Open Scope Z_scope.

Section Deletion.
Context {QO : QuantityOps} {UT : UnicodeTables} {TZ : TzDatabase} {MO : MetaOps} {UO : UnstructuredOps} {SO : SortOps}.
Context {ML : MetaLaws}.
Context {N : env KubeE} {SN : Storage N} {clock : Time → Prop} {SL : StorageLaws N clock}.

Definition volume_gone (server : EnshroudedServer) : target :=
  Target KPersistentVolumeClaim (pvc_nn server) (gone KPersistentVolumeClaim).

Lemma deletePVC_establishes server : establishes (N := N) (deletePVC server) [volume_gone server].
Proof.
  intros s. unfold deletePVC. read_object.
  - eapply delete_achieves; try done. intros Hg. by apply Hg.
  - eapply keep_achieves; [done|]. intros e' He'. unfold pvc_nn in He'. congruence.
Qed.

(** The volume according to [retainOnDelete], before the finalizer goes. *)
Definition volume_targets (server : EnshroudedServer) : list target :=
  if retainPVC server then [] else [volume_gone server].

Lemma volume_establishes server :
  establishes (N := N) (if negb (retainPVC server) then deletePVC server else nil_error) (volume_targets server).
Proof.
  unfold volume_targets. destruct (retainPVC server); cbn [negb]; [apply establishes_nil|apply deletePVC_establishes].
Qed.

(** The write that removes the finalizer. *)
Lemma finalizer_removed s server x s' :
  view s KServer (server_nn server) = Some server →
  env_step s (Update KServer (set_es_meta (RemoveFinalizer (es_Meta server) finalizerName) server) : KubeE) x s' →
  (∃ rv, x = Ok (MkEnshroudedServer (set_version rv (RemoveFinalizer (es_Meta server) finalizerName))
                  (es_Spec server) (es_Status server)))
  ∧ (∀ new, view s' KServer (server_nn server) = Some new → finalizerName ∉ om_Finalizers (es_Meta new))
  ∧ touched [(KServer, server_nn server)] s s'.
Proof.
  intros Hv Hx. set (o := set_es_meta _ server) in *.
  assert (view s KServer (meta_key (es_Meta o)) = Some server) as Hk by (cbn; by rewrite meta_key_remove_finalizer).
  destruct (remove_finalizer_identity (es_Meta server) finalizerName) as (_ & _ & _ & E & _).
  assert (obj_version KServer o = obj_version KServer server) as Hrv by (cbn; by rewrite E).
  destruct (api_update_server N (clock := clock) _ _ server _ _ Hx Hk Hrv) as (rv & Hok).
  assert (server_nn server = meta_key (es_Meta o)) as -> by (cbn; by rewrite meta_key_remove_finalizer).
  split; [by exists rv|]. destruct (finalized KServer o) eqn:Hf.
  - destruct (api_finalize N (clock := clock) _ _ server _ _ Hx Hk Hrv Hf) as [Hgone Ht].
    split; [|done]. intros new. by rewrite Hgone.
  - destruct (api_update N (clock := clock) _ KServer _ server _ _ Hx Hk Hrv Hf) as (o' & Hx' & _ & _ & Hv' & Ht).
    split; [|done]. intros new Hnew. assert (new = o') as -> by (cbn in Hv', Hnew; congruence).
    rewrite Hok in Hx'. injection Hx' as <-. cbn. rewrite remove_finalizer_iff. naive_solver.
Qed.

(** C6: one run of [Reconcile] on a server marked for deletion returns without
    error and removes its finalizer, so nothing of the operator keeps the object;
    the savegame volume is gone (or on its way) exactly when the user asked not to
    retain it, nothing else in the cluster changes, and the server's metrics are
    dropped last. *)
Theorem deletion_completes fuel req server s tr s' o :
  view s KServer req = Some server → deleting server = true → has_finalizer server = true →
  runs N (Reconcile fuel req) s tr s' o →
  o = Returns (no_requeue, None)
  ∧ (∀ new, view s' KServer req = Some new → finalizerName ∉ om_Finalizers (es_Meta new))
  ∧ (if retainPVC server
     then view s' KPersistentVolumeClaim (pvc_nn server) = view s KPersistentVolumeClaim (pvc_nn server)
     else gone KPersistentVolumeClaim (view s' KPersistentVolumeClaim (pvc_nn server)))
  ∧ (∀ k nn, (k, nn) ∉ [(KServer, req); (KPersistentVolumeClaim, pvc_nn server)] → view s' k nn = view s k nn)
  ∧ ∃ tr1, tr = tr1 ++ [Ev (E := KubeE) (DropMetrics (es_Namespace server) (es_Name server) (st_Phase (es_Status server))) ()].
Proof.
  intros Hv Hd Hf. pose proof (api_key N (clock := clock) _ _ _ _ Hv) as Hreq.
  change (server_nn server = req) in Hreq. subst req.
  intros (x & s1 & tr1 & Hx & -> & Hr). destruct (api_get N (clock := clock) _ _ _ _ _ Hx) as [Ht1 Hok].
  rewrite Hv in Hok. subst x. cbn in Hr. unfold deleting in Hd. rewrite Hd in Hr. unfold handleDeletion in Hr.
  unfold has_finalizer in Hf. rewrite Hf in Hr. cbn [negb] in Hr.
  apply runs_bind_inv in Hr as (tr2 & s2 & o2 & Hr2 & Hr).
  destruct (wp_sound _ _ _ _ _ _ _ _ (volume_establishes server s1) Hr2) as (-> & Hmet & Ht2 & _).
  destruct Hr as (tr3 & -> & Hr).
  assert (view s2 KServer (server_nn server) = Some server) as Hv2.
  { rewrite Ht2; [by rewrite (touched_nil s s1)|]. unfold volume_targets. destruct (retainPVC server); cbn; set_solver. }
  destruct Hr as (x3 & s3 & tr4 & Hx3 & -> & Hr).
  destruct (finalizer_removed s2 server x3 s3 Hv2 Hx3) as ((rv & ->) & Hnew & Ht3).
  cbn in Hr. destruct Hr as ([] & s4 & tr5 & Hx4 & -> & -> & -> & ->).
  apply (api_drop N (clock := clock)) in Hx4 as Ht4.
  destruct (remove_finalizer_identity (es_Meta server) finalizerName) as (E1 & E2 & _).
  split_and!; [done| | | |].
  - intros new. rewrite (touched_nil s3 s4) by done. apply Hnew.
  - rewrite (touched_nil s3 s4), Ht3 by (done || set_solver). unfold volume_targets in *.
    destruct (retainPVC server); [by rewrite (touched_nil s1 s2), (touched_nil s s1)|].
    by inversion Hmet.
  - intros k nn Hnn. rewrite (touched_nil s3 s4), Ht3, Ht2, (touched_nil s s1); try done; [|set_solver].
    unfold volume_targets. destruct (retainPVC server); cbn; set_solver.
  - eexists (_ :: tr2 ++ [_]). cbn. rewrite <- app_assoc. unfold es_Namespace, es_Name. cbn. rewrite E1, E2. done.
Qed.
End Deletion.

(** ** Witness *)

Import Model.

(** The doomed server with its volume, in memory. *)
Definition doomed_memory : memory :=
  put KServer sample_req (Some doomed_server)
    (put KPersistentVolumeClaim (pvc_nn doomed_server) (Some (desiredPVC doomed_server (q_zero : Z))) empty_memory).
Definition deletion_run := drive_state (serve monday_noon) (Reconcile 19 sample_req) doomed_memory.

Lemma deletion_completes_witness :
  deletion_run.2 = Returns (no_requeue, None)
  ∧ (∀ new, view (N := memory_env monday_noon) deletion_run.1.2 KServer sample_req = Some new →
       finalizerName ∉ om_Finalizers (es_Meta new))
  ∧ gone KPersistentVolumeClaim
      (view (N := memory_env monday_noon) deletion_run.1.2 KPersistentVolumeClaim (pvc_nn doomed_server))
  ∧ (∀ k nn, (k, nn) ∉ [(KServer, sample_req); (KPersistentVolumeClaim, pvc_nn doomed_server)] →
       view (N := memory_env monday_noon) deletion_run.1.2 k nn = view (N := memory_env monday_noon) doomed_memory k nn)
  ∧ ∃ tr1, deletion_run.1.1 = tr1 ++ [Ev (E := KubeE) (DropMetrics "games" "srv" EnshroudedServerPhaseRunning) ()].
Proof.
  apply (deletion_completes (N := memory_env monday_noon) (clock := λ x, x = monday_noon) 19 sample_req doomed_server
    doomed_memory deletion_run.1.1 deletion_run.1.2 deletion_run.2).
  - reflexivity.
  - reflexivity.
  - reflexivity.
  - exact (drive_state_runs (serve monday_noon) (Reconcile 19 sample_req) doomed_memory).
Defined.
