(* ===== verification/System.v ===== *)
(** * Operator, sidecar and users on one server object

    The two processes run at the same time and meet in the status of the
    EnshroudedServer.  Here they are interleaved call by call: the API server
    keeps the versions of the object, newest first; the operator reads from a
    cache that may lag behind, its writes carry the version they are based on and
    are refused when it is not the newest; the sidecar sends a merge patch, which
    applies the fields it changes to whatever is stored; users change spec and
    metadata.  Either process may be restarted at any point, and an answer may be
    lost after the write took effect. *)
From S2P Require Import Prelude GoStrings GoTime GoCodec Platform Instances Api Effects Kube Builders Config Cron Windows Backup Vpa Guards Controller Footprint Samples Safety A2S Sidecar SidecarTheory Cluster Divergences.
Local Open Scope Z_scope.

Section System.
Context {QO : QuantityOps} {UT : UnicodeTables} {TZ : TzDatabase} {MO : MetaOps} {UO : UnstructuredOps} {SO : SortOps}.
Context {GO : GaugeVecOps}.
Context (nn : NamespacedName) (hasClient : bool) (cfg : config).

(** ** The shared object *)

Definition version_of (v : EnshroudedServer) : string := om_ResourceVersion (es_Meta v).

(** [v] is stored on top of [cs]: under a version that was never used. *)
Definition commits (cs : list EnshroudedServer) (v : EnshroudedServer) : Prop :=
  (version_of v ∉ version_of <$> cs) ∧ meta_key (es_Meta v) = nn.

(** A write based on [o] that turns the newest version [cur] into [v]; it is
    refused if [o] carries another version, and the answer may be an error even
    if it took effect. *)
Definition server_write (effect : EnshroudedServer → EnshroudedServer → Prop) (o : EnshroudedServer)
    (cs cs' : list EnshroudedServer) (x : result EnshroudedServer) : Prop :=
  (cs' = cs ∧ ∃ e, x = Err e)
  ∨ ∃ cur rest v, cs = cur :: rest ∧ version_of o = version_of cur ∧ commits cs v ∧ effect cur v ∧ cs' = v :: cs
      ∧ (x = Ok v ∨ ∃ e, x = Err e).

(** [Update]: metadata and spec, not the status; [Status().Update]: the status. *)
Definition update_effect (o cur v : EnshroudedServer) : Prop :=
  ∃ rv, v = MkEnshroudedServer (set_version rv (es_Meta o)) (es_Spec o) (es_Status cur).
Definition status_effect (o cur v : EnshroudedServer) : Prop :=
  ∃ rv, v = MkEnshroudedServer (set_version rv (es_Meta cur)) (es_Spec cur) (es_Status o).

(** Objects of the observed server are versions that were stored. *)
Definition known (cs : list EnshroudedServer) : ∀ k, object k → Prop :=
  servers (λ v, meta_key (es_Meta v) = nn → v ∈ cs).

Definition operator_answers (cs : list EnshroudedServer) (c : KubeE) (cs' : list EnshroudedServer) : resp c → Prop :=
  match c return controller_resp c → Prop with
  | Update KServer o => λ x,
    if decide (meta_key (es_Meta o) = nn) then server_write (update_effect o) o cs cs' x
    else cs' = cs ∧ honest (λ _, True) (known cs) (Update KServer o) x
  | StatusUpdate o => λ x,
    if decide (meta_key (es_Meta o) = nn) then server_write (status_effect o) o cs cs' x
    else cs' = cs ∧ honest (λ _, True) (known cs) (StatusUpdate o) x
  | c => λ x, cs' = cs ∧ honest (λ _, True) (known cs) c x
  end.

(** The merge patch between [base] and [new]: the fields that differ. *)
Definition patched (base new cur : Z * string) : Z * string :=
  (if decide (base.1 = new.1) then cur.1 else new.1, if decide (base.2 = new.2) then cur.2 else new.2).
Definition report (v : EnshroudedServer) : Z * string := (st_ActivePlayers (es_Status v), st_GameVersion (es_Status v)).
Definition patch_effect (base new cur v : EnshroudedServer) : Prop :=
  ∃ rv, let r := patched (report base) (report new) (report cur) in
    v = MkEnshroudedServer (set_version rv (es_Meta cur)) (es_Spec cur) (es_Status (set_players r.1 r.2 cur)).

Definition sidecar_answers (cs : list EnshroudedServer) (c : SidecarE) (cs' : list EnshroudedServer) : resp c → Prop :=
  match c return sidecar_resp c → Prop with
  | GetServer _ => λ x, cs' = cs ∧ ∀ v, x = Ok v → v ∈ cs
  | PatchStatus base new => λ x,
    (cs' = cs ∧ ∃ e, x = Err e)
    ∨ ∃ cur rest v, cs = cur :: rest ∧ commits cs v ∧ patch_effect base new cur v ∧ cs' = v :: cs
  | _ => λ _, cs' = cs
  end.

(** A user or another controller: anything but the status. *)
Definition user_effect (cur v : EnshroudedServer) : Prop := es_Status v = es_Status cur.

(** ** The interleaved system *)

Record system := MkSystem {
  stored_versions : list EnshroudedServer;
  operator : prog KubeE (Result * option error);
  metrics_sidecar : prog SidecarE sidecar
}.

Inductive actor := Operator | Sidecar | User.

Definition operator_step (s s' : system) : Prop :=
  match operator s with
  | Vis c k => ∃ x cs', operator_answers (stored_versions s) c cs' x ∧ s' = MkSystem cs' (k x) (metrics_sidecar s)
  | _ => False
  end.
Definition sidecar_step (s s' : system) : Prop :=
  match metrics_sidecar s with
  | Vis c k => ∃ x cs', sidecar_answers (stored_versions s) c cs' x ∧ s' = MkSystem cs' (operator s) (k x)
  | _ => False
  end.

Inductive sys_step : system → actor → system → Prop :=
  | step_operator s s' : operator_step s s' → sys_step s Operator s'
  (** the next request, or the next life of the process *)
  | step_operator_restart s fuel req :
      sys_step s Operator (MkSystem (stored_versions s) (Reconcile fuel req) (metrics_sidecar s))
  | step_sidecar s s' : sidecar_step s s' → sys_step s Sidecar s'
  | step_sidecar_restart s fuel st :
      sys_step s Sidecar (MkSystem (stored_versions s) (operator s) (scrape fuel hasClient cfg st))
  | step_user s cur rest v :
      stored_versions s = cur :: rest → commits (stored_versions s) v → user_effect cur v →
      sys_step s User (MkSystem (v :: stored_versions s) (operator s) (metrics_sidecar s)).

Inductive reachable (v0 : EnshroudedServer) : system → Prop :=
  | reach_init fuel req fuel' st :
      meta_key (es_Meta v0) = nn →
      reachable v0 (MkSystem [v0] (Reconcile fuel req) (scrape fuel' hasClient cfg st))
  | reach_step s a s' : reachable v0 s → sys_step s a s' → reachable v0 s'.

(** The newest version. *)
Definition latest (v0 : EnshroudedServer) (s : system) : EnshroudedServer := default v0 (head (stored_versions s)).

(** ** The invariant *)

Section Invariant.
Context {ML : MetaLaws} {SL : SortLaws}.

(** Whatever is stored from now on, the processes call what they may call. *)
Definition operator_ok (cs : list EnshroudedServer) (p : prog KubeE (Result * option error)) : Prop :=
  ∀ L, cs ⊆ L → calls_only (honest (λ _, True) (known L)) (λ c, ∃ req, reconcile_call (λ _, True) (known L) req c) p.
Definition sidecar_ok (cs : list EnshroudedServer) (p : prog SidecarE sidecar) : Prop :=
  ∀ L, cs ⊆ L → calls_only (answers_server (λ v, v ∈ L)) (patch_allowed hasClient cfg (λ v, v ∈ L)) p.

Definition versions_ok (cs : list EnshroudedServer) : Prop :=
  cs ≠ [] ∧ NoDup (version_of <$> cs) ∧ Forall (λ v, meta_key (es_Meta v) = nn) cs.

Definition inv (s : system) : Prop :=
  versions_ok (stored_versions s) ∧ operator_ok (stored_versions s) (operator s)
  ∧ sidecar_ok (stored_versions s) (metrics_sidecar s).

Lemma versions_ok_cons cs v : versions_ok cs → commits cs v → versions_ok (v :: cs).
Proof. intros (H1 & H2 & H3) [Hc Hk]. split_and!; [done|by constructor|by constructor]. Qed.

(** Two stored versions with the same version are the same. *)
Lemma version_inj cs v w : versions_ok cs → v ∈ cs → w ∈ cs → version_of v = version_of w → v = w.
Proof.
  intros (_ & Hn & _) [i Hi]%list_elem_of_lookup [j Hj]%list_elem_of_lookup E.
  assert (i = j) as ->; [|congruence].
  eapply (NoDup_lookup _ _ _ (version_of v) Hn); rewrite list_lookup_fmap; [by rewrite Hi|by rewrite Hj, E].
Qed.

Lemma operator_ok_mono cs cs' p : cs ⊆ cs' → operator_ok cs p → operator_ok cs' p.
Proof. intros Hs H L HL. apply H. set_solver. Qed.
Lemma sidecar_ok_mono cs cs' p : cs ⊆ cs' → sidecar_ok cs p → sidecar_ok cs' p.
Proof. intros Hs H L HL. apply H. set_solver. Qed.

Lemma Reconcile_ok cs fuel req : operator_ok cs (Reconcile fuel req).
Proof.
  intros L _. apply (calls_only_weaken (honest (λ _, True) (known L)) _ (reconcile_call (λ _, True) (known L) req));
    [done|intros c Hc; by exists req|exact (Reconcile_calls _ _ fuel req)].
Qed.
Lemma scrape_ok cs fuel st : sidecar_ok cs (scrape fuel hasClient cfg st).
Proof. intros L _. apply scrape_calls. Qed.

(** ** One step of each party *)

Lemma known_mono cs L k o : cs ⊆ L → known cs k o → known L k o.
Proof. destruct k; try done. intros Hs Hk Hn. by apply Hs, Hk. Qed.

Lemma honest_mono (P P' : ∀ k, object k → Prop) (c : KubeE) x :
  (∀ k o, P k o → P' k o) → honest (λ _, True) P c x → honest (λ _, True) P' c x.
Proof. intros HP. destruct c; cbn; try done; intros H o' Ho; destruct (H o' Ho); eauto. Qed.

(** What the operator leaves of the version it wrote on top of. *)
Definition operator_wrote (cur v : EnshroudedServer) : Prop :=
  es_Spec v = es_Spec cur
  ∧ (es_Status v = es_Status cur ∨ es_Status v = error_status cur
     ∨ ∃ t phase replicas ready d, classified phase replicas ready ∧ es_Status v = newStatus t cur phase replicas ready d).

Lemma operator_wrote_report cur v : operator_wrote cur v → report v = report cur.
Proof.
  intros (_ & [H|[H|(t & phase & n & [[??]?] & d & _ & H)]]); unfold report; by rewrite H.
Qed.

(** Calls the specification allows that write the observed server are based on a
    stored version. *)
Definition based_on (L : list EnshroudedServer) (c : controller_call) : Prop :=
  match c with
  | Update k o => match k return object k → Prop with
    | KServer => λ o, meta_key (es_Meta o) = nn → ∃ w, w ∈ L ∧ version_of o = version_of w ∧ es_Spec o = es_Spec w
    | _ => λ _, True end o
  | StatusUpdate o => meta_key (es_Meta o) = nn → ∃ w, w ∈ L ∧ version_of o = version_of w ∧ operator_wrote w o
  | _ => True
  end.

Lemma reconcile_call_based L req c : reconcile_call (λ _, True) (known L) req c → based_on L c.
Proof.
  destruct 1 as [|w HP Hw Hd Hf|w c HP Hw Hd Hf Hdc|w c HP Hw Hm]; try done.
  - cbn. rewrite meta_key_add_finalizer. intros Hk. exists w. split_and!; [by apply HP| |done].
    by destruct (add_finalizer_identity (es_Meta w) finalizerName) as (_ & _ & _ & H & _).
  - destruct Hdc; try done. cbn. rewrite meta_key_remove_finalizer. intros Hk. exists w. split_and!; [by apply HP| |done].
    by destruct (remove_finalizer_identity (es_Meta w) finalizerName) as (_ & _ & _ & H & _).
  - destruct Hm as [| | | |t phase n ready d Ht Hcl| | | | | | | | | | | | | | | | | | | | | | | | |c Hv]; try done.
    + intros Hk. exists w. split_and!; [by apply HP|done|]. split; [done|]. right. right. by exists t, phase, n, ready, d.
    + intros Hk. exists w. split_and!; [by apply HP|done|]. split; [done|]. right. by left.
    + by destruct Hv.
Qed.

(** What a write of the operator does to the versions. *)
Lemma operator_effect cs c k x cs' :
  versions_ok cs → operator_ok cs (Vis c k) → operator_answers cs c cs' x →
  honest (λ _, True) (known cs') c x
  ∧ (cs' = cs ∨ ∃ cur rest v, cs = cur :: rest ∧ cs' = v :: cs ∧ commits cs v ∧ operator_wrote cur v).
Proof.
  intros Hv Hok Ha. destruct (Hok cs (reflexivity _)) as [[req Hc] _]. apply reconcile_call_based in Hc.
  destruct c as [| |kd o| |o| | | | | |]; try (destruct Ha as [-> Ha]; by auto).
  - destruct kd; try (destruct Ha as [-> Ha]; by auto). cbn in Ha. case_decide as Ek; [|destruct Ha as [-> Ha]; by auto].
    destruct Ha as [(-> & e & ->)|(cur & rest & v & -> & Hrv & Hcm & (rv & Hef) & -> & Hx)]; [by split; [|left]|].
    destruct (Hc Ek) as (w & Hw & Hvw & Hspec).
    assert (w = cur) as -> by (eapply version_inj; [done|done|by left|congruence]).
    split.
    + destruct Hx as [->|(e & ->)]; [|done]. intros o' [= <-]. split; [|intros _; by left].
      destruct Hcm as [_ Hkv]. cbn. congruence.
    + right. exists cur, rest, v. split_and!; try done. rewrite Hef. split; [done|by left].
  - cbn in Ha. case_decide as Ek; [|destruct Ha as [-> Ha]; by auto].
    destruct Ha as [(-> & e & ->)|(cur & rest & v & -> & Hrv & Hcm & (rv & Hef) & -> & Hx)]; [by split; [|left]|].
    destruct (Hc Ek) as (w & Hw & Hvw & Hop).
    assert (w = cur) as -> by (eapply version_inj; [done|done|by left|congruence]).
    split.
    + destruct Hx as [->|(e & ->)]; [|done]. intros o' [= <-]. rewrite Ek. apply Hcm.
    + right. exists cur, rest, v. split_and!; try done. rewrite Hef. split; [done|]. apply Hop.
Qed.

(** What a patch of the sidecar does. *)
Definition sidecar_wrote (cur v : EnshroudedServer) : Prop :=
  ∃ players version rv, v = MkEnshroudedServer (set_version rv (es_Meta cur)) (es_Spec cur)
      (es_Status (set_players players version cur))
    ∧ (players = st_ActivePlayers (es_Status cur) ∨ 0 ≤ players < 256).

Lemma sidecar_effect cs c k x cs' :
  sidecar_ok cs (Vis c k) → sidecar_answers cs c cs' x →
  answers_server (λ v, v ∈ cs') c x
  ∧ (cs' = cs ∨ ∃ cur rest v, cs = cur :: rest ∧ cs' = v :: cs ∧ commits cs v ∧ sidecar_wrote cur v).
Proof.
  intros Hok Ha. destruct (Hok cs (reflexivity _)) as [Hc _].
  destruct c; try (cbn in Ha; by auto); try (destruct Ha as [-> Ha]; by auto).
  split; [done|]. destruct Ha as [[-> _]|(cur & rest & v & -> & Hcm & (rv & Hv) & ->)]; [by left|].
  right. exists cur, rest, v. split_and!; try done. destruct Hc as (_ & _ & players & version & -> & Hp & _).
  eexists _, _, rv. split; [exact Hv|]. cbn. case_decide; [by left|by right].
Qed.

(** ** Preservation *)

Lemma inv_init v0 fuel req fuel' st :
  meta_key (es_Meta v0) = nn → inv (MkSystem [v0] (Reconcile fuel req) (scrape fuel' hasClient cfg st)).
Proof.
  intros Hk. split_and!; [| |apply scrape_ok].
  - split_and!; [done|apply NoDup_singleton|by apply Forall_singleton].
  - apply Reconcile_ok.
Qed.

(** A step leaves the versions alone or adds one, written by its actor. *)
Definition wrote (a : actor) : EnshroudedServer → EnshroudedServer → Prop :=
  match a with Operator => operator_wrote | Sidecar => sidecar_wrote | User => user_effect end.

Lemma step_inv s a s' :
  inv s → sys_step s a s' →
  inv s' ∧ (stored_versions s' = stored_versions s
    ∨ ∃ cur rest v, stored_versions s = cur :: rest ∧ stored_versions s' = v :: stored_versions s ∧ wrote a cur v).
Proof.
  intros (Hv & Ho & Hs) Hstep. destruct Hstep as [s s' Hop|s fuel req|s s' Hsc|s fuel st|s cur rest v Hcs Hcm Hu].
  - unfold operator_step in Hop. destruct (operator s) as [|c k| |]; try done. destruct Hop as (x & cs' & Ha & ->).
    destruct (operator_effect _ _ _ _ _ Hv Ho Ha) as [Hh Hcs]. cbn.
    assert (stored_versions s ⊆ cs') as Hsub by (destruct Hcs as [->|(? & ? & ? & _ & -> & _)]; set_solver).
    split.
    + split_and!; cbn.
      * destruct Hcs as [->|(? & ? & ? & _ & -> & ? & _)]; [done|by apply versions_ok_cons].
      * intros L HL. destruct (Ho L) as [_ Hk]; [set_solver|]. apply (Hk x ()).
        by eapply (honest_mono (known cs')); [intros; by eapply known_mono|].
      * by eapply sidecar_ok_mono.
    + destruct Hcs as [->|(cur & rest & v & -> & -> & _ & Hw)]; [by left|]. right. by exists cur, rest, v.
  - split; [|by left]. split_and!; [done|apply Reconcile_ok|done].
  - unfold sidecar_step in Hsc. destruct (metrics_sidecar s) as [|c k| |]; try done. destruct Hsc as (x & cs' & Ha & ->).
    destruct (sidecar_effect _ _ _ _ _ Hs Ha) as [Hh Hcs]. cbn.
    assert (stored_versions s ⊆ cs') as Hsub by (destruct Hcs as [->|(? & ? & ? & _ & -> & _)]; set_solver).
    split.
    + split_and!; cbn.
      * destruct Hcs as [->|(? & ? & ? & _ & -> & ? & _)]; [done|by apply versions_ok_cons].
      * by eapply operator_ok_mono.
      * intros L HL. destruct (Hs L) as [_ Hk]; [set_solver|]. apply (Hk x ()).
        destruct c; try done. cbn in *. intros sv Hsv. by apply HL, Hh.
    + destruct Hcs as [->|(cur & rest & v & -> & -> & _ & Hw)]; [by left|]. right. by exists cur, rest, v.
  - split; [|by left]. split_and!; [done|done|apply scrape_ok].
  - split; [|right; by exists cur, rest, v]. cbn. split_and!.
    + by apply versions_ok_cons.
    + eapply operator_ok_mono; [|exact Ho]. set_solver.
    + eapply sidecar_ok_mono; [|exact Hs]. set_solver.
Qed.

Lemma reachable_inv v0 s : reachable v0 s → inv s.
Proof. induction 1 as [|s a s' _ IH Hs]; [by apply inv_init|]. by apply (step_inv s a s'). Qed.

Lemma step_latest v0 s a s' :
  reachable v0 s → sys_step s a s' →
  latest v0 s' = latest v0 s ∨ wrote a (latest v0 s) (latest v0 s').
Proof.
  intros Hr Hs. destruct (step_inv s a s') as [_ H]; [by eapply reachable_inv|done|]. unfold latest.
  destruct H as [->|(cur & rest & v & -> & -> & Hw)]; [by left|by right].
Qed.

(** ** Who may change what *)

Definition operator_fields (v : EnshroudedServer) : string * Z * bool * list Condition :=
  let st := es_Status v in (st_Phase st, st_ReadyReplicas st, st_UpdateDeferred st, st_Conditions st).


(** ** Well-formed statuses *)

(** The schema of the status: a known phase, a player count a byte can hold, at
    most one condition of each type, and the deferral flag set exactly when its
    condition is there. *)
Record status_wf (st : EnshroudedServerStatus) : Prop := {
  wf_phase : st_Phase st ∈ [""; EnshroudedServerPhasePending; EnshroudedServerPhaseRunning;
                            EnshroudedServerPhaseUpdating; EnshroudedServerPhaseError];
  wf_players : 0 ≤ st_ActivePlayers st < 256;
  wf_conditions : NoDup (cond_Type <$> st_Conditions st);
  wf_deferred : st_UpdateDeferred st = true ↔ is_Some (find_condition ConditionUpdateDeferred (st_Conditions st))
}.

Lemma set_condition_nodup t l c :
  NoDup (cond_Type <$> l) → NoDup (cond_Type <$> SetStatusCondition t l c).
Proof.
  intros H. rewrite set_condition_types. case_decide; [done|]. apply NoDup_app. split_and!; [done| |apply NoDup_singleton].
  set_solver.
Qed.
Lemma remove_condition_nodup l t : NoDup (cond_Type <$> l) → NoDup (cond_Type <$> RemoveStatusCondition l t).
Proof. intros H. rewrite remove_condition_types. by apply NoDup_filter. Qed.

Lemma classified_phase phase n ready :
  classified phase n ready → phase ∈ [EnshroudedServerPhasePending; EnshroudedServerPhaseRunning; EnshroudedServerPhaseUpdating].
Proof.
  intros [(-> & _)|(st & _ & H)]; [set_solver|]. unfold classifyStatefulSet in H.
  repeat case_match; simplify_eq; set_solver.
Qed.

Lemma newStatus_wf t cur phase n ready d :
  classified phase n ready → status_wf (es_Status cur) → status_wf (newStatus t cur phase n ready d).
Proof.
  intros Hcl%classified_phase [_ Hp Hc _]. destruct ready as [[rs rr] rm]. unfold newStatus.
  split; cbn [st_Phase st_ActivePlayers st_Conditions st_UpdateDeferred].
  - set_solver.
  - done.
  - destruct d; [by do 2 apply set_condition_nodup|]. by apply remove_condition_nodup, set_condition_nodup.
  - destruct d.
    + split; [|done]. intros _. set (c := MkCondition ConditionUpdateDeferred _ _ _ _ _).
      set (l := SetStatusCondition _ _ (MkCondition ConditionReady _ _ _ _ _)).
      destruct (set_condition_same t l c) as (c' & Hc' & _). eexists. exact Hc'.
    + rewrite remove_condition_same. split; [done|by intros [? ?]].
Qed.

Lemma wrote_wf a cur v : wrote a cur v → status_wf (es_Status cur) → status_wf (es_Status v).
Proof.
  intros Hw Hwf. destruct a; cbn in Hw.
  - destruct Hw as [_ [->|[->|(t & phase & n & ready & d & Hcl & ->)]]]; [done| |by apply newStatus_wf].
    destruct Hwf. split; cbn; try done. set_solver.
  - destruct Hw as (players & version & rv & -> & Hp). destruct Hwf. split; cbn; try done.
    destruct Hp as [->|]; done.
  - unfold user_effect in Hw. by rewrite Hw.
Qed.

(** C8: in every interleaving the stored status stays well-formed: its phase is
    one of the API's, the player count fits a byte, conditions are unique by type,
    and the deferral flag agrees with its condition. *)
Theorem status_stays_well_formed v0 s :
  reachable v0 s → status_wf (es_Status v0) → status_wf (es_Status (latest v0 s)).
Proof.
  intros Hr Hwf. induction Hr as [|s a s' Hr IH Hs]; [done|].
  destruct (step_latest v0 s a s' Hr Hs) as [->|Hw]; [done|]. by eapply wrote_wf.
Qed.
End Invariant.

(** ** Uninterrupted runs are interleavings *)

(** What the sidecar sees of the system. *)
Definition sidecar_env : env SidecarE := Env SidecarE (list EnshroudedServer) (λ cs c x cs', sidecar_answers cs c cs' x).

Lemma reachable_sidecar_run v0 op (p : prog SidecarE sidecar) cs tr cs' o :
  runs sidecar_env p cs tr cs' o → reachable v0 (MkSystem cs op p) → ∃ p', reachable v0 (MkSystem cs' op p').
Proof.
  revert cs tr. induction p as [a|c k IH|m|]; intros cs tr Hr Hre.
  1, 3, 4: destruct Hr as (_ & -> & _); eauto.
  destruct Hr as (x & cs1 & tr' & Ha & _ & Hr). eapply IH; [exact Hr|].
  eapply reach_step; [exact Hre|]. apply step_sidecar. by exists x, cs1.
Qed.

(** Any call of an uninterrupted run of the operator can be its next one. *)
Lemma reachable_operator_call (I : list EnshroudedServer → Prop) f v0 sc (p : prog KubeE (Result * option error))
    cs tr cs' o tr1 c x tr2 :
  (∀ cs c x cs', I cs → f cs c x cs' → operator_answers cs c cs' x ∧ I cs') → I cs →
  runs (Env KubeE (list EnshroudedServer) f) p cs tr cs' o → tr = tr1 ++ Ev c x :: tr2 →
  reachable v0 (MkSystem cs p sc) → ∃ cs1 k, I cs1 ∧ reachable v0 (MkSystem cs1 (Vis c k) sc).
Proof.
  intros Hf. revert cs tr tr1. induction p as [a|c' k IH|m|]; intros cs tr tr1 HI Hr Htr Hre.
  1, 3, 4: destruct Hr as (-> & _); by destruct tr1.
  destruct Hr as (y & cs1 & tr' & Ha & -> & Hr). destruct (Hf _ _ _ _ HI Ha) as [Ho HI1]. destruct tr1 as [|e tr1].
  - injection Htr as Hc _. subst. by exists cs, k.
  - injection Htr as _ Htr. eapply IH; [exact HI1|exact Hr|exact Htr|]. eapply reach_step; [exact Hre|].
    apply step_operator. by exists y, cs1.
Qed.
End System.

(** ** Witnesses *)

Import Model.

Definition fresh_server : EnshroudedServer := set_es_status (sample_status 0) busy_server.
Definition patched_server (base new cur : EnshroudedServer) : EnshroudedServer :=
  let r := patched (report base) (report new) (report cur) in
  MkEnshroudedServer (set_version "8" (es_Meta cur)) (es_Spec cur) (es_Status (set_players r.1 r.2 cur)).

(** The game answers with three players; the API server stores the first patch
    as version 8. *)
Definition play (cs : list EnshroudedServer) (c : SidecarE) : resp c * list EnshroudedServer :=
  match c return sidecar_resp c * list EnshroudedServer with
  | ReadFrom => (Ok (response "World" "0.9.0" 3, server_addr), cs)
  | GetServer _ => (match cs with cur :: _ => Ok cur | [] => Err not_found end, cs)
  | PatchStatus base new =>
    match cs with
    | [cur] =>
      if decide (version_of cur ≠ "8" ∧ meta_key (es_Meta cur) = sample_req)
      then (Ok (), [patched_server base new cur; cur]) else (Err not_found, cs)
    | _ => (Err not_found, cs)
    end
  | c => ((network fresh_server [] c).1, cs)
  end.

Lemma play_answers cs c x cs' : play cs c = (x, cs') → sidecar_answers sample_req cs c cs' x.
Proof.
  destruct c; try by intros [= _ <-]. 
  - intros [= <- <-]. split; [done|]. destruct cs as [|cur rest]; [done|]. intros v [= <-]. by left.
  - cbn. destruct cs as [|cur [|]]; [by intros [= <- <-]; left; eauto| |by intros [= <- <-]; left; eauto].
    case_decide as E; intros [= <- <-]; [|left; eauto]. destruct E as [E1 E2]. right.
    exists cur, [], (patched_server base server cur). split_and!; [done| |by exists "8"|done].
    split; [|done]. cbn. set_solver.
Qed.

Definition sidecar_run := drive_state play (scrape 5 true sample_cfg initialSidecar) [fresh_server].

Lemma runs_weaken {E : effect} {S A} (I : S → Prop) (f g : S → ∀ c : E, resp c → S → Prop) (p : prog E A) s tr s' o :
  (∀ s c x s', I s → f s c x s' → g s c x s' ∧ I s') → I s →
  runs (Env E S f) p s tr s' o → runs (Env E S g) p s tr s' o.
Proof.
  intros Hfg. revert s tr. induction p as [a|c k IH|m|]; intros s tr HI; cbn; try done.
  intros (x & s1 & tr' & H1 & -> & H2). destruct (Hfg _ _ _ _ HI H1) as [Hg HI'].
  exists x, s1, tr'. split_and!; [done|done|by apply IH].
Qed.

(** The system after the sidecar reported, the operator about to start. *)
Lemma reported_reachable :
  ∃ p, reachable sample_req true sample_cfg fresh_server (MkSystem sidecar_run.1.2 (Reconcile 19 sample_req) p).
Proof.
  eapply (reachable_sidecar_run sample_req true sample_cfg fresh_server (Reconcile 19 sample_req)
    (scrape 5 true sample_cfg initialSidecar) [fresh_server]); [|by apply reach_init].
  eapply (runs_weaken (λ _, True)); [intros s c x s' _ H; split; [exact (play_answers _ _ _ _ H)|done]|done|].
  exact (drive_state_runs play (scrape 5 true sample_cfg initialSidecar) [fresh_server]).
Qed.

(** The version before the report is still stored. *)
Lemma play_keeps {A} (p : prog SidecarE A) cs v : v ∈ cs → v ∈ (drive_state play p cs).1.2.
Proof.
  revert cs. induction p as [a|c k IH|m|]; intros cs Hv; cbn [drive_state]; try done.
  destruct (play cs c) as [x cs1] eqn:E. assert (v ∈ cs1) as Hv1.
  { destruct c; try (injection E as _ <-; exact Hv); cbn in E; repeat case_match; simplify_eq; set_solver. }
  specialize (IH x cs1 Hv1). by destruct (drive_state play (k x) cs1) as [[??]?].
Qed.
Lemma fresh_stored : fresh_server ∈ sidecar_run.1.2.
Proof. apply play_keeps. left. Qed.


Lemma status_stays_well_formed_witness :
  ∃ s, reachable sample_req true sample_cfg fresh_server s
    ∧ report (latest fresh_server s) = (3, "0.9.0") ∧ status_wf (es_Status (latest fresh_server s)).
Proof.
  destruct reported_reachable as [p Hr]. eexists. split_and!; [exact Hr|vm_compute; reflexivity|].
  apply (status_stays_well_formed sample_req true sample_cfg fresh_server _ Hr).
  split; cbn; [set_solver|lia|apply NoDup_nil_2|]. split; [done|]. by intros [? ?].
Defined.

(** ** A limit of the deferral *)

(** The decision is taken on the version that was read: with a stale read the
    operator is about to create the StatefulSet although the stored status
    counts players. *)
Definition stale_answers (cs : list EnshroudedServer) (c : KubeE) : resp c * list EnshroudedServer :=
  match c return controller_resp c * list EnshroudedServer with
  | StatusUpdate _ => (Err (MkError ReasonConflict "conflict"), cs)
  | c => (empty_cluster fresh_server monday_noon c, cs)
  end.
Definition stale_run := drive_state stale_answers (Reconcile 19 sample_req) sidecar_run.1.2.

Lemma stale_answers_ok cs c x cs' :
  fresh_server ∈ cs → stale_answers cs c = (x, cs') → cs' = cs ∧ operator_answers sample_req cs c cs' x.
Proof.
  intros Hin. assert (∀ c, honest (λ _, True) (known sample_req cs) c (empty_cluster fresh_server monday_noon c)) as Hh.
  { intros c'. apply empty_cluster_honest; [done|by intros _|by intros []]. }
  destruct c as [| |k o| |o| | | | | |]; try (intros [= <- <-]; split; [done|]; split; [done|exact (Hh _)]).
  - destruct k; try (intros [= <- <-]; split; [done|]; split; [done|exact (Hh _)]).
    intros [= <- <-]. split; [done|]. cbn. case_decide; [|done]. left. eauto.
  - intros [= <- <-]. split; [done|]. cbn. case_decide; [|done]. left. eauto.
Qed.

Lemma stale_read_updates_busy_server :
  ∃ s c k, reachable sample_req true sample_cfg fresh_server s ∧ operator s = Vis c k
    ∧ (∀ x, writes_sts (Ev c x) = true) ∧ report (latest fresh_server s) = (3, "0.9.0")
    ∧ up_DeferWhilePlaying (sp_UpdatePolicy (es_Spec (latest fresh_server s))) = true.
Proof.
  destruct reported_reachable as [p Hr].
  assert (existsb writes_sts stale_run.1.1 = true) as (e & He & Hw)%existsb_exists by (vm_compute; reflexivity).
  apply in_split in He as (tr1 & tr2 & Htr). destruct e as [c x].
  destruct (reachable_operator_call sample_req true sample_cfg (λ cs, cs = sidecar_run.1.2)
    (λ cs c x cs', stale_answers cs c = (x, cs')) fresh_server p (Reconcile 19 sample_req) sidecar_run.1.2
    stale_run.1.1 stale_run.1.2 stale_run.2 tr1 c x tr2) as (cs1 & k & -> & Hr1).
  - intros cs c' x' cs' -> H. destruct (stale_answers_ok sidecar_run.1.2 c' x' cs') as [-> Ha];
      [exact fresh_stored|exact H|done].
  - done.
  - exact (drive_state_runs stale_answers (Reconcile 19 sample_req) sidecar_run.1.2).
  - exact Htr.
  - exact Hr.
  - eexists _, c, k. split_and!; [exact Hr1|done| |vm_compute; reflexivity|vm_compute; reflexivity].
    intros y. clear -Hw. by destruct c as [|[]|[]| | | | | | | |].
Qed.
