(* ===== verification/Events.v ===== *)
(** * Events that wake the controller

    [SetupWithManager] tells controller-runtime which objects to watch and how a
    change of one becomes requests to reconcile.  The handlers are its code, given
    by their documented behaviour; here they meet the objects [Reconcile] writes:
    every change of an object it owns comes back as a request for the server. *)
From S2P Require Import Prelude GoStrings GoTime Platform Instances Api Effects Kube Builders Config Cron Windows Backup Vpa Guards Controller Manager Footprint Samples Safety WindowTheory Cluster.
Local Open Scope Z_scope.

(** [handler.EnqueueRequestForObject] and [handler.EnqueueRequestForOwner] with
    [OnlyControllerOwner] for EnshroudedServers. *)
Class HandlerOps := {
  object_requests : ObjectMeta → list NamespacedName;
  owner_requests : ObjectMeta → list NamespacedName
}.
(** A changed object is requested itself; an object with a controller that is an
    EnshroudedServer requests that server, in the object's namespace. *)
Class HandlerLaws `{!HandlerOps, !MetaOps} : Prop := {
  object_requests_self m : object_requests m = [meta_key m];
  owner_requests_controller o m m' :
    SetControllerReference o m = Ok m' → NN (om_Namespace m') (om_Name o) ∈ owner_requests m';
  owner_requests_ext m m' :
    om_Namespace m' = om_Namespace m → om_OwnerReferences m' = om_OwnerReferences m →
    owner_requests m' = owner_requests m
}.

Section Events.
Context {QO : QuantityOps} {HO : HandlerOps}.

(** The requests one watch makes of a change of an object of kind [k]. *)
Definition watch_requests (k : kind) (m : ObjectMeta) (w : watch) : prog KubeE (list NamespacedName) :=
  match w with
  | For k' => Ret (if decide (k = k') then object_requests m else [])
  | Owns k' => Ret (if decide (k = k') then owner_requests m else [])
  | Watches k' f => if decide (k = k') then f m else Ret []
  end.
Fixpoint all_requests (k : kind) (m : ObjectMeta) (ws : list watch) : prog KubeE (list NamespacedName) :=
  match ws with
  | [] => Ret []
  | w :: ws => r ← watch_requests k m w; rs ← all_requests k m ws; Ret (r ++ rs)
  end.
(** The requests of a change of an object with metadata [m]. *)
Definition event_requests (k : kind) (m : ObjectMeta) : prog KubeE (list NamespacedName) :=
  all_requests k m (cb_Watches controllerBuilder).

(** A request every run comes to, whatever the cache answers. *)
Definition requested (req : NamespacedName) (k : kind) (m : ObjectMeta) : Prop :=
  ∀ (M : env KubeE) s, wp M (λ _ _, True) (event_requests k m)
    (λ _ o, ∃ reqs, o = Returns reqs ∧ req ∈ reqs) s.

Definition owned_kind (k : kind) : bool :=
  match k with
  | KStatefulSet | KService | KNetworkPolicy | KServiceAccount | KRole | KRoleBinding | KPodDisruptionBudget => true
  | _ => false
  end.

Section Laws.
Context {MO : MetaOps} {HL : HandlerLaws}.

(** Metadata of a later version of an object: its owners are still the same. *)
Definition later (m m' : ObjectMeta) : Prop :=
  om_Namespace m' = om_Namespace m ∧ om_OwnerReferences m' = om_OwnerReferences m.

Lemma owned_requested k o m m' m2 :
  owned_kind k = true → SetControllerReference o m = Ok m' → om_Namespace m' = om_Namespace o → later m' m2 →
  requested (meta_key o) k m2.
Proof.
  intros Hk Hset Hns [H1 H2] M s. pose proof (owner_requests_controller o m m' Hset) as Hin.
  rewrite Hns, <- (owner_requests_ext m' m2 H1 H2) in Hin.
  destruct k; try done; eexists; (split; [reflexivity|]); cbn; rewrite ?app_nil_r; exact Hin.
Qed.

Lemma server_requested m : requested (meta_key m) KServer m.
Proof. intros M s. eexists. split; [reflexivity|]. cbn. rewrite object_requests_self. left. Qed.
End Laws.

Context {UT : UnicodeTables} {TZ : TzDatabase} {MO : MetaOps} {UO : UnstructuredOps} {SO : SortOps}.
Context {ML : MetaLaws} {HL : HandlerLaws} {SL : SortLaws}.

(** A created object of an owned kind asks for [req] whenever it changes, and a
    change of the server itself does. *)
Definition wakes (req : NamespacedName) (c : controller_call) : Prop :=
  match c with
  | Create k o =>
    owned_kind k = true → ∃ m, obj_meta k o = Some m ∧ ∀ m', later m m' → requested req k m'
  | StatusUpdate o => requested req KServer (es_Meta o)
  | _ => True
  end.

Lemma owned_wakes k server m m' :
  owned server m m' → owned_kind k = true → om_Namespace m = es_Namespace server →
  ∀ m2, later m' m2 → requested (server_nn server) k m2.
Proof.
  intros Hm Hk Hns m2 Hl. destruct (set_controller_reference_identity _ _ _ Hm) as [(_ & Hn & _) _].
  apply (owned_requested k (es_Meta server) m m' m2 Hk Hm); [|done]. by rewrite Hn.
Qed.

Lemma may_call_wakes clock P server c : may_call clock P server c → wakes (server_nn server) c.
Proof.
  intros Hc. destruct Hc; cbn [wakes]; try done; try apply (server_requested (es_Meta server)); [..|by destruct H];
    intros Hk; eexists; (split; [reflexivity|]); (eapply owned_wakes; [eassumption|done|]); try done.
  by rewrite buildStatefulSet_meta.
Qed.

(** C30: changes of what the operator made wake it up again.  Whenever a run of
    [Reconcile] creates an object of a kind the controller owns (StatefulSet,
    Service, NetworkPolicy, ServiceAccount, Role, RoleBinding, budget), the watches
    set up by [SetupWithManager] turn every later change of it into a request for
    the same server; so does every status the run writes. *)
Theorem owned_changes_wake_controller clock P N fuel req s tr s' o :
  honest_env clock P N → runs N (Reconcile fuel req) s tr s' o →
  every_call (E := KubeE) (wakes req) tr.
Proof.
  intros HN Hr. eapply every_call_impl; [by eapply Reconcile_run|].
  intros c Hc. destruct Hc as [|server HP <-|server c HP <- Hd Hf Hc|server c HP <- Hc]; [done|done| |].
  - by destruct Hc.
  - exact (may_call_wakes _ _ _ _ Hc).
Qed.

(** The generated configuration Secret is not among them: its change wakes the
    controller only for servers that name it as a password Secret. *)
Lemma generated_secret_unwatched cluster N m s tr s' o :
  index_answers cluster N → (∀ server, server ∈ cluster → om_Name m ∉ allSecretRefs server) →
  runs N (event_requests KSecret m) s tr s' o → o = Returns [].
Proof.
  intros HN Hno. cbn. intros (x & s1 & tr1 & Hs & -> & Hr). pose proof (HN _ _ _ _ _ _ Hs eq_refl) as ->.
  destruct Hr as (_ & _ & ->). do 2 f_equal. rewrite app_nil_r. 
  rewrite !decide_False by done. 
  match goal with |- context [map server_nn ?l] => assert (l = []) as ->; [|done] end.
  apply elem_of_nil_inv. intros server (Hin & [_ H]%andb_true_iff)%list_elem_of_In%filter_In.
  apply bool_decide_eq_true in H. by apply (Hno server); [apply list_elem_of_In|].
Qed.
End Events.

(** ** Witnesses *)

Import Model.

#[local] Instance handler_ops : HandlerOps := {|
  object_requests m := [meta_key m];
  owner_requests m := (λ r, NN (om_Namespace m) (or_Name r)) <$> List.filter or_Controller (om_OwnerReferences m)
|}.
#[local] Instance handler_laws : HandlerLaws.
Proof.
  split; [done| |].
  - intros o m m' (r & Hr & Hn & _ & Hc)%set_controller_reference_owner. cbn. rewrite <- Hn.
    apply (list_elem_of_fmap_2 (λ r, NN (om_Namespace m') (or_Name r))), list_elem_of_In, filter_In.
    split; [by apply list_elem_of_In|done].
  - intros m m' H1 H2. cbn. by rewrite H1, H2.
Qed.

Lemma owned_changes_wake_controller_witness :
  every_call (E := KubeE) (wakes sample_req) busy_run.1
  ∧ some_call (λ c : KubeE, match c with Create KPodDisruptionBudget _ => True | _ => False end) busy_run.1.
Proof.
  split.
  - apply (owned_changes_wake_controller (λ _, True) (servers (λ s, s = busy_server))
      (sample_env (λ _, True) (servers (λ s, s = busy_server))) 19 sample_req () _ () busy_run.2).
    + apply sample_env_honest.
    + by apply sample_run.
  - repeat first [left; exact I|right].
Defined.
