(* ===== verification/Names.v ===== *)
(** * Names and labels the operator derives

    Kubernetes refuses objects whose names or label values are malformed or too
    long.  The operator derives all of them from the name of the server; here they
    are bounded, given that this name is a DNS label. *)
From S2P Require Import Prelude GoStrings GoTime GoConv Platform Instances Api Effects Kube Builders Config Cron Windows Backup Vpa Guards Controller Webhook Footprint Samples Safety Cluster.
From Stdlib Require Import Ascii.
Local Open Scope Z_scope.

(** ** The rules of Kubernetes *)

Definition lower_alnum (c : ascii) : bool := in_range 97 122 (bval c) || is_digit c.
Definition dns_char (c : ascii) : bool := lower_alnum c || (bval c =? 45).

(** The end of a name: lower case letters, digits and dashes up to a letter or
    digit; a name also starts with one. *)
Definition name_end (s : string) : bool :=
  forallb dns_char (bytes s) && match last (bytes s) with Some c => lower_alnum c | None => false end.
Definition dns_name (s : string) : bool :=
  match bytes s with c :: _ => lower_alnum c | [] => false end && name_end s.

(** RFC 1123 labels; and names of objects, which may be longer. *)
Definition dns_label (s : string) : bool := dns_name s && Nat.leb (String.length s) 63.
Definition object_name (s : string) : bool := dns_name s && Nat.leb (String.length s) 253.
(** A value of a label (lower case will do here). *)
Definition label_value (s : string) : bool := bool_decide (s = "") || dns_label s.

Lemma name_end_app s1 s2 : forallb dns_char (bytes s1) = true → name_end s2 = true → name_end (s1 +:+ s2) = true.
Proof.
  unfold name_end. rewrite bytes_app, forallb_app, !andb_true_iff. intros H1 [H2 H3]. split; [done|].
  rewrite last_app. by destruct (last (bytes s2)).
Qed.

Lemma dns_name_app s1 s2 : dns_name s1 = true → name_end s2 = true → dns_name (s1 +:+ s2) = true.
Proof.
  unfold dns_name at 1. intros [H1 [H2 _]%andb_true_iff]%andb_true_iff H3.
  apply andb_true_iff. split; [|by apply name_end_app]. rewrite bytes_app. by destruct (bytes s1).
Qed.

Lemma object_name_app n s :
  dns_label n = true → name_end s = true → (String.length s ≤ 190)%nat → object_name (n +:+ s) = true.
Proof.
  intros [H1 H2%Nat.leb_le]%andb_true_iff H3 H4. apply andb_true_iff. split; [by apply dns_name_app|].
  apply Nat.leb_le. rewrite str_length_app. lia.
Qed.

Lemma dns_label_object n : dns_label n = true → object_name n = true.
Proof.
  intros [H1 H2%Nat.leb_le]%andb_true_iff. apply andb_true_iff. split; [done|]. apply Nat.leb_le. lia.
Qed.

(** ** Decimal numbers *)

Lemma digits_name_end s : all_digits s = true → s ≠ "" → name_end s = true.
Proof.
  intros Hd Hne. assert (Forall (λ c, is_digit c = true) (bytes s)) as Hall by by apply all_digits_Forall.
  apply andb_true_iff. split.
  - apply forallb_forall. intros c Hc%list_elem_of_In. rewrite Forall_forall in Hall.
    unfold dns_char, lower_alnum. rewrite (Hall c Hc). by rewrite orb_true_r.
  - destruct (last (bytes s)) as [c|] eqn:E.
    + apply last_Some_elem_of in E. rewrite Forall_forall in Hall. unfold lower_alnum. rewrite (Hall c E).
      by rewrite orb_true_r.
    + apply last_None in E. by destruct s.
Qed.

Lemma pretty_N_go_length (k : nat) (x : N) s :
  (x < 10 ^ N.of_nat k)%N → (String.length (pretty_N_go x s) ≤ k + String.length s)%nat.
Proof.
  revert x s. induction k as [|k IH]; intros x s Hx.
  { assert (x = 0%N) as -> by (change (10 ^ N.of_nat 0)%N with 1%N in Hx; lia). by rewrite pretty_N_go_0. }
  destruct (decide (x = 0)%N) as [->|Hne]; [rewrite pretty_N_go_0; lia|].
  rewrite pretty_N_go_step by lia. etransitivity; [apply IH|cbn; lia].
  rewrite Nat2N.inj_succ, N.pow_succ_r' in Hx. apply N.Div0.div_lt_upper_bound. lia.
Qed.

Lemma itoa_length z : 0 ≤ z ≤ maxInt64 → (String.length (itoa z) ≤ 19)%nat.
Proof.
  intros Hz. rewrite itoa_pos by lia. unfold pretty, pretty_N. destruct (decide _); [cbn; lia|].
  etransitivity; [apply (pretty_N_go_length 19)|cbn; lia].
  change (10 ^ N.of_nat 19)%N with 10000000000000000000%N. unfold maxInt64 in Hz. lia.
Qed.

(** A name with a timestamp behind it. *)
Lemma stamped_name n mid u :
  dns_label n = true → forallb dns_char (bytes mid) = true → (String.length mid ≤ 100)%nat → 0 ≤ u ≤ maxInt64 →
  object_name (n +:+ mid +:+ itoa u) = true.
Proof.
  intros Hn Hm Hl Hu. apply object_name_app; [done| |].
  - apply name_end_app; [done|]. apply digits_name_end; [apply itoa_spec; lia|apply itoa_nonempty].
  - rewrite str_length_app. pose proof (itoa_length u Hu). lia.
Qed.

(** ** The objects of a server *)

Section Names.
Context {QO : QuantityOps} {UT : UnicodeTables} {TZ : TzDatabase} {MO : MetaOps} {UO : UnstructuredOps} {SO : SortOps}.

(** Labels of an object; the autoscaler, whose labels are part of its JSON, is
    left out. *)
Definition obj_labels (k : kind) : object k → LabelMap :=
  match k with
  | KVolumeSnapshot => u_GetLabels
  | KVerticalPodAutoscaler => λ _, ∅
  | k => λ o, from_option om_Labels ∅ (obj_meta k o)
  end.
Definition labels_ok (l : LabelMap) : Prop := map_Forall (λ _ v, label_value v = true) l.

Definition well_named (c : controller_call) : Prop :=
  match c with
  | Create k o =>
    object_name (nn_Name (obj_key k o)) = true
    ∧ (k = KService → dns_label (nn_Name (obj_key k o)) = true) ∧ labels_ok (obj_labels k o)
  | _ => True
  end.

Lemma labelsForServer_ok n : dns_label n = true → labels_ok (labelsForServer n).
Proof.
  intros Hn. unfold labelsForServer. repeat apply map_Forall_insert_2; try done.
  unfold label_value. by rewrite Hn, orb_true_r.
Qed.

Section Laws.
Context {ML : MetaLaws} {UL : UnstructuredLaws} {SL : SortLaws}.
Context (clock : Time → Prop) (P : ∀ k, object k → Prop).
Context (Hclock : ∀ t, clock t → 0 ≤ unix t ≤ maxInt64).

(** Metadata of a derived object. *)
Definition meta_ok (m : ObjectMeta) : Prop := object_name (om_Name m) = true ∧ labels_ok (om_Labels m).

Lemma owned_ok server m m' : owned server m m' → meta_ok m → meta_ok m'.
Proof.
  intros Hm [H1 H2]. destruct (set_controller_reference_identity _ _ _ Hm) as [(Hn & _ & _ & _ & _ & _ & Hl & _) _].
  unfold meta_ok. by rewrite Hn, Hl.
Qed.

Lemma derived_meta_ok server n s :
  dns_label (es_Name server) = true → n = es_Name server +:+ s → s = "" ∨ name_end s = true → (String.length s ≤ 190)%nat →
  meta_ok (new_meta n (es_Namespace server) (labelsForServer (es_Name server))).
Proof.
  intros Hn -> Hs Hl. split; [|by apply labelsForServer_ok]. cbn.
  destruct Hs as [->|Hs]; [rewrite str_app_nil_r; by apply dns_label_object|by apply object_name_app].
Qed.

Lemma snapshot_named server n l e1 e2 e3 snap :
  newSnapshot server n l e1 e2 e3 = Ok snap → object_name n = true → labels_ok l →
  well_named (Create KVolumeSnapshot snap).
Proof. intros (_ & Hn & Hl)%newSnapshot_meta H1 H2. cbn. by rewrite Hn, Hl. Qed.

Lemma snapshot_labels_ok server :
  dns_label (es_Name server) = true → labels_ok (snapshotLabels server) ∧ labels_ok (preUpdateLabels server).
Proof.
  intros Hn. assert (label_value (es_Name server) = true) by (unfold label_value; by rewrite Hn, orb_true_r).
  split; unfold snapshotLabels, preUpdateLabels; repeat apply map_Forall_insert_2; done.
Qed.

(** Every metadata the operator builds is one of these. *)
Definition suffixes : list string := [""; "-netpol"; "-metrics"; "-savegame"; "-config"].
Lemma suffix_meta_ok server s :
  dns_label (es_Name server) = true → s ∈ suffixes →
  meta_ok (new_meta (es_Name server +:+ s) (es_Namespace server) (labelsForServer (es_Name server))).
Proof.
  intros Hn Hs. assert (Forall (λ s, (s = "" ∨ name_end s = true) ∧ (String.length s ≤ 190)%nat) suffixes) as H.
  { repeat constructor; by (by left) || (by right) || (cbn; lia). }
  rewrite Forall_forall in H. destruct (H s Hs). by apply (derived_meta_ok server _ s).
Qed.

Lemma typed_named server k (o : object k) m s :
  k ≠ KService → dns_label (es_Name server) = true → obj_meta k o = Some m → s ∈ suffixes →
  owned server (new_meta (es_Name server +:+ s) (es_Namespace server) (labelsForServer (es_Name server))) m →
  well_named (Create k o).
Proof.
  intros Hk Hn Ho Hs Hm. apply owned_ok in Hm as [H1 H2]; [|by apply suffix_meta_ok].
  destruct k; cbn in Ho; try discriminate Ho; injection Ho as <-; split_and!; done.
Qed.

Lemma may_call_named server c :
  dns_label (es_Name server) = true → may_call clock P server c → well_named c.
Proof.
  intros Hn Hc. pose proof (snapshot_labels_ok server Hn) as [Hl1 Hl2].
  assert (∀ m l, owned server (new_meta (es_Name server) (es_Namespace server) l) m →
    owned server (new_meta (es_Name server +:+ "") (es_Namespace server) l) m) as Hnil.
  { intros m l. by rewrite str_app_nil_r. }
  assert (∀ s, s ∈ ["-netpol"; "-metrics"; "-savegame"; "-config"] → s ∈ suffixes) as Hsuf by (intros s; by right).
  destruct Hc; try done.
  - eapply (typed_named server KSecret _ m "-config"); try done. apply Hsuf. set_solver.
  - destruct (suffix_meta_ok server "-savegame" Hn) as [H1 H2]; [apply Hsuf; set_solver|]. done.
  - eapply (typed_named server KServiceAccount _ m "-metrics"); try done. apply Hsuf. set_solver.
  - eapply (typed_named server KRole _ m "-metrics"); try done. apply Hsuf. set_solver.
  - eapply (typed_named server KRoleBinding _ m "-metrics"); try done. apply Hsuf. set_solver.
  - eapply (typed_named server KPodDisruptionBudget _ m ""); try done; [left|by apply Hnil].
  - apply desiredVPA_key in H0. cbn [well_named obj_key]. rewrite H0. split_and!; [by apply dns_label_object|done|done].
  - eapply (typed_named server KNetworkPolicy _ m "-netpol"); try done. apply Hsuf. set_solver.
  - destruct (set_controller_reference_identity _ _ _ H) as [(H1 & _ & _ & _ & _ & _ & H2 & _) _].
    cbn. rewrite H1, H2. split_and!; [by apply dns_label_object|done|by apply labelsForServer_ok].
  - rewrite buildStatefulSet_meta in H1.
    eapply (typed_named server KStatefulSet _ m ""); try done; [left|by apply Hnil].
  - eapply snapshot_named; [done| |done]. apply stamped_name; [done|done|cbn; lia|by apply Hclock].
  - eapply snapshot_named; [done| |done]. apply stamped_name; [done|done|cbn; lia|by apply Hclock].
  - by destruct H.
Qed.
End Laws.

End Names.

(** ** Witness *)

Import Model.


(** The webhooks do not look at the name: a server whose name is too long to be a
    label value is admitted like any other. *)
Lemma admission_ignores_names `{!QuantityOps, !UnicodeTables} (m : ObjectMeta) (server : EnshroudedServer) :
  ValidateCreate (set_es_meta m server) = ValidateCreate server
  ∧ label_value (of_bytes (replicate 64 "a"%char)) = false ∧ label_value "my.server" = false.
Proof. split; [reflexivity|split; vm_compute; reflexivity]. Qed.
